(** * CEGS: the BGP propagation and partial-evaluation engine

    A shallow embedding of [tekton/graph.py] (the typed topology graph) and of
    [synet/synthesis/new_propagation.py] (class [EBGPPropagation]), followed by
    the properties of the specification that were checked against them.

    Conventions of the embedding.
    - Python exceptions are values of [exn]; a function that may raise returns
      a [result].  A mutating method that may raise returns the pair of its
      outcome and of the store it leaves behind.
    - A Python [dict] is an association list in insertion order with unique
      keys ([dict_set] overwrites in place, as CPython does).
    - A Python [set] that the code iterates over is a list without duplicates;
      its iteration order is the order of the list.
    - Node names and prefixes are strings, AS numbers are integers. *)

From stdpp Require Import strings.
From stdpp Require Import base numbers option list sorting.

Open Scope string_scope.
Open Scope Z_scope.
Open Scope nat_scope.
Open Scope list_scope.

(** ** Exceptions and results *)

(** tekton.bgp.Announcement: only the two fields that the propagation code
    reads ([ann.prefix], [ann.as_path]). *)
Record Announcement : Type := mkAnnouncement {
  prefix : string;
  ann_as_path : list Z
}.

(** A key that was looked up and not found. *)
Inductive key : Type :=
| KStr (s : string)
| KInt (z : Z)
| KPath (p : list string).

(** The text of an exception.  The one formatted message whose content a
    property depends on keeps its arguments. *)
Inductive message : Type :=
| Text (s : string)
| CouldntFindAnnouncement (net : string) (ann_source : string)
                          (current : list Announcement).

Inductive exn : Type :=
| ValueError (msg : message)
| AssertionError (msg : message)
| KeyError (k : key)
| IndexError
| AttributeError
| NetworkXError
| UnboundLocalError (name : string).

Inductive result (A : Type) : Type :=
| Ok (a : A)
| Raise (e : exn).
Arguments Ok {A} a.
Arguments Raise {A} e.

#[global] Instance result_ret : MRet result := fun A a => Ok a.
#[global] Instance result_bind : MBind result := fun A B f m =>
  match m with
  | Ok a => f a
  | Raise e => Raise e
  end.
#[global] Instance result_fmap : FMap result := fun A B f m =>
  match m with
  | Ok a => Ok (f a)
  | Raise e => Raise e
  end.

(** [assert cond, msg] *)
Definition py_assert (cond : bool) (msg : message) : result unit :=
  if cond then Ok tt else Raise (AssertionError msg).

(** A [for] loop whose body may raise, threading the loop state. *)
Fixpoint for_each {A S : Type} (xs : list A) (body : S → A → result S) (s : S)
  : result S :=
  match xs with
  | [] => Ok s
  | x :: xs' => s' ← body s x; for_each xs' body s'
  end.

(** ** Python dictionaries and sets *)

Section dict.
Context {K V : Type} `{EqDecision K}.

Fixpoint dict_get (d : list (K * V)) (k : K) : option V :=
  match d with
  | [] => None
  | (k', v) :: d' => if decide (k' = k) then Some v else dict_get d' k
  end.

Definition dict_has (d : list (K * V)) (k : K) : bool :=
  bool_decide (is_Some (dict_get d k)).

(** [d[k] = v] *)
Fixpoint dict_set (d : list (K * V)) (k : K) (v : V) : list (K * V) :=
  match d with
  | [] => [(k, v)]
  | (k', v') :: d' =>
      if decide (k' = k) then (k, v) :: d' else (k', v') :: dict_set d' k v
  end.

Definition dict_keys (d : list (K * V)) : list K := d.*1.

(** [d.update(e)] *)
Definition dict_update (d e : list (K * V)) : list (K * V) :=
  foldl (fun acc kv => dict_set acc kv.1 kv.2) d e.
End dict.

Section pyset.
Context {A : Type} `{EqDecision A}.

(** [s.add(x)] *)
Definition set_add (s : list A) (x : A) : list A :=
  if decide (x ∈ s) then s else s ++ [x].

(** [s.union(t)] *)
Definition set_union (s t : list A) : list A := foldl set_add s t.

(** [set(xs)] *)
Definition set_of_list (xs : list A) : list A := foldl set_add [] xs.

(** [l.remove(x)]: removes the first occurrence, [None] (a ValueError) when
    there is none. *)
Fixpoint list_remove (x : A) (l : list A) : option (list A) :=
  match l with
  | [] => None
  | y :: l' => if decide (y = x) then Some l' else (y ::.) <$> list_remove x l'
  end.
End pyset.

(** [l[-1]] *)
Definition py_last {A : Type} (l : list A) : result A :=
  match list.last l with
  | Some x => Ok x
  | None => Raise IndexError
  end.

(** [l[0]] *)
Definition py_first {A : Type} (l : list A) : result A :=
  match l with
  | x :: _ => Ok x
  | [] => Raise IndexError
  end.

(** ** tekton/graph.py: the typed topology graph *)

Definition VERTEX_TYPE : string := "VERTEX_TYPE".
Definition EDGE_TYPE : string := "EDGE_TYPE".

Inductive VERTEXTYPE : Type := ROUTER | NETWORK | PEER.
Inductive EDGETYPE : Type := ROUTER_EDGE | NETWORK_EDGE | PEER_EDGE.

#[global] Instance VERTEXTYPE_eq_dec : EqDecision VERTEXTYPE.
Proof. solve_decision. Defined.
#[global] Instance EDGETYPE_eq_dec : EqDecision EDGETYPE.
Proof. solve_decision. Defined.

(** The dictionary stored under the node attribute ['bgp']: the AS number,
    the BGP neighbours (the keys of the neighbour map, in insertion order; the
    per-neighbour interface and description are not read by the propagation
    code) and the advertisements of [get_bgp_advertise]. *)
Record BGPAttrs : Type := mkBGPAttrs {
  asnum : option Z;
  neighbors : list string;
  advertise : list Announcement
}.

(** A value of a node or edge attribute dictionary. *)
Inductive value : Type :=
| VVertex (t : VERTEXTYPE)
| VEdge (t : EDGETYPE)
| VBgp (b : BGPAttrs)
| VOther (s : string).

Definition attrs : Type := list (string * value).

(** networkx.DiGraph: the node dictionary and the adjacency, one entry per
    directed edge in insertion order (so that the successors of a node come
    out in the order networkx yields them). *)
Record NetworkGraph : Type := mkNetworkGraph {
  _node : list (string * attrs);
  _adj : list ((string * string) * attrs)
}.

Definition has_node (g : NetworkGraph) (n : string) : bool := dict_has (_node g) n.
Definition has_edge (g : NetworkGraph) (u v : string) : bool := dict_has (_adj g) (u, v).
Definition nodes (g : NetworkGraph) : list string := dict_keys (_node g).

(** [G.neighbors(n)]: the successors of [n]; networkx raises for a name that
    is not a node. *)
Definition graph_neighbors (g : NetworkGraph) (n : string) : result (list string) :=
  if has_node g n
  then Ok (snd <$> filter (fun e => e.1 = n) (dict_keys (_adj g)))
  else Raise NetworkXError.

(** networkx [DiGraph.add_node(n, **attr)] *)
Definition nx_add_node (n : string) (attr : attrs) (g : NetworkGraph) : NetworkGraph :=
  match dict_get (_node g) n with
  | None => mkNetworkGraph (_node g ++ [(n, dict_update [] attr)]) (_adj g)
  | Some old => mkNetworkGraph (dict_set (_node g) n (dict_update old attr)) (_adj g)
  end.

(** networkx [DiGraph.add_edge(u, v, **attr)]: an endpoint that is not a node
    yet is created with no attribute. *)
Definition nx_add_edge (u v : string) (attr : attrs) (g : NetworkGraph) : NetworkGraph :=
  let g1 := if has_node g u then g else mkNetworkGraph (_node g ++ [(u, [])]) (_adj g) in
  let g2 := if has_node g1 v then g1 else mkNetworkGraph (_node g1 ++ [(v, [])]) (_adj g1) in
  let datadict := default [] (dict_get (_adj g2) (u, v)) in
  mkNetworkGraph (_node g2) (dict_set (_adj g2) (u, v) (dict_update datadict attr)).

(** [NetworkGraph.add_node(n, **attr)] *)
Definition add_node (n : string) (attr : attrs) (g : NetworkGraph)
  : result unit * NetworkGraph :=
  let type_set := dict_has attr VERTEX_TYPE in
  if negb type_set
  then (Raise (ValueError (Text "Cannot add directly nodes, must use add_router, add_peer etc..")), g)
  else (Ok tt, nx_add_node n attr g).

Definition add_router (router : string) : NetworkGraph → result unit * NetworkGraph :=
  add_node router [(VERTEX_TYPE, VVertex ROUTER)].
Definition add_peer (router : string) : NetworkGraph → result unit * NetworkGraph :=
  add_node router [(VERTEX_TYPE, VVertex PEER)].
Definition add_network (network : string) : NetworkGraph → result unit * NetworkGraph :=
  add_node network [(VERTEX_TYPE, VVertex NETWORK)].

(** [self._node[node][VERTEX_TYPE] == t] *)
Definition vertex_type_is (g : NetworkGraph) (node : string) (t : VERTEXTYPE) : result bool :=
  match dict_get (_node g) node with
  | None => Raise (KeyError (KStr node))
  | Some a =>
      match dict_get a VERTEX_TYPE with
      | None => Raise (KeyError (KStr VERTEX_TYPE))
      | Some (VVertex t') => Ok (bool_decide (t' = t))
      | Some _ => Ok false
      end
  end.

Definition is_peer (g : NetworkGraph) (node : string) : result bool :=
  if negb (has_node g node) then Ok false else vertex_type_is g node PEER.

Definition is_local_router (g : NetworkGraph) (node : string) : result bool :=
  if negb (has_node g node) then Ok false else vertex_type_is g node ROUTER.

Definition is_network (g : NetworkGraph) (node : string) : result bool :=
  if negb (has_node g node) then Ok false else vertex_type_is g node NETWORK.

(** [self.is_peer(node) or self.is_local_router(node)] *)
Definition is_router (g : NetworkGraph) (node : string) : result bool :=
  p ← is_peer g node;
  if p : bool then Ok true else is_local_router g node.

(** [routers_iter], [local_routers_iter], [peers_iter], [networks_iter] *)
Definition nodes_such_that (test : NetworkGraph → string → result bool)
    (g : NetworkGraph) : result (list string) :=
  for_each (nodes g)
    (fun acc n => b ← test g n; Ok (if b : bool then acc ++ [n] else acc)) [].

Definition routers_iter : NetworkGraph → result (list string) := nodes_such_that is_router.
Definition local_routers_iter : NetworkGraph → result (list string) := nodes_such_that is_local_router.
Definition peers_iter : NetworkGraph → result (list string) := nodes_such_that is_peer.
Definition networks_iter : NetworkGraph → result (list string) := nodes_such_that is_network.

(** [NetworkGraph.add_edge(u, v, **attr)] *)
Definition add_edge (u v : string) (attr : attrs) (g : NetworkGraph)
  : result unit * NetworkGraph :=
  let type_set := dict_has attr EDGE_TYPE in
  if negb type_set
  then (Raise (ValueError (Text "Cannot add directly edges, must use add_router_edge, add_peer_edge etc..")), g)
  else (Ok tt, nx_add_edge u v attr g).

(** A check that precedes the mutation: when it raises or fails, the graph is
    left as it was. *)
Definition guarded (check : result unit) (k : NetworkGraph → result unit * NetworkGraph)
    (g : NetworkGraph) : result unit * NetworkGraph :=
  match check with
  | Ok _ => k g
  | Raise e => (Raise e, g)
  end.

(** [add_router_edge]: both assertions test the source [u]. *)
Definition add_router_edge (u v : string) (attr : attrs) (g : NetworkGraph)
  : result unit * NetworkGraph :=
  guarded (b1 ← is_local_router g u;
           _ ← py_assert b1 (Text "Source is not a router");
           b2 ← is_local_router g u;
           py_assert b2 (Text "Destination is not a router"))
          (add_edge u v (dict_set attr EDGE_TYPE (VEdge ROUTER_EDGE))) g.

(** [a or b] on two calls that may raise: [b] is evaluated only when [a] is
    false. *)
Definition or_else (a b : result bool) : result bool :=
  x ← a; if x : bool then Ok true else b.

Definition add_peer_edge (u v : string) (attr : attrs) (g : NetworkGraph)
  : result unit * NetworkGraph :=
  guarded (b1 ← or_else (is_peer g u) (is_peer g v);
           _ ← py_assert b1 (Text "One side is not a peer router");
           b2 ← or_else (is_router g u) (is_router g v);
           py_assert b2 (Text "One side is not a local router"))
          (add_edge u v (dict_set attr EDGE_TYPE (VEdge PEER_EDGE))) g.

Definition add_network_edge (u v : string) (attr : attrs) (g : NetworkGraph)
  : result unit * NetworkGraph :=
  guarded (b1 ← or_else (is_router g u) (is_router g v);
           _ ← py_assert b1 (Text "One side is not a local router");
           b2 ← or_else (is_network g u) (is_network g v);
           py_assert b2 (Text "One side is not a network"))
          (add_edge u v (dict_set attr EDGE_TYPE (VEdge NETWORK_EDGE))) g.

(** *** BGP attributes

    [get_bgp_attrs] creates the ['bgp'] dictionary on first access.  The
    accessors below read it without storing the default: no method tests the
    presence of the key except [get_bgp_attrs] itself, so the stored default
    and the returned default cannot be told apart. *)
Definition get_bgp_attrs (g : NetworkGraph) (node : string) : result BGPAttrs :=
  r ← is_router g node;
  _ ← py_assert r (Text "Node is not a router");
  match dict_get (_node g) node with
  | None => Raise (KeyError (KStr node))
  | Some a =>
      match dict_get a "bgp" with
      | None => Ok (mkBGPAttrs None [] [])
      | Some (VBgp b) => Ok b
      | Some _ => Raise AttributeError
      end
  end.

Definition get_bgp_asnum (g : NetworkGraph) (node : string) : result (option Z) :=
  asnum <$> get_bgp_attrs g node.

Definition is_bgp_enabled (g : NetworkGraph) (node : string) : result bool :=
  a ← get_bgp_asnum g node; Ok (bool_decide (is_Some a)).

Definition get_bgp_neighbors (g : NetworkGraph) (node : string) : result (list string) :=
  neighbors <$> get_bgp_attrs g node.

Definition get_bgp_advertise (g : NetworkGraph) (node : string) : result (list Announcement) :=
  advertise <$> get_bgp_attrs g node.

(** ** networkx.Graph: undirected graphs with node attributes

    The nodes in insertion order with their attribute data, and one entry per
    undirected edge.  [A] is the type of the attribute data of a node and
    [empty] the data of a node created without attributes. *)
Record Graph (N A : Type) : Type := mkGraph {
  gr_node : list (N * A);
  gr_edges : list (N * N)
}.
Arguments mkGraph {N A} gr_node gr_edges.
Arguments gr_node {N A} g.
Arguments gr_edges {N A} g.

Section graph.
Context {N A : Type} `{EqDecision N}.

Definition gr_nodes (g : Graph N A) : list N := dict_keys (gr_node g).
Definition gr_has_node (g : Graph N A) (n : N) : bool := dict_has (gr_node g) n.
Definition gr_has_edge (g : Graph N A) (u v : N) : bool :=
  bool_decide ((u, v) ∈ gr_edges g ∨ (v, u) ∈ gr_edges g).
Definition number_of_nodes (g : Graph N A) : nat := length (gr_node g).
Definition number_of_edges (g : Graph N A) : nat := length (gr_edges g).

(** [G.add_node(n, **attr)], [a] being the data that [attr] describes. *)
Definition gr_add_node (a : A) (n : N) (g : Graph N A) : Graph N A :=
  mkGraph (dict_set (gr_node g) n a) (gr_edges g).

(** [G.add_edge(u, v)] *)
Definition gr_add_edge (empty : A) (u v : N) (g : Graph N A) : Graph N A :=
  let g1 := if gr_has_node g u then g else gr_add_node empty u g in
  let g2 := if gr_has_node g1 v then g1 else gr_add_node empty v g1 in
  if gr_has_edge g2 u v then g2
  else mkGraph (gr_node g2) (gr_edges g2 ++ [(u, v)]).
End graph.

(** ** synet/synthesis/new_propagation.py: iBGP zones *)

Definition zone_graph : Type := Graph string unit.

(** The first loop of [extract_ibgp_zones]: [asmap] maps an AS number to the
    routers that have it.  [routers_iter] is a generator: the type of a node
    is tested when the loop reaches it. *)
Definition build_asmap (g : NetworkGraph) : result (list (Z * list string)) :=
  for_each (nodes g)
    (fun asmap node =>
       r ← is_router g node;
       if r : bool then
         en ← is_bgp_enabled g node;
         if en : bool then
           a ← get_bgp_asnum g node;
           match a with
           | Some asnum =>
               let asmap' := if dict_has asmap asnum then asmap else dict_set asmap asnum [] in
               Ok (dict_set asmap' asnum (default [] (dict_get asmap' asnum) ++ [node]))
           | None => Ok asmap
           end
         else Ok asmap
       else Ok asmap) [].

(** One pass of the body of [while changed]: the two nested [for] loops. *)
Definition grow_zone (g : NetworkGraph) (asnum : Z) (ibgp_nodes : list string)
    (ibgp_graph : zone_graph) : result zone_graph :=
  for_each ibgp_nodes
    (fun ig node =>
       nbrs ← graph_neighbors g node;
       for_each nbrs
         (fun ig neighbor =>
            r ← is_router g neighbor;
            if negb r then Ok ig
            else
              en ← is_bgp_enabled g neighbor;
              if en : bool then
                a ← get_bgp_asnum g neighbor;
                if decide (a = Some asnum)
                then Ok (gr_add_edge tt node neighbor ig)
                else Ok ig
              else Ok (gr_add_edge tt node neighbor ig))
         ig)
    ibgp_graph.

(** [while changed]: [None] when the bound [fuel] on the number of passes is
    exhausted. *)
Fixpoint zone_loop (fuel : nat) (g : NetworkGraph) (asnum : Z)
    (ibgp_nodes : list string) (prev_size : nat * nat) (ibgp_graph : zone_graph)
  : option (result zone_graph) :=
  match fuel with
  | O => None
  | S fuel' =>
      match grow_zone g asnum ibgp_nodes ibgp_graph with
      | Raise e => Some (Raise e)
      | Ok ig =>
          let new_size := (number_of_nodes ig, number_of_edges ig) in
          if decide (new_size ≠ prev_size)
          then zone_loop fuel' g asnum (gr_nodes ig) new_size ig
          else Some (Ok ig)
      end
  end.

(** The zone of one AS: the body of [for asnum, nodes in asmap.items()]. *)
Definition zone_of (fuel : nat) (g : NetworkGraph) (asnum : Z) (seeds : list string)
  : option (result zone_graph) :=
  let ibgp_graph := foldl (fun ig node => gr_add_node tt node ig) (mkGraph [] []) seeds in
  let prev_size := (number_of_nodes ibgp_graph, number_of_edges ibgp_graph) in
  zone_loop fuel g asnum seeds prev_size ibgp_graph.

Fixpoint zones_of (fuel : nat) (g : NetworkGraph) (asmap : list (Z * list string))
    (zones : list (Z * zone_graph)) : option (result (list (Z * zone_graph))) :=
  match asmap with
  | [] => Some (Ok zones)
  | (asnum, seeds) :: rest =>
      match zone_of fuel g asnum seeds with
      | None => None
      | Some (Raise e) => Some (Raise e)
      | Some (Ok ig) => zones_of fuel g rest (dict_set zones asnum ig)
      end
  end.

(** A number of passes that every zone converges within: each pass but the
    last adds a node or an edge, and both are bounded by the topology. *)
Definition zone_passes (g : NetworkGraph) : nat :=
  S (length (_node g) + 2 * length (_adj g)).

Definition extract_ibgp_zones (g : NetworkGraph)
  : option (result (list (Z * zone_graph))) :=
  match build_asmap g with
  | Raise e => Some (Raise e)
  | Ok asmap => zones_of (zone_passes g) g asmap []
  end.

(** ** Requirements and per-prefix propagation graphs *)

(** synet.utils.common: the requirement variants, with the fields that
    [EBGPPropagation] reads ([dst_net], [path], [paths]). *)
#[warnings="-register-all"]
Inductive Req : Type :=
| PathReq (dst : string) (path : list string)
| PathOrderReq (dst : string) (paths : list Req)
| KConnectedPathsReq (dst : string) (paths : list Req)
| ECMPPathsReq (dst : string) (paths : list Req).

Definition dst_net (req : Req) : string :=
  match req with
  | PathReq d _ | PathOrderReq d _ | KConnectedPathsReq d _ | ECMPPathsReq d _ => d
  end.

(** The attributes that [compute_propagation] leaves on a node: [paths] and
    [block] are sets of paths, [order] is a list of sets of paths. *)
Record PAttrs (N : Type) : Type := mkPAttrs {
  n_order : list (list (list N));
  n_paths : list (list N);
  n_block : list (list N)
}.
Arguments mkPAttrs {N} n_order n_paths n_block.
Arguments n_order {N} p.
Arguments n_paths {N} p.
Arguments n_block {N} p.

(** A per-prefix propagation graph: [N] is [Z] for the AS-level (eBGP) view
    and [string] for the router-level view. *)
Definition PGraph (N : Type) : Type := Graph N (PAttrs N).

(** A canonical propagation fact refers to its predecessor by the place where
    that object lives: the node, the prefix, and the position among the facts
    of that entry ([paths_info] followed by [block_info]). *)
Record fact_ref : Type := mkRef {
  ref_node : string;
  ref_net : string;
  ref_index : nat
}.

(** synet.utils.bgp_utils.PropagatedInfo, with the fields its constructor is
    given in [partial_eval_propagated_info] and the back-reference [prev].
    An AS path may hold [None]: the AS "number" of a router without BGP. *)
Record PropagatedInfo : Type := mkPropagatedInfo {
  external_peer : option string;
  egress : option string;
  ann_name : string;
  peer : option string;
  as_path : list (option Z);
  as_path_len : nat;
  path : list string;
  prev : option fact_ref
}.

(** The dictionary of one node for one prefix in a merged graph: the
    [{order, paths, block}] it is created with, and the keys that partial
    evaluation adds ([None]: the key is absent).  The sets [order_info[i]] and
    [paths_info] hold the same objects, so [paths_info] is kept as a view of
    [order_info].  Facts are objects: every [copy.copy] is a new one, and a set
    of facts is the list of the objects that were added to it. *)
Record NetAttrs (N : Type) : Type := mkNetAttrs {
  info : PAttrs N;
  order_info : option (list (list PropagatedInfo));
  block_info : option (list PropagatedInfo);
  origins : option (list (PropagatedInfo * option fact_ref))
}.
Arguments mkNetAttrs {N} info order_info block_info origins.
Arguments info {N} n.
Arguments order_info {N} n.
Arguments block_info {N} n.
Arguments origins {N} n.

Definition paths_info {N : Type} (a : NetAttrs N) : option (list PropagatedInfo) :=
  (fun ranks => concat ranks) <$> order_info a.

(** A merged propagation graph: the node attribute ['nets'] (absent on a node
    that was only ever created as the endpoint of an edge) maps a prefix to
    the dictionary of the node for that prefix. *)
Definition MGraph (N : Type) : Type := Graph N (option (list (string * NetAttrs N))).

(** The body of the loop of [get_bgp_path]. *)
Definition bgp_path_step (g : NetworkGraph) (bgp_path : list Z) (node : string)
  : result (list Z) :=
  en ← is_bgp_enabled g node;
  if negb en then Ok bgp_path
  else
    a ← get_bgp_asnum g node;
    match a with
    | Some asnum =>
        if bool_decide (list.last bgp_path ≠ Some asnum)
        then Ok (bgp_path ++ [asnum])
        else Ok bgp_path
    | None => Ok bgp_path
    end.

(** [get_bgp_path]: the AS path of a router path, in reversed order. *)
Definition get_bgp_path (g : NetworkGraph) (path : list string) : result (list Z) :=
  bgp_path ← for_each path (bgp_path_step g) [];
  Ok (reverse bgp_path).

(** Modelled from the spec: [flatten] of synet.utils.common is not under src/;
    it merges the member sets of a list into one sequence. *)
Definition flatten {A : Type} (xss : list (list A)) : list A := concat xss.

(** [extract_reqs]: per requirement, the set of (origin, AS path) facts and the
    set of (origin, router path) facts. *)
Fixpoint extract_req (g : NetworkGraph) (req : Req)
  : result (list (list (string * list Z)) * list (list (string * list string))) :=
  let extract_list :=
    fix go (reqs : list Req) :=
      match reqs with
      | [] => Ok ([], [])
      | r :: reqs' =>
          '(bgp, full) ← extract_req g r;
          '(bgps, fulls) ← go reqs';
          Ok (bgp ++ bgps, full ++ fulls)
      end in
  match req with
  | PathReq _ rpath =>
      path ← get_bgp_path g rpath;
      origin ← py_last rpath;
      Ok ([[(origin, path)]], [[(origin, reverse rpath)]])
  | PathOrderReq _ rpaths => extract_list rpaths
  | KConnectedPathsReq _ rpaths =>
      '(bgp, full) ← extract_list rpaths;
      Ok ([set_of_list (flatten bgp)], [set_of_list (flatten full)])
  | ECMPPathsReq _ _ => Raise (ValueError (Text "Unknown req type"))
  end.

Fixpoint extract_reqs (g : NetworkGraph) (reqs : list Req)
  : result (list (list (string * list Z)) * list (list (string * list string))) :=
  match reqs with
  | [] => Ok ([], [])
  | r :: reqs' =>
      '(bgp, full) ← extract_req g r;
      '(bgps, fulls) ← extract_reqs g reqs';
      Ok (bgp ++ bgps, full ++ fulls)
  end.

(** ** The AS-path expander *)

(** The body of [for path in new_paths[:]] in [expand_as_path], for the
    partial path [path] at position [index]; [tt] lists the zone of every
    position. *)
Definition expand_step (g : NetworkGraph) (tt : list (list string)) (index : nat)
    (is_last : bool) (new_paths : list (list string)) (path : list string)
  : result (list (list string)) :=
  new_paths ←
    (if is_last then Ok new_paths
     else match list_remove path new_paths with
          | Some l => Ok l
          | None => Raise (ValueError (Text "list.remove(x): x not in list"))
          end);
  last_node ← py_last path;
  bgp_neighbors ← get_bgp_neighbors g last_node;
  curras ← get_bgp_asnum g last_node;
  for_each bgp_neighbors
    (fun new_paths neighbor =>
       neighbor_as ← get_bgp_asnum g neighbor;
       if negb is_last && bool_decide (curras ≠ neighbor_as) then
         if bool_decide (neighbor ∉ path) then
           match tt !! S index with
           | None => Raise IndexError
           | Some zone =>
               if bool_decide (neighbor ∈ zone) then
                 let new_path := path ++ [neighbor] in
                 nns ← get_bgp_neighbors g neighbor;
                 for_each nns
                   (fun new_paths nn =>
                      nn_as ← get_bgp_asnum g nn;
                      if bool_decide (curras ≠ neighbor_as) && bool_decide (neighbor_as = nn_as)
                      then Ok (new_paths ++ [new_path ++ [nn]])
                      else Ok new_paths)
                   (new_paths ++ [new_path])
               else Ok new_paths
           end
         else Ok new_paths
       else Ok new_paths)
    new_paths.

(** One round of [for index, _ in enumerate(tt)]: the inner loop runs over a
    copy of [new_paths] taken when the round starts. *)
Definition expand_round (g : NetworkGraph) (tt : list (list string))
    (new_paths : list (list string)) (index : nat) : result (list (list string)) :=
  let is_last := bool_decide (index = length tt - 1) in
  for_each new_paths (expand_step g tt index is_last) new_paths.

(** [self.ibgp_zones[asnum].nodes()] as a set *)
Definition zone_nodes (ibgp_zones : list (Z * zone_graph)) (asnum : Z)
  : result (list string) :=
  match dict_get ibgp_zones asnum with
  | Some z => Ok (set_of_list (gr_nodes z))
  | None => Raise (KeyError (KInt asnum))
  end.

Definition expand_as_path (g : NetworkGraph) (ibgp_zones : list (Z * zone_graph))
    (path : list Z) (origins : list string) : result (list (list string)) :=
  tt ← mapM (zone_nodes ibgp_zones) path;
  new_paths ← for_each (seq 0 (length tt)) (expand_round g tt) ((fun o => [o]) <$> origins);
  Ok (set_of_list new_paths).

(** [node_attr[key].add(path)] on the attributes of one node of a per-prefix
    graph. *)
Definition add_block {N : Type} `{EqDecision N} (a : PAttrs N) (path : list N) : PAttrs N :=
  mkPAttrs (n_order a) (n_paths a) (set_add (n_block a) path).

(** [expand_ebgp_graph]: every router-level expansion of an AS-level path that
    the router-level graph does not list as allowed is added to the blocked
    set of its last router.  (The fourth parameter of the method,
    [ibgp_paths], is not used by its body.) *)
Definition expand_ebgp_graph (g : NetworkGraph) (ibgp_zones : list (Z * zone_graph))
    (graph : PGraph Z) (expanded : PGraph string)
    (ebgp_paths : list (list (string * list Z)))
  : result (PGraph string) :=
  origins ← for_each (flatten ebgp_paths)
    (fun origins op =>
       first ← py_first op.2;
       let origins' := if dict_has origins first then origins else dict_set origins first [] in
       Ok (dict_set origins' first (set_add (default [] (dict_get origins' first)) op.1)))
    [];
  let all_paths :=
    foldl (fun acc na => foldl set_add acc (set_union (n_paths na.2) (n_block na.2)))
          [] (gr_node graph) in
  expanded_paths ← for_each all_paths
    (fun expanded_paths path =>
       first ← py_first path;
       match dict_get origins first with
       | None => Raise (KeyError (KInt first))
       | Some os =>
           paths ← expand_as_path g ibgp_zones path os;
           Ok (dict_set expanded_paths path paths)
       end)
    [];
  for_each (flatten (snd <$> expanded_paths))
    (fun expanded path =>
       node ← py_last path;
       match dict_get (gr_node expanded) node with
       | None => Raise (KeyError (KStr node))
       | Some a =>
           if bool_decide (path ∈ n_paths a) then Ok expanded
           else Ok (mkGraph (dict_set (gr_node expanded) node (add_block a path))
                            (gr_edges expanded))
       end)
    expanded.

(** ** The propagation merger *)

(** The dictionary [info] that [merge_dags] builds from the attributes [a] of a
    node. *)
Definition net_info {N : Type} (a : PAttrs N) : NetAttrs N :=
  mkNetAttrs (mkPAttrs (n_order a) (n_paths a) (n_block a)) None None None.

(** The body of [for node in graph.nodes()] in [merge_dags], for the prefix
    [net] and a node with its attributes. *)
Definition merge_node {N : Type} `{EqDecision N} (net : string) (propagation : MGraph N)
    (na : N * PAttrs N) : result (MGraph N) :=
  let '(node, a) := na in
  let propagation :=
    if negb (gr_has_node propagation node)
    then gr_add_node (Some []) node propagation
    else propagation in
  let info := net_info a in
  match dict_get (gr_node propagation) node with
  | Some (Some nets) =>
      Ok (mkGraph (dict_set (gr_node propagation) node (Some (dict_set nets net info)))
                  (gr_edges propagation))
  | _ => Raise (KeyError (KStr "nets"))
  end.

(** The body of [for net, graph in graphs.items()]. *)
Definition merge_graph {N : Type} `{EqDecision N} (propagation : MGraph N)
    (ng : string * PGraph N) : result (MGraph N) :=
  propagation ← for_each (gr_node ng.2) (merge_node ng.1) propagation;
  Ok (foldl (fun p e => gr_add_edge None e.1 e.2 p) propagation (gr_edges ng.2)).

(** One of the two loops of [merge_dags], over the per-prefix graphs of one
    view. *)
Definition merge_graphs {N : Type} `{EqDecision N} (graphs : list (string * PGraph N))
  : result (MGraph N) :=
  for_each graphs merge_graph (mkGraph [] []).

(** ** The partial evaluator *)

(** The local function [get_as_path] of [partial_eval_propagated_info]. *)
Definition get_as_path (g : NetworkGraph) (p : list string)
  : result (option string * option string * option string * list (option Z)) :=
  _ ← py_assert (bool_decide (p ≠ [])) (Text "");
  first ← py_first p;
  a0 ← get_bgp_asnum g first;
  if bool_decide (length p = 1) then Ok (None, None, None, reverse [a0])
  else
    '(external_peer, egress, peer, as_path) ← for_each (zip p (tail p))
      (fun st pn =>
         let '(external_peer, egress, peer, as_path) := st in
         let '(prev, node) := pn in
         bn ← is_bgp_enabled g node;
         if negb bn then Ok st
         else
           bp ← is_bgp_enabled g prev;
           '(external_peer, egress, peer) ←
             (if bp : bool then
                an ← get_bgp_asnum g node;
                ap ← get_bgp_asnum g prev;
                if bool_decide (an ≠ ap)
                then Ok (Some prev, Some node, Some prev)
                else Ok (external_peer, egress, Some prev)
              else Ok (external_peer, egress, peer));
           an ← get_bgp_asnum g node;
           if bool_decide (list.last as_path ≠ Some an)
           then Ok (external_peer, egress, peer, as_path ++ [an])
           else Ok (external_peer, egress, peer, as_path))
      (None, None, None, [a0]);
    Ok (external_peer, egress, peer, reverse as_path).

(** The construction of the fact of a path that is not in the cache: the body
    of [for path in paths] after the cache test, for the prefix [net]. *)
Definition eval_path (g : NetworkGraph) (net : string) (p : list string)
  : result PropagatedInfo :=
  '(external_peer, egress, peer, as_path) ← get_as_path g p;
  ann_source ← py_first p;
  anns ← get_bgp_advertise g ann_source;
  let found := list_find (fun ann => prefix ann = net) anns in
  let as_path :=
    match found with
    | Some (_, ann) => as_path ++ (Some <$> ann_as_path ann)
    | None => as_path
    end in
  current ← get_bgp_advertise g ann_source;
  _ ← py_assert (bool_decide (is_Some found)) (CouldntFindAnnouncement net ann_source current);
  Ok (mkPropagatedInfo external_peer egress net peer as_path (length as_path) p None).

(** [copy.copy(cache[path])] *)
Definition cache_copy (cache : list (list string * PropagatedInfo)) (p : list string)
  : result PropagatedInfo :=
  match dict_get cache p with
  | Some i => Ok i
  | None => Raise (KeyError (KPath p))
  end.

(** Phase 1 for one node and one prefix: the cache is keyed by the path alone
    and is shared by all nodes and prefixes. *)
Definition eval_entry (g : NetworkGraph) (cache : list (list string * PropagatedInfo))
    (net : string) (attrs : NetAttrs string)
  : result (list (list string * PropagatedInfo) * NetAttrs string) :=
  let paths := set_union (n_paths (info attrs)) (n_block (info attrs)) in
  cache ← for_each paths
    (fun cache p =>
       if dict_has cache p then Ok cache
       else i ← eval_path g net p; Ok (dict_set cache p i))
    cache;
  order_i ← mapM (mapM (cache_copy cache)) (n_order (info attrs));
  block_i ← mapM (cache_copy cache) (n_block (info attrs));
  Ok (cache, mkNetAttrs (info attrs) (Some order_i) (Some block_i) (origins attrs)).

(** Phase 1 for one node: [for net, attrs in ..._node[node]['nets'].items()]. *)
Definition eval_node (g : NetworkGraph) (cache : list (list string * PropagatedInfo))
    (nets : option (list (string * NetAttrs string)))
  : result (list (list string * PropagatedInfo) * option (list (string * NetAttrs string))) :=
  match nets with
  | None => Raise (KeyError (KStr "nets"))
  | Some nets =>
      '(cache, nets') ← for_each nets
        (fun st na =>
           '(cache, attrs') ← eval_entry g st.1 na.1 na.2;
           Ok (cache, st.2 ++ [(na.1, attrs')]))
        (cache, []);
      Ok (cache, Some nets')
  end.

(** Phase 1: [for node in self.ibgp_propagation]. *)
Definition eval_facts (g : NetworkGraph) (propagation : MGraph string)
  : result (list (list string * PropagatedInfo) * MGraph string) :=
  '(cache, nodes') ← for_each (gr_node propagation)
    (fun st nn =>
       '(cache, nets') ← eval_node g st.1 nn.2;
       Ok (cache, st.2 ++ [(nn.1, nets')]))
    ([], []);
  Ok (cache, mkGraph nodes' (gr_edges propagation)).

(** [paths_info.union(block_info)] of one entry. *)
Definition all_propagated (a : NetAttrs string) : result (list PropagatedInfo) :=
  match paths_info a, block_info a with
  | Some ps, Some bs => Ok (ps ++ bs)
  | None, _ => Raise (KeyError (KStr "paths_info"))
  | _, None => Raise (KeyError (KStr "block_info"))
  end.

(** [self.ibgp_propagation._node[node]['nets'][net]] *)
Definition net_attrs (propagation : MGraph string) (node net : string)
  : result (NetAttrs string) :=
  match dict_get (gr_node propagation) node with
  | None => Raise (KeyError (KStr node))
  | Some None => Raise (KeyError (KStr "nets"))
  | Some (Some nets) =>
      match dict_get nets net with
      | None => Raise (KeyError (KStr net))
      | Some a => Ok a
      end
  end.

(** The local function [find_prev_prop].  When [propagated.peer] is [None],
    [get_bgp_asnum(None)] fails the assertion of [get_bgp_attrs]: [None] is
    not a node. *)
Definition find_prev_prop (g : NetworkGraph) (propagation : MGraph string)
    (node net : string) (propagated : PropagatedInfo) : result (option fact_ref) :=
  as_num ← get_bgp_asnum g node;
  if bool_decide (length (path propagated) < 2) then Ok None
  else
    match peer propagated with
    | None => Raise (AssertionError (Text "Node is not a router"))
    | Some neighbor =>
        neighbor_as_num ← get_bgp_asnum g neighbor;
        neighbor_attrs ← net_attrs propagation neighbor net;
        n_paths ← all_propagated neighbor_attrs;
        match list_find (fun neighbor_info => removelast (path propagated) = path neighbor_info) n_paths with
        | Some (i, _) => Ok (Some (mkRef neighbor net i))
        | None => Ok None
        end
    end.

Definition set_prev (propagated : PropagatedInfo) (origin : option fact_ref) : PropagatedInfo :=
  mkPropagatedInfo (external_peer propagated) (egress propagated) (ann_name propagated)
    (peer propagated) (as_path propagated) (as_path_len propagated) (path propagated) origin.

(** Phase 2 for one fact: the body of [for propagated in all_propagated].  It
    reads the graph that phase 1 produced: phase 2 only writes [prev] and
    [origins], which [find_prev_prop] does not read, and a [fact_ref] names the
    object whatever its [prev] is at the time. *)
Definition chain_fact (g : NetworkGraph) (propagation : MGraph string)
    (node net : string) (propagated : PropagatedInfo) : result PropagatedInfo :=
  if bool_decide (length (path propagated) < 2) then Ok propagated
  else origin ← find_prev_prop g propagation node net propagated;
       Ok (set_prev propagated origin).

Definition chain_entry (g : NetworkGraph) (propagation : MGraph string)
    (node : string) (na : string * NetAttrs string) : result (string * NetAttrs string) :=
  let '(net, attrs) := na in
  _ ← all_propagated attrs;
  order_i ← mapM (mapM (chain_fact g propagation node net)) (default [] (order_info attrs));
  block_i ← mapM (chain_fact g propagation node net) (default [] (block_info attrs));
  let chained := filter (fun f => ¬ length (path f) < 2) (concat order_i ++ block_i) in
  let origins' :=
    foldl (fun o f => Some (default [] o ++ [(f, prev f)])) (origins attrs) chained in
  Ok (net, mkNetAttrs (info attrs) (Some order_i) (Some block_i) origins').

(** Phase 2: [for node in self.ibgp_propagation.nodes()]. *)
Definition chain_facts (g : NetworkGraph) (propagation : MGraph string)
  : result (MGraph string) :=
  nodes' ← mapM
    (fun nn : string * option (list (string * NetAttrs string)) =>
       match nn.2 with
       | None => Raise (KeyError (KStr "nets"))
       | Some nets => nets' ← mapM (chain_entry g propagation nn.1) nets; Ok (nn.1, Some nets')
       end)
    (gr_node propagation);
  Ok (mkGraph nodes' (gr_edges propagation)).

(** [partial_eval_propagated_info]: the graph with its facts, and the set of
    the AS paths of the cached facts. *)
Definition partial_eval_propagated_info (g : NetworkGraph) (propagation : MGraph string)
  : result (MGraph string * list (list (option Z))) :=
  '(cache, evaluated) ← eval_facts g propagation;
  chained ← chain_facts g evaluated;
  Ok (chained, set_of_list ((fun kv => as_path kv.2) <$> cache)).

(** ** The propagation graph builder *)

(** The state of an [EBGPPropagation] object.  [peering_graph] stands for
    [self.verify.peering_graph] and [aspath_enum] for the enumerated sort that
    [compute_dags] registers in the solver context. *)
Record EBGPPropagation : Type := mkEBGPPropagation {
  reqs : list Req;
  network_graph : NetworkGraph;
  peering_graph : Graph Z unit;
  ibgp_zones : list (Z * zone_graph);
  ebgp_graphs : list (string * PGraph Z);
  ibgp_graphs : list (string * PGraph string);
  ebgp_propagation : option (MGraph Z);
  ibgp_propagation : option (MGraph string);
  aspath_enum : option (list (list (option Z)))
}.

(** [net_reqs]: the requirements grouped by destination prefix. *)
Definition group_reqs (rs : list Req) : list (string * list Req) :=
  foldl (fun net_reqs req =>
           let net_reqs' :=
             if dict_has net_reqs (dst_net req) then net_reqs
             else dict_set net_reqs (dst_net req) [] in
           dict_set net_reqs' (dst_net req)
                    (default [] (dict_get net_reqs' (dst_net req)) ++ [req]))
        [] rs.

(** [order = [x for x in order if x]] on every node of a per-prefix graph. *)
Definition clear_order {N : Type} (gr : PGraph N) : PGraph N :=
  mkGraph ((fun na => (na.1, mkPAttrs (filter (fun x => x ≠ []) (n_order na.2))
                                       (n_paths na.2) (n_block na.2)))
             <$> gr_node gr)
          (gr_edges gr).

(** [merge_dags] *)
Definition merge_dags (self : EBGPPropagation) : result EBGPPropagation :=
  ebgp ← merge_graphs (ebgp_graphs self);
  ibgp ← merge_graphs (ibgp_graphs self);
  Ok (mkEBGPPropagation (reqs self) (network_graph self) (peering_graph self)
        (ibgp_zones self) (ebgp_graphs self) (ibgp_graphs self)
        (Some ebgp) (Some ibgp) (aspath_enum self)).

Section compute_dags.
(** The external collaborators: the reachability primitive on the AS-level
    peering view and on the router graph, and the ordering checker with the
    type of the violations it reports. *)
Context {Violation : Type}.
Variable compute_propagation_as :
  Graph Z unit → list (list (string * list Z)) → result (PGraph Z).
Variable compute_propagation :
  NetworkGraph → list (list (string * list string)) → result (PGraph string).
Variable check_order : PGraph Z → result (list Violation).

(** The body of [for net, reqs in net_reqs.items()]; the second component
    of the loop state is the local variable [unmatching_order] ([None]:
    not assigned yet). *)
Definition process_prefix (st : EBGPPropagation * option (list Violation))
    (nr : string * list Req) : result (EBGPPropagation * option (list Violation)) :=
  let '(self, _) := st in
  let '(net, rs) := nr in
  '(ebgp_paths, ibgp_paths) ← extract_reqs (network_graph self) rs;
  ebgp ← compute_propagation_as (peering_graph self) ebgp_paths;
  ibgp ← compute_propagation (network_graph self) ibgp_paths;
  let ibgp := clear_order ibgp in
  unmatching_order ← check_order ebgp;
  ibgp ← expand_ebgp_graph (network_graph self) (ibgp_zones self) ebgp ibgp ebgp_paths;
  Ok (mkEBGPPropagation (reqs self) (network_graph self) (peering_graph self)
        (ibgp_zones self) (dict_set (ebgp_graphs self) net ebgp)
        (dict_set (ibgp_graphs self) net ibgp)
        (ebgp_propagation self) (ibgp_propagation self) (aspath_enum self),
      Some unmatching_order).

(** [compute_dags]: the value it returns and the state it leaves. *)
Definition compute_dags (self : EBGPPropagation)
  : result (list Violation * EBGPPropagation) :=
  '(self, unmatching_order) ← for_each (group_reqs (reqs self)) process_prefix (self, None);
  self ← merge_dags self;
  match ibgp_propagation self with
  | None => Raise AttributeError
  | Some propagation =>
      '(propagation', as_paths) ← partial_eval_propagated_info (network_graph self) propagation;
      let self' :=
        mkEBGPPropagation (reqs self) (network_graph self) (peering_graph self)
          (ibgp_zones self) (ebgp_graphs self) (ibgp_graphs self)
          (ebgp_propagation self) (Some propagation') (Some as_paths) in
      match unmatching_order with
      | Some v => Ok (v, self')
      | None => Raise (UnboundLocalError "unmatching_order")
      end
  end.
End compute_dags.

(** ** Concrete topologies used by the examples below *)

Definition bgp_router (name : string) (a : Z) (nbrs : list string)
    (anns : list Announcement) : string * attrs :=
  (name, [(VERTEX_TYPE, VVertex ROUTER); ("bgp", VBgp (mkBGPAttrs (Some a) nbrs anns))]).

Definition router_edge (u v : string) : (string * string) * attrs :=
  ((u, v), [(EDGE_TYPE, VEdge ROUTER_EDGE)]).

(** Scenario A of the specification: R1 (AS 10) and R2 (AS 20), linked
    directly, with a BGP session; R1 advertises prefix P. *)
Definition topo_A : NetworkGraph :=
  mkNetworkGraph
    [bgp_router "R1" 10 ["R2"] [mkAnnouncement "P" []];
     bgp_router "R2" 20 ["R1"] []]
    [router_edge "R1" "R2"; router_edge "R2" "R1"].

(** A topology with one node of each type and no edge. *)
Definition topo_types : NetworkGraph :=
  mkNetworkGraph
    [("R1", [(VERTEX_TYPE, VVertex ROUTER)]);
     ("N1", [(VERTEX_TYPE, VVertex NETWORK)]);
     ("P1", [(VERTEX_TYPE, VVertex PEER)])]
    [].

(** Three routers in a ring of BGP sessions; R1 and R3 share AS 100. *)
Definition topo_ring : NetworkGraph :=
  mkNetworkGraph
    [bgp_router "R1" 100 ["R2"; "R3"] [];
     bgp_router "R2" 200 ["R1"; "R3"] [];
     bgp_router "R3" 100 ["R2"; "R1"] []]
    [router_edge "R1" "R2"; router_edge "R2" "R1";
     router_edge "R2" "R3"; router_edge "R3" "R2";
     router_edge "R3" "R1"; router_edge "R1" "R3"].

(** R1 (AS 10) has a BGP session with X, a router without AS number that is
    adjacent to R2 (AS 20). *)
Definition topo_unnumbered : NetworkGraph :=
  mkNetworkGraph
    [bgp_router "R1" 10 ["X"] [];
     ("X", [(VERTEX_TYPE, VVertex ROUTER)]);
     bgp_router "R2" 20 [] []]
    [router_edge "R1" "X"; router_edge "X" "R1";
     router_edge "R2" "X"; router_edge "X" "R2"].

(** As [topo_A], with a BGP session from R2 to itself. *)
Definition topo_self_session : NetworkGraph :=
  mkNetworkGraph
    [bgp_router "R1" 10 ["R2"] [];
     bgp_router "R2" 20 ["R1"; "R2"] []]
    [router_edge "R1" "R2"; router_edge "R2" "R1"].

(** The zones of a topology, empty when the extraction raises. *)
Definition zones_or_empty (g : NetworkGraph) : list (Z * zone_graph) :=
  match extract_ibgp_zones g with
  | Some (Ok zones) => zones
  | _ => []
  end.

Definition plain_router (name : string) : string * attrs :=
  (name, [(VERTEX_TYPE, VVertex ROUTER)]).

(** R1 (AS 10) advertises the prefixes P1 and P2, with different AS-path
    suffixes; R2 (AS 20) and R3 (AS 30) are its eBGP neighbours. *)
Definition topo_star : NetworkGraph :=
  mkNetworkGraph
    [bgp_router "R1" 10 ["R2"; "R3"] [mkAnnouncement "P1" [1%Z]; mkAnnouncement "P2" [2%Z]];
     bgp_router "R2" 20 ["R1"] [];
     bgp_router "R3" 30 ["R1"] []]
    [router_edge "R1" "R2"; router_edge "R2" "R1";
     router_edge "R1" "R3"; router_edge "R3" "R1"].

(** As [topo_A], but R1 advertises P1 only. *)
Definition topo_P1 : NetworkGraph :=
  mkNetworkGraph
    [bgp_router "R1" 10 ["R2"] [mkAnnouncement "P1" []];
     bgp_router "R2" 20 ["R1"] []]
    [router_edge "R1" "R2"; router_edge "R2" "R1"].

(** R1 (AS 10) reaches R2 (AS 20) through X, a router without BGP. *)
Definition topo_transit : NetworkGraph :=
  mkNetworkGraph
    [bgp_router "R1" 10 ["R2"] [mkAnnouncement "P" []];
     plain_router "X";
     bgp_router "R2" 20 ["R1"] []]
    [router_edge "R1" "X"; router_edge "X" "R1";
     router_edge "X" "R2"; router_edge "R2" "X"].

(** A stand-in for the external reachability primitive, used by the examples
    only: every non-empty prefix [q] of a requested path becomes a selected
    path of the node it ends at, ranked first and followed by an empty rank. *)
Definition path_prefixes {N : Type} (p : list N) : list (list N) :=
  (fun k => take k p) <$> seq 1 (length p).

Definition example_propagation {N : Type} `{EqDecision N}
    (facts : list (list (string * list N))) : result (PGraph N) :=
  let qs := set_of_list (flatten ((fun op => path_prefixes op.2) <$> flatten facts)) in
  Ok (foldl (fun gr q =>
               match list.last q with
               | Some n =>
                   let old := default (mkPAttrs [] [] []) (dict_get (gr_node gr) n) in
                   let gr' := mkGraph (dict_set (gr_node gr) n
                                (mkPAttrs (n_order old ++ [[q]; []]) (set_add (n_paths old) q) (n_block old)))
                                (gr_edges gr) in
                   match list.last (removelast q) with
                   | Some n0 => mkGraph (gr_node gr') (gr_edges gr' ++ [(n0, n)])
                   | None => gr'
                   end
               | None => gr
               end)
            (mkGraph [] []) qs).

(** A stand-in for the external ordering checker, used by the examples only:
    it reports every selected AS path that ends in AS 20. *)
Definition example_check_order (gr : PGraph Z) : result (list (list Z)) :=
  Ok (filter (fun q => list.last q = Some 20%Z) (flatten ((fun na => n_paths na.2) <$> gr_node gr))).

(** An [EBGPPropagation] object as [__init__] leaves it. *)
Definition init_propagation (rs : list Req) (g : NetworkGraph) : EBGPPropagation :=
  mkEBGPPropagation rs g (mkGraph [] []) (zones_or_empty g) [] [] None None None.

(** Two prefixes, each with one requested path: R2 to the origin R1 for P1,
    R3 to the origin R1 for P2. *)
Definition two_prefixes : EBGPPropagation :=
  init_propagation [PathReq "P1" ["R2"; "R1"]; PathReq "P2" ["R3"; "R1"]] topo_star.

(** The router-level graph of one requested path from R2 to the origin R1. *)
Definition graph_R1_R2 : PGraph string :=
  mkGraph [("R1", mkPAttrs [[["R1"]]] [["R1"]] []);
           ("R2", mkPAttrs [[["R1"; "R2"]]] [["R1"; "R2"]] [])]
          [("R1", "R2")].

(** The merged graph of two prefixes P1 and P2 that request the same path. *)
Definition merged_same_path : MGraph string :=
  match merge_graphs [("P1", graph_R1_R2); ("P2", graph_R1_R2)] with
  | Ok m => m
  | Raise _ => mkGraph [] []
  end.

(** The merged graph of the prefix P2 alone. *)
Definition merged_P2 : MGraph string :=
  match merge_graphs [("P2", graph_R1_R2)] with
  | Ok m => m
  | Raise _ => mkGraph [] []
  end.

(** A merged graph in which R2 learns P over the transit router X. *)
Definition merged_transit : MGraph string :=
  mkGraph [("R1", Some [("P", net_info (mkPAttrs [[["R1"]]] [["R1"]] []))]);
           ("R2", Some [("P", net_info (mkPAttrs [[["R1"; "X"; "R2"]]] [["R1"; "X"; "R2"]] []))])]
          [].

(** A merged graph in which the peer R1 of R2 has no entry for P. *)
Definition merged_no_peer_entry : MGraph string :=
  mkGraph [("R1", Some []);
           ("R2", Some [("P", net_info (mkPAttrs [[["R1"; "R2"]]] [["R1"; "R2"]] []))])]
          [("R1", "R2")].

(** A merged graph in which the peer R1 of R2 has an entry for P that lists
    no path. *)
Definition merged_no_prev : MGraph string :=
  mkGraph [("R1", Some [("P", net_info (mkPAttrs [] [] []))]);
           ("R2", Some [("P", net_info (mkPAttrs [[["R1"; "R2"]]] [["R1"; "R2"]] []))])]
          [("R1", "R2")].

(** ** Invariants used in the proofs *)

(** [asmap] after one more router with AS number [a]. *)
Definition asmap_add (asmap : list (Z * list string)) (a : Z) (node : string)
  : list (Z * list string) :=
  let asmap' := if dict_has asmap a then asmap else dict_set asmap a [] in
  dict_set asmap' a (default [] (dict_get asmap' a) ++ [node]).

(** A router may enter the zone of [asnum] when it has no AS number or has
    this one. *)
Definition admissible (g : NetworkGraph) (asnum : Z) (n : string) : Prop :=
  ∀ a, get_bgp_asnum g n = Ok (Some a) → a = asnum.

(** The nodes and edges that a zone graph can ever hold. *)
Definition zone_universe (g : NetworkGraph) : list string :=
  nodes g ++ (snd <$> dict_keys (_adj g)).

Definition zone_bounded (g : NetworkGraph) (ig : zone_graph) : Prop :=
  NoDup (gr_nodes ig) ∧ NoDup (gr_edges ig) ∧
  (∀ n, n ∈ gr_nodes ig → n ∈ zone_universe g) ∧
  (∀ e, e ∈ gr_edges ig → e ∈ dict_keys (_adj g)).

Definition zone_size (ig : zone_graph) : nat := number_of_nodes ig + number_of_edges ig.

(** Every node has a type, and every router has a well-formed ['bgp']
    dictionary (or none): the type predicates and the BGP accessors do not
    raise. *)
Definition well_typed (g : NetworkGraph) : Prop :=
  ∀ n, (∃ b, is_router g n = Ok b) ∧
       (is_router g n = Ok true → ∃ b, get_bgp_attrs g n = Ok b).

(** The zones agree with the AS numbers of the topology. *)
Definition zones_sound (g : NetworkGraph) (zones : list (Z * zone_graph)) : Prop :=
  ∀ a z n, dict_get zones a = Some z → n ∈ gr_nodes z → admissible g a n.

(** Every BGP neighbour of a router has an AS number. *)
Definition neighbors_enabled (g : NetworkGraph) : Prop :=
  ∀ n nbrs nb, get_bgp_neighbors g n = Ok nbrs → nb ∈ nbrs → get_bgp_asnum g nb ≠ Ok None.

(** No router is its own BGP neighbour. *)
Definition no_self_session (g : NetworkGraph) : Prop :=
  ∀ n nbrs, get_bgp_neighbors g n = Ok nbrs → n ∉ nbrs.

(** The partial router paths of [expand_as_path] at position [i] of the AS
    sequence [aspath]: the path ends in AS [aspath[i]], its AS numbers
    collapse to the first [i + 1] positions, and it repeats no router when
    the AS sequence repeats no AS number. *)
Definition good_path (g : NetworkGraph) (aspath : list Z) (i : nat) (p : list string) : Prop :=
  (∃ n a, list.last p = Some n ∧ aspath !! i = Some a ∧ get_bgp_asnum g n = Ok (Some a)) ∧
  for_each p (bgp_path_step g) [] = Ok (take (S i) aspath) ∧
  (∀ r, r ∈ p → ∃ j a, j ≤ i ∧ aspath !! j = Some a ∧ get_bgp_asnum g r = Ok (Some a)) ∧
  (NoDup aspath → no_self_session g → NoDup p).

(** The paths of one node for one prefix that phase 1 evaluates. *)
Definition entry_paths (a : NetAttrs string) : list (list string) :=
  set_union (n_paths (info a)) (n_block (info a)).

(** The (prefix, attributes) entries of a list of nodes, in the order in which
    phase 1 visits them. *)
Definition entries_of_nodes (ns : list (string * option (list (string * NetAttrs string))))
  : list (string * NetAttrs string) :=
  nn ← ns; default [] nn.2.

Definition entries_of (propagation : MGraph string) : list (string * NetAttrs string) :=
  entries_of_nodes (gr_node propagation).

(** The prefix of the first visited entry that lists the path [p]. *)
Definition first_net (entries : list (string * NetAttrs string)) (p : list string)
  : option string :=
  (fun ie : nat * (string * NetAttrs string) => ie.2.1)
    <$> list_find (fun e : string * NetAttrs string => p ∈ entry_paths e.2) entries.

(** The facts of one node for one prefix: [paths_info] followed by
    [block_info]. *)
Definition facts_of (a : NetAttrs string) : list PropagatedInfo :=
  concat (default [] (order_info a)) ++ default [] (block_info a).

(** The fact [i] is the one that [eval_path] builds for its path and the
    prefix under which the path was first visited. *)
Definition fact_ok (g : NetworkGraph) (entries : list (string * NetAttrs string))
    (i : PropagatedInfo) : Prop :=
  ∃ net0, first_net entries (path i) = Some net0 ∧ eval_path g net0 (path i) = Ok i.

(** The cache after the entries [done] were visited. *)
Definition cache_ok (g : NetworkGraph) (done : list (string * NetAttrs string))
    (cache : list (list string * PropagatedInfo)) : Prop :=
  (∀ p i, dict_get cache p = Some i → path i = p ∧ fact_ok g done i) ∧
  (∀ e p, e ∈ done → p ∈ entry_paths e.2 → is_Some (dict_get cache p)).

(** The graph after phase 2 corresponds to the graph after phase 1, node by
    node and prefix by prefix. *)
Definition chained_from (g : NetworkGraph) (ev : MGraph string)
    (nn nn' : string * option (list (string * NetAttrs string))) : Prop :=
  nn.1 = nn'.1 ∧
  ∃ nets nets', nn.2 = Some nets ∧ nn'.2 = Some nets' ∧
    Forall2 (fun na na' => na.1 = na'.1 ∧ chain_entry g ev nn.1 (na.1, na.2) = Ok (na.1, na'.2))
            nets nets'.

(** No rank of the order list of any node is empty. *)
Definition no_empty_rank {N : Type} (gr : PGraph N) : Prop :=
  ∀ n a, (n, a) ∈ gr_node gr → [] ∉ n_order a.

(** A decision procedure for [graphs_wf]. *)
Definition graphs_wfb {N : Type} `{EqDecision N} (graphs : list (string * PGraph N)) : bool :=
  bool_decide (NoDup (dict_keys graphs)) &&
  forallb (fun ng : string * PGraph N =>
             bool_decide (NoDup (gr_nodes ng.2)) &&
             forallb (fun e : N * N =>
                        bool_decide (e.1 ∈ gr_nodes ng.2) && bool_decide (e.2 ∈ gr_nodes ng.2))
                     (gr_edges ng.2))
          graphs.

(** A decision procedure for [well_typed]. *)
Definition well_typedb (g : NetworkGraph) : bool :=
  forallb (fun n =>
    match is_router g n with
    | Ok true => match get_bgp_attrs g n with Ok _ => true | Raise _ => false end
    | Ok false => true
    | Raise _ => false
    end) (nodes g).

(** Decision procedures for the two conditions on BGP sessions. *)
Definition neighbors_enabledb (g : NetworkGraph) : bool :=
  forallb (fun n =>
    match get_bgp_neighbors g n with
    | Ok nbrs =>
        forallb (fun nb => match get_bgp_asnum g nb with Ok None => false | _ => true end) nbrs
    | Raise _ => true
    end) (nodes g).

Definition no_self_sessionb (g : NetworkGraph) : bool :=
  forallb (fun n =>
    match get_bgp_neighbors g n with
    | Ok nbrs => bool_decide (n ∉ nbrs)
    | Raise _ => true
    end) (nodes g).

(** The per-prefix graphs of one view are well formed: the prefixes are the
    keys of a dictionary, and each graph is a networkx graph (its nodes are
    the keys of a dictionary, and the endpoints of its edges are nodes). *)
Definition graphs_wf {N : Type} (graphs : list (string * PGraph N)) : Prop :=
  NoDup (dict_keys graphs) ∧
  ∀ net gr, (net, gr) ∈ graphs →
    NoDup (gr_nodes gr) ∧
    ∀ u v, (u, v) ∈ gr_edges gr → u ∈ gr_nodes gr ∧ v ∈ gr_nodes gr.

(** The node facts and the edges of a family of per-prefix graphs. *)
Definition triples_of {N : Type} (graphs : list (string * PGraph N))
  : list (string * N * PAttrs N) :=
  ng ← graphs; (fun na : N * PAttrs N => (ng.1, na.1, na.2)) <$> gr_node ng.2.

Definition edges_of {N : Type} (graphs : list (string * PGraph N)) : list (N * N) :=
  ng ← graphs; gr_edges ng.2.

(** The merged graph [m] holds exactly the node facts [T] and the edges [E]. *)
Definition merged_from {N : Type} `{EqDecision N} (T : list (string * N * PAttrs N))
    (E : list (N * N)) (m : MGraph N) : Prop :=
  NoDup (gr_nodes m) ∧
  (∀ n, n ∈ gr_nodes m ↔ ∃ net a, (net, n, a) ∈ T) ∧
  (∀ net n a, (net, n, a) ∈ T →
     ∃ nets, dict_get (gr_node m) n = Some (Some nets) ∧ dict_get nets net = Some (net_info a)) ∧
  (∀ n nets net x, dict_get (gr_node m) n = Some (Some nets) → dict_get nets net = Some x →
     ∃ a, (net, n, a) ∈ T ∧ x = net_info a) ∧
  (∀ u v, gr_has_edge m u v = true ↔ (u, v) ∈ E ∨ (v, u) ∈ E) ∧
  NoDup (gr_edges m).

(** [m] is the union of the per-prefix graphs: edges, nodes, and per node and
    prefix the attributes of the per-prefix graph, each once. *)
Definition pure_union {N : Type} `{EqDecision N} (graphs : list (string * PGraph N))
    (m : MGraph N) : Prop :=
  (∀ u v, gr_has_edge m u v = true ↔
          ∃ net gr, (net, gr) ∈ graphs ∧ ((u, v) ∈ gr_edges gr ∨ (v, u) ∈ gr_edges gr)) ∧
  (∀ n, n ∈ gr_nodes m ↔ ∃ net gr, (net, gr) ∈ graphs ∧ n ∈ gr_nodes gr) ∧
  (∀ net gr n a, (net, gr) ∈ graphs → (n, a) ∈ gr_node gr →
     ∃ nets, dict_get (gr_node m) n = Some (Some nets) ∧
             dict_get nets net = Some (mkNetAttrs a None None None)) ∧
  (∀ n nets net x, dict_get (gr_node m) n = Some (Some nets) → dict_get nets net = Some x →
     ∃ gr a, (net, gr) ∈ graphs ∧ (n, a) ∈ gr_node gr ∧ x = mkNetAttrs a None None None) ∧
  NoDup (gr_nodes m) ∧ NoDup (gr_edges m).

(** The outcome of partial evaluation on [merged_same_path] over [topo_star],
    and the fact it attaches to R2 under P2. *)
Definition chained_star : MGraph string :=
  match partial_eval_propagated_info topo_star merged_same_path with
  | Ok r => r.1
  | Raise _ => mkGraph [] []
  end.

Definition as_paths_star : list (list (option Z)) :=
  match partial_eval_propagated_info topo_star merged_same_path with
  | Ok r => r.2
  | Raise _ => []
  end.

Definition nets_R2_star : list (string * NetAttrs string) :=
  default [] (default None (dict_get (gr_node chained_star) "R2")).

Definition attrs_R2_P2_star : NetAttrs string :=
  default (net_info (mkPAttrs [] [] [])) (dict_get nets_R2_star "P2").

Definition fact_R2_P2_star : PropagatedInfo :=
  default (mkPropagatedInfo None None "" None [] 0 [] None) (facts_of attrs_R2_P2_star !! 0).

(** The state that [compute_dags] leaves for [two_prefixes], with the two
    stand-ins for the external collaborators. *)
Definition after_two_prefixes : EBGPPropagation :=
  match compute_dags (fun _ => example_propagation) (fun _ => example_propagation)
                     example_check_order two_prefixes with
  | Ok r => r.2
  | Raise _ => two_prefixes
  end.

(** ** tekton/graph.py: edge attributes *)

(** [G.edges()] of a directed graph: the out-edges of every node, node by
    node. *)
Definition edges (g : NetworkGraph) : list (string * string) :=
  n ← nodes g; filter (fun e => e.1 = n) (dict_keys (_adj g)).

(** [self[src][dst]]: the attribute dictionary of an edge.  The first
    subscript raises for a name that is not a node, the second for a node
    that is not a successor. *)
Definition edge_attrs (g : NetworkGraph) (src dst : string) : result attrs :=
  match dict_get (_adj g) (src, dst) with
  | Some a => Ok a
  | None => Raise (KeyError (KStr (if has_node g src then dst else src)))
  end.

Definition is_local_router_edge (g : NetworkGraph) (src dst : string) : result bool :=
  if negb (has_edge g src dst) then Ok false
  else
    a ← edge_attrs g src dst;
    match dict_get a EDGE_TYPE with
    | None => Raise (KeyError (KStr EDGE_TYPE))
    | Some (VEdge t) => Ok (bool_decide (t = ROUTER_EDGE))
    | Some _ => Ok false
    end.

(** [set_edge_iface]: the name of an interface is a string. *)
Definition set_edge_iface (src dst iface : string) (g : NetworkGraph)
  : result unit * NetworkGraph :=
  match edge_attrs g src dst with
  | Ok a =>
      (Ok tt, mkNetworkGraph (_node g)
                (dict_set (_adj g) (src, dst) (dict_set a "iface" (VOther iface))))
  | Raise e => (Raise e, g)
  end.

(** [get_edge_iface]: [None] for an edge without interface. *)
Definition get_edge_iface (g : NetworkGraph) (src dst : string) : result (option value) :=
  a ← edge_attrs g src dst; Ok (dict_get a "iface").

(** ** tekton/graph.py: configuring BGP *)

(** What a call of a setter ends with.  An item assignment on a value that
    is not a dictionary raises [TypeError], which no function above can. *)
Inductive outcome : Type :=
| Returned
| Raised (e : exn)
| RaisedTypeError.

Definition of_result (r : result unit) : outcome :=
  match r with
  | Ok _ => Returned
  | Raise e => Raised e
  end.

(** The object that [get_bgp_attrs] returns: the value the node holds under
    ['bgp'], the new dictionary when it holds none. *)
Definition bgp_object (g : NetworkGraph) (node : string) : result value :=
  r ← is_router g node;
  _ ← py_assert r (Text "Node is not a router");
  match dict_get (_node g) node with
  | None => Raise (KeyError (KStr node))
  | Some a => Ok (default (VBgp (mkBGPAttrs None [] [])) (dict_get a "bgp"))
  end.

(** The write through that object: the node then holds [b] under ['bgp']. *)
Definition store_bgp (node : string) (b : BGPAttrs) (g : NetworkGraph) : NetworkGraph :=
  mkNetworkGraph
    (dict_set (_node g) node
       (dict_set (default [] (dict_get (_node g) node)) "bgp" (VBgp b)))
    (_adj g).

(** [set_bgp_asnum]: an AS number is an integer, so the assertion on its type
    holds. *)
Definition set_bgp_asnum (node : string) (asnum : Z) (g : NetworkGraph)
  : outcome * NetworkGraph :=
  match bgp_object g node with
  | Raise e => (Raised e, g)
  | Ok (VBgp b) => (Returned, store_bgp node (mkBGPAttrs (Some asnum) (neighbors b) (advertise b)) g)
  | Ok _ => (RaisedTypeError, g)
  end.

(** [assert_valid_neighbor] and [get_bgp_neighbor_remoteas] *)
Definition assert_valid_neighbor (g : NetworkGraph) (node neighbor : string) : result unit :=
  nbrs ← get_bgp_neighbors g node;
  py_assert (bool_decide (neighbor ∈ nbrs)) (Text "Not not valid BGP neighbor").

Definition get_bgp_neighbor_remoteas (g : NetworkGraph) (node neighbor : string)
  : result (option Z) :=
  _ ← assert_valid_neighbor g node neighbor;
  get_bgp_asnum g neighbor.

(** [neighbors[neighbor] = {...}] on the neighbour map of [node]: a new key
    goes last, a key that is there keeps its place. *)
Definition add_neighbor_key (node neighbor : string) (g : NetworkGraph) : NetworkGraph :=
  match get_bgp_attrs g node with
  | Ok b => store_bgp node (mkBGPAttrs (asnum b) (set_add (neighbors b) neighbor) (advertise b)) g
  | Raise _ => g
  end.

(** [len(s)] of a text.  A string holds the bytes of the UTF-8 encoding of
    the text, and [len] counts characters: every byte that is not a
    continuation byte ([10xxxxxx]) starts one. *)
Definition is_continuation (c : Ascii.ascii) : bool :=
  match c with
  | Ascii.Ascii _ _ _ _ _ _ b6 b7 => b7 && negb b6
  end.

Fixpoint py_len (s : string) : nat :=
  match s with
  | EmptyString => 0
  | String c s' => (if is_continuation c then 0 else 1) + py_len s'
  end.

(** [set_bgp_neighbor_description]: its two assertions and the lookup of the
    neighbour; the text itself is part of the per-neighbour data, which the
    neighbour list does not hold. *)
Definition set_bgp_neighbor_description (node neighbor description : string)
    (g : NetworkGraph) : result unit * NetworkGraph :=
  guarded (_ ← py_assert (bool_decide (py_len description ≤ 80)) (Text "");
           nbrs ← get_bgp_neighbors g node;
           if bool_decide (neighbor ∈ nbrs) then Ok tt
           else Raise (KeyError (KStr neighbor)))
          (fun g => (Ok tt, g)) g.

(** One call after the other; the second runs when the first returned. *)
Definition and_then (m k : NetworkGraph → result unit * NetworkGraph) (g : NetworkGraph)
  : result unit * NetworkGraph :=
  match m g with
  | (Ok _, g') => k g'
  | (Raise e, g') => (Raise e, g')
  end.

(** [add_bgp_neighbor]: [description] is [None] when the caller gives none.
    The two peering interfaces go to the per-neighbour data. *)
Definition add_bgp_neighbor (router_a router_b : string) (description : option string)
    (g : NetworkGraph) : result unit * NetworkGraph :=
  guarded (neighbors_a ← get_bgp_neighbors g router_a;
           neighbors_b ← get_bgp_neighbors g router_b;
           _ ← py_assert (bool_decide (router_b ∉ neighbors_a))
                 (Text "Router already has BGP neighbor configured");
           py_assert (bool_decide (router_a ∉ neighbors_b))
                 (Text "Router already has BGP neighbor configured"))
    (fun g =>
       let g := add_neighbor_key router_a router_b g in
       let g := add_neighbor_key router_b router_a g in
       match description with
       | Some d =>
           if bool_decide (d ≠ "") then
             and_then (set_bgp_neighbor_description router_a router_b d)
                      (set_bgp_neighbor_description router_b router_a d) g
           else
             and_then (set_bgp_neighbor_description router_a router_b ("To " ++ router_b))
                      (set_bgp_neighbor_description router_b router_a ("To " ++ router_a)) g
       | None =>
           and_then (set_bgp_neighbor_description router_a router_b ("To " ++ router_b))
                    (set_bgp_neighbor_description router_b router_a ("To " ++ router_a)) g
       end) g.

(** ** netcomplete/netcomplete_ebgp_eval.py: assign_ebgp *)

(** [sorted] on names: by code point, in increasing order; on the bytes of
    UTF-8 text this is the order of the bytes. *)
Definition py_sorted : list string → list string :=
  merge_sort (fun a b : string => String.leb a b).

(** [itertools.count(10, step=10)]: its value at the call number [i]. *)
Definition asnum_gen (i : nat) : Z := (10 + 10 * Z.of_nat i)%Z.

(** A [for] loop over calls of setters. *)
Fixpoint for_each_call {A : Type} (xs : list A)
    (body : A → NetworkGraph → outcome * NetworkGraph) (g : NetworkGraph)
  : outcome * NetworkGraph :=
  match xs with
  | [] => (Returned, g)
  | x :: xs' =>
      match body x g with
      | (Returned, g') => for_each_call xs' body g'
      | r => r
      end
  end.

(** The body of the loop over the edges: the two tests, then the session. *)
Definition assign_session (e : string * string) (topo : NetworkGraph)
  : outcome * NetworkGraph :=
  let '(src, dst) := e in
  match (rs ← is_router topo src;
         if negb rs then Ok false
         else
           rd ← is_router topo dst;
           if negb rd then Ok false
           else
             nbrs ← get_bgp_neighbors topo src;
             Ok (bool_decide (dst ∉ nbrs))) with
  | Raise e => (Raised e, topo)
  | Ok false => (Returned, topo)
  | Ok true =>
      let r := add_bgp_neighbor src dst None topo in (of_result r.1, r.2)
  end.

Definition assign_ebgp (topo : NetworkGraph) : outcome * NetworkGraph :=
  match local_routers_iter topo with
  | Raise e => (Raised e, topo)
  | Ok locals =>
      match for_each_call (zip (py_sorted locals) (asnum_gen <$> seq 0 (length locals)))
              (fun na => set_bgp_asnum na.1 na.2) topo with
      | (Returned, topo) => for_each_call (edges topo) assign_session topo
      | r => r
      end
  end.

(** ** netcomplete/netcomplete_ebgp_eval.py: autoGenerateBGPpolicy *)

(** [l[i]] for an index that is not negative. *)
Definition py_index {A : Type} (l : list A) (i : nat) : result A :=
  match l !! i with
  | Some x => Ok x
  | None => Raise IndexError
  end.

(** [autoGenerateBGPpolicy]: an intent is a sequence of router paths.  The
    protocol and the two flags that the requirements are built with are the
    same for all of them. *)
Definition autoGenerateBGPpolicy (intents : list (list (list string))) : result (list Req) :=
  for_each intents
    (fun policies intent =>
       p0 ← py_index intent 0;
       des ← py_last p0;
       p1 ← py_index intent 1;
       Ok (policies ++ [PathOrderReq des [PathReq des p0; PathReq des p1]]))
    [].

(** ** More topologies for the examples *)

(** Three local routers in a line, inserted out of order, and a network;
    nothing is configured. *)
Definition topo_unconfigured : NetworkGraph :=
  mkNetworkGraph
    [plain_router "R2"; plain_router "R1"; plain_router "R3";
     ("N1", [(VERTEX_TYPE, VVertex NETWORK)])]
    [router_edge "R1" "R2"; router_edge "R3" "R2";
     (("R3", "N1"), [(EDGE_TYPE, VEdge NETWORK_EDGE)])].

(** An order of a path and of a set of two connected paths, on [topo_ring]. *)
Definition reqs_ring : list Req :=
  [PathOrderReq "P"
     [PathReq "P" ["R2"; "R1"];
      KConnectedPathsReq "P" [PathReq "P" ["R2"; "R3"; "R1"]; PathReq "P" ["R3"; "R1"]]]].

(** The two views of one prefix that R1 of [topo_ring] announces: the
    AS-level graph, and a router-level graph in which R2 allows no path. *)
Definition graph_as_ring : PGraph Z :=
  mkGraph [(100%Z, mkPAttrs [] [[100%Z]] []); (200%Z, mkPAttrs [] [[100%Z; 200%Z]] [])]
          [(100%Z, 200%Z)].

Definition expanded_ring : PGraph string :=
  mkGraph [("R1", mkPAttrs [] [["R1"]] []); ("R2", mkPAttrs [] [] [])] [("R1", "R2")].

(** A per-prefix graph that lists the edge between R1 and R2 in both
    directions, and the state that holds it as the router-level graph of P. *)
Definition graph_both_ways : PGraph string :=
  mkGraph [("R1", mkPAttrs [[["R1"]]] [["R1"]] []);
           ("R2", mkPAttrs [[["R1"; "R2"]]] [["R1"; "R2"]] [])]
          [("R1", "R2"); ("R2", "R1")].

Definition opposite_edges : EBGPPropagation :=
  mkEBGPPropagation [] topo_A (mkGraph [] []) (zones_or_empty topo_A)
    [] [("P", graph_both_ways)] None None None.

(** ** Notions used in the statements below *)

(** The paths of all facts of a graph after phase 1. *)
Definition fact_paths (ev : MGraph string) : list (list string) :=
  path <$> (e ← entries_of ev; facts_of e.2).


(** The answer of a predicate, [False] standing for a call that raised. *)
Definition answers_true (r : result bool) : bool :=
  match r with
  | Ok b => b
  | Raise _ => false
  end.

(** What the type predicates read of a node: whether it is there, and its
    vertex type. *)
Definition node_type (g : NetworkGraph) (n : string) : option (option value) :=
  (fun a => dict_get a VERTEX_TYPE) <$> dict_get (_node g) n.

(** The two descriptions that [add_bgp_neighbor] stores for a session. *)
Definition session_descriptions (a b : string) (d : option string) : string * string :=
  match d with
  | Some d => if bool_decide (d ≠ "") then (d, d)
              else (String.append "To " b, String.append "To " a)
  | None => (String.append "To " b, String.append "To " a)
  end.

(** Every BGP session has its reverse. *)
Definition sessions_symmetric (g : NetworkGraph) : Prop :=
  ∀ m w ns, get_bgp_neighbors g m = Ok ns → w ∈ ns →
            ∃ ns', get_bgp_neighbors g w = Ok ns' ∧ m ∈ ns'.

(** A neighbour that [extract_ibgp_zones] takes into the zone of [asnum]: a
    router with this AS number or with none. *)
Definition zone_candidate (g : NetworkGraph) (asnum : Z) (n : string) : Prop :=
  is_router g n = Ok true ∧
  (get_bgp_asnum g n = Ok (Some asnum) ∨ get_bgp_asnum g n = Ok None).

(** The AS number of a router, when it has one. *)
Definition as_number (g : NetworkGraph) (r : string) : option Z :=
  match get_bgp_asnum g r with
  | Ok (Some a) => Some a
  | _ => None
  end.

(** The AS numbers along a router path, the routers without AS number left
    out. *)
Definition as_numbers (g : NetworkGraph) (p : list string) : list Z :=
  omap (as_number g) p.

(** A sequence with every run of equal consecutive elements made one. *)
Fixpoint collapse {A : Type} `{EqDecision A} (l : list A) : list A :=
  match l with
  | [] => []
  | a :: l' =>
      match l' with
      | b :: _ => if decide (a = b) then collapse l' else a :: collapse l'
      | [] => [a]
      end
  end.

(** The router paths of a requirement, in the groups in which they are
    ranked: a path is a group of its own, an order keeps the groups of its
    members in their order, and a set of k connected paths is one group. *)
Fixpoint req_groups (req : Req) : list (list (list string)) :=
  let groups_of :=
    fix go (reqs : list Req) :=
      match reqs with
      | [] => []
      | r :: reqs' => req_groups r ++ go reqs'
      end in
  match req with
  | PathReq _ p => [[p]]
  | PathOrderReq _ rs => groups_of rs
  | KConnectedPathsReq _ rs => [concat (groups_of rs)]
  | ECMPPathsReq _ _ => []
  end.

Definition reqs_groups (reqs : list Req) : list (list (list string)) :=
  concat (req_groups <$> reqs).

(** A requirement without ECMP requirement in it. *)
Fixpoint req_supported (req : Req) : bool :=
  let all_supported :=
    fix go (reqs : list Req) :=
      match reqs with
      | [] => true
      | r :: reqs' => req_supported r && go reqs'
      end in
  match req with
  | PathReq _ _ => true
  | PathOrderReq _ rs | KConnectedPathsReq _ rs => all_supported rs
  | ECMPPathsReq _ _ => false
  end.

(** The two sets of facts of a group of router paths: per path its last
    router with the AS path of [get_bgp_path], and its last router with the
    reversed path. *)
Definition facts_of_paths (g : NetworkGraph) (ps : list (list string))
    (bgp : list (string * list Z)) (full : list (string * list string)) : Prop :=
  (∀ o asp, (o, asp) ∈ bgp ↔
            ∃ p, p ∈ ps ∧ list.last p = Some o ∧ get_bgp_path g p = Ok asp) ∧
  (∀ o rp, (o, rp) ∈ full ↔ ∃ p, p ∈ ps ∧ list.last p = Some o ∧ rp = reverse p).

(** A router path that goes from a router to one of its BGP neighbours at
    every step. *)
Definition follows_sessions (g : NetworkGraph) (p : list string) : Prop :=
  ∀ i u v, p !! i = Some u → p !! S i = Some v →
           ∃ nbrs, get_bgp_neighbors g u = Ok nbrs ∧ v ∈ nbrs.

(** What the rounds of [expand_as_path] keep of every partial path: it
    starts at an origin, follows BGP sessions, and has at most [2 * n + 1]
    routers. *)
Definition partial_path (g : NetworkGraph) (origins : list string) (n : nat)
    (q : list string) : Prop :=
  (∃ o, o ∈ origins ∧ head q = Some o) ∧ follows_sessions g q ∧ length q ≤ 2 * n + 1.

(** An AS path that a node of the AS-level graph allows or blocks. *)
Definition as_level_path (graph : PGraph Z) (aspath : list Z) : Prop :=
  ∃ n a, (n, a) ∈ gr_node graph ∧ (aspath ∈ n_paths a ∨ aspath ∈ n_block a).

(** A router path that [expand_as_path] gives for an AS path of the AS-level
    graph, from origins that the facts name for its first AS number. *)
Definition expansion (g : NetworkGraph) (zones : list (Z * zone_graph)) (graph : PGraph Z)
    (ebgp_paths : list (list (string * list Z))) (p : list string) : Prop :=
  ∃ aspath os paths,
    as_level_path graph aspath ∧
    (∀ o, o ∈ os → ∃ asp, (o, asp) ∈ flatten ebgp_paths ∧ head asp = head aspath) ∧
    expand_as_path g zones aspath os = Ok paths ∧ p ∈ paths.

(** * Properties *)

(** ** The result monad and loops *)

Lemma bind_Ok {A B : Type} (m : result A) (f : A → result B) (b : B) :
  m ≫= f = Ok b ↔ ∃ a, m = Ok a ∧ f a = Ok b.
Proof.
  destruct m as [a|e]; simpl.
  - split; [eauto | by intros (? & [= <-] & ?)].
  - split; [done | by intros (? & ? & ?)].
Qed.

Lemma fmap_Ok {A B : Type} (m : result A) (f : A → B) (b : B) :
  f <$> m = Ok b ↔ ∃ a, m = Ok a ∧ f a = b.
Proof.
  destruct m as [a|e]; simpl.
  - split; [intros [= <-]; eauto | by intros (? & [= <-] & <-)].
  - split; [done | by intros (? & ? & ?)].
Qed.

Lemma py_assert_Ok (c : bool) (msg : message) (u : unit) :
  py_assert c msg = Ok u ↔ c = true.
Proof. destruct c, u; simpl; split; done. Qed.

(** Simplifies hypotheses that say that a monadic computation returned. *)
Ltac inv_ok :=
  repeat match goal with
    | H : _ ≫= _ = Ok _ |- _ => apply bind_Ok in H; destruct H as (? & ? & H)
    | H : _ <$> _ = Ok _ |- _ => apply fmap_Ok in H; destruct H as (? & ? & H)
    | H : py_assert _ _ = Ok _ |- _ => apply py_assert_Ok in H
    | H : Ok _ = Ok _ |- _ => injection H as H
    | H : Raise _ = Ok _ |- _ => discriminate H
    | H : mret _ = Ok _ |- _ => injection H as H
    end.

(** A loop invariant holds when the loop returns. *)
Lemma for_each_inv {A S : Type} (I : S → Prop) (xs : list A)
    (body : S → A → result S) (s s' : S) :
  (∀ s x s', x ∈ xs → I s → body s x = Ok s' → I s') →
  I s → for_each xs body s = Ok s' → I s'.
Proof.
  revert s. induction xs as [|x xs IH]; intros s Hbody Hs Hrun; simpl in *.
  - by injection Hrun as <-.
  - apply bind_Ok in Hrun as (s1 & H1 & Hrun).
    apply (IH s1); [|by eapply Hbody; [left|..]|done].
    intros ???? ; apply Hbody. by right.
Qed.

(** ** Dictionaries *)

Section dict_facts.
Context {K V : Type} `{EqDecision K}.
Implicit Types (d : list (K * V)) (k : K) (v : V).

Lemma dict_get_Some_elem d k v : dict_get d k = Some v → (k, v) ∈ d.
Proof.
  induction d as [|[k' v'] d IH]; simpl; [done|].
  case_decide; [intros [= <-]; subst; left | right; auto].
Qed.

Lemma dict_get_None d k : dict_get d k = None ↔ k ∉ dict_keys d.
Proof.
  unfold dict_keys. induction d as [|[k' v'] d IH]; simpl.
  - split; [intros _; apply not_elem_of_nil | done].
  - rewrite not_elem_of_cons. case_decide; subst.
    + split; [done | by intros [? _]].
    + rewrite IH. split; [intros ?; split; [congruence | done] | by intros [_ ?]].
Qed.

Lemma dict_has_true d k : dict_has d k = true ↔ k ∈ dict_keys d.
Proof.
  unfold dict_has. rewrite bool_decide_eq_true.
  destruct (dict_get d k) eqn:E.
  - split; [intros _ | eauto].
    destruct (decide (k ∈ dict_keys d)) as [|Hn]; [done|].
    apply dict_get_None in Hn. congruence.
  - split; [by intros [? ?] | intros Hin]. by apply dict_get_None in E.
Qed.

Lemma dict_has_false d k : dict_has d k = false ↔ k ∉ dict_keys d.
Proof.
  rewrite <- dict_has_true. destruct (dict_has d k); split; intros H; congruence.
Qed.

Lemma dict_get_set_eq d k v : dict_get (dict_set d k v) k = Some v.
Proof.
  induction d as [|[k' v'] d IH]; simpl.
  - by rewrite decide_True.
  - case_decide; simpl; [by rewrite decide_True | by rewrite decide_False].
Qed.

Lemma dict_get_set_ne d k k' v : k ≠ k' → dict_get (dict_set d k v) k' = dict_get d k'.
Proof.
  intros Hne. induction d as [|[k1 v1] d IH]; simpl.
  - by rewrite decide_False.
  - case_decide; simpl; subst.
    + by rewrite !decide_False.
    + case_decide; [done | apply IH].
Qed.

Lemma dict_keys_set d k v :
  dict_keys (dict_set d k v) = if dict_has d k then dict_keys d else dict_keys d ++ [k].
Proof.
  unfold dict_keys, dict_has. induction d as [|[k1 v1] d IH]; simpl; [done|].
  destruct (decide (k1 = k)) as [->|Hne]; simpl.
  - done.
  - destruct (bool_decide (is_Some (dict_get d k))); f_equal; exact IH.
Qed.

Lemma dict_keys_set_elem d k v k' :
  k' ∈ dict_keys (dict_set d k v) ↔ k' = k ∨ k' ∈ dict_keys d.
Proof.
  rewrite dict_keys_set. destruct (dict_has d k) eqn:E.
  - apply dict_has_true in E. split; [auto | intros [->|]; done].
  - rewrite elem_of_app, list_elem_of_singleton. tauto.
Qed.

Lemma dict_keys_set_NoDup d k v : NoDup (dict_keys d) → NoDup (dict_keys (dict_set d k v)).
Proof.
  intros Hnd. rewrite dict_keys_set. destruct (dict_has d k) eqn:E; [done|].
  apply dict_has_false in E. apply NoDup_app. split_and!; [done| |apply NoDup_singleton].
  intros x Hx Hx'. apply list_elem_of_singleton in Hx'. by subst.
Qed.

Lemma dict_get_elem_NoDup d k v : NoDup (dict_keys d) → (k, v) ∈ d → dict_get d k = Some v.
Proof.
  unfold dict_keys. induction d as [|[k' v'] d IH]; simpl; intros Hnd Hin.
  - by apply elem_of_nil in Hin.
  - apply NoDup_cons in Hnd as [Hk Hnd].
    apply elem_of_cons in Hin as [[= <- <-]|Hin].
    + by rewrite decide_True.
    + rewrite decide_False; [by apply IH|].
      intros ->. apply Hk. apply list_elem_of_fmap. by exists (k, v).
Qed.
End dict_facts.

(** ** tekton/graph.py *)

Lemma has_node_false (g : NetworkGraph) (n : string) : has_node g n = false ↔ n ∉ nodes g.
Proof. apply dict_has_false. Qed.

(** C10: for a name that is not a node of the graph, [is_peer],
    [is_local_router], [is_network] and [is_router] all return [False]; none
    of them raises. *)
Theorem node_type_of_unknown_node (g : NetworkGraph) (n : string) :
  n ∉ nodes g →
  is_peer g n = Ok false ∧ is_local_router g n = Ok false ∧
  is_network g n = Ok false ∧ is_router g n = Ok false.
Proof.
  intros Hn. apply has_node_false in Hn.
  unfold is_router, is_peer, is_local_router, is_network.
  rewrite Hn. simpl. done.
Qed.

Lemma node_type_of_unknown_node_witness :
("X" ∉ nodes topo_types) ∧
  is_peer topo_types "X" = Ok false ∧ is_local_router topo_types "X" = Ok false ∧
  is_network topo_types "X" = Ok false ∧ is_router topo_types "X" = Ok false.
Proof.
  assert (H : "X" ∉ nodes topo_types) by (apply has_node_false; reflexivity).
  split; [exact H | exact (node_type_of_unknown_node topo_types "X" H)].
Defined.

(** The untyped insertions are rejected, and the graph is left as it was. *)
Lemma add_node_untyped (g : NetworkGraph) (n : string) (attr : attrs) :
  dict_has attr VERTEX_TYPE = false →
  ∃ msg, add_node n attr g = (Raise (ValueError msg), g).
Proof. intros H. unfold add_node. rewrite H. simpl. eauto. Qed.

Lemma add_edge_untyped (g : NetworkGraph) (u v : string) (attr : attrs) :
  dict_has attr EDGE_TYPE = false →
  ∃ msg, add_edge u v attr g = (Raise (ValueError msg), g).
Proof. intros H. unfold add_edge. rewrite H. simpl. eauto. Qed.

(** A typed edge constructor that raises leaves the graph as it was. *)
Lemma guarded_raise (check : result unit) k (g : NetworkGraph) (e : exn) :
  (∀ g', (k g').1 = Raise e → (k g').2 = g') →
  (guarded check k g).1 = Raise e → (guarded check k g).2 = g.
Proof. unfold guarded. destruct check; simpl; auto. Qed.

Lemma guarded_Ok (check : result unit) k (g : NetworkGraph) :
  (guarded check k g).1 = Ok tt → check = Ok tt.
Proof. unfold guarded. destruct check as [[]|]; simpl; [done | discriminate]. Qed.

Lemma or_else_true (a b : result bool) :
  or_else a b = Ok true → a = Ok true ∨ (a = Ok false ∧ b = Ok true).
Proof. unfold or_else. destruct a as [[]|]; simpl; auto; discriminate. Qed.

Lemma is_router_true (g : NetworkGraph) (n : string) :
  is_router g n = Ok true → is_peer g n = Ok true ∨ is_local_router g n = Ok true.
Proof. unfold is_router. destruct (is_peer g n) as [[]|]; simpl; auto; discriminate. Qed.

Lemma vertex_type_unique (g : NetworkGraph) (n : string) (t t' : VERTEXTYPE) :
  vertex_type_is g n t = Ok true → vertex_type_is g n t' = Ok true → t = t'.
Proof.
  unfold vertex_type_is. destruct (dict_get (_node g) n); [|discriminate].
  destruct (dict_get _ VERTEX_TYPE) as [[]|]; try discriminate.
  intros [= ?%bool_decide_eq_true] [= ?%bool_decide_eq_true]. congruence.
Qed.

(** [add_network_edge] accepts an edge only between a router (local or peer)
    and a network. *)
Lemma add_network_edge_checked (g : NetworkGraph) (u v : string) (attr : attrs) :
  (add_network_edge u v attr g).1 = Ok tt →
  (is_router g u = Ok true ∧ is_network g v = Ok true) ∨
  (is_network g u = Ok true ∧ is_router g v = Ok true).
Proof.
  intros H%guarded_Ok. inv_ok. subst.
  match goal with H : or_else (is_router _ _) _ = _ |- _ => apply or_else_true in H as Hr end.
  match goal with H : or_else (is_network _ _) _ = _ |- _ => apply or_else_true in H as Hn end.
  destruct Hr as [Hr|[_ Hr]], Hn as [Hn|[_ Hn]]; auto; exfalso.
  - apply is_router_true in Hr. unfold is_peer, is_local_router, is_network in *.
    destruct (has_node g u); simpl in *; [|discriminate].
    destruct Hr as [Hr|Hr]; by pose proof (vertex_type_unique _ _ _ _ Hr Hn).
  - apply is_router_true in Hr. unfold is_peer, is_local_router, is_network in *.
    destruct (has_node g v); simpl in *; [|discriminate].
    destruct Hr as [Hr|Hr]; by pose proof (vertex_type_unique _ _ _ _ Hr Hn).
Qed.

(** [add_router_edge] checks its source, and [add_peer_edge] that one endpoint
    is a peer. *)
Lemma add_router_edge_checks_source (g : NetworkGraph) (u v : string) (attr : attrs) :
  (add_router_edge u v attr g).1 = Ok tt → is_local_router g u = Ok true.
Proof. intros H%guarded_Ok. inv_ok. by subst. Qed.

Lemma add_peer_edge_checks_peer (g : NetworkGraph) (u v : string) (attr : attrs) :
  (add_peer_edge u v attr g).1 = Ok tt → is_peer g u = Ok true ∨ is_peer g v = Ok true.
Proof.
  intros H%guarded_Ok. inv_ok. subst.
  match goal with H : or_else (is_peer _ _) _ = _ |- _ => apply or_else_true in H end.
  tauto.
Qed.

(** C7: the destination of [add_router_edge] is never checked (both
    assertions test the source), and the second assertion of [add_peer_edge]
    is implied by the first: an edge from a router to a network is accepted
    by [add_router_edge], and an edge from a peer to a network by
    [add_peer_edge]. *)
Theorem typed_edge_constructors_accept_network_endpoint :
  is_local_router topo_types "N1" = Ok false ∧
  is_router topo_types "N1" = Ok false ∧
  (add_router_edge "R1" "N1" [] topo_types).1 = Ok tt ∧
  has_edge (add_router_edge "R1" "N1" [] topo_types).2 "R1" "N1" = true ∧
  (add_peer_edge "P1" "N1" [] topo_types).1 = Ok tt ∧
  has_edge (add_peer_edge "P1" "N1" [] topo_types).2 "P1" "N1" = true.
Proof. vm_compute. repeat split. Qed.

(** ** More on loops *)

Lemma for_each_app {A S : Type} (xs ys : list A) (body : S → A → result S) (s : S) :
  for_each (xs ++ ys) body s = for_each xs body s ≫= for_each ys body.
Proof.
  revert s. induction xs as [|x xs IH]; intros s; simpl; [done|].
  destruct (body s x) as [s1|e]; simpl; [apply IH | done].
Qed.

(** An invariant that also records the elements already visited. *)
Lemma for_each_inv_seen {A S : Type} (I : list A → S → Prop) (xs : list A)
    (body : S → A → result S) (s s' : S) :
  I [] s →
  (∀ pre x s s', I pre s → x ∈ xs → body s x = Ok s' → I (pre ++ [x]) s') →
  for_each xs body s = Ok s' → I xs s'.
Proof.
  intros Hs Hbody.
  cut (∀ pre s, I pre s → (∀ x, x ∈ xs → x ∈ xs) →
                ∀ ys, (∀ x, x ∈ ys → x ∈ xs) → for_each ys body s = Ok s' → I (pre ++ ys) s').
  { intros H Hrun. apply (H [] s Hs (fun _ h => h) xs); auto. }
  intros pre s0 Hpre _ ys. revert pre s0 Hpre.
  induction ys as [|y ys IH]; intros pre s0 Hpre Hsub Hrun; simpl in Hrun.
  - injection Hrun as <-. by rewrite app_nil_r.
  - apply bind_Ok in Hrun as (s1 & H1 & Hrun).
    rewrite (cons_middle y pre ys), app_assoc.
    apply (IH (pre ++ [y]) s1); [|intros; apply Hsub; by right|done].
    eapply Hbody; [done| |done]. apply Hsub. by left.
Qed.

(** A loop whose body never raises under the invariant returns. *)
Lemma for_each_total {A S : Type} (I : list A → S → Prop) (xs : list A)
    (body : S → A → result S) (s : S) :
  I [] s →
  (∀ pre x post s, xs = pre ++ x :: post → I pre s →
                   ∃ s', body s x = Ok s' ∧ I (pre ++ [x]) s') →
  ∃ s', for_each xs body s = Ok s' ∧ I xs s'.
Proof.
  intros Hs Hbody.
  cut (∀ ys pre s, xs = pre ++ ys → I pre s → ∃ s', for_each ys body s = Ok s' ∧ I xs s').
  { intros H. by apply (H xs []). }
  intros ys. induction ys as [|y ys IH]; intros pre s0 Hxs Hpre; simpl.
  - rewrite app_nil_r in Hxs. subst. eauto.
  - destruct (Hbody pre y ys s0 Hxs Hpre) as (s1 & -> & H1). simpl.
    apply (IH (pre ++ [y])); [|done]. by rewrite <- app_assoc.
Qed.

Lemma foldl_inv_seen {A S : Type} (I : list A → S → Prop) (xs : list A)
    (f : S → A → S) (s : S) :
  I [] s →
  (∀ pre x post s, xs = pre ++ x :: post → I pre s → I (pre ++ [x]) (f s x)) →
  I xs (foldl f s xs).
Proof.
  intros Hs Hf.
  cut (∀ ys pre s, xs = pre ++ ys → I pre s → I xs (foldl f s ys)).
  { intros H. by apply (H xs []). }
  intros ys. induction ys as [|y ys IH]; intros pre s0 Hxs Hpre; simpl.
  - rewrite app_nil_r in Hxs. by subst.
  - apply (IH (pre ++ [y])); [by rewrite <- app_assoc|]. by eapply Hf.
Qed.

(** ** iBGP zone extraction *)

Lemma get_bgp_attrs_router (g : NetworkGraph) (n : string) (b : BGPAttrs) :
  get_bgp_attrs g n = Ok b → is_router g n = Ok true.
Proof. unfold get_bgp_attrs. intros H. inv_ok. by subst. Qed.

Lemma get_bgp_asnum_router (g : NetworkGraph) (n : string) (a : option Z) :
  get_bgp_asnum g n = Ok a → is_router g n = Ok true.
Proof. unfold get_bgp_asnum. intros H. inv_ok. by eapply get_bgp_attrs_router. Qed.

Lemma is_router_node (g : NetworkGraph) (n : string) :
  is_router g n = Ok true → n ∈ nodes g.
Proof.
  intros [H|H]%is_router_true; unfold is_peer, is_local_router in H;
    destruct (has_node g n) eqn:E; simpl in H; try discriminate;
    by apply dict_has_true in E.
Qed.

Lemma is_bgp_enabled_spec (g : NetworkGraph) (n : string) (b : bool) :
  is_bgp_enabled g n = Ok b →
  ∃ a, get_bgp_asnum g n = Ok a ∧ b = bool_decide (is_Some a).
Proof. unfold is_bgp_enabled. intros H. inv_ok. eauto. Qed.

Lemma asmap_add_get_eq asmap a node :
  dict_get (asmap_add asmap a node) a = Some (default [] (dict_get asmap a) ++ [node]).
Proof.
  unfold asmap_add. rewrite dict_get_set_eq. do 2 f_equal.
  destruct (dict_has asmap a) eqn:E; [done|].
  rewrite dict_get_set_eq. apply dict_has_false, dict_get_None in E. by rewrite E.
Qed.

Lemma asmap_add_get_ne asmap a node k :
  a ≠ k → dict_get (asmap_add asmap a node) k = dict_get asmap k.
Proof.
  intros Hne. unfold asmap_add. rewrite dict_get_set_ne by done.
  destruct (dict_has asmap a); [done | by rewrite dict_get_set_ne].
Qed.

Lemma asmap_add_NoDup asmap a node :
  NoDup (dict_keys asmap) → NoDup (dict_keys (asmap_add asmap a node)).
Proof.
  intros H. unfold asmap_add. apply dict_keys_set_NoDup.
  destruct (dict_has asmap a); [done | by apply dict_keys_set_NoDup].
Qed.

(** [asmap] lists, per AS number, exactly the routers that have it. *)
Lemma build_asmap_spec (g : NetworkGraph) (asmap : list (Z * list string)) :
  build_asmap g = Ok asmap →
  NoDup (dict_keys asmap) ∧
  (∀ r a, get_bgp_asnum g r = Ok (Some a) →
          ∃ seeds, dict_get asmap a = Some seeds ∧ r ∈ seeds) ∧
  (∀ a seeds r, dict_get asmap a = Some seeds → r ∈ seeds →
                get_bgp_asnum g r = Ok (Some a)).
Proof.
  intros Hrun.
  cut (NoDup (dict_keys asmap) ∧
       (∀ r a, r ∈ nodes g → get_bgp_asnum g r = Ok (Some a) →
               ∃ seeds, dict_get asmap a = Some seeds ∧ r ∈ seeds) ∧
       (∀ a seeds r, dict_get asmap a = Some seeds → r ∈ seeds →
                     get_bgp_asnum g r = Ok (Some a))).
  { intros (H1 & H2 & H3). split_and!; [done| |done].
    intros r a Ha. apply H2; [|done].
    by eapply is_router_node, get_bgp_asnum_router. }
  revert Hrun. unfold build_asmap.
  apply (for_each_inv_seen (fun pre asmap =>
    NoDup (dict_keys asmap) ∧
    (∀ r a, r ∈ pre → get_bgp_asnum g r = Ok (Some a) →
            ∃ seeds, dict_get asmap a = Some seeds ∧ r ∈ seeds) ∧
    (∀ a seeds r, dict_get asmap a = Some seeds → r ∈ seeds →
                  get_bgp_asnum g r = Ok (Some a)))).
  { split_and!; [apply NoDup_nil_2 | by intros ?? ?%elem_of_nil | done]. }
  intros pre x s s' (Hnd & Hin & Hout) _ Hbody. simpl in Hbody.
  apply bind_Ok in Hbody as (r & Hr & Hbody).
  assert (Hkeep : s' = s → (∀ a, get_bgp_asnum g x ≠ Ok (Some a)) →
    NoDup (dict_keys s') ∧
    (∀ r a, r ∈ pre ++ [x] → get_bgp_asnum g r = Ok (Some a) →
            ∃ seeds, dict_get s' a = Some seeds ∧ r ∈ seeds) ∧
    (∀ a seeds r, dict_get s' a = Some seeds → r ∈ seeds →
                  get_bgp_asnum g r = Ok (Some a))).
  { intros -> Hx. split_and!; [done| |done].
    intros r' a [?| ->%list_elem_of_singleton]%elem_of_app ?; [eauto | by destruct (Hx a)]. }
  destruct r.
  2:{ injection Hbody as <-. apply Hkeep; [done|].
      intros a Ha%get_bgp_asnum_router. congruence. }
  apply bind_Ok in Hbody as (en & Hen & Hbody).
  apply is_bgp_enabled_spec in Hen as (a & Ha & ->).
  destruct a as [a|]; simpl in Hbody.
  2:{ injection Hbody as <-. apply Hkeep; [done|]. intros a. congruence. }
  rewrite Ha in Hbody. simpl in Hbody. injection Hbody as <-.
  fold (asmap_add s a x).
  split_and!.
  - by apply asmap_add_NoDup.
  - intros r' a' Hr' Ha'. destruct (decide (a = a')) as [<-|Hne].
    + rewrite asmap_add_get_eq. eexists; split; [done|].
      apply elem_of_app in Hr' as [Hr'| ->%list_elem_of_singleton].
      * destruct (Hin r' a Hr' Ha') as (seeds & -> & ?). simpl. apply elem_of_app; auto.
      * apply elem_of_app. right. by apply list_elem_of_singleton.
    + rewrite asmap_add_get_ne by done.
      apply elem_of_app in Hr' as [Hr'| ->%list_elem_of_singleton]; [eauto|congruence].
  - intros a' seeds r'. destruct (decide (a = a')) as [<-|Hne].
    + rewrite asmap_add_get_eq. intros [= <-] [Hr'| ->%list_elem_of_singleton]%elem_of_app; [|done].
      destruct (dict_get s a) eqn:E; simpl in Hr'; [eauto | by apply elem_of_nil in Hr'].
    + rewrite asmap_add_get_ne by done. eauto.
Qed.

Section graph_facts.
Context {N A : Type} `{EqDecision N}.
Implicit Types (g : Graph N A) (u v n : N).

Lemma gr_has_node_true g n : gr_has_node g n = true ↔ n ∈ gr_nodes g.
Proof. apply dict_has_true. Qed.

Lemma gr_has_edge_true g u v :
  gr_has_edge g u v = true ↔ (u, v) ∈ gr_edges g ∨ (v, u) ∈ gr_edges g.
Proof. unfold gr_has_edge. by rewrite bool_decide_eq_true. Qed.

Lemma gr_nodes_add_node a n g n' :
  n' ∈ gr_nodes (gr_add_node a n g) ↔ n' = n ∨ n' ∈ gr_nodes g.
Proof. apply dict_keys_set_elem. Qed.

Lemma gr_nodes_add_node_NoDup a n g :
  NoDup (gr_nodes g) → NoDup (gr_nodes (gr_add_node a n g)).
Proof. apply dict_keys_set_NoDup. Qed.

Lemma gr_nodes_add_node_length a n g :
  length (gr_nodes g) ≤ length (gr_nodes (gr_add_node a n g)).
Proof.
  unfold gr_nodes, gr_add_node. simpl. rewrite dict_keys_set.
  destruct (dict_has _ _); [done|]. rewrite length_app. lia.
Qed.

(** The graph after [add_edge]: the endpoints are nodes, the other nodes
    and edges stay, and the edge is listed once. *)
Lemma gr_add_edge_nodes empty u v g n :
  n ∈ gr_nodes (gr_add_edge empty u v g) ↔ n = u ∨ n = v ∨ n ∈ gr_nodes g.
Proof.
  unfold gr_add_edge.
  set (g1 := if gr_has_node g u then g else gr_add_node empty u g).
  set (g2 := if gr_has_node g1 v then g1 else gr_add_node empty v g1).
  assert (H1 : n ∈ gr_nodes g1 ↔ n = u ∨ n ∈ gr_nodes g).
  { unfold g1. destruct (gr_has_node g u) eqn:E.
    - apply gr_has_node_true in E. split; [auto | intros [->|]; done].
    - apply gr_nodes_add_node. }
  assert (H2 : n ∈ gr_nodes g2 ↔ n = v ∨ n ∈ gr_nodes g1).
  { unfold g2. destruct (gr_has_node g1 v) eqn:E.
    - apply gr_has_node_true in E. split; [auto | intros [->|]; done].
    - apply gr_nodes_add_node. }
  assert (n ∈ gr_nodes g2 ↔ n = u ∨ n = v ∨ n ∈ gr_nodes g) by (rewrite H2, H1; tauto).
  by destruct (gr_has_edge g2 u v).
Qed.

Lemma gr_add_edge_nodes_NoDup empty u v g :
  NoDup (gr_nodes g) → NoDup (gr_nodes (gr_add_edge empty u v g)).
Proof.
  intros H. unfold gr_add_edge.
  set (g1 := if gr_has_node g u then g else gr_add_node empty u g).
  set (g2 := if gr_has_node g1 v then g1 else gr_add_node empty v g1).
  assert (NoDup (gr_nodes g1)).
  { unfold g1. destruct (gr_has_node g u); [done | by apply gr_nodes_add_node_NoDup]. }
  assert (NoDup (gr_nodes g2)).
  { unfold g2. destruct (gr_has_node g1 v); [done | by apply gr_nodes_add_node_NoDup]. }
  by destruct (gr_has_edge g2 u v).
Qed.

Lemma gr_add_edge_nodes_length empty u v g :
  length (gr_nodes g) ≤ length (gr_nodes (gr_add_edge empty u v g)).
Proof.
  unfold gr_add_edge.
  set (g1 := if gr_has_node g u then g else gr_add_node empty u g).
  set (g2 := if gr_has_node g1 v then g1 else gr_add_node empty v g1).
  assert (length (gr_nodes g) ≤ length (gr_nodes g1)).
  { unfold g1. destruct (gr_has_node g u); [done | apply gr_nodes_add_node_length]. }
  assert (length (gr_nodes g1) ≤ length (gr_nodes g2)).
  { unfold g2. destruct (gr_has_node g1 v); [done | apply gr_nodes_add_node_length]. }
  destruct (gr_has_edge g2 u v); simpl; unfold gr_nodes in *; simpl; lia.
Qed.

Lemma gr_add_edge_edges empty u v g :
  gr_edges (gr_add_edge empty u v g) = gr_edges g ∨
  (((u, v) ∉ gr_edges g) ∧ gr_edges (gr_add_edge empty u v g) = gr_edges g ++ [(u, v)]).
Proof.
  unfold gr_add_edge.
  set (g1 := if gr_has_node g u then g else gr_add_node empty u g).
  set (g2 := if gr_has_node g1 v then g1 else gr_add_node empty v g1).
  assert (E2 : gr_edges g2 = gr_edges g).
  { unfold g2, g1. by destruct (gr_has_node g u), (gr_has_node _ v). }
  destruct (gr_has_edge g2 u v) eqn:E; [by left|]. right. simpl. rewrite E2.
  split; [|done]. intros Hin.
  assert (gr_has_edge g2 u v = true); [|congruence].
  apply gr_has_edge_true. rewrite E2. by left.
Qed.

Lemma gr_add_edge_has_edge empty u v g u' v' :
  gr_has_edge (gr_add_edge empty u v g) u' v' = true ↔
  gr_has_edge g u' v' = true ∨ (u' = u ∧ v' = v) ∨ (u' = v ∧ v' = u).
Proof.
  rewrite !gr_has_edge_true.
  unfold gr_add_edge.
  set (g1 := if gr_has_node g u then g else gr_add_node empty u g).
  set (g2 := if gr_has_node g1 v then g1 else gr_add_node empty v g1).
  assert (E2 : gr_edges g2 = gr_edges g).
  { unfold g2, g1. by destruct (gr_has_node g u), (gr_has_node _ v). }
  destruct (gr_has_edge g2 u v) eqn:E.
  - apply gr_has_edge_true in E. rewrite E2 in *.
    split; [auto|]. intros [?|[[-> ->]|[-> ->]]]; tauto.
  - simpl. rewrite E2, !elem_of_app, !list_elem_of_singleton.
    split; [intros [[?| [= -> ->]]|[?| [= -> ->]]]; auto|].
    intros [[?|?]|[[-> ->]|[-> ->]]]; auto.
Qed.
End graph_facts.

Lemma graph_neighbors_edge (g : NetworkGraph) (n nb : string) (nbrs : list string) :
  graph_neighbors g n = Ok nbrs → nb ∈ nbrs → (n, nb) ∈ dict_keys (_adj g).
Proof.
  unfold graph_neighbors. destruct (has_node g n); [|discriminate].
  intros [= <-] ([u v] & -> & [Hu Hin]%list_elem_of_filter)%list_elem_of_fmap.
  simpl in *. by subst.
Qed.

Section zone_facts.
Variables (g : NetworkGraph) (asnum : Z).

#[local] Abbreviation admissible := (admissible g asnum).
#[local] Abbreviation zone_universe := (zone_universe g).
#[local] Abbreviation zone_bounded := (zone_bounded g).

(** An induction principle for one pass of zone growth. *)
Lemma grow_zone_ind (I : zone_graph → Prop) (ibgp_nodes : list string)
    (ig ig' : zone_graph) :
  (∀ ig node neighbor,
      I ig → node ∈ ibgp_nodes → (node, neighbor) ∈ dict_keys (_adj g) →
      is_router g neighbor = Ok true → admissible neighbor →
      I (gr_add_edge tt node neighbor ig)) →
  I ig → grow_zone g asnum ibgp_nodes ig = Ok ig' → I ig'.
Proof.
  intros Hstep. unfold grow_zone. apply for_each_inv.
  intros s node s' Hnode Hs Hbody. simpl in Hbody.
  apply bind_Ok in Hbody as (nbrs & Hnbrs & Hbody).
  revert Hs Hbody. apply for_each_inv.
  intros s1 nb s1' Hnb Hs1 Hbody. simpl in Hbody.
  apply bind_Ok in Hbody as (r & Hr & Hbody).
  destruct r; simpl in Hbody; [|by injection Hbody as <-].
  apply bind_Ok in Hbody as (en & Hen & Hbody).
  apply is_bgp_enabled_spec in Hen as (a & Ha & ->).
  pose proof (graph_neighbors_edge _ _ _ _ Hnbrs Hnb) as Hedge.
  destruct a as [a|]; simpl in Hbody.
  - rewrite Ha in Hbody. simpl in Hbody.
    case_decide; injection Hbody as <-; [|done].
    apply Hstep; try done. intros a'. congruence.
  - injection Hbody as <-. apply Hstep; try done. intros a'. congruence.
Qed.

Lemma number_of_nodes_length {N A : Type} (ig : Graph N A) :
  number_of_nodes ig = length (gr_nodes ig).
Proof. unfold number_of_nodes, gr_nodes, dict_keys. by rewrite length_fmap. Qed.

Lemma zone_bounded_size (ig : zone_graph) :
  zone_bounded ig → zone_size ig ≤ length (_node g) + 2 * length (_adj g).
Proof.
  intros (Hn & He & Hns & Hes). unfold zone_size.
  rewrite number_of_nodes_length.
  assert (length (gr_nodes ig) ≤ length zone_universe)
    by by apply submseteq_length, NoDup_submseteq.
  assert (number_of_edges ig ≤ length (dict_keys (_adj g)))
    by by apply submseteq_length, NoDup_submseteq.
  unfold zone_universe, nodes, dict_keys in *.
  rewrite length_app, !length_fmap in *. lia.
Qed.

(** One pass keeps the zone graph bounded and can only grow it. *)
Lemma grow_zone_bounded (ibgp_nodes : list string) (ig ig' : zone_graph) :
  (∀ n, n ∈ ibgp_nodes → n ∈ zone_universe) →
  zone_bounded ig → grow_zone g asnum ibgp_nodes ig = Ok ig' →
  zone_bounded ig' ∧
  number_of_nodes ig ≤ number_of_nodes ig' ∧
  number_of_edges ig ≤ number_of_edges ig' ∧
  (∀ n, n ∈ gr_nodes ig → n ∈ gr_nodes ig').
Proof.
  intros Hnodes Hb.
  apply (grow_zone_ind (fun ig' =>
    zone_bounded ig' ∧
    number_of_nodes ig ≤ number_of_nodes ig' ∧
    number_of_edges ig ≤ number_of_edges ig' ∧
    (∀ n, n ∈ gr_nodes ig → n ∈ gr_nodes ig'))); [|by auto].
  clear Hb. intros ig1 node nb ((Hn & He & Hns & Hes) & Hln & Hle & Hsub) Hnode Hedge _ _.
  pose proof (gr_add_edge_edges tt node nb ig1) as Hedges.
  pose proof (gr_add_edge_nodes_length tt node nb ig1) as Hlen.
  rewrite <- !number_of_nodes_length in Hlen.
  split_and!.
  - split_and!.
    + by apply gr_add_edge_nodes_NoDup.
    + destruct Hedges as [-> | [Hnew ->]]; [done|].
      apply NoDup_app. split_and!; [done| |apply NoDup_singleton].
      intros e He1 ->%list_elem_of_singleton. done.
    + intros n [->|[->|Hin]]%gr_add_edge_nodes; [by apply Hnodes| |by apply Hns].
      unfold zone_universe. apply elem_of_app. right.
      apply list_elem_of_fmap. by exists (node, nb).
    + destruct Hedges as [-> | [Hnew ->]]; [done|].
      intros e [?| ->%list_elem_of_singleton]%elem_of_app; auto.
  - lia.
  - unfold number_of_edges in *.
    destruct Hedges as [-> | [Hnew ->]]; [done|]. rewrite length_app. simpl. lia.
  - intros n Hin. apply gr_add_edge_nodes. auto.
Qed.

(** The loop returns within the bound: a pass that changes the size makes
    the graph strictly larger, and the size is bounded. *)
Lemma zone_loop_terminates (fuel : nat) (ibgp_nodes : list string) (ig : zone_graph) :
  (∀ n, n ∈ ibgp_nodes → n ∈ zone_universe) →
  zone_bounded ig →
  length (_node g) + 2 * length (_adj g) - zone_size ig < fuel →
  is_Some (zone_loop fuel g asnum ibgp_nodes
                     (number_of_nodes ig, number_of_edges ig) ig).
Proof.
  revert ibgp_nodes ig. induction fuel as [|fuel IH]; intros ibgp_nodes ig Hnodes Hb Hfuel.
  - lia.
  - simpl. destruct (grow_zone g asnum ibgp_nodes ig) as [ig'|e] eqn:E; [|eauto].
    destruct (grow_zone_bounded _ _ _ Hnodes Hb E) as (Hb' & Hn & He & _).
    case_decide as Hsize; [|eauto].
    apply IH; [by apply Hb'|done|].
    pose proof (zone_bounded_size _ Hb').
    assert (zone_size ig < zone_size ig'); [|lia].
    unfold zone_size.
    destruct (decide (number_of_nodes ig' = number_of_nodes ig)) as [En|];
      destruct (decide (number_of_edges ig' = number_of_edges ig)) as [Ee|]; try lia.
    by rewrite En, Ee in Hsize.
Qed.

(** The routers of the zone are admissible, and the seeds stay in it. *)
Lemma zone_loop_sound (fuel : nat) (ibgp_nodes : list string) (prev_size : nat * nat)
    (ig z : zone_graph) :
  (∀ n, n ∈ ibgp_nodes → admissible n) →
  (∀ n, n ∈ gr_nodes ig → admissible n) →
  zone_loop fuel g asnum ibgp_nodes prev_size ig = Some (Ok z) →
  (∀ n, n ∈ gr_nodes z → admissible n) ∧ (∀ n, n ∈ gr_nodes ig → n ∈ gr_nodes z).
Proof.
  revert ibgp_nodes prev_size ig.
  induction fuel as [|fuel IH]; intros ibgp_nodes prev_size ig Hnodes Hig Hrun; [done|].
  simpl in Hrun. destruct (grow_zone g asnum ibgp_nodes ig) as [ig'|e] eqn:E; [|done].
  assert (Hig' : (∀ n, n ∈ gr_nodes ig' → admissible n) ∧
                 (∀ n, n ∈ gr_nodes ig → n ∈ gr_nodes ig')).
  { revert E.
    apply (grow_zone_ind (fun ig' =>
      (∀ n, n ∈ gr_nodes ig' → admissible n) ∧
      (∀ n, n ∈ gr_nodes ig → n ∈ gr_nodes ig'))); [|by auto].
    intros ig1 node nb [Hadm Hsub] Hnode _ _ Hnb. split.
    - intros n [->|[->|Hin]]%gr_add_edge_nodes; auto.
    - intros n Hin. apply gr_add_edge_nodes. auto. }
  destruct Hig' as [Hadm Hsub].
  case_decide.
  - destruct (IH _ _ _ Hadm Hadm Hrun) as [? ?]. split; auto.
  - injection Hrun as <-. auto.
Qed.
End zone_facts.

Lemma seed_graph_nodes (seeds : list string) (ig : zone_graph) (n : string) :
  n ∈ gr_nodes (foldl (fun ig node => gr_add_node tt node ig) ig seeds) ↔
  n ∈ seeds ∨ n ∈ gr_nodes ig.
Proof.
  revert ig. induction seeds as [|s seeds IH]; intros ig; simpl.
  - split; [auto | by intros [?%elem_of_nil|?]].
  - rewrite IH, gr_nodes_add_node, elem_of_cons. tauto.
Qed.

Lemma seed_graph_NoDup (seeds : list string) (ig : zone_graph) :
  NoDup (gr_nodes ig) →
  NoDup (gr_nodes (foldl (fun ig node => gr_add_node tt node ig) ig seeds)).
Proof.
  revert ig. induction seeds as [|s seeds IH]; intros ig H; simpl; [done|].
  by apply IH, gr_nodes_add_node_NoDup.
Qed.

Lemma seed_graph_edges (seeds : list string) (ig : zone_graph) :
  gr_edges (foldl (fun ig node => gr_add_node tt node ig) ig seeds) = gr_edges ig.
Proof.
  revert ig. induction seeds as [|s seeds IH]; intros ig; simpl; [done|]. by rewrite IH.
Qed.

Lemma zone_of_terminates (g : NetworkGraph) (asnum : Z) (seeds : list string) :
  (∀ n, n ∈ seeds → n ∈ nodes g) →
  is_Some (zone_of (zone_passes g) g asnum seeds).
Proof.
  intros Hseeds. unfold zone_of. apply zone_loop_terminates.
  - intros n Hn. apply elem_of_app. auto.
  - split_and!.
    + apply seed_graph_NoDup, NoDup_nil_2.
    + rewrite seed_graph_edges. apply NoDup_nil_2.
    + intros n [Hn|Hn%elem_of_nil]%seed_graph_nodes; [|done]. apply elem_of_app. auto.
    + rewrite seed_graph_edges. by intros e ?%elem_of_nil.
  - unfold zone_passes. lia.
Qed.

Lemma zone_of_sound (fuel : nat) (g : NetworkGraph) (asnum : Z) (seeds : list string)
    (z : zone_graph) :
  (∀ n, n ∈ seeds → admissible g asnum n) →
  zone_of fuel g asnum seeds = Some (Ok z) →
  (∀ n, n ∈ gr_nodes z → admissible g asnum n) ∧ (∀ n, n ∈ seeds → n ∈ gr_nodes z).
Proof.
  intros Hseeds Hrun. unfold zone_of in Hrun.
  apply zone_loop_sound in Hrun as [Hadm Hsub]; [|done|].
  - split; [done|]. intros n Hn. apply Hsub, seed_graph_nodes. auto.
  - intros n [Hn|Hn%elem_of_nil]%seed_graph_nodes; [auto|done].
Qed.

Lemma zones_of_terminates (g : NetworkGraph) (asmap : list (Z * list string))
    (zones : list (Z * zone_graph)) :
  (∀ a seeds n, (a, seeds) ∈ asmap → n ∈ seeds → n ∈ nodes g) →
  is_Some (zones_of (zone_passes g) g asmap zones).
Proof.
  revert zones. induction asmap as [|[a seeds] asmap IH]; intros zones Hin; simpl; [eauto|].
  destruct (zone_of_terminates g a seeds) as [[z|e] ->]; [| |eauto].
  - intros n Hn. eapply Hin; [left|done].
  - apply IH. intros a' seeds' n ??. eapply Hin; [by right|done].
Qed.

Lemma zones_of_spec (fuel : nat) (g : NetworkGraph) (asmap : list (Z * list string))
    (zones0 zones : list (Z * zone_graph)) :
  NoDup (dict_keys asmap) → NoDup (dict_keys zones0) →
  (∀ a seeds n, (a, seeds) ∈ asmap → n ∈ seeds → get_bgp_asnum g n = Ok (Some a)) →
  zones_of fuel g asmap zones0 = Some (Ok zones) →
  NoDup (dict_keys zones) ∧
  (∀ k, k ∉ dict_keys asmap → dict_get zones k = dict_get zones0 k) ∧
  (∀ k seeds, (k, seeds) ∈ asmap →
     ∃ z, dict_get zones k = Some z ∧
          (∀ n, n ∈ gr_nodes z → admissible g k n) ∧
          (∀ n, n ∈ seeds → n ∈ gr_nodes z)).
Proof.
  revert zones0. induction asmap as [|[a seeds] asmap IH]; intros zones0 Hnd Hnd0 Has Hrun.
  - injection Hrun as <-. split_and!; [done|done|]. by intros ?? ?%elem_of_nil.
  - simpl in Hrun. destruct (zone_of fuel g a seeds) as [[z|e]|] eqn:E; try done.
    unfold dict_keys in Hnd. rewrite fmap_cons in Hnd. apply NoDup_cons in Hnd as [Ha Hnd].
    apply zone_of_sound in E as [Hadm Hsub].
    2:{ intros n Hn a' Ha'. erewrite Has in Ha'; [|left|done]. congruence. }
    destruct (IH (dict_set zones0 a z)) as (H1 & H2 & H3); try done.
    { by apply dict_keys_set_NoDup. }
    { intros a' seeds' n ??. eapply Has; [by right|done]. }
    split_and!; [done| |].
    + intros k Hk. unfold dict_keys in Hk. rewrite fmap_cons in Hk.
      apply not_elem_of_cons in Hk as [Hne Hk].
      rewrite H2 by done. by rewrite dict_get_set_ne.
    + intros k seeds' [[= -> ->]|Hin]%elem_of_cons; [|by apply H3].
      exists z. split_and!; [|done|done].
      rewrite H2 by done. apply dict_get_set_eq.
Qed.

(** On a well-typed topology zone extraction raises no exception. *)
Lemma grow_zone_returns (g : NetworkGraph) (asnum : Z) (ibgp_nodes : list string)
    (ig : zone_graph) :
  well_typed g → (∀ n, n ∈ ibgp_nodes → n ∈ nodes g) →
  ∃ ig', grow_zone g asnum ibgp_nodes ig = Ok ig'.
Proof.
  intros Hwt Hnodes. unfold grow_zone.
  destruct (for_each_total (fun _ _ => True) ibgp_nodes
    (fun ig node =>
       nbrs ← graph_neighbors g node;
       for_each nbrs
         (fun ig neighbor =>
            r ← is_router g neighbor;
            if negb r then Ok ig
            else
              en ← is_bgp_enabled g neighbor;
              if en : bool then
                a ← get_bgp_asnum g neighbor;
                if decide (a = Some asnum)
                then Ok (gr_add_edge tt node neighbor ig)
                else Ok ig
              else Ok (gr_add_edge tt node neighbor ig))
         ig) ig) as (ig' & Hrun & _); [done| |eauto].
  intros pre node post s Hsplit _.
  assert (Hnode : has_node g node = true).
  { apply dict_has_true, Hnodes. rewrite Hsplit. apply elem_of_app. right. by left. }
  unfold graph_neighbors. rewrite Hnode. simpl.
  match goal with |- ∃ s', for_each ?l ?body s = Ok s' ∧ True =>
    destruct (for_each_total (fun _ _ => True) l body s) as (s' & Hs' & _); [done| |eauto]
  end.
  intros pre' nb post' s1 _ _.
  destruct (Hwt nb) as [[b Hb] Hattrs]. rewrite Hb. simpl.
  destruct b; simpl; [|eauto].
  destruct (Hattrs Hb) as [attrs Ha].
  unfold is_bgp_enabled, get_bgp_asnum. rewrite Ha. simpl.
  destruct (bool_decide _); [|eauto]. destruct (decide _); eauto.
Qed.

Lemma zone_loop_returns (fuel : nat) (g : NetworkGraph) (asnum : Z)
    (ibgp_nodes : list string) (prev_size : nat * nat) (ig : zone_graph)
    (r : result zone_graph) :
  well_typed g → (∀ n, n ∈ ibgp_nodes → n ∈ nodes g) → (∀ n, n ∈ gr_nodes ig → n ∈ nodes g) →
  zone_loop fuel g asnum ibgp_nodes prev_size ig = Some r → ∃ z, r = Ok z.
Proof.
  intros Hwt. revert ibgp_nodes prev_size ig.
  induction fuel as [|fuel IH]; intros ibgp_nodes prev_size ig Hnodes Hig Hrun; [done|].
  simpl in Hrun. destruct (grow_zone_returns g asnum ibgp_nodes ig Hwt Hnodes) as [ig' E].
  rewrite E in Hrun.
  assert (Hig' : ∀ n, n ∈ gr_nodes ig' → n ∈ nodes g).
  { revert E. apply (grow_zone_ind g asnum (fun ig' => ∀ n, n ∈ gr_nodes ig' → n ∈ nodes g));
      [|done].
    intros ig1 node nb Hig1 Hnode _ Hnb _ n [->|[->|Hin]]%gr_add_edge_nodes; auto.
    by apply is_router_node. }
  case_decide; [by eapply IH|]. injection Hrun as <-. eauto.
Qed.

Lemma extract_ibgp_zones_returns (g : NetworkGraph) :
  well_typed g → ∃ zones, extract_ibgp_zones g = Some (Ok zones).
Proof.
  intros Hwt. unfold extract_ibgp_zones.
  assert (∃ asmap, build_asmap g = Ok asmap) as [asmap Easmap].
  { unfold build_asmap.
    match goal with |- ∃ s', for_each ?l ?body ?s = Ok s' =>
      destruct (for_each_total (fun _ _ => True) l body s) as (s' & Hs' & _); [done| |eauto]
    end.
    intros pre n post s _ _. destruct (Hwt n) as [[b Hb] Hattrs]. rewrite Hb. simpl.
    destruct b; [|eauto]. destruct (Hattrs Hb) as [attrs Ha].
    unfold is_bgp_enabled, get_bgp_asnum. rewrite Ha. simpl.
    destruct (asnum attrs); simpl; eauto. }
  rewrite Easmap. destruct (build_asmap_spec _ _ Easmap) as (Hnd & _ & Hout).
  assert (Hseeds : ∀ a seeds n, (a, seeds) ∈ asmap → n ∈ seeds → n ∈ nodes g).
  { intros a seeds n Hs Hn.
    eapply is_router_node, get_bgp_asnum_router, Hout; [|done]. by apply dict_get_elem_NoDup. }
  clear Hnd Hout Easmap. generalize (@nil (Z * zone_graph)).
  induction asmap as [|[a seeds] asmap IH]; intros zones; simpl; [eauto|].
  destruct (zone_of_terminates g a seeds) as [r Hr].
  { intros n Hn. eapply Hseeds; [left|done]. }
  rewrite Hr. unfold zone_of in Hr.
  apply zone_loop_returns in Hr as [z ->]; [|done|..].
  - apply IH. intros a' seeds' n ??. eapply Hseeds; [by right|done].
  - intros n Hn. eapply Hseeds; [left|done].
  - intros n [Hn|Hn%elem_of_nil]%seed_graph_nodes; [|done]. eapply Hseeds; [left|done].
Qed.

Lemma well_typedb_correct (g : NetworkGraph) : well_typedb g = true → well_typed g.
Proof.
  unfold well_typedb. rewrite forallb_forall. intros Hall n.
  destruct (decide (n ∈ nodes g)) as [Hin|Hout].
  - apply list_elem_of_In, Hall in Hin.
    destruct (is_router g n) as [[]|]; [|split; [eauto|done]|done].
    destruct (get_bgp_attrs g n); [split; eauto|done].
  - apply has_node_false in Hout.
    assert (Hr : is_router g n = Ok false)
      by (unfold is_router, is_peer, is_local_router, vertex_type_is; rewrite Hout; done).
    rewrite Hr. split; [eauto|done].
Qed.

(** C1: zone extraction always ends within its bound on the number of
    passes, on a well-typed topology it returns a mapping, and in the mapping
    it returns every router with a BGP AS number is a member of the zone keyed
    by its own AS number and of no zone keyed by another AS number (the keys
    of the mapping are distinct). *)
Theorem ibgp_zones_partition (g : NetworkGraph) :
  is_Some (extract_ibgp_zones g) ∧
  (well_typed g → ∃ zones, extract_ibgp_zones g = Some (Ok zones)) ∧
  ∀ zones, extract_ibgp_zones g = Some (Ok zones) →
    NoDup (dict_keys zones) ∧
    ∀ r a, get_bgp_asnum g r = Ok (Some a) →
      (∃ z, dict_get zones a = Some z ∧ r ∈ gr_nodes z) ∧
      (∀ k z, (k, z) ∈ zones → r ∈ gr_nodes z → k = a).
Proof.
  split_and!; [|apply extract_ibgp_zones_returns|]; unfold extract_ibgp_zones;
    (destruct (build_asmap g) as [asmap|e] eqn:Easmap; [|by eauto]);
    destruct (build_asmap_spec _ _ Easmap) as (Hnd & Hin & Hout).
  - apply zones_of_terminates. intros a seeds n Hs Hn.
    eapply is_router_node, get_bgp_asnum_router, Hout; [|done].
    by apply dict_get_elem_NoDup.
  - intros zones Hrun.
    apply zones_of_spec in Hrun as (Hndz & Hother & Hzone); [|done|apply NoDup_nil_2|].
    2:{ intros a seeds n Hs Hn. eapply Hout; [|done]. by apply dict_get_elem_NoDup. }
    split; [done|]. intros r a Ha. split.
    + destruct (Hin r a Ha) as (seeds & Hseeds%dict_get_Some_elem & Hr).
      destruct (Hzone a seeds Hseeds) as (z & Hz & _ & Hsub). eauto.
    + intros k z Hkz Hr. apply (dict_get_elem_NoDup _ _ _ Hndz) in Hkz.
      destruct (decide (k ∈ dict_keys asmap)) as [Hk|Hk].
      * apply list_elem_of_fmap in Hk as ([k' seeds] & -> & Hs). simpl in *.
        destruct (Hzone k' seeds Hs) as (z' & Hz' & Hadm & _).
        assert (z' = z) as -> by congruence. symmetry. by apply (Hadm r).
      * rewrite Hother in Hkz by done. done.
Qed.

Lemma ibgp_zones_partition_witness :
  well_typed topo_A ∧
  extract_ibgp_zones topo_A
    = Some (Ok [(10%Z, mkGraph [("R1", tt)] []); (20%Z, mkGraph [("R2", tt)] [])]) ∧
  get_bgp_asnum topo_A "R2" = Ok (Some 20%Z) ∧
  (∃ zones, extract_ibgp_zones topo_A = Some (Ok zones)) ∧
  ((∃ z, dict_get [(10%Z, mkGraph [("R1", tt)] []); (20%Z, mkGraph [("R2", tt)] [])] 20%Z
           = Some z ∧ "R2" ∈ gr_nodes z) ∧
   (∀ k z, (k, z) ∈ [(10%Z, mkGraph [("R1", tt)] []); (20%Z, mkGraph [("R2", tt)] [])] →
           "R2" ∈ gr_nodes z → k = 20%Z)).
Proof.
  assert (H0 : well_typed topo_A) by (apply well_typedb_correct; vm_compute; reflexivity).
  assert (H1 : extract_ibgp_zones topo_A
    = Some (Ok [(10%Z, mkGraph [("R1", tt)] []); (20%Z, mkGraph [("R2", tt)] [])]))
    by (vm_compute; reflexivity).
  assert (H2 : get_bgp_asnum topo_A "R2" = Ok (Some 20%Z)) by (vm_compute; reflexivity).
  split; [exact H0|]. split; [exact H1|]. split; [exact H2|]. split.
  - exact (proj1 (proj2 (ibgp_zones_partition topo_A)) H0).
  - exact (proj2 (proj2 (proj2 (ibgp_zones_partition topo_A)) _ H1) "R2" 20%Z H2).
Defined.

(** The zones that [extract_ibgp_zones] returns agree with the AS numbers. *)
Lemma extract_ibgp_zones_sound (g : NetworkGraph) (zones : list (Z * zone_graph)) :
  extract_ibgp_zones g = Some (Ok zones) → zones_sound g zones.
Proof.
  unfold extract_ibgp_zones.
  destruct (build_asmap g) as [asmap|e] eqn:Easmap; [|done].
  destruct (build_asmap_spec _ _ Easmap) as (Hnd & Hin & Hout).
  intros Hrun.
  apply zones_of_spec in Hrun as (Hndz & Hother & Hzone); [|done|apply NoDup_nil_2|].
  2:{ intros a seeds n Hs Hn. eapply Hout; [|done]. by apply dict_get_elem_NoDup. }
  intros k z n Hkz Hn.
  destruct (decide (k ∈ dict_keys asmap)) as [Hk|Hk].
  - apply list_elem_of_fmap in Hk as ([k' seeds] & -> & Hs). simpl in *.
    destruct (Hzone k' seeds Hs) as (z' & Hz' & Hadm & _).
    assert (z' = z) as -> by congruence. by apply Hadm.
  - rewrite Hother in Hkz by done. done.
Qed.

(** ** Sets *)

Section pyset_facts.
Context {A : Type} `{EqDecision A}.
Implicit Types (s l : list A) (x : A).

Lemma elem_of_set_add s x y : y ∈ set_add s x ↔ y ∈ s ∨ y = x.
Proof.
  unfold set_add. case_decide.
  - split; [auto | intros [?| ->]; done].
  - by rewrite elem_of_app, list_elem_of_singleton.
Qed.

Lemma elem_of_foldl_set_add s l y : y ∈ foldl set_add s l ↔ y ∈ s ∨ y ∈ l.
Proof.
  revert s. induction l as [|x l IH]; intros s; simpl.
  - split; [auto | by intros [?|?%elem_of_nil]].
  - rewrite IH, elem_of_set_add, elem_of_cons. tauto.
Qed.

Lemma elem_of_set_union s l y : y ∈ set_union s l ↔ y ∈ s ∨ y ∈ l.
Proof. apply elem_of_foldl_set_add. Qed.

Lemma elem_of_set_of_list l y : y ∈ set_of_list l ↔ y ∈ l.
Proof.
  unfold set_of_list. rewrite elem_of_foldl_set_add.
  split; [by intros [?%elem_of_nil|?] | auto].
Qed.
End pyset_facts.

Lemma mapM_result_lookup {A B : Type} (f : A → result B) (l : list A) (k : list B) :
  mapM f l = Ok k →
  length k = length l ∧ ∀ i x, l !! i = Some x → ∃ y, k !! i = Some y ∧ f x = Ok y.
Proof.
  revert k. induction l as [|x l IH]; intros k Hrun; simpl in Hrun.
  - injection Hrun as <-. split; [done|]. intros i y. by rewrite lookup_nil.
  - apply bind_Ok in Hrun as (y & Hy & Hrun).
    apply bind_Ok in Hrun as (k' & Hk' & Hrun). injection Hrun as <-.
    destruct (IH _ Hk') as [Hlen Hlook]. split; [simpl; by rewrite Hlen|].
    intros [|i] x'; simpl; [intros [= <-]; eauto | apply Hlook].
Qed.

(** ** The AS-path expander *)

Lemma py_last_Ok {A : Type} (l : list A) (x : A) : py_last l = Ok x ↔ list.last l = Some x.
Proof.
  unfold py_last. destruct (list.last l); split; intros H; try done; congruence.
Qed.

Lemma bgp_path_step_enabled (g : NetworkGraph) (l : list Z) (n : string) (a : Z) :
  get_bgp_asnum g n = Ok (Some a) →
  bgp_path_step g l n = Ok (if bool_decide (list.last l ≠ Some a) then l ++ [a] else l).
Proof.
  intros Ha. unfold bgp_path_step, is_bgp_enabled. rewrite Ha. simpl.
  by destruct (bool_decide _).
Qed.

Section expand_facts.
Variables (g : NetworkGraph) (zones : list (Z * zone_graph)) (aspath : list Z).
Variable tt : list (list string).
Hypothesis Hzones : zones_sound g zones.
Hypothesis Hnbrs : neighbors_enabled g.
Hypothesis Htt : mapM (zone_nodes zones) aspath = Ok tt.

#[local] Abbreviation good := (good_path g aspath).

Lemma tt_zone (i : nat) (zone : list string) (n : string) (a a' : Z) :
  tt !! i = Some zone → aspath !! i = Some a → n ∈ zone →
  get_bgp_asnum g n = Ok (Some a') → a' = a.
Proof.
  intros Hzone Ha Hn Ha'.
  destruct (mapM_result_lookup _ _ _ Htt) as [_ Hlook].
  destruct (Hlook i a Ha) as (zone' & Hz' & Hz). rewrite Hzone in Hz'. injection Hz' as <-.
  unfold zone_nodes in Hz. destruct (dict_get zones a) as [z|] eqn:E; [|done].
  injection Hz as <-. rewrite elem_of_set_of_list in Hn.
  exact (Hzones a z n E Hn a' Ha').
Qed.

(** One eBGP hop into the next AS of the sequence. *)
Lemma good_hop (i : nat) (p : list string) (nb : string) (a' : Z) :
  good i p → aspath !! S i = Some a' → get_bgp_asnum g nb = Ok (Some a') →
  aspath !! i ≠ Some a' → nb ∉ p → good (S i) (p ++ [nb]).
Proof.
  intros ((n & a & Hlast & Ha & Hn) & Hcol & Hmem & Hnd) Ha' Hnb Hne Hfresh.
  split_and!.
  - exists nb, a'. by rewrite last_snoc.
  - rewrite for_each_app, Hcol. simpl.
    rewrite (bgp_path_step_enabled _ _ _ _ Hnb).
    rewrite (take_S_r _ _ _ Ha'). rewrite bool_decide_eq_true_2; [done|].
    rewrite (take_S_r _ _ _ Ha), last_snoc. congruence.
  - intros r [Hr| ->%list_elem_of_singleton]%elem_of_app.
    + destruct (Hmem r Hr) as (j & b & ? & ? & ?). exists j, b. split_and!; [lia|done|done].
    + exists (S i), a'. done.
  - intros H1 H2. apply NoDup_app. split_and!; [auto| |apply NoDup_singleton].
    intros r Hr ->%list_elem_of_singleton. done.
Qed.

(** One more hop inside the AS that was just entered. *)
Lemma good_ibgp_hop (i : nat) (p : list string) (nb nn : string) (a' : Z)
    (nns : list string) :
  good i p → good (S i) (p ++ [nb]) → aspath !! S i = Some a' →
  get_bgp_neighbors g nb = Ok nns → nn ∈ nns →
  get_bgp_asnum g nn = Ok (Some a') → good (S i) ((p ++ [nb]) ++ [nn]).
Proof.
  intros (_ & _ & Hmem0 & _) (_ & Hcol & Hmem & Hnd) Ha' Hnns Hnn Hann.
  split_and!.
  - exists nn, a'. by rewrite last_snoc.
  - rewrite for_each_app, Hcol. simpl.
    rewrite (bgp_path_step_enabled _ _ _ _ Hann).
    rewrite bool_decide_eq_false_2; [done|].
    intros H. apply H. rewrite (take_S_r _ _ _ Ha'). by rewrite last_snoc.
  - intros r [Hr| ->%list_elem_of_singleton]%elem_of_app; [by apply Hmem|].
    exists (S i), a'. done.
  - intros H1 H2. apply NoDup_app. split_and!; [auto| |apply NoDup_singleton].
    intros r Hr ->%list_elem_of_singleton.
    apply elem_of_app in Hr as [Hr| ->%list_elem_of_singleton].
    + destruct (Hmem0 _ Hr) as (j & b & Hj & Hb & Hab).
      assert (b = a') as -> by congruence.
      pose proof (NoDup_lookup _ _ _ _ H1 Hb Ha'). lia.
    + by apply (H2 _ _ Hnns).
Qed.

(** A round that is not the last replaces every partial path by its
    extensions. *)
Lemma expand_step_not_last (i : nat) (p : list string) (rest out : list (list string)) :
  good i p →
  expand_step g tt i false (p :: rest) p = Ok out →
  ∃ added, out = rest ++ added ∧ ∀ q, q ∈ added → good (S i) q.
Proof.
  intros Hgood Hrun. unfold expand_step in Hrun. simpl in Hrun.
  rewrite decide_True in Hrun by done. simpl in Hrun.
  apply bind_Ok in Hrun as (last_node & Hlast%py_last_Ok & Hrun).
  apply bind_Ok in Hrun as (bgp_neighbors & Hneigh & Hrun).
  apply bind_Ok in Hrun as (curras & Hcurras & Hrun).
  pose proof Hgood as ((n & a & Hlast' & Ha & Hn) & _).
  assert (n = last_node) as -> by congruence.
  assert (curras = Some a) as -> by congruence.
  revert Hrun.
  apply (for_each_inv (fun s => ∃ added, s = rest ++ added ∧ ∀ q, q ∈ added → good (S i) q)).
  2:{ exists []. split; [by rewrite app_nil_r | by intros ? ?%elem_of_nil]. }
  intros s nb s' Hnb (added & -> & Hadded) Hbody. simpl in Hbody.
  apply bind_Ok in Hbody as (neighbor_as & Hnas & Hbody).
  destruct neighbor_as as [na|]; [|by destruct (Hnbrs _ _ _ Hneigh Hnb)].
  case_bool_decide as Hne; simpl in Hbody; [|injection Hbody as <-; eauto].
  case_bool_decide as Hfresh; [|injection Hbody as <-; eauto].
  destruct (tt !! S i) as [zone|] eqn:Ezone; [|done].
  case_bool_decide as Hzone; [|injection Hbody as <-; eauto].
  apply bind_Ok in Hbody as (nns & Hnns & Hbody).
  destruct (mapM_result_lookup _ _ _ Htt) as [Hlen _].
  assert (is_Some (aspath !! S i)) as [a' Ha'].
  { apply lookup_lt_is_Some. rewrite <- Hlen. apply lookup_lt_is_Some. eauto. }
  assert (na = a') as -> by by eapply tt_zone.
  assert (Hhop : good (S i) (p ++ [nb])).
  { apply (good_hop i p nb a'); try done. congruence. }
  revert Hbody.
  apply (for_each_inv (fun s => ∃ added, s = rest ++ added ∧ ∀ q, q ∈ added → good (S i) q)).
  2:{ exists (added ++ [p ++ [nb]]). split; [by rewrite app_assoc|].
      intros q [?| ->%list_elem_of_singleton]%elem_of_app; auto. }
  intros s1 nn s1' Hnn (added1 & -> & Hadded1) Hbody. simpl in Hbody.
  apply bind_Ok in Hbody as (nn_as & Hnnas & Hbody).
  case_bool_decide as Hsame; injection Hbody as <-; [|eauto].
  exists (added1 ++ [(p ++ [nb]) ++ [nn]]). split; [by rewrite app_assoc|].
  intros q [?| ->%list_elem_of_singleton]%elem_of_app; [auto|].
  eapply good_ibgp_hop; try done. congruence.
Qed.

Lemma expand_round_not_last (i : nat) (cur out : list (list string)) :
  i ≠ length tt - 1 →
  (∀ p, p ∈ cur → good i p) →
  expand_round g tt cur i = Ok out → ∀ q, q ∈ out → good (S i) q.
Proof.
  intros Hi Hcur. unfold expand_round. rewrite bool_decide_eq_false_2 by done.
  cut (∀ snap acc, (∀ p, p ∈ snap → good i p) → (∀ q, q ∈ acc → good (S i) q) →
         for_each snap (expand_step g tt i false) (snap ++ acc) = Ok out →
         ∀ q, q ∈ out → good (S i) q).
  { intros H Hrun. apply (H cur []); [done|by intros ? ?%elem_of_nil|by rewrite app_nil_r]. }
  clear Hcur. intros snap. induction snap as [|p snap IH]; intros acc Hsnap Hacc Hrun.
  - simpl in Hrun. injection Hrun as <-. done.
  - simpl in Hrun. apply bind_Ok in Hrun as (s1 & H1 & Hrun).
    apply expand_step_not_last in H1 as (added & -> & Hadded); [|apply Hsnap; by left].
    rewrite <- app_assoc in Hrun. apply (IH (acc ++ added)); [| |done].
    + intros ??. apply Hsnap. by right.
    + intros q [?|?]%elem_of_app; auto.
Qed.

(** The last round changes nothing. *)
Lemma expand_round_last (cur out : list (list string)) :
  expand_round g tt cur (length tt - 1) = Ok out → out = cur.
Proof.
  unfold expand_round. rewrite bool_decide_eq_true_2 by done.
  generalize cur at 2 3. intros acc. revert acc.
  induction cur as [|p snap IH]; intros acc Hrun; simpl in Hrun.
  - by injection Hrun as <-.
  - apply bind_Ok in Hrun as (s1 & H1 & Hrun). apply IH in Hrun as ->.
    unfold expand_step in H1. simpl in H1.
    apply bind_Ok in H1 as (? & _ & H1).
    apply bind_Ok in H1 as (nbrs & _ & H1).
    apply bind_Ok in H1 as (? & _ & H1).
    revert H1. apply (for_each_inv (fun s => s = acc)); [|done].
    intros s nb s' _ -> Hbody. simpl in Hbody.
    apply bind_Ok in Hbody as (? & _ & Hbody). by injection Hbody as <-.
Qed.

Lemma expand_rounds (n i : nat) (cur out : list (list string)) :
  i + S n = length tt →
  (∀ p, p ∈ cur → good i p) →
  for_each (seq i (S n)) (expand_round g tt) cur = Ok out →
  ∀ q, q ∈ out → good (length tt - 1) q.
Proof.
  revert i cur. induction n as [|n IH]; intros i cur Hlen Hcur Hrun.
  - simpl in Hrun. apply bind_Ok in Hrun as (s1 & H1 & Hrun). injection Hrun as <-.
    replace i with (length tt - 1) in * by lia.
    by apply expand_round_last in H1 as ->.
  - change (seq i (S (S n))) with (i :: seq (S i) (S n)) in Hrun. simpl in Hrun.
    apply bind_Ok in Hrun as (s1 & H1 & Hrun).
    apply (IH (S i) s1); [lia| |done].
    eapply expand_round_not_last; [|done|done]. lia.
Qed.
End expand_facts.

Lemma get_bgp_neighbors_node (g : NetworkGraph) (n : string) (nbrs : list string) :
  get_bgp_neighbors g n = Ok nbrs → n ∈ nodes g.
Proof.
  unfold get_bgp_neighbors. intros H. inv_ok.
  by eapply is_router_node, get_bgp_attrs_router.
Qed.

Lemma neighbors_enabledb_correct (g : NetworkGraph) :
  neighbors_enabledb g = true → neighbors_enabled g.
Proof.
  unfold neighbors_enabledb. rewrite forallb_forall.
  intros Hall n nbrs nb Hn Hnb Hnone.
  pose proof (get_bgp_neighbors_node _ _ _ Hn) as Hin.
  apply list_elem_of_In, Hall in Hin. rewrite Hn, forallb_forall in Hin.
  apply list_elem_of_In, Hin in Hnb. by rewrite Hnone in Hnb.
Qed.

Lemma no_self_sessionb_correct (g : NetworkGraph) :
  no_self_sessionb g = true → no_self_session g.
Proof.
  unfold no_self_sessionb. rewrite forallb_forall.
  intros Hall n nbrs Hn.
  pose proof (get_bgp_neighbors_node _ _ _ Hn) as Hin.
  apply list_elem_of_In, Hall in Hin. rewrite Hn in Hin.
  by apply bool_decide_eq_true in Hin.
Qed.




(** The other conditions of the amended statement are needed as well: with
    an empty AS sequence, or through a BGP neighbour without AS number, the
    returned path does not collapse to the input; with a router that is its
    own BGP neighbour it repeats a router. *)
Lemma expand_as_path_needs_its_preconditions :
  (expand_as_path topo_A (zones_or_empty topo_A) [] ["R1"] = Ok [["R1"]] ∧
   get_bgp_path topo_A ["R1"] = Ok [10%Z]) ∧
  (get_bgp_asnum topo_unnumbered "X" = Ok None ∧
   expand_as_path topo_unnumbered (zones_or_empty topo_unnumbered) [10%Z; 20%Z] ["R1"]
     = Ok [["R1"; "X"]] ∧
   get_bgp_path topo_unnumbered ["R1"; "X"] = Ok [10%Z]) ∧
  expand_as_path topo_self_session (zones_or_empty topo_self_session) [10%Z; 20%Z] ["R1"]
    = Ok [["R1"; "R2"]; ["R1"; "R2"; "R2"]].
Proof. split_and!; vm_compute; reflexivity. Qed.

(** ** The propagation merger *)

Lemma net_info_eta {N : Type} (a : PAttrs N) : net_info a = mkNetAttrs a None None None.
Proof. by destruct a. Qed.

Section merge_facts.
Context {N : Type} `{EqDecision N}.
Implicit Types (m : MGraph N) (T : list (string * N * PAttrs N)) (E : list (N * N)).

Lemma gr_add_edge_present {A : Type} (empty : A) (u v : N) (g : Graph N A) :
  u ∈ gr_nodes g → v ∈ gr_nodes g → gr_node (gr_add_edge empty u v g) = gr_node g.
Proof.
  intros Hu%gr_has_node_true Hv%gr_has_node_true. unfold gr_add_edge.
  rewrite Hu, Hv. by destruct (gr_has_edge g u v).
Qed.

Lemma merged_from_has_nets T E m n :
  merged_from T E m → n ∈ gr_nodes m →
  ∃ nets, dict_get (gr_node m) n = Some (Some nets).
Proof.
  intros (_ & Hnodes & Hin & _) (net & a & Ht)%Hnodes.
  destruct (Hin _ _ _ Ht) as (nets & ? & _). eauto.
Qed.

(** Adding the attributes of one node for one prefix. *)
Lemma merge_node_step T E m net node a :
  merged_from T E m → (∀ a', (net, node, a') ∉ T) →
  ∃ m', merge_node net m (node, a) = Ok m' ∧ merged_from (T ++ [(net, node, a)]) E m'.
Proof.
  intros Hm Hfresh. pose proof Hm as (Hnd & Hnodes & Hin & Hout & Hedges & Hnde).
  unfold merge_node.
  set (m1 := if negb (gr_has_node m node) then gr_add_node (Some []) node m else m).
  assert (Hm1 : ∃ nets, dict_get (gr_node m1) node = Some (Some nets) ∧
                 (∀ net0 x, dict_get nets net0 = Some x → ∃ a0, (net0, node, a0) ∈ T ∧ x = net_info a0) ∧
                 (∀ net0 a0, (net0, node, a0) ∈ T → dict_get nets net0 = Some (net_info a0))).
  { unfold m1. destruct (gr_has_node m node) eqn:E1; simpl.
    - apply gr_has_node_true in E1.
      destruct (merged_from_has_nets _ _ _ _ Hm E1) as (nets & Hnets).
      exists nets. split_and!; [done| |].
      + intros net0 x Hx. by eapply Hout.
      + intros net0 a0 Ht. destruct (Hin _ _ _ Ht) as (nets' & Hn' & ?). congruence.
    - exists []. split_and!; [apply dict_get_set_eq|done|].
      intros net0 a0 Ht. apply dict_has_false in E1. destruct E1. apply Hnodes. eauto. }
  assert (Hk1 : ∀ n, n ∈ gr_nodes m1 ↔ n = node ∨ n ∈ gr_nodes m).
  { intros n. unfold m1. destruct (gr_has_node m node) eqn:E1; simpl.
    - apply gr_has_node_true in E1. split; [auto | intros [->|]; done].
    - apply gr_nodes_add_node. }
  assert (Hnd1 : NoDup (gr_nodes m1)).
  { unfold m1. destruct (gr_has_node m node); simpl; [done | by apply gr_nodes_add_node_NoDup]. }
  assert (Hg1 : ∀ n, n ≠ node → dict_get (gr_node m1) n = dict_get (gr_node m) n).
  { intros n Hn. unfold m1. destruct (gr_has_node m node); simpl; [done|].
    by apply dict_get_set_ne. }
  assert (He1 : gr_edges m1 = gr_edges m).
  { unfold m1. by destruct (gr_has_node m node). }
  destruct Hm1 as (nets & -> & Hnets_out & Hnets_in).
  eexists. split; [done|].
  split_and!; simpl.
  - by apply dict_keys_set_NoDup.
  - intros n. unfold gr_nodes. simpl. rewrite dict_keys_set_elem.
    fold (gr_nodes m1). rewrite Hk1, Hnodes. split.
    + intros [->|[->|(net0 & a0 & Ht)]]; [exists net, a| exists net, a|exists net0, a0];
        apply elem_of_app; [right|right|left]; try done; by apply list_elem_of_singleton.
    + intros (net0 & a0 & [Ht|[= -> -> ->]%list_elem_of_singleton]%elem_of_app); eauto.
  - intros net0 n a0 [Ht|[= -> -> ->]%list_elem_of_singleton]%elem_of_app.
    + destruct (decide (n = node)) as [->|Hne].
      * rewrite dict_get_set_eq. eexists. split; [done|].
        rewrite dict_get_set_ne; [by apply Hnets_in|].
        intros ->. by apply (Hfresh a0).
      * rewrite dict_get_set_ne by done. rewrite Hg1 by done. by apply Hin.
    + rewrite dict_get_set_eq. eexists. split; [done|]. apply dict_get_set_eq.
  - intros n nets' net0 x. destruct (decide (n = node)) as [->|Hne].
    + rewrite dict_get_set_eq. intros [= <-].
      destruct (decide (net0 = net)) as [->|Hnet].
      * rewrite dict_get_set_eq. intros [= <-]. exists a. split; [|done].
        apply elem_of_app. right. by apply list_elem_of_singleton.
      * rewrite dict_get_set_ne by done. intros (a0 & ? & ?)%Hnets_out.
        exists a0. split; [|done]. apply elem_of_app. by left.
    + rewrite dict_get_set_ne by done. rewrite Hg1 by done. intros H1 H2.
      destruct (Hout _ _ _ _ H1 H2) as (a0 & ? & ?).
      exists a0. split; [|done]. apply elem_of_app. by left.
  - intros u v. rewrite <- Hedges. unfold gr_has_edge. simpl. by rewrite He1.
  - by rewrite He1.
Qed.

(** Adding one edge between two nodes that are present. *)
Lemma merge_edge_step T E m u v :
  merged_from T E m → u ∈ gr_nodes m → v ∈ gr_nodes m →
  merged_from T (E ++ [(u, v)]) (gr_add_edge None u v m).
Proof.
  intros (Hnd & Hnodes & Hin & Hout & Hedges & Hnde) Hu Hv.
  pose proof (gr_add_edge_present None u v m Hu Hv) as Hsame.
  unfold merged_from, gr_nodes. rewrite Hsame. fold (gr_nodes m).
  split_and!; try done.
  - intros u' v'. rewrite gr_add_edge_has_edge, Hedges, !elem_of_app, !list_elem_of_singleton.
    split.
    + intros [[?|?]|[[-> ->]|[-> ->]]]; auto.
    + intros [[?|[= -> ->]]|[?|[= -> ->]]]; auto.
  - destruct (gr_add_edge_edges None u v m) as [-> | [Hnew ->]]; [done|].
    apply NoDup_app. split_and!; [done| |apply NoDup_singleton].
    intros e He ->%list_elem_of_singleton. done.
Qed.

Lemma triples_of_app (gs1 gs2 : list (string * PGraph N)) :
  triples_of (gs1 ++ gs2) = triples_of gs1 ++ triples_of gs2.
Proof. unfold triples_of. apply bind_app. Qed.

Lemma edges_of_app (gs1 gs2 : list (string * PGraph N)) :
  edges_of (gs1 ++ gs2) = edges_of gs1 ++ edges_of gs2.
Proof. unfold edges_of. apply bind_app. Qed.

Lemma elem_of_triples_of (gs : list (string * PGraph N)) net n a :
  (net, n, a) ∈ triples_of gs ↔ ∃ gr, (net, gr) ∈ gs ∧ (n, a) ∈ gr_node gr.
Proof.
  unfold triples_of. rewrite list_elem_of_bind. split.
  - intros ([net' gr] & ([n' a'] & [= -> -> ->] & Hna)%list_elem_of_fmap & Hgr). eauto.
  - intros (gr & Hgr & Hna). exists (net, gr). split; [|done].
    apply list_elem_of_fmap. by exists (n, a).
Qed.

Lemma elem_of_edges_of (gs : list (string * PGraph N)) e :
  e ∈ edges_of gs ↔ ∃ net gr, (net, gr) ∈ gs ∧ e ∈ gr_edges gr.
Proof.
  unfold edges_of. rewrite list_elem_of_bind. split.
  - intros ([net gr] & ? & ?). eauto.
  - intros (net & gr & ? & ?). by exists (net, gr).
Qed.

(** Merging one more per-prefix graph. *)
Lemma merge_graph_step (gs : list (string * PGraph N)) m net gr :
  merged_from (triples_of gs) (edges_of gs) m →
  net ∉ dict_keys gs → NoDup (gr_nodes gr) →
  (∀ u v, (u, v) ∈ gr_edges gr → u ∈ gr_nodes gr ∧ v ∈ gr_nodes gr) →
  ∃ m', merge_graph m (net, gr) = Ok m' ∧
        merged_from (triples_of (gs ++ [(net, gr)])) (edges_of (gs ++ [(net, gr)])) m'.
Proof.
  intros Hm Hnet Hnd Hwf. unfold merge_graph. simpl.
  destruct (for_each_total
    (fun pre m => merged_from (triples_of gs ++ ((fun na : N * PAttrs N => (net, na.1, na.2)) <$> pre))
                              (edges_of gs) m)
    (gr_node gr) (merge_node net) m) as (m1 & -> & Hm1).
  { by rewrite app_nil_r. }
  { intros pre [node a] post m0 Hsplit Hm0.
    destruct (merge_node_step _ _ _ net node a Hm0) as (m' & ? & ?).
    - intros a' [Hin|Hin]%elem_of_app.
      + apply elem_of_triples_of in Hin as (gr' & Hgr' & _).
        apply Hnet, list_elem_of_fmap. by exists (net, gr').
      + apply list_elem_of_fmap in Hin as ([n0 a0] & [= -> ->] & Hin).
        unfold gr_nodes, dict_keys in Hnd. rewrite Hsplit, fmap_app, fmap_cons in Hnd.
        apply NoDup_app in Hnd as (_ & Hnd & _). apply (Hnd n0); [|by left].
        apply list_elem_of_fmap. by exists (n0, a0).
    - exists m'. split; [done|]. by rewrite fmap_app, app_assoc. }
  simpl. eexists. split; [done|].
  rewrite triples_of_app, edges_of_app.
  replace (triples_of [(net, gr)]) with ((fun na : N * PAttrs N => (net, na.1, na.2)) <$> gr_node gr)
    by (unfold triples_of; simpl; by rewrite app_nil_r).
  replace (edges_of [(net, gr)]) with (gr_edges gr)
    by (unfold edges_of; simpl; by rewrite app_nil_r).
  apply (foldl_inv_seen (fun pre m' =>
    merged_from (triples_of gs ++ ((fun na : N * PAttrs N => (net, na.1, na.2)) <$> gr_node gr))
                (edges_of gs ++ pre) m' )).
  { by rewrite app_nil_r. }
  intros pre [u v] post m0 Hsplit Hm0. rewrite app_assoc. simpl.
  assert (Hpresent : ∀ n, n ∈ gr_nodes gr → n ∈ gr_nodes m0).
  { intros n ([n' a] & -> & Hna)%list_elem_of_fmap.
    destruct Hm0 as (_ & Hnodes & _). apply Hnodes. exists net, a.
    apply elem_of_app. right. apply list_elem_of_fmap. by exists (n', a). }
  destruct (Hwf u v) as [Hu Hv].
  { rewrite Hsplit. apply elem_of_app. right. by left. }
  apply merge_edge_step; auto.
Qed.

(** [merge_graphs] returns, and what it returns is the union. *)
Lemma merge_graphs_pure_union (graphs : list (string * PGraph N)) :
  graphs_wf graphs → ∃ m, merge_graphs graphs = Ok m ∧ pure_union graphs m.
Proof.
  intros [Hkeys Hwf]. unfold merge_graphs.
  destruct (for_each_total (fun pre m => merged_from (triples_of pre) (edges_of pre) m)
              graphs merge_graph (mkGraph [] [])) as (m & Hrun & Hm).
  { split_and!; try apply NoDup_nil_2; try done.
    - intros n. split; [by intros ?%elem_of_nil | by intros (? & ? & ?%elem_of_nil)].
    - by intros ??? ?%elem_of_nil.
    - intros u v. by rewrite gr_has_edge_true. }
  { intros pre [net gr] post m0 Hsplit Hm0.
    destruct (Hwf net gr) as [Hnd Hends].
    { rewrite Hsplit. apply elem_of_app. right. by left. }
    apply merge_graph_step; try done.
    unfold dict_keys in Hkeys. rewrite Hsplit, fmap_app, fmap_cons in Hkeys.
    apply NoDup_app in Hkeys as (_ & Hk & _). intros Hin. apply (Hk net Hin). by left. }
  exists m. split; [done|].
  destruct Hm as (Hnd & Hnodes & Hin & Hout & Hedges & Hnde).
  split_and!; try done.
  - intros u v. rewrite Hedges, !elem_of_edges_of. split.
    + intros [(net & gr & ? & ?)|(net & gr & ? & ?)]; exists net, gr; auto.
    + intros (net & gr & ? & [?|?]); [left|right]; eauto.
  - intros n. rewrite Hnodes. split.
    + intros (net & a & (gr & ? & ?)%elem_of_triples_of). exists net, gr. split; [done|].
      apply list_elem_of_fmap. by exists (n, a).
    + intros (net & gr & ? & ([n' a] & -> & ?)%list_elem_of_fmap).
      exists net, a. apply elem_of_triples_of. eauto.
  - intros net gr n a Hgr Hna. rewrite <- net_info_eta. apply Hin, elem_of_triples_of. eauto.
  - intros n nets net x H1 H2. destruct (Hout _ _ _ _ H1 H2) as (a & (gr & ? & ?)%elem_of_triples_of & ->).
    exists gr, a. by rewrite net_info_eta.
Qed.
End merge_facts.

Lemma graphs_wfb_correct {N : Type} `{EqDecision N} (graphs : list (string * PGraph N)) :
  graphs_wfb graphs = true → graphs_wf graphs.
Proof.
  unfold graphs_wfb. intros [Hkeys Hall]%andb_prop.
  apply bool_decide_eq_true in Hkeys. split; [done|].
  rewrite forallb_forall in Hall. intros net gr Hin%list_elem_of_In.
  apply Hall, andb_prop in Hin as [Hnd Hedges]. simpl in *.
  apply bool_decide_eq_true in Hnd. split; [done|].
  rewrite forallb_forall in Hedges. intros u v Huv%list_elem_of_In.
  apply Hedges, andb_prop in Huv as [Hu Hv]. simpl in *.
  by apply bool_decide_eq_true in Hu, Hv.
Qed.




(** ** The partial evaluator: phase 1 *)

Lemma mapM_result_Forall2 {A B : Type} (f : A → result B) (l : list A) (k : list B) :
  mapM f l = Ok k ↔ Forall2 (fun x y => f x = Ok y) l k.
Proof.
  revert k. induction l as [|x l IH]; intros k; simpl.
  - split; [intros [= <-]; constructor | by intros ->%Forall2_nil_inv_l].
  - split.
    + intros (y & Hy & (k' & Hk' & [= <-])%bind_Ok)%bind_Ok. constructor; [done|by apply IH].
    + intros (y & k' & Hy & Hk' & ->)%Forall2_cons_inv_l.
      apply IH in Hk'. rewrite Hy. simpl. rewrite Hk'. done.
Qed.

Lemma mapM_result_elem_of {A B : Type} (f : A → result B) (l : list A) (k : list B) (y : B) :
  mapM f l = Ok k → y ∈ k → ∃ x, x ∈ l ∧ f x = Ok y.
Proof.
  intros H%mapM_result_Forall2 (i & Hi)%list_elem_of_lookup.
  destruct (Forall2_lookup_r _ _ _ _ _ H Hi) as (x & Hx & ?).
  exists x. split; [|done]. by eapply list_elem_of_lookup_2.
Qed.

Lemma mapM_result_concat {A B : Type} (f : A → result B) (ll : list (list A))
    (kk : list (list B)) :
  mapM (mapM f) ll = Ok kk → mapM f (concat ll) = Ok (concat kk).
Proof.
  rewrite !mapM_result_Forall2. intros H.
  induction H as [|l k ll kk Hlk _ IH]; simpl; [constructor|].
  apply Forall2_app; [by apply mapM_result_Forall2|done].
Qed.

Lemma mapM_result_app {A B : Type} (f : A → result B) (l1 l2 : list A) (k1 k2 : list B) :
  mapM f l1 = Ok k1 → mapM f l2 = Ok k2 → mapM f (l1 ++ l2) = Ok (k1 ++ k2).
Proof. rewrite !mapM_result_Forall2. apply Forall2_app. Qed.

(** What [eval_path] puts in a fact. *)
Lemma eval_path_spec (g : NetworkGraph) (net : string) (p : list string) (i : PropagatedInfo) :
  eval_path g net p = Ok i →
  path i = p ∧ ann_name i = net ∧ prev i = None ∧ as_path_len i = length (as_path i) ∧
  ∃ external_peer egress peer derived ann_source anns k ann,
    get_as_path g p = Ok (external_peer, egress, peer, derived) ∧
    py_first p = Ok ann_source ∧
    get_bgp_advertise g ann_source = Ok anns ∧
    list_find (fun ann => prefix ann = net) anns = Some (k, ann) ∧
    as_path i = derived ++ (Some <$> ann_as_path ann).
Proof.
  unfold eval_path. intros H.
  apply bind_Ok in H as ([[[external_peer egress] peer] derived] & Hpath & H).
  apply bind_Ok in H as (ann_source & Hsrc & H).
  apply bind_Ok in H as (anns & Hanns & H).
  apply bind_Ok in H as (current & _ & H).
  apply bind_Ok in H as (u & Hfound%py_assert_Ok & H).
  apply bool_decide_eq_true in Hfound as [[k ann] Hfound].
  rewrite Hfound in H. injection H as <-. simpl.
  split_and!; try done. by exists external_peer, egress, peer, derived, ann_source, anns, k, ann.
Qed.

(** The check on the origin's advertisements: without an advertisement for
    the prefix, the construction of the fact fails with the error that names
    the prefix and the origin. *)
Lemma eval_path_no_announcement (g : NetworkGraph) (net : string) (p : list string)
    (x : option string * option string * option string * list (option Z))
    (ann_source : string) (anns : list Announcement) :
  get_as_path g p = Ok x → py_first p = Ok ann_source →
  get_bgp_advertise g ann_source = Ok anns →
  (∀ ann, ann ∈ anns → prefix ann ≠ net) →
  eval_path g net p = Raise (AssertionError (CouldntFindAnnouncement net ann_source anns)).
Proof.
  intros Hpath Hsrc Hanns Hnone. unfold eval_path. rewrite Hpath. simpl.
  destruct x as [[[? ?] ?] ?]. rewrite Hsrc. simpl. rewrite Hanns. simpl.
  assert (list_find (fun ann => prefix ann = net) anns = None) as ->; [|done].
  apply list_find_None, Forall_forall. intros ann Hin. by apply Hnone.
Qed.

Lemma first_net_app_l (done more : list (string * NetAttrs string)) (p : list string)
    (net : string) :
  first_net done p = Some net → first_net (done ++ more) p = Some net.
Proof.
  unfold first_net. destruct (list_find _ done) as [[k e]|] eqn:E; [|done].
  intros [= <-]. by rewrite (list_find_app_l _ _ _ _ _ E).
Qed.

Lemma first_net_new (done : list (string * NetAttrs string)) (net : string)
    (a : NetAttrs string) (p : list string) :
  (∀ e, e ∈ done → p ∉ entry_paths e.2) → p ∈ entry_paths a →
  first_net (done ++ [(net, a)]) p = Some net.
Proof.
  intros Hdone Ha. unfold first_net. rewrite list_find_app_r.
  - simpl. by rewrite decide_True.
  - apply list_find_None, Forall_forall. intros e He. by apply Hdone.
Qed.

Lemma fact_ok_app_l (g : NetworkGraph) (done more : list (string * NetAttrs string))
    (i : PropagatedInfo) :
  fact_ok g done i → fact_ok g (done ++ more) i.
Proof. intros (net0 & H1 & H2). exists net0. split; [by apply first_net_app_l|done]. Qed.

(** Phase 1 on one entry: the cache is filled by first visit, and the facts of
    the entry are cache entries. *)
Lemma eval_entry_spec (g : NetworkGraph) (done : list (string * NetAttrs string))
    (cache cache' : list (list string * PropagatedInfo)) (net : string)
    (attrs attrs' : NetAttrs string) :
  cache_ok g done cache →
  eval_entry g cache net attrs = Ok (cache', attrs') →
  cache_ok g (done ++ [(net, attrs)]) cache' ∧
  (∀ i, i ∈ facts_of attrs' → fact_ok g (done ++ [(net, attrs)]) i) ∧
  info attrs' = info attrs ∧
  is_Some (order_info attrs') ∧ is_Some (block_info attrs').
Proof.
  intros [Hsound Hcomplete] Hrun. unfold eval_entry in Hrun.
  apply bind_Ok in Hrun as (c1 & Hfill & Hrun).
  apply bind_Ok in Hrun as (order_i & Horder & Hrun).
  apply bind_Ok in Hrun as (block_i & Hblock & Hrun).
  injection Hrun as <- <-.
  assert (Hc1 : (∀ p i, dict_get c1 p = Some i → path i = p ∧ fact_ok g (done ++ [(net, attrs)]) i) ∧
                (∀ e p, e ∈ done → p ∈ entry_paths e.2 → is_Some (dict_get c1 p)) ∧
                (∀ p, p ∈ entry_paths attrs → is_Some (dict_get c1 p))).
  { revert Hfill.
    apply (for_each_inv_seen (fun pre c =>
      (∀ p i, dict_get c p = Some i → path i = p ∧ fact_ok g (done ++ [(net, attrs)]) i) ∧
      (∀ e p, e ∈ done → p ∈ entry_paths e.2 → is_Some (dict_get c p)) ∧
      (∀ p, p ∈ pre → is_Some (dict_get c p)))).
    { split_and!; [|done|by intros ? ?%elem_of_nil].
      intros p i [? ?]%Hsound. split; [done|by apply fact_ok_app_l]. }
    intros pre p c c' (H1 & H2 & H3) Hp Hbody. simpl in Hbody.
    destruct (dict_has c p) eqn:Ehas.
    - injection Hbody as <-. split_and!; [done|done|].
      intros q [?| ->%list_elem_of_singleton]%elem_of_app; [auto|].
      by apply bool_decide_eq_true in Ehas.
    - apply bind_Ok in Hbody as (i & Hi & [= <-]).
      assert (Hnone : dict_get c p = None).
      { apply bool_decide_eq_false in Ehas. destruct (dict_get c p); [|done]. destruct Ehas; eauto. }
      split_and!.
      + intros q j. destruct (decide (p = q)) as [<-|Hne].
        * rewrite dict_get_set_eq. intros [= <-].
          destruct (eval_path_spec _ _ _ _ Hi) as (Hpath & _).
          split; [done|]. exists net. rewrite Hpath. split; [|done].
          apply first_net_new; [|done].
          intros e He Hin. destruct (H2 e p He Hin) as [? ?]. congruence.
        * rewrite dict_get_set_ne by done. apply H1.
      + intros e q He Hq. destruct (decide (p = q)) as [<-|Hne].
        * rewrite dict_get_set_eq. eauto.
        * rewrite dict_get_set_ne by done. by eapply H2.
      + intros q [Hq| ->%list_elem_of_singleton]%elem_of_app.
        * destruct (decide (p = q)) as [<-|Hne]; [rewrite dict_get_set_eq; eauto|].
          rewrite dict_get_set_ne by done. auto.
        * rewrite dict_get_set_eq. eauto. }
  destruct Hc1 as (H1 & H2 & H3).
  assert (Hcopy : ∀ p i, cache_copy c1 p = Ok i → fact_ok g (done ++ [(net, attrs)]) i).
  { intros p i. unfold cache_copy. destruct (dict_get c1 p) eqn:E; [|done].
    intros [= <-]. by eapply H1. }
  split_and!; simpl; eauto.
  - split; [done|]. intros e p [He| ->%list_elem_of_singleton]%elem_of_app Hp; [by eapply H2|auto].
  - unfold facts_of. simpl. intros i [Hi|Hi]%elem_of_app.
    + apply mapM_result_concat in Horder.
      destruct (mapM_result_elem_of _ _ _ _ Horder Hi) as (p & _ & ?). by eapply Hcopy.
    + destruct (mapM_result_elem_of _ _ _ _ Hblock Hi) as (p & _ & ?). by eapply Hcopy.
Qed.

Lemma entries_of_nodes_app (l1 l2 : list (string * option (list (string * NetAttrs string)))) :
  entries_of_nodes (l1 ++ l2) = entries_of_nodes l1 ++ entries_of_nodes l2.
Proof. unfold entries_of_nodes. apply bind_app. Qed.

(** Phase 1 on one node. *)
Lemma eval_node_spec (g : NetworkGraph) (done : list (string * NetAttrs string))
    (cache cache' : list (list string * PropagatedInfo))
    (nets nets' : option (list (string * NetAttrs string))) :
  cache_ok g done cache →
  eval_node g cache nets = Ok (cache', nets') →
  cache_ok g (done ++ default [] nets) cache' ∧
  ∃ l', nets' = Some l' ∧
    ∀ net a i, (net, a) ∈ l' → i ∈ facts_of a → fact_ok g (done ++ default [] nets) i.
Proof.
  intros Hcache Hrun. unfold eval_node in Hrun. destruct nets as [nets|]; [|done].
  apply bind_Ok in Hrun as ([c1 l'] & Hloop & [= <- <-]). simpl.
  revert Hloop.
  apply (for_each_inv_seen (fun pre (st : list (list string * PropagatedInfo) * list (string * NetAttrs string)) =>
    cache_ok g (done ++ pre) st.1 ∧
    ∃ l', Some st.2 = Some l' ∧
      ∀ net a i, (net, a) ∈ l' → i ∈ facts_of a → fact_ok g (done ++ pre) i)).
  { rewrite app_nil_r. split; [done|]. exists []. split; [done|]. by intros ??? ?%elem_of_nil. }
  intros pre [net attrs] [c l] st' (Hc & l0 & [= <-] & Hl) _ Hbody. simpl in *.
  apply bind_Ok in Hbody as ([c' attrs'] & Hentry & [= <-]). simpl.
  rewrite app_assoc.
  destruct (eval_entry_spec _ _ _ _ _ _ _ Hc Hentry) as (Hc' & Hfacts & _).
  split; [done|]. eexists. split; [done|].
  intros net0 a i [Hin|[= -> ->]%list_elem_of_singleton]%elem_of_app Hi; [|by apply Hfacts].
  apply fact_ok_app_l. by eapply Hl.
Qed.

(** Phase 1: every fact of the evaluated graph was built by [eval_path] for
    the prefix under which its path was first visited. *)
Lemma eval_facts_spec (g : NetworkGraph) (propagation evaluated : MGraph string)
    (cache : list (list string * PropagatedInfo)) :
  eval_facts g propagation = Ok (cache, evaluated) →
  cache_ok g (entries_of propagation) cache ∧
  ∀ node nets net a i,
    (node, Some nets) ∈ gr_node evaluated → (net, a) ∈ nets → i ∈ facts_of a →
    fact_ok g (entries_of propagation) i.
Proof.
  unfold eval_facts. intros Hrun.
  apply bind_Ok in Hrun as ([c1 nodes'] & Hloop & [= <- <-]). simpl.
  revert Hloop. unfold entries_of.
  apply (for_each_inv_seen (fun pre (st : list (list string * PropagatedInfo) *
                               list (string * option (list (string * NetAttrs string)))) =>
    cache_ok g (entries_of_nodes pre) st.1 ∧
    ∀ node nets net a i,
      (node, Some nets) ∈ st.2 → (net, a) ∈ nets → i ∈ facts_of a →
      fact_ok g (entries_of_nodes pre) i)).
  { split; [|by intros ????? ?%elem_of_nil]. split; [done|by intros ?? ?%elem_of_nil]. }
  intros pre [node nets] [c l] st' (Hc & Hl) _ Hbody. simpl in *.
  apply bind_Ok in Hbody as ([c' nets'] & Hnode & [= <-]). simpl.
  rewrite entries_of_nodes_app.
  replace (entries_of_nodes [(node, nets)]) with (default [] nets)
    by (unfold entries_of_nodes; simpl; by rewrite app_nil_r).
  destruct (eval_node_spec _ _ _ _ _ _ Hc Hnode) as (Hc' & l' & -> & Hfacts).
  split; [done|].
  intros node0 nets0 net a i [Hin|[= -> ->]%list_elem_of_singleton]%elem_of_app Ha Hi.
  - apply fact_ok_app_l. by eapply Hl.
  - by eapply Hfacts.
Qed.

(** ** The partial evaluator: phase 2 *)

Lemma all_propagated_facts_of (a : NetAttrs string) (facts : list PropagatedInfo) :
  all_propagated a = Ok facts →
  facts = facts_of a ∧ is_Some (order_info a) ∧ is_Some (block_info a).
Proof.
  unfold all_propagated, paths_info, facts_of.
  destruct (order_info a), (block_info a); simpl; try done. intros [= <-]. eauto.
Qed.

(** Phase 2 changes nothing of a fact but [prev]. *)
Lemma chain_fact_spec (g : NetworkGraph) (ev : MGraph string) (node net : string)
    (f f' : PropagatedInfo) :
  chain_fact g ev node net f = Ok f' →
  f' = set_prev f (prev f') ∧
  ((length (path f) < 2 ∧ prev f' = prev f) ∨
   (2 ≤ length (path f) ∧ find_prev_prop g ev node net f = Ok (prev f'))).
Proof.
  unfold chain_fact. case_bool_decide as Hlen.
  - intros [= <-]. split; [by destruct f|]. left. done.
  - intros (origin & Horigin & [= <-])%bind_Ok. simpl. split; [done|]. right. split; [lia|done].
Qed.

Lemma find_prev_prop_Some (g : NetworkGraph) (ev : MGraph string) (node net : string)
    (f : PropagatedInfo) (r : fact_ref) :
  find_prev_prop g ev node net f = Ok (Some r) →
  ∃ nb a f0, peer f = Some nb ∧ r = mkRef nb net (ref_index r) ∧
    net_attrs ev nb net = Ok a ∧ facts_of a !! ref_index r = Some f0 ∧
    path f0 = removelast (path f).
Proof.
  unfold find_prev_prop. intros (as_num & _ & H)%bind_Ok.
  case_bool_decide; [done|]. destruct (peer f) as [nb|]; [|done].
  apply bind_Ok in H as (? & _ & H).
  apply bind_Ok in H as (a & Ha & H).
  apply bind_Ok in H as (facts & [-> _]%all_propagated_facts_of & H).
  destruct (list_find _ _) as [[k f0]|] eqn:E; [|done]. injection H as <-.
  apply list_find_Some in E as (Hk & Hpath & _).
  by exists nb, a, f0.
Qed.

Lemma find_prev_prop_None (g : NetworkGraph) (ev : MGraph string) (node net : string)
    (f : PropagatedInfo) :
  find_prev_prop g ev node net f = Ok None → 2 ≤ length (path f) →
  ∃ nb a, peer f = Some nb ∧ net_attrs ev nb net = Ok a ∧
    ∀ f0, f0 ∈ facts_of a → path f0 ≠ removelast (path f).
Proof.
  unfold find_prev_prop. intros (as_num & _ & H)%bind_Ok Hlen.
  case_bool_decide; [lia|]. destruct (peer f) as [nb|]; [|done].
  apply bind_Ok in H as (? & _ & H).
  apply bind_Ok in H as (a & Ha & H).
  apply bind_Ok in H as (facts & [-> _]%all_propagated_facts_of & H).
  destruct (list_find _ _) as [[k f0]|] eqn:E; [done|].
  exists nb, a. split_and!; [done|done|].
  rewrite list_find_None, Forall_forall in E. intros f0 Hf0 Heq. by apply (E f0).
Qed.

(** The lookup of the predecessor leaves [prev] unset, without an error, when
    the peer has an entry for the prefix and none of its facts has the path. *)
Lemma find_prev_prop_unset (g : NetworkGraph) (ev : MGraph string) (node net nb : string)
    (f : PropagatedInfo) (a : NetAttrs string) (asn asn' : option Z) :
  get_bgp_asnum g node = Ok asn → peer f = Some nb → get_bgp_asnum g nb = Ok asn' →
  net_attrs ev nb net = Ok a → is_Some (order_info a) → is_Some (block_info a) →
  (∀ f0, f0 ∈ facts_of a → path f0 ≠ removelast (path f)) →
  find_prev_prop g ev node net f = Ok None.
Proof.
  intros Hnode Hpeer Hnb Ha [o Ho] [b Hb] Hnone. unfold find_prev_prop.
  rewrite Hnode. simpl. case_bool_decide; [done|].
  rewrite Hpeer, Hnb. simpl. rewrite Ha. simpl.
  unfold all_propagated, paths_info. rewrite Ho, Hb. simpl.
  assert (list_find (fun neighbor_info => removelast (path f) = path neighbor_info) (concat o ++ b)
          = None) as ->; [|done].
  apply list_find_None, Forall_forall. intros f0 Hf0 Heq.
  apply (Hnone f0); [|done]. unfold facts_of. by rewrite Ho, Hb.
Qed.

Lemma chain_entry_spec (g : NetworkGraph) (ev : MGraph string) (node net : string)
    (a : NetAttrs string) (na' : string * NetAttrs string) :
  chain_entry g ev node (net, a) = Ok na' →
  ∃ a', na' = (net, a') ∧ info a' = info a ∧
    Forall2 (fun f f' => chain_fact g ev node net f = Ok f') (facts_of a) (facts_of a').
Proof.
  unfold chain_entry. intros (facts & (_ & [o Ho] & [b Hb])%all_propagated_facts_of & H)%bind_Ok.
  apply bind_Ok in H as (order_i & Horder & H).
  apply bind_Ok in H as (block_i & Hblock & H). injection H as <-.
  eexists. split_and!; [done|done|].
  unfold facts_of. simpl. rewrite Ho, Hb in *. simpl in *.
  apply mapM_result_Forall2, mapM_result_app; [by apply mapM_result_concat|done].
Qed.

(** Looking up a key in two dictionaries that correspond entry by entry. *)
Lemma dict_get_Forall2 {K V V' : Type} `{EqDecision K} (R : K → V → V' → Prop)
    (l : list (K * V)) (l' : list (K * V')) (k : K) (v : V) :
  Forall2 (fun kv kv' => kv.1 = kv'.1 ∧ R kv.1 kv.2 kv'.2) l l' →
  dict_get l k = Some v → ∃ v', dict_get l' k = Some v' ∧ R k v v'.
Proof.
  intros H. induction H as [|[k1 v1] [k1' v1'] l l' [Hk HR] _ IH]; simpl; [done|].
  simpl in *. subst k1'. case_decide; [|done]. subst. intros [= <-]. eauto.
Qed.

Lemma elem_of_Forall2_r {A B : Type} (R : A → B → Prop) (l : list A) (l' : list B) (y : B) :
  Forall2 R l l' → y ∈ l' → ∃ x, x ∈ l ∧ R x y.
Proof.
  intros H (i & Hi)%list_elem_of_lookup.
  destruct (Forall2_lookup_r _ _ _ _ _ H Hi) as (x & Hx & ?).
  exists x. split; [by eapply list_elem_of_lookup_2|done].
Qed.

Lemma chain_facts_spec (g : NetworkGraph) (ev ch : MGraph string) :
  chain_facts g ev = Ok ch → Forall2 (chained_from g ev) (gr_node ev) (gr_node ch).
Proof.
  unfold chain_facts. intros (nodes' & Hnodes & [= <-])%bind_Ok. simpl.
  apply mapM_result_Forall2 in Hnodes.
  eapply Forall2_impl; [exact Hnodes|].
  intros [node nets] nn'. simpl. destruct nets as [nets|]; [|done].
  intros (nets' & Hnets & [= <-])%bind_Ok. simpl. split; [done|].
  exists nets, nets'. split_and!; [done|done|].
  apply mapM_result_Forall2 in Hnets.
  eapply Forall2_impl; [exact Hnets|].
  intros [net a] na' H. by destruct (chain_entry_spec _ _ _ _ _ _ H) as (a' & -> & _).
Qed.

Lemma chain_facts_net_attrs (g : NetworkGraph) (ev ch : MGraph string) (nb net : string)
    (a : NetAttrs string) :
  chain_facts g ev = Ok ch → net_attrs ev nb net = Ok a →
  ∃ a', net_attrs ch nb net = Ok a' ∧ chain_entry g ev nb (net, a) = Ok (net, a').
Proof.
  intros Hch%chain_facts_spec. unfold net_attrs.
  destruct (dict_get (gr_node ev) nb) as [[nets|]|] eqn:E; try done.
  destruct (dict_get nets net) as [a0|] eqn:E'; [|done]. intros [= ->].
  destruct (dict_get_Forall2
    (fun node nets nets' => ∃ l l', nets = Some l ∧ nets' = Some l' ∧
       Forall2 (fun na na' => na.1 = na'.1 ∧ chain_entry g ev node (na.1, na.2) = Ok (na.1, na'.2)) l l')
    _ _ _ _ Hch E) as (nets' & -> & l & l' & [= <-] & -> & Hl).
  destruct (dict_get_Forall2 (fun net a a' => chain_entry g ev nb (net, a) = Ok (net, a'))
    _ _ _ _ Hl E') as (a' & -> & ?).
  eauto.
Qed.

Lemma chain_facts_elem_of (g : NetworkGraph) (ev ch : MGraph string) (node net : string)
    (nets' : list (string * NetAttrs string)) (a' : NetAttrs string) :
  chain_facts g ev = Ok ch → (node, Some nets') ∈ gr_node ch → (net, a') ∈ nets' →
  ∃ nets a, (node, Some nets) ∈ gr_node ev ∧ (net, a) ∈ nets ∧
    chain_entry g ev node (net, a) = Ok (net, a').
Proof.
  intros Hch%chain_facts_spec Hnode Hnet.
  destruct (elem_of_Forall2_r _ _ _ _ Hch Hnode)
    as ([node0 nets0] & Hin & Hnode0 & l & l' & Hl & [= <-] & Hnets).
  simpl in *. subst.
  destruct (elem_of_Forall2_r _ _ _ _ Hnets Hnet) as ([net0 a] & Hin' & Hnet0 & Hentry).
  simpl in *. subst. eauto.
Qed.

(** Every fact of the graph that [partial_eval_propagated_info] returns is a
    fact of phase 1 with its [prev] set by phase 2. *)
Lemma partial_eval_fact (g : NetworkGraph) (propagation chained : MGraph string)
    (as_paths : list (list (option Z))) (node net : string)
    (nets : list (string * NetAttrs string)) (attrs : NetAttrs string) (f : PropagatedInfo) :
  partial_eval_propagated_info g propagation = Ok (chained, as_paths) →
  (node, Some nets) ∈ gr_node chained → (net, attrs) ∈ nets → f ∈ facts_of attrs →
  ∃ ev f0, chain_facts g ev = Ok chained ∧
    fact_ok g (entries_of propagation) f0 ∧ chain_fact g ev node net f0 = Ok f.
Proof.
  unfold partial_eval_propagated_info.
  intros ([cache ev] & Hev & (ch & Hch & [= <- <-])%bind_Ok)%bind_Ok Hnode Hnet Hf.
  destruct (chain_facts_elem_of _ _ _ _ _ _ _ Hch Hnode Hnet) as (nets0 & a0 & Hn0 & Ha0 & Hentry).
  apply chain_entry_spec in Hentry as (a' & [= <-] & _ & Hfacts).
  destruct (elem_of_Forall2_r _ _ _ _ Hfacts Hf) as (f0 & Hf0 & Hchain).
  exists ev, f0. split_and!; [done| |done].
  destruct (eval_facts_spec _ _ _ _ Hev) as [_ Hok]. by eapply Hok.
Qed.

(** What holds of every fact of a run that returns:
    [as_path_len == len(as_path)]; when [prev] is set it refers to a fact of
    the peer router for the same prefix whose path is [path[:-1]]; and when
    [prev] is left unset on a path of two routers or more, the peer router has
    an entry for the prefix and none of its facts has the path [path[:-1]]. *)
Theorem propagated_info_chain (g : NetworkGraph) (propagation chained : MGraph string)
    (as_paths : list (list (option Z))) (node net : string)
    (nets : list (string * NetAttrs string)) (attrs : NetAttrs string) (f : PropagatedInfo) :
  partial_eval_propagated_info g propagation = Ok (chained, as_paths) →
  (node, Some nets) ∈ gr_node chained → (net, attrs) ∈ nets → f ∈ facts_of attrs →
  as_path_len f = length (as_path f) ∧
  (∀ r, prev f = Some r →
     ∃ nb attrs_nb f', peer f = Some nb ∧ r = mkRef nb net (ref_index r) ∧
       net_attrs chained nb net = Ok attrs_nb ∧
       facts_of attrs_nb !! ref_index r = Some f' ∧
       path f' = removelast (path f)) ∧
  (prev f = None → 2 ≤ length (path f) →
     ∃ nb attrs_nb, peer f = Some nb ∧ net_attrs chained nb net = Ok attrs_nb ∧
       ∀ f', f' ∈ facts_of attrs_nb → path f' ≠ removelast (path f)).
Proof.
  intros Hrun Hnode Hnet Hf.
  destruct (partial_eval_fact _ _ _ _ _ _ _ _ _ Hrun Hnode Hnet Hf)
    as (ev & f0 & Hch & (net0 & _ & Hbuilt) & Hchain).
  destruct (eval_path_spec _ _ _ _ Hbuilt) as (_ & _ & Hprev0 & Hlen & _).
  destruct (chain_fact_spec _ _ _ _ _ _ Hchain) as [Hf' Hcases].
  assert (Hsame : path f = path f0 ∧ peer f = peer f0 ∧ as_path f = as_path f0 ∧
                  as_path_len f = as_path_len f0) by (by rewrite Hf').
  destruct Hsame as (Hpath & Hpeer & Has & Hasl).
  split_and!.
  - by rewrite Hasl, Has.
  - intros r Hr. destruct Hcases as [[_ Hkeep]|[_ Hfind]]; [congruence|].
    rewrite Hr in Hfind.
    apply find_prev_prop_Some in Hfind as (nb & a & f1 & Hnb & Href & Ha & Hf1 & Hpath1).
    destruct (chain_facts_net_attrs _ _ _ _ _ _ Hch Ha) as (a' & Ha' & Hentry).
    apply chain_entry_spec in Hentry as (a'' & [= <-] & _ & Hfacts).
    destruct (Forall2_lookup_l _ _ _ _ _ Hfacts Hf1) as (f1' & Hf1' & Hchain1).
    apply chain_fact_spec in Hchain1 as [Hf1eq _].
    exists nb, a', f1'. split_and!; try done; [congruence|].
    rewrite Hf1eq, Hpath. simpl. done.
  - intros Hr Hlen2. rewrite Hpath in Hlen2.
    destruct Hcases as [[? _]|[_ Hfind]]; [lia|]. rewrite Hr in Hfind.
    apply find_prev_prop_None in Hfind as (nb & a & Hnb & Ha & Hnone); [|done].
    destruct (chain_facts_net_attrs _ _ _ _ _ _ Hch Ha) as (a' & Ha' & Hentry).
    apply chain_entry_spec in Hentry as (a'' & [= <-] & _ & Hfacts).
    exists nb, a'. split_and!; [congruence|done|].
    intros f1' Hf1'. destruct (elem_of_Forall2_r _ _ _ _ Hfacts Hf1') as (f1 & Hf1 & Hchain1).
    apply chain_fact_spec in Hchain1 as [Hf1eq _].
    rewrite Hf1eq, Hpath. simpl. by apply Hnone.
Qed.

Lemma propagated_info_chain_witness :
  as_path_len fact_R2_P2_star = length (as_path fact_R2_P2_star) ∧
  (∀ r, prev fact_R2_P2_star = Some r →
     ∃ nb attrs_nb f', peer fact_R2_P2_star = Some nb ∧ r = mkRef nb "P2" (ref_index r) ∧
       net_attrs chained_star nb "P2" = Ok attrs_nb ∧
       facts_of attrs_nb !! ref_index r = Some f' ∧
       path f' = removelast (path fact_R2_P2_star)) ∧
  (prev fact_R2_P2_star = None → 2 ≤ length (path fact_R2_P2_star) →
     ∃ nb attrs_nb, peer fact_R2_P2_star = Some nb ∧
       net_attrs chained_star nb "P2" = Ok attrs_nb ∧
       ∀ f', f' ∈ facts_of attrs_nb → path f' ≠ removelast (path fact_R2_P2_star)).
Proof.
  apply (propagated_info_chain topo_star merged_same_path chained_star as_paths_star
           "R2" "P2" nets_R2_star attrs_R2_P2_star fact_R2_P2_star).
  - vm_compute. reflexivity.
  - apply (list_elem_of_lookup_2 _ 1). vm_compute. reflexivity.
  - apply (list_elem_of_lookup_2 _ 1). vm_compute. reflexivity.
  - apply (list_elem_of_lookup_2 _ 0). vm_compute. reflexivity.
Defined.

(** C3: [find_prev_prop] raises where no predecessor exists and [prev] is to
    be left unset.  In the first run R2 learns the prefix over a router
    without BGP, so its fact has no peer; in the second the peer R1 has no
    entry for the prefix.  In both, phase 1 returns, no fact of the graph has
    the path [path[:-1]], and the lookup of the predecessor raises, so the
    whole evaluation raises: the call of [get_bgp_asnum] on the peer fails
    its assertion for no peer, and the entry of the peer is indexed without
    a test. *)
Theorem find_prev_prop_raises :
  (∃ cache ev a f,
     eval_facts topo_transit merged_transit = Ok (cache, ev) ∧
     net_attrs ev "R2" "P" = Ok a ∧ facts_of a = [f] ∧
     path f = ["R1"; "X"; "R2"] ∧ peer f = None ∧
     fact_paths ev = [["R1"]; ["R1"; "X"; "R2"]] ∧
     find_prev_prop topo_transit ev "R2" "P" f
       = Raise (AssertionError (Text "Node is not a router"))) ∧
  partial_eval_propagated_info topo_transit merged_transit
    = Raise (AssertionError (Text "Node is not a router")) ∧
  (∃ cache ev a f,
     eval_facts topo_A merged_no_peer_entry = Ok (cache, ev) ∧
     net_attrs ev "R2" "P" = Ok a ∧ facts_of a = [f] ∧
     path f = ["R1"; "R2"] ∧ peer f = Some "R1" ∧
     fact_paths ev = [["R1"; "R2"]] ∧
     net_attrs ev "R1" "P" = Raise (KeyError (KStr "P")) ∧
     find_prev_prop topo_A ev "R2" "P" f = Raise (KeyError (KStr "P"))) ∧
  partial_eval_propagated_info topo_A merged_no_peer_entry = Raise (KeyError (KStr "P")).
Proof.
  split_and!; [|vm_compute; reflexivity| |vm_compute; reflexivity];
    do 4 eexists; split_and!; vm_compute; reflexivity.
Qed.

(** With an entry of the peer that lists no path, [prev] is left unset. *)
Lemma find_prev_prop_leaves_unset :
  ∃ chained as_paths attrs,
    partial_eval_propagated_info topo_A merged_no_prev = Ok (chained, as_paths) ∧
    net_attrs chained "R2" "P" = Ok attrs ∧
    (path <$> facts_of attrs) = [["R1"; "R2"]] ∧ (prev <$> facts_of attrs) = [None].
Proof. do 3 eexists. split_and!; vm_compute; reflexivity. Qed.

(** C9: the cache of phase 1 is keyed by the path alone.  Whatever the prefix
    [net] under which a fact is attached, the fact is the one that was built
    for the prefix [net0] of the first visited entry that lists its path: it
    carries [net0] as [ann_name], and its AS path ends with the AS path of
    the origin's first advertisement for [net0]. *)
Theorem facts_cached_by_path_alone (g : NetworkGraph) (propagation chained : MGraph string)
    (as_paths : list (list (option Z))) (node net : string)
    (nets : list (string * NetAttrs string)) (attrs : NetAttrs string) (f : PropagatedInfo) :
  partial_eval_propagated_info g propagation = Ok (chained, as_paths) →
  (node, Some nets) ∈ gr_node chained → (net, attrs) ∈ nets → f ∈ facts_of attrs →
  ∃ net0 i,
    first_net (entries_of propagation) (path f) = Some net0 ∧
    eval_path g net0 (path f) = Ok i ∧ f = set_prev i (prev f) ∧
    ann_name f = net0 ∧
    ∃ external_peer egress peer derived ann_source anns k ann,
      get_as_path g (path f) = Ok (external_peer, egress, peer, derived) ∧
      py_first (path f) = Ok ann_source ∧
      get_bgp_advertise g ann_source = Ok anns ∧
      list_find (fun ann => prefix ann = net0) anns = Some (k, ann) ∧
      as_path f = derived ++ (Some <$> ann_as_path ann).
Proof.
  intros Hrun Hnode Hnet Hf.
  destruct (partial_eval_fact _ _ _ _ _ _ _ _ _ Hrun Hnode Hnet Hf)
    as (ev & f0 & Hch & (net0 & Hfirst & Hbuilt) & Hchain).
  destruct (chain_fact_spec _ _ _ _ _ _ Hchain) as [Hf' _].
  assert (Hpath : path f = path f0) by (by rewrite Hf').
  destruct (eval_path_spec _ _ _ _ Hbuilt) as (_ & Hname & _ & _ & Hsplice).
  exists net0, f0. rewrite Hpath. split_and!; try done.
  - by rewrite Hf'.
  - by rewrite Hf'.
Qed.

Lemma facts_cached_by_path_alone_witness :
  ∃ net0 i,
    first_net (entries_of merged_same_path) (path fact_R2_P2_star) = Some net0 ∧
    eval_path topo_star net0 (path fact_R2_P2_star) = Ok i ∧
    fact_R2_P2_star = set_prev i (prev fact_R2_P2_star) ∧
    ann_name fact_R2_P2_star = net0 ∧
    ∃ external_peer egress peer derived ann_source anns k ann,
      get_as_path topo_star (path fact_R2_P2_star) = Ok (external_peer, egress, peer, derived) ∧
      py_first (path fact_R2_P2_star) = Ok ann_source ∧
      get_bgp_advertise topo_star ann_source = Ok anns ∧
      list_find (fun ann => prefix ann = net0) anns = Some (k, ann) ∧
      as_path fact_R2_P2_star = derived ++ (Some <$> ann_as_path ann).
Proof.
  apply (facts_cached_by_path_alone topo_star merged_same_path chained_star as_paths_star
           "R2" "P2" nets_R2_star attrs_R2_P2_star fact_R2_P2_star).
  - vm_compute. reflexivity.
  - apply (list_elem_of_lookup_2 _ 1). vm_compute. reflexivity.
  - apply (list_elem_of_lookup_2 _ 1). vm_compute. reflexivity.
  - apply (list_elem_of_lookup_2 _ 0). vm_compute. reflexivity.
Defined.

(** The fact attached to R2 under P2 was built for P1: it names P1 and carries
    the AS-path suffix of the advertisement of P1, not the one that phase 1
    would build for P2. *)
Lemma fact_of_second_prefix_built_for_first :
  first_net (entries_of merged_same_path) ["R1"; "R2"] = Some "P1" ∧
  path fact_R2_P2_star = ["R1"; "R2"] ∧
  ann_name fact_R2_P2_star = "P1" ∧
  as_path fact_R2_P2_star = [Some 20%Z; Some 10%Z; Some 1%Z] ∧
  (as_path <$> eval_path topo_star "P2" ["R1"; "R2"]) = Ok [Some 20%Z; Some 10%Z; Some 2%Z].
Proof. split_and!; vm_compute; reflexivity. Qed.

(** C4: the check of the origin's advertisement is skipped for a path that is
    already in the cache.  R1 advertises P1 only; the path (R1, R2) is listed
    under P1 and under P2.  The run returns, and the fact attached under P2
    is the one built for P1; with P2 alone the same path aborts the run with
    the error that names P2 and R1. *)
Theorem missing_announcement_hidden_by_cache :
  get_bgp_advertise topo_P1 "R1" = Ok [mkAnnouncement "P1" []] ∧
  (∃ chained as_paths attrs,
     partial_eval_propagated_info topo_P1 merged_same_path = Ok (chained, as_paths) ∧
     net_attrs chained "R2" "P2" = Ok attrs ∧
     (path <$> facts_of attrs) = [["R1"; "R2"]] ∧
     (ann_name <$> facts_of attrs) = ["P1"]) ∧
  partial_eval_propagated_info topo_P1 merged_P2
    = Raise (AssertionError (CouldntFindAnnouncement "P2" "R1" [mkAnnouncement "P1" []])).
Proof.
  split_and!; [vm_compute; reflexivity| |vm_compute; reflexivity].
  do 3 eexists. split_and!; vm_compute; reflexivity.
Qed.

(** ** The propagation graph builder *)

Lemma elem_of_dict_set {K V : Type} `{EqDecision K} (d : list (K * V)) (k k' : K) (v v' : V) :
  (k', v') ∈ dict_set d k v → (k', v') = (k, v) ∨ (k', v') ∈ d.
Proof.
  induction d as [|[k1 v1] d IH]; simpl.
  - intros ->%list_elem_of_singleton. by left.
  - case_decide; subst.
    + intros [->|?]%elem_of_cons; [by left|]. right. by right.
    + intros [->|Hin]%elem_of_cons; [right; by left|].
      destruct (IH Hin) as [?|?]; [by left|]. right. by right.
Qed.

Lemma clear_order_no_empty_rank {N : Type} (gr : PGraph N) : no_empty_rank (clear_order gr).
Proof.
  intros n a ([n0 a0] & [= -> ->] & _)%list_elem_of_fmap. simpl.
  by intros [? _]%list_elem_of_filter.
Qed.

(** [expand_ebgp_graph] only adds blocked paths: the order lists stay. *)
Lemma expand_ebgp_graph_no_empty_rank (g : NetworkGraph) (zones : list (Z * zone_graph))
    (graph : PGraph Z) (expanded expanded' : PGraph string)
    (ebgp_paths : list (list (string * list Z))) :
  no_empty_rank expanded →
  expand_ebgp_graph g zones graph expanded ebgp_paths = Ok expanded' →
  no_empty_rank expanded'.
Proof.
  intros Hexp. unfold expand_ebgp_graph.
  intros (origins & _ & (expanded_paths & _ & Hloop)%bind_Ok)%bind_Ok.
  revert Hexp Hloop. apply for_each_inv.
  intros gr p gr' _ Hgr Hbody. simpl in Hbody.
  apply bind_Ok in Hbody as (node & _ & Hbody).
  destruct (dict_get (gr_node gr) node) as [a|] eqn:E; [|done].
  case_bool_decide; injection Hbody as <-; [done|].
  intros n a' [[= -> ->]|Hin]%elem_of_dict_set; simpl; [|by eapply Hgr].
  apply dict_get_Some_elem in E. by eapply Hgr.
Qed.

Lemma group_reqs_keys (rs : list Req) (req : Req) :
  req ∈ rs → dst_net req ∈ dict_keys (group_reqs rs).
Proof.
  unfold group_reqs.
  cut (∀ acc, (req ∈ rs ∨ dst_net req ∈ dict_keys acc) →
         dst_net req ∈ dict_keys
           (foldl (fun net_reqs req =>
                     let net_reqs' :=
                       if dict_has net_reqs (dst_net req) then net_reqs
                       else dict_set net_reqs (dst_net req) [] in
                     dict_set net_reqs' (dst_net req)
                              (default [] (dict_get net_reqs' (dst_net req)) ++ [req]))
                  acc rs)).
  { intros H ?. apply H. by left. }
  induction rs as [|r rs IH]; intros acc; simpl.
  - by intros [?%elem_of_nil|?].
  - intros [[->|Hin]%elem_of_cons|Hacc]; apply IH; auto; right.
    + apply dict_keys_set_elem. by left.
    + apply dict_keys_set_elem. right.
      destruct (dict_has acc (dst_net r)); [done|]. apply dict_keys_set_elem. by right.
Qed.

Section compute_dags_facts.
Context {Violation : Type}.
Variable compute_propagation_as :
  Graph Z unit → list (list (string * list Z)) → result (PGraph Z).
Variable compute_propagation :
  NetworkGraph → list (list (string * list string)) → result (PGraph string).
Variable check_order : PGraph Z → result (list Violation).

#[local] Abbreviation process :=
  (process_prefix compute_propagation_as compute_propagation check_order).
#[local] Abbreviation run_dags :=
  (compute_dags compute_propagation_as compute_propagation check_order).

(** One prefix: the AS-level graph is stored as the primitive returned it and
    is the one that the ordering checker sees; the router-level graph has no
    empty rank. *)
Lemma process_prefix_spec (self self' : EBGPPropagation) (v v' : option (list Violation))
    (net : string) (rs : list Req) :
  process (self, v) (net, rs) = Ok (self', v') →
  reqs self' = reqs self ∧ network_graph self' = network_graph self ∧
  peering_graph self' = peering_graph self ∧
  ∃ facts ebgp ibgp viol,
    compute_propagation_as (peering_graph self) facts = Ok ebgp ∧
    check_order ebgp = Ok viol ∧ v' = Some viol ∧
    no_empty_rank ibgp ∧
    ebgp_graphs self' = dict_set (ebgp_graphs self) net ebgp ∧
    ibgp_graphs self' = dict_set (ibgp_graphs self) net ibgp.
Proof.
  intros H. unfold process_prefix in H.
  apply bind_Ok in H as ([ebgp_paths ibgp_paths] & _ & H).
  apply bind_Ok in H as (ebgp & Hebgp & H).
  apply bind_Ok in H as (ibgp0 & _ & H).
  apply bind_Ok in H as (viol & Hviol & H).
  apply bind_Ok in H as (ibgp & Hexp & H).
  injection H as <- <-. simpl. split_and!; try done.
  exists ebgp_paths, ebgp, ibgp, viol. split_and!; try done.
  eapply expand_ebgp_graph_no_empty_rank; [|done]. apply clear_order_no_empty_rank.
Qed.
End compute_dags_facts.

Section compute_dags_claims.
Context {Violation : Type}.
Variable compute_propagation_as :
  Graph Z unit → list (list (string * list Z)) → result (PGraph Z).
Variable compute_propagation :
  NetworkGraph → list (list (string * list string)) → result (PGraph string).
Variable check_order : PGraph Z → result (list Violation).

#[local] Abbreviation process :=
  (process_prefix compute_propagation_as compute_propagation check_order).
#[local] Abbreviation run_dags :=
  (compute_dags compute_propagation_as compute_propagation check_order).

(** The loop over the prefixes: every prefix gets its two graphs, and the
    local variable [unmatching_order] holds the violations of the prefix that
    was processed last. *)
Lemma prefixes_loop_spec (groups : list (string * list Req)) (self self1 : EBGPPropagation)
    (v1 : option (list Violation)) :
  for_each groups process (self, None) = Ok (self1, v1) →
  reqs self1 = reqs self ∧ network_graph self1 = network_graph self ∧
  (∀ net rs, (net, rs) ∈ groups →
     (∃ gr, dict_get (ibgp_graphs self1) net = Some gr ∧ no_empty_rank gr) ∧
     (∃ gr facts, dict_get (ebgp_graphs self1) net = Some gr ∧
                  compute_propagation_as (peering_graph self) facts = Ok gr)) ∧
  match list.last groups with
  | Some (net, _) =>
      ∃ gr viol, dict_get (ebgp_graphs self1) net = Some gr ∧
                 check_order gr = Ok viol ∧ v1 = Some viol
  | None => v1 = None
  end.
Proof.
  intros Hrun.
  cut ((fun pre (st : EBGPPropagation * option (list Violation)) =>
    reqs st.1 = reqs self ∧ network_graph st.1 = network_graph self ∧
    peering_graph st.1 = peering_graph self ∧
    (∀ net rs, (net, rs) ∈ pre →
       (∃ gr, dict_get (ibgp_graphs st.1) net = Some gr ∧ no_empty_rank gr) ∧
       (∃ gr facts, dict_get (ebgp_graphs st.1) net = Some gr ∧
                    compute_propagation_as (peering_graph self) facts = Ok gr)) ∧
    match list.last pre with
    | Some (net, _) =>
        ∃ gr viol, dict_get (ebgp_graphs st.1) net = Some gr ∧
                   check_order gr = Ok viol ∧ st.2 = Some viol
    | None => st.2 = None
    end) groups (self1, v1)).
  { simpl. intros (? & ? & _ & ? & ?). done. }
  revert Hrun. apply for_each_inv_seen.
  - simpl. split_and!; try done. by intros ?? ?%elem_of_nil.
  - intros pre [net rs] [s v] [s' v'] (Hreqs & Hg & Hpg & Hall & _) _ Hbody.
    apply (process_prefix_spec _ _ _ s s' v v') in Hbody
      as (Hreqs' & Hg' & Hpg' & facts & ebgp & ibgp & viol & Hcp & Hco & -> & Hne & He & Hi).
    simpl in *.
    rewrite last_snoc. split_and!; try congruence.
    + intros net0 rs0 [Hin|[= -> ->]%list_elem_of_singleton]%elem_of_app.
      * destruct (Hall _ _ Hin) as [(gi & Hgi & ?) (ge & f & Hge & ?)].
        rewrite He, Hi. destruct (decide (net = net0)) as [->|Hne0].
        -- rewrite !dict_get_set_eq. rewrite Hpg in Hcp. split; eauto.
        -- rewrite !dict_get_set_ne by done. split; eauto.
      * rewrite He, Hi, !dict_get_set_eq. rewrite Hpg in Hcp. split; eauto.
    + exists ebgp, viol. rewrite He, dict_get_set_eq. done.
Qed.

(** What [compute_dags] returns and leaves behind. *)
Lemma compute_dags_spec (self self' : EBGPPropagation) (viol : list Violation) :
  run_dags self = Ok (viol, self') →
  ∃ self1,
    for_each (group_reqs (reqs self)) process (self, None) = Ok (self1, Some viol) ∧
    ebgp_graphs self' = ebgp_graphs self1 ∧ ibgp_graphs self' = ibgp_graphs self1.
Proof.
  intros H. unfold compute_dags in H.
  apply bind_Ok in H as ([self1 v1] & Hloop & H).
  apply bind_Ok in H as (self2 & Hmerge & H).
  unfold merge_dags in Hmerge.
  apply bind_Ok in Hmerge as (ebgp & _ & Hmerge).
  apply bind_Ok in Hmerge as (ibgp & _ & Hmerge). injection Hmerge as <-. simpl in H.
  apply bind_Ok in H as ([propagation' as_paths] & _ & H).
  destruct v1 as [v|]; [|done]. injection H as <- <-. simpl.
  exists self1. done.
Qed.

(** The value that [compute_dags] returns is the list of violations of the
    AS-level graph of the last prefix, whatever the checker found for the
    other prefixes. *)
Lemma compute_dags_returns_last_prefix (self self' : EBGPPropagation) (viol : list Violation) :
  run_dags self = Ok (viol, self') →
  ∃ net rs gr, list.last (group_reqs (reqs self)) = Some (net, rs) ∧
    dict_get (ebgp_graphs self') net = Some gr ∧ check_order gr = Ok viol.
Proof.
  intros (self1 & Hloop & He & _)%compute_dags_spec.
  apply prefixes_loop_spec in Hloop as (_ & _ & _ & Hlast).
  destruct (list.last (group_reqs (reqs self))) as [[net rs]|]; [|done].
  destruct Hlast as (gr & viol' & Hgr & Hco & [= <-]).
  exists net, rs, gr. by rewrite He.
Qed.

(** C8, as amended: after [compute_dags], the router-level graph of every
    requested prefix has no empty rank in the order list of any node; the
    AS-level graph of the prefix is stored as the external primitive returned
    it. *)
Theorem router_level_order_has_no_empty_rank (self self' : EBGPPropagation)
    (viol : list Violation) (req : Req) :
  run_dags self = Ok (viol, self') → req ∈ reqs self →
  (∃ gr, dict_get (ibgp_graphs self') (dst_net req) = Some gr ∧
         ∀ n a, (n, a) ∈ gr_node gr → [] ∉ n_order a) ∧
  (∃ gr facts, dict_get (ebgp_graphs self') (dst_net req) = Some gr ∧
               compute_propagation_as (peering_graph self) facts = Ok gr).
Proof.
  intros (self1 & Hloop & He & Hi)%compute_dags_spec Hreq.
  apply prefixes_loop_spec in Hloop as (_ & _ & Hall & _).
  apply group_reqs_keys, list_elem_of_fmap in Hreq as ([net rs] & Hnet & Hin).
  simpl in Hnet. rewrite Hnet, He, Hi. by apply (Hall net rs).
Qed.
End compute_dags_claims.

Lemma router_level_order_has_no_empty_rank_witness :
  (∃ gr, dict_get (ibgp_graphs after_two_prefixes) "P1" = Some gr ∧
         ∀ n a, (n, a) ∈ gr_node gr → [] ∉ n_order a) ∧
  (∃ gr facts, dict_get (ebgp_graphs after_two_prefixes) "P1" = Some gr ∧
               example_propagation facts = Ok gr).
Proof.
  apply (router_level_order_has_no_empty_rank (fun _ => example_propagation)
           (fun _ => example_propagation) example_check_order two_prefixes
           after_two_prefixes [] (PathReq "P1" ["R2"; "R1"])).
  - vm_compute. reflexivity.
  - apply (list_elem_of_lookup_2 _ 0). reflexivity.
Defined.

(** C8 as stated fails for the AS-level view: the empty rank that the
    primitive returned for AS 10 under P1 is still in [ebgp_graphs] after
    [compute_dags]; only the router-level graph is filtered. *)
Lemma as_level_order_keeps_empty_rank :
  compute_dags (fun _ => example_propagation) (fun _ => example_propagation)
               example_check_order two_prefixes = Ok ([], after_two_prefixes) ∧
  ∃ gr a,
    dict_get (ebgp_graphs after_two_prefixes) "P1" = Some gr ∧
    dict_get (gr_node gr) 10%Z = Some a ∧
    n_order a = [[[10%Z]]; []].
Proof. split; [|do 2 eexists; split_and!]; vm_compute; reflexivity. Qed.

(** C5: [compute_dags] returns what the checker reported for the last prefix
    only.  The checker reports a violation for the AS-level graph of P1 and
    none for that of P2; [compute_dags] returns the empty list. *)
Theorem compute_dags_drops_earlier_violations :
  compute_dags (fun _ => example_propagation) (fun _ => example_propagation)
               example_check_order two_prefixes = Ok ([], after_two_prefixes) ∧
  ∃ gr1 gr2,
    dict_get (ebgp_graphs after_two_prefixes) "P1" = Some gr1 ∧
    example_check_order gr1 = Ok [[10%Z; 20%Z]] ∧
    dict_get (ebgp_graphs after_two_prefixes) "P2" = Some gr2 ∧
    example_check_order gr2 = Ok [].
Proof. split; [|do 2 eexists; split_and!]; vm_compute; reflexivity. Qed.

(** Without any requirement, [compute_dags] raises at its [return]: the
    variable it returns was never assigned. *)
Lemma compute_dags_without_requirement :
  compute_dags (fun _ => example_propagation) (fun _ => example_propagation)
               example_check_order (init_propagation [] topo_star)
  = Raise (UnboundLocalError "unmatching_order").
Proof. vm_compute. reflexivity. Qed.

(** * Further properties of the code *)

(** ** tekton/graph.py: typed nodes *)

Lemma dict_update_singleton {K V : Type} `{EqDecision K} (d : list (K * V)) (k : K) (v : V) :
  dict_update d [(k, v)] = dict_set d k v.
Proof. done. Qed.

Lemma dict_get_update {K V : Type} `{EqDecision K} (d e : list (K * V)) (k : K) :
  NoDup (dict_keys e) →
  dict_get (dict_update d e) k = from_option Some (dict_get d k) (dict_get e k).
Proof.
  unfold dict_update, dict_keys. revert d.
  induction e as [|[k' v'] e IH]; intros d Hnd; simpl; [done|].
  apply NoDup_cons in Hnd as [Hk Hnd]. rewrite IH by done.
  case_decide as Hkk; subst.
  - assert (dict_get e k = None) as -> by by apply dict_get_None.
    simpl. apply dict_get_set_eq.
  - destruct (dict_get e k); simpl; [done|]. by apply dict_get_set_ne.
Qed.

(** The node dictionary after networkx's [add_node]. *)
Lemma nx_add_node_get (n m : string) (attr : attrs) (g : NetworkGraph) :
  dict_get (_node (nx_add_node n attr g)) m =
    if decide (m = n)
    then Some (dict_update (default [] (dict_get (_node g) n)) attr)
    else dict_get (_node g) m.
Proof.
  unfold nx_add_node. destruct (dict_get (_node g) n) as [old|] eqn:E; simpl.
  - case_decide; subst; [apply dict_get_set_eq | by apply dict_get_set_ne].
  - assert (_node g ++ [(n, dict_update [] attr)] = dict_set (_node g) n (dict_update [] attr)) as ->.
    { clear -E. induction (_node g) as [|[k v] d IH]; simpl in *; [done|].
      case_decide; [done|]. f_equal. auto. }
    case_decide; subst; [apply dict_get_set_eq | by apply dict_get_set_ne].
Qed.

Lemma nx_add_node_adj (n : string) (attr : attrs) (g : NetworkGraph) :
  _adj (nx_add_node n attr g) = _adj g.
Proof. unfold nx_add_node. by destruct (dict_get (_node g) n). Qed.

Lemma has_node_get (g : NetworkGraph) (n : string) :
  has_node g n = bool_decide (is_Some (dict_get (_node g) n)).
Proof. done. Qed.

(** The type predicates read the stored type. *)
Lemma type_predicates_of_type (g : NetworkGraph) (n : string) (a : attrs) (t : VERTEXTYPE) :
  dict_get (_node g) n = Some a → dict_get a VERTEX_TYPE = Some (VVertex t) →
  is_local_router g n = Ok (bool_decide (t = ROUTER)) ∧
  is_peer g n = Ok (bool_decide (t = PEER)) ∧
  is_network g n = Ok (bool_decide (t = NETWORK)) ∧
  is_router g n = Ok (bool_decide (t = PEER ∨ t = ROUTER)).
Proof.
  intros Ha Ht. unfold is_router, is_local_router, is_peer, is_network, vertex_type_is.
  rewrite has_node_get, Ha, Ht. simpl. by destruct t.
Qed.

(** X1: [add_router], [add_peer] and [add_network] return for every graph and
    name; afterwards the type predicates answer the type that was given,
    also for a node that was there with another type.  The other nodes, the
    other attributes of the node (its BGP configuration among them) and the
    edges are kept. *)
Theorem typed_node_constructors_set_the_type
    (add : string → NetworkGraph → result unit * NetworkGraph) (t : VERTEXTYPE)
    (n : string) (g : NetworkGraph) :
  (add, t) ∈ [(add_router, ROUTER); (add_peer, PEER); (add_network, NETWORK)] →
  (add n g).1 = Ok tt ∧
  is_local_router (add n g).2 n = Ok (bool_decide (t = ROUTER)) ∧
  is_peer (add n g).2 n = Ok (bool_decide (t = PEER)) ∧
  is_network (add n g).2 n = Ok (bool_decide (t = NETWORK)) ∧
  is_router (add n g).2 n = Ok (bool_decide (t = PEER ∨ t = ROUTER)) ∧
  (∀ m, m ≠ n → dict_get (_node (add n g).2) m = dict_get (_node g) m) ∧
  (∀ k, k ≠ VERTEX_TYPE →
     dict_get (_node (add n g).2) n ≫= (fun a => dict_get a k)
     = dict_get (_node g) n ≫= (fun a => dict_get a k)) ∧
  _adj (add n g).2 = _adj g.
Proof.
  intros Hadd.
  assert (add n g = (Ok tt, nx_add_node n [(VERTEX_TYPE, VVertex t)] g)) as ->.
  { repeat (apply elem_of_cons in Hadd as [[= -> ->]|Hadd]); [done..|].
    by apply elem_of_nil in Hadd. }
  simpl. split; [done|].
  pose proof (nx_add_node_get n n [(VERTEX_TYPE, VVertex t)] g) as Hn.
  rewrite decide_True, dict_update_singleton in Hn by done.
  destruct (type_predicates_of_type _ _ _ t Hn) as (? & ? & ? & ?);
    [apply dict_get_set_eq|].
  split_and!; try done.
  - intros m Hm. rewrite nx_add_node_get. by rewrite decide_False.
  - intros k Hk. rewrite Hn. simpl. rewrite dict_get_set_ne by done.
    by destruct (dict_get (_node g) n).
  - apply nx_add_node_adj.
Qed.

Lemma typed_node_constructors_set_the_type_witness :
  is_local_router topo_A "R2" = Ok true ∧
  is_peer (add_peer "R2" topo_A).2 "R2" = Ok true ∧
  is_local_router (add_peer "R2" topo_A).2 "R2" = Ok false ∧
  get_bgp_asnum (add_peer "R2" topo_A).2 "R2" = Ok (Some 20%Z).
Proof.
  assert (H : (add_peer, PEER) ∈ [(add_router, ROUTER); (add_peer, PEER); (add_network, NETWORK)])
    by (right; left).
  pose proof (typed_node_constructors_set_the_type add_peer PEER "R2" topo_A H)
    as (_ & Hl & Hp & _).
  split; [reflexivity|]. split; [exact Hp|]. split; [exact Hl|]. reflexivity.
Defined.

(** ** tekton/graph.py: the iterators over typed nodes *)

Lemma nodes_such_that_filter (test : NetworkGraph → string → result bool) (g : NetworkGraph) :
  (∀ n, n ∈ nodes g → ∃ b, test g n = Ok b) →
  nodes_such_that test g = Ok (filter (fun n => answers_true (test g n)) (nodes g)).
Proof.
  unfold nodes_such_that. intros Hall.
  cut (∀ l acc, (∀ n, n ∈ l → ∃ b, test g n = Ok b) →
         for_each l (fun acc n => b ← test g n; Ok (if b : bool then acc ++ [n] else acc)) acc
         = Ok (acc ++ filter (fun n => answers_true (test g n)) l)).
  { intros H. by rewrite (H (nodes g) []). }
  clear Hall. intros l. induction l as [|n l IH]; intros acc Hall; simpl.
  - by rewrite app_nil_r.
  - destruct (Hall n) as [b Hb]; [left|]. rewrite Hb. simpl.
    rewrite IH by (intros; apply Hall; by right).
    rewrite filter_cons, Hb. destruct b; simpl; [|done].
    by rewrite <- app_assoc.
Qed.

Lemma nodes_such_that_raise (test : NetworkGraph → string → result bool) (g : NetworkGraph)
    (e : exn) (n : string) :
  n ∈ nodes g → test g n = Raise e →
  (∀ m e', m ∈ nodes g → test g m = Raise e' → e' = e) →
  nodes_such_that test g = Raise e.
Proof.
  unfold nodes_such_that. intros Hin Hn Hsame.
  cut (∀ l acc, n ∈ l → (∀ m e', m ∈ l → test g m = Raise e' → e' = e) →
         for_each l (fun acc n => b ← test g n; Ok (if b : bool then acc ++ [n] else acc)) acc
         = Raise e).
  { intros H. by apply H. }
  clear Hin Hsame. intros l. induction l as [|m l IH]; intros acc Hin Hsame.
  - by apply elem_of_nil in Hin.
  - simpl. destruct (test g m) as [b|e'] eqn:Em; simpl.
    + apply IH; [|intros; eapply Hsame; [by right|done]].
      apply elem_of_cons in Hin as [->|]; [congruence|done].
    + f_equal. eapply Hsame; [by left|done].
Qed.

Lemma three_way_partition {A : Type} (P Q R : A → bool) (l : list A) :
  (∀ x, x ∈ l → (P x ∧ ¬ Q x ∧ ¬ R x) ∨ (¬ P x ∧ Q x ∧ ¬ R x) ∨ (¬ P x ∧ ¬ Q x ∧ R x)) →
  l ≡ₚ filter (fun x => P x) l ++ filter (fun x => Q x) l ++ filter (fun x => R x) l.
Proof.
  induction l as [|x l IH]; intros H; [done|].
  rewrite !filter_cons.
  specialize (IH (fun y Hy => H y (list_elem_of_further _ _ _ Hy))).
  destruct (H x) as [(HP & HQ & HR)|[(HP & HQ & HR)|(HP & HQ & HR)]]; [left|..];
    destruct (P x), (Q x), (R x); simpl in *; try done.
  - by constructor.
  - rewrite <- Permutation_middle. by constructor.
  - rewrite app_assoc, <- Permutation_middle, <- app_assoc. by constructor.
Qed.

Lemma two_way_union {A : Type} (P Q R : A → bool) (l : list A) :
  (∀ x, x ∈ l → R x = P x || Q x ∧ ¬ (P x ∧ Q x)) →
  filter (fun x => R x) l ≡ₚ filter (fun x => P x) l ++ filter (fun x => Q x) l.
Proof.
  induction l as [|x l IH]; intros H; [done|].
  rewrite !filter_cons.
  specialize (IH (fun y Hy => H y (list_elem_of_further _ _ _ Hy))).
  destruct (H x (list_elem_of_here _ _)) as [-> Hx].
  destruct (P x), (Q x); simpl in *; try done.
  - tauto.
  - by constructor.
  - rewrite <- Permutation_middle. by constructor.
Qed.

(** X2: on a graph whose nodes all carry a vertex type, the four iterators
    return: each lists, in node order, the nodes its predicate holds for;
    local routers, peers and networks together are the nodes, each node once,
    and the routers are the local routers and the peers. *)
Theorem node_iterators_partition_the_nodes (g : NetworkGraph) :
  (∀ n a, dict_get (_node g) n = Some a → ∃ t, dict_get a VERTEX_TYPE = Some (VVertex t)) →
  ∃ ls ps ns rs,
    local_routers_iter g = Ok ls ∧ peers_iter g = Ok ps ∧
    networks_iter g = Ok ns ∧ routers_iter g = Ok rs ∧
    ls = filter (fun n => answers_true (is_local_router g n)) (nodes g) ∧
    ps = filter (fun n => answers_true (is_peer g n)) (nodes g) ∧
    ns = filter (fun n => answers_true (is_network g n)) (nodes g) ∧
    rs = filter (fun n => answers_true (is_router g n)) (nodes g) ∧
    nodes g ≡ₚ ls ++ ps ++ ns ∧
    rs ≡ₚ ls ++ ps.
Proof.
  intros Htyped.
  assert (Hty : ∀ n, n ∈ nodes g → ∃ t,
            is_local_router g n = Ok (bool_decide (t = ROUTER)) ∧
            is_peer g n = Ok (bool_decide (t = PEER)) ∧
            is_network g n = Ok (bool_decide (t = NETWORK)) ∧
            is_router g n = Ok (bool_decide (t = PEER ∨ t = ROUTER))).
  { intros n Hn. destruct (dict_get (_node g) n) as [a|] eqn:Ea.
    - destruct (Htyped n a Ea) as [t Ht]. exists t. by eapply type_predicates_of_type.
    - by apply dict_get_None in Ea. }
  eexists _, _, _, _.
  split; [apply nodes_such_that_filter; intros n (t & -> & _)%Hty; eauto|].
  split; [apply nodes_such_that_filter; intros n (t & _ & -> & _)%Hty; eauto|].
  split; [apply nodes_such_that_filter; intros n (t & _ & _ & -> & _)%Hty; eauto|].
  split; [apply nodes_such_that_filter; intros n (t & _ & _ & _ & ->)%Hty; eauto|].
  split_and!; try done.
  - apply three_way_partition. intros n (t & -> & -> & -> & _)%Hty. simpl.
    destruct t; simpl; tauto.
  - apply two_way_union. intros n (t & -> & -> & _ & ->)%Hty. simpl.
    destruct t; simpl; split; try done; tauto.
Qed.

Lemma node_iterators_partition_the_nodes_witness :
  (∀ n a, dict_get (_node topo_types) n = Some a →
          ∃ t, dict_get a VERTEX_TYPE = Some (VVertex t)) ∧
  ∃ ls ps ns rs,
    local_routers_iter topo_types = Ok ls ∧ peers_iter topo_types = Ok ps ∧
    networks_iter topo_types = Ok ns ∧ routers_iter topo_types = Ok rs ∧
    ls = filter (fun n => answers_true (is_local_router topo_types n)) (nodes topo_types) ∧
    ps = filter (fun n => answers_true (is_peer topo_types n)) (nodes topo_types) ∧
    ns = filter (fun n => answers_true (is_network topo_types n)) (nodes topo_types) ∧
    rs = filter (fun n => answers_true (is_router topo_types n)) (nodes topo_types) ∧
    nodes topo_types ≡ₚ ls ++ ps ++ ns ∧
    rs ≡ₚ ls ++ ps.
Proof.
  assert (H : ∀ n a, dict_get (_node topo_types) n = Some a →
                     ∃ t, dict_get a VERTEX_TYPE = Some (VVertex t)).
  { intros n a Ha. apply dict_get_Some_elem in Ha. unfold topo_types in Ha. simpl in Ha.
    repeat (apply elem_of_cons in Ha as [[= -> ->]|Ha]); [simpl; eauto..|].
    by apply elem_of_nil in Ha. }
  split; [exact H | exact (node_iterators_partition_the_nodes topo_types H)].
Defined.

(** ** tekton/graph.py: typed edges *)

Lemma dict_set_absent {K V : Type} `{EqDecision K} (d : list (K * V)) (k : K) (v : V) :
  dict_get d k = None → d ++ [(k, v)] = dict_set d k v.
Proof.
  induction d as [|[k' v'] d IH]; simpl; [done|].
  case_decide; [done|]. intros ?. f_equal. auto.
Qed.

(** The two dictionaries of the graph after networkx's [add_edge]. *)
Lemma nx_add_edge_adj_get (u v : string) (attr : attrs) (g : NetworkGraph) (e : string * string) :
  dict_get (_adj (nx_add_edge u v attr g)) e =
    if decide (e = (u, v))
    then Some (dict_update (default [] (dict_get (_adj g) (u, v))) attr)
    else dict_get (_adj g) e.
Proof.
  unfold nx_add_edge. simpl.
  assert (∀ g1 : NetworkGraph, _adj g1 = _adj g →
          _adj (if has_node g1 v then g1
                else mkNetworkGraph (_node g1 ++ [(v, [])]) (_adj g1)) = _adj g) as H2.
  { intros g1 H1. by destruct (has_node g1 v). }
  rewrite !H2 by by destruct (has_node g u).
  case_decide; subst; [apply dict_get_set_eq | by apply dict_get_set_ne].
Qed.

Lemma nx_add_edge_node_get (u v : string) (attr : attrs) (g : NetworkGraph) (n : string) :
  dict_get (_node (nx_add_edge u v attr g)) n =
    match dict_get (_node g) n with
    | Some a => Some a
    | None => if bool_decide (n = u ∨ n = v) then Some [] else None
    end.
Proof.
  unfold nx_add_edge. simpl.
  assert (∀ (g1 : NetworkGraph) w,
    dict_get (_node (if has_node g1 w then g1
                     else mkNetworkGraph (_node g1 ++ [(w, [])]) (_adj g1))) n =
    match dict_get (_node g1) n with
    | Some a => Some a
    | None => if bool_decide (n = w) then Some [] else None
    end) as H1.
  { intros g1 w. rewrite has_node_get.
    destruct (dict_get (_node g1) w) as [aw|] eqn:Ew; simpl.
    - destruct (dict_get (_node g1) n) eqn:En; [done|].
      rewrite bool_decide_false; [done|]. intros ->. congruence.
    - rewrite (dict_set_absent _ _ _ Ew).
      case_bool_decide as Hw; subst.
      + by rewrite dict_get_set_eq, Ew.
      + rewrite dict_get_set_ne by done. by destruct (dict_get (_node g1) n). }
  rewrite H1, H1. destruct (dict_get (_node g) n); [done|].
  destruct (decide (n = u)) as [->|Hu].
  - rewrite !(bool_decide_true (u = u)) by done. by rewrite bool_decide_true by by left.
  - rewrite (bool_decide_false (n = u)) by done.
    destruct (decide (n = v)) as [->|Hv].
    + rewrite bool_decide_true by done. by rewrite bool_decide_true by by right.
    + rewrite bool_decide_false by done. by rewrite bool_decide_false by by intros [?|?].
Qed.

Lemma add_edge_typed (u v : string) (attr : attrs) (x : value) (g : NetworkGraph) :
  add_edge u v (dict_set attr EDGE_TYPE x) g
  = (Ok tt, nx_add_edge u v (dict_set attr EDGE_TYPE x) g).
Proof.
  unfold add_edge.
  assert (dict_has (dict_set attr EDGE_TYPE x) EDGE_TYPE = true) as ->; [|done].
  apply bool_decide_eq_true. rewrite dict_get_set_eq. eauto.
Qed.

(** Every typed edge constructor is a check followed by the insertion of the
    edge with its type. *)
Lemma typed_edge_constructor_cases
    (c : string → string → attrs → NetworkGraph → result unit * NetworkGraph)
    (T : EDGETYPE) (u v : string) (attr : attrs) (g : NetworkGraph) :
  (c, T) ∈ [(add_router_edge, ROUTER_EDGE); (add_peer_edge, PEER_EDGE);
            (add_network_edge, NETWORK_EDGE)] →
  c u v attr g = (Ok tt, nx_add_edge u v (dict_set attr EDGE_TYPE (VEdge T)) g) ∨
  ∃ e, c u v attr g = (Raise e, g).
Proof.
  intros Hc.
  assert (∃ check, c u v attr g
            = guarded check (add_edge u v (dict_set attr EDGE_TYPE (VEdge T))) g)
    as [check ->].
  { repeat (apply elem_of_cons in Hc as [[= -> ->]|Hc]); [by eexists..|].
    by apply elem_of_nil in Hc. }
  unfold guarded. destruct check as [[]|e]; [left|right; eauto].
  apply add_edge_typed.
Qed.

(** X4: a typed edge constructor either raises and leaves the graph as it
    was, or returns; then the edge is there with the type of the
    constructor, its other attributes are those of the call and, where the
    call gives none, those the edge had before; every other edge and every
    node that was there are unchanged, and the only new nodes are the two
    endpoints. *)
Theorem typed_edge_constructors_update_one_edge
    (c : string → string → attrs → NetworkGraph → result unit * NetworkGraph)
    (T : EDGETYPE) (u v : string) (attr : attrs) (g : NetworkGraph) :
  (c, T) ∈ [(add_router_edge, ROUTER_EDGE); (add_peer_edge, PEER_EDGE);
            (add_network_edge, NETWORK_EDGE)] →
  NoDup (dict_keys attr) →
  ((c u v attr g).1 = Ok tt ∨ ∃ e, c u v attr g = (Raise e, g)) ∧
  ((c u v attr g).1 = Ok tt →
   (∃ a, dict_get (_adj (c u v attr g).2) (u, v) = Some a ∧
         dict_get a EDGE_TYPE = Some (VEdge T) ∧
         ∀ k, k ≠ EDGE_TYPE →
              dict_get a k = from_option Some
                               (dict_get (_adj g) (u, v) ≫= (fun old => dict_get old k))
                               (dict_get attr k)) ∧
   (∀ e, e ≠ (u, v) → dict_get (_adj (c u v attr g).2) e = dict_get (_adj g) e) ∧
   (∀ n, n ∈ nodes g → dict_get (_node (c u v attr g).2) n = dict_get (_node g) n) ∧
   (∀ n, n ∈ nodes (c u v attr g).2 ↔ n ∈ nodes g ∨ n = u ∨ n = v)).
Proof.
  intros Hc Hnd.
  destruct (typed_edge_constructor_cases c T u v attr g Hc) as [->|[e ->]]; cbn [fst snd];
    [|split; [eauto|discriminate]].
  split; [by left|]. intros _. split_and!.
  - eexists. split; [rewrite nx_add_edge_adj_get; by rewrite decide_True|].
    assert (Hnd' := dict_keys_set_NoDup attr EDGE_TYPE (VEdge T) Hnd).
    split.
    + rewrite dict_get_update by done. by rewrite dict_get_set_eq.
    + intros k Hk. rewrite dict_get_update by done.
      rewrite dict_get_set_ne by done.
      by destruct (dict_get (_adj g) (u, v)).
  - intros e He. rewrite nx_add_edge_adj_get. by rewrite decide_False.
  - intros n Hn. rewrite nx_add_edge_node_get.
    destruct (dict_get (_node g) n) eqn:E; [done|]. by apply dict_get_None in E.
  - intros n. unfold nodes. rewrite <- !dict_has_true. unfold dict_has.
    rewrite !bool_decide_eq_true, nx_add_edge_node_get.
    destruct (dict_get (_node g) n) eqn:E.
    + split; [left|]; eauto.
    + case_bool_decide.
      * split; [by right | eauto].
      * split; [by intros [? ?] | intros [[? ?]|?]; done].
Qed.

Lemma typed_edge_constructors_update_one_edge_witness :
  (add_peer_edge "P1" "R1" [("iface", VOther "Fa0/0")] topo_types).1 = Ok tt ∧
  ∃ a, dict_get (_adj (add_peer_edge "P1" "R1" [("iface", VOther "Fa0/0")] topo_types).2)
         ("P1", "R1") = Some a ∧
       dict_get a EDGE_TYPE = Some (VEdge PEER_EDGE) ∧
       dict_get a "iface" = Some (VOther "Fa0/0").
Proof.
  assert (Hc : (add_peer_edge, PEER_EDGE)
                 ∈ [(add_router_edge, ROUTER_EDGE); (add_peer_edge, PEER_EDGE);
                    (add_network_edge, NETWORK_EDGE)]) by (right; left).
  assert (Hnd : NoDup (dict_keys [("iface", VOther "Fa0/0")])) by (apply NoDup_singleton).
  assert (Hok : (add_peer_edge "P1" "R1" [("iface", VOther "Fa0/0")] topo_types).1 = Ok tt)
    by reflexivity.
  split; [exact Hok|].
  destruct (proj2 (typed_edge_constructors_update_one_edge add_peer_edge PEER_EDGE "P1" "R1"
                     [("iface", VOther "Fa0/0")] topo_types Hc Hnd) Hok)
    as ((a & Ha & Ht & Hk) & _).
  exists a. split; [exact Ha|]. split; [exact Ht|].
  rewrite (Hk "iface") by discriminate. reflexivity.
Defined.

(** An exception of a type predicate on a node of the graph: the node has no
    vertex type. *)
Lemma type_predicate_raises (g : NetworkGraph) (n : string) (e : exn) :
  is_peer g n = Raise e ∨ is_local_router g n = Raise e ∨
  is_network g n = Raise e ∨ is_router g n = Raise e →
  e = KeyError (KStr VERTEX_TYPE) ∧
  ∃ a, dict_get (_node g) n = Some a ∧ dict_get a VERTEX_TYPE = None.
Proof.
  unfold is_router, is_peer, is_local_router, is_network, vertex_type_is.
  rewrite has_node_get.
  destruct (dict_get (_node g) n) as [a|]; simpl.
  - destruct (dict_get a VERTEX_TYPE) as [[t| | |]|] eqn:Et; simpl.
    + destruct (bool_decide (t = PEER)); simpl; intros [H|[H|[H|H]]]; discriminate H.
    + intros [H|[H|[H|H]]]; discriminate H.
    + intros [H|[H|[H|H]]]; discriminate H.
    + intros [H|[H|[H|H]]]; discriminate H.
    + intros [[= <-]|[[= <-]|[[= <-]|[= <-]]]]; eauto.
  - intros [H|[H|[H|H]]]; discriminate H.
Qed.

Lemma untyped_node_raises (g : NetworkGraph) (n : string) (a : attrs) :
  dict_get (_node g) n = Some a → dict_get a VERTEX_TYPE = None →
  is_peer g n = Raise (KeyError (KStr VERTEX_TYPE)) ∧
  is_local_router g n = Raise (KeyError (KStr VERTEX_TYPE)) ∧
  is_network g n = Raise (KeyError (KStr VERTEX_TYPE)) ∧
  is_router g n = Raise (KeyError (KStr VERTEX_TYPE)).
Proof.
  intros Ha Ht. unfold is_router, is_peer, is_local_router, is_network, vertex_type_is.
  rewrite has_node_get, Ha, Ht. simpl. done.
Qed.

Lemma build_asmap_raises (g : NetworkGraph) (n : string) (e : exn) :
  n ∈ nodes g → is_router g n = Raise e → ∃ e', build_asmap g = Raise e'.
Proof.
  unfold build_asmap. generalize (@nil (Z * list string)).
  induction (nodes g) as [|m l IH]; intros asmap Hin Hn.
  - by apply elem_of_nil in Hin.
  - simpl. match goal with |- ∃ e', ?b ≫= _ = _ => destruct b as [asmap'|e'] eqn:Eb end;
      simpl; [|eauto].
    apply IH; [|done]. apply elem_of_cons in Hin as [->|]; [|done].
    rewrite Hn in Eb. discriminate.
Qed.

(** X3: [add_router_edge] from a local router to a name that is not in the
    graph returns and creates the name as a node without vertex type.  From
    then on the type predicates raise [KeyError] on it, the four iterators
    raise [KeyError], and the extraction of the iBGP zones raises. *)
Theorem add_router_edge_creates_untyped_node (u v : string) (attr : attrs) (g : NetworkGraph) :
  is_local_router g u = Ok true → v ∉ nodes g →
  (add_router_edge u v attr g).1 = Ok tt ∧
  v ∈ nodes (add_router_edge u v attr g).2 ∧
  is_router (add_router_edge u v attr g).2 v = Raise (KeyError (KStr VERTEX_TYPE)) ∧
  is_network (add_router_edge u v attr g).2 v = Raise (KeyError (KStr VERTEX_TYPE)) ∧
  routers_iter (add_router_edge u v attr g).2 = Raise (KeyError (KStr VERTEX_TYPE)) ∧
  local_routers_iter (add_router_edge u v attr g).2 = Raise (KeyError (KStr VERTEX_TYPE)) ∧
  peers_iter (add_router_edge u v attr g).2 = Raise (KeyError (KStr VERTEX_TYPE)) ∧
  networks_iter (add_router_edge u v attr g).2 = Raise (KeyError (KStr VERTEX_TYPE)) ∧
  ∃ e, extract_ibgp_zones (add_router_edge u v attr g).2 = Some (Raise e).
Proof.
  intros Hu Hv.
  assert (add_router_edge u v attr g
          = (Ok tt, nx_add_edge u v (dict_set attr EDGE_TYPE (VEdge ROUTER_EDGE)) g)) as ->.
  { unfold add_router_edge, guarded. rewrite Hu. simpl. apply add_edge_typed. }
  cbn [fst snd]. set (g' := nx_add_edge _ _ _ _).
  assert (Hget : dict_get (_node g') v = Some []).
  { unfold g'. rewrite nx_add_edge_node_get.
    assert (dict_get (_node g) v = None) as -> by by apply dict_get_None.
    rewrite bool_decide_true; [done|by right]. }
  assert (Hin : v ∈ nodes g').
  { apply dict_has_true. unfold dict_has. rewrite Hget. apply bool_decide_eq_true. eauto. }
  destruct (untyped_node_raises g' v [] Hget eq_refl) as (Hp & Hl & Hn & Hr).
  split_and!; try done.
  - eapply nodes_such_that_raise; [done..|].
    intros m e' _ He'. eapply type_predicate_raises; eauto.
  - eapply nodes_such_that_raise; [done..|].
    intros m e' _ He'. eapply type_predicate_raises; eauto.
  - eapply nodes_such_that_raise; [done..|].
    intros m e' _ He'. eapply type_predicate_raises; eauto.
  - eapply nodes_such_that_raise; [done..|].
    intros m e' _ He'. eapply type_predicate_raises; eauto.
  - unfold extract_ibgp_zones.
    destruct (build_asmap_raises g' v _ Hin Hr) as [e' ->]. eauto.
Qed.

Lemma add_router_edge_creates_untyped_node_witness :
  is_local_router topo_types "R1" = Ok true ∧ ("R9" ∉ nodes topo_types) ∧
  (add_router_edge "R1" "R9" [] topo_types).1 = Ok tt ∧
  is_router (add_router_edge "R1" "R9" [] topo_types).2 "R9"
    = Raise (KeyError (KStr VERTEX_TYPE)) ∧
  routers_iter (add_router_edge "R1" "R9" [] topo_types).2
    = Raise (KeyError (KStr VERTEX_TYPE)).
Proof.
  assert (Hu : is_local_router topo_types "R1" = Ok true) by reflexivity.
  assert (Hv : "R9" ∉ nodes topo_types) by (apply has_node_false; reflexivity).
  pose proof (add_router_edge_creates_untyped_node "R1" "R9" [] topo_types Hu Hv)
    as (H1 & _ & H2 & _ & H3 & _).
  split; [exact Hu|]. split; [exact Hv|]. split; [exact H1|]. split; [exact H2|exact H3].
Defined.

(** ** tekton/graph.py: reading the edges *)

Lemma has_edge_get (g : NetworkGraph) (u v : string) :
  has_edge g u v = bool_decide (is_Some (dict_get (_adj g) (u, v))).
Proof. done. Qed.

(** [is_local_router_edge] reads the stored type of the edge. *)
Lemma is_local_router_edge_of_type (g : NetworkGraph) (u v : string) (a : attrs) (T : EDGETYPE) :
  dict_get (_adj g) (u, v) = Some a → dict_get a EDGE_TYPE = Some (VEdge T) →
  is_local_router_edge g u v = Ok (bool_decide (T = ROUTER_EDGE)).
Proof.
  intros Ha HT. unfold is_local_router_edge, edge_attrs.
  rewrite has_edge_get, Ha. simpl. by rewrite HT.
Qed.

Lemma is_local_router_edge_adj (g g' : NetworkGraph) (u v : string) :
  dict_get (_adj g') (u, v) = dict_get (_adj g) (u, v) →
  is_local_router_edge g' u v = is_local_router_edge g u v.
Proof.
  intros H. unfold is_local_router_edge, edge_attrs. rewrite !has_edge_get, H.
  by destruct (dict_get (_adj g) (u, v)).
Qed.

(** X5: [is_local_router_edge] answers without raising for a pair that is not
    an edge ([False], also for names that are not nodes); after a typed edge
    constructor returned it answers [True] for the pair exactly when the
    constructor was [add_router_edge], and its answer for every other pair,
    the reverse pair among them, is what it was. *)
Theorem is_local_router_edge_reads_the_constructor
    (c : string → string → attrs → NetworkGraph → result unit * NetworkGraph)
    (T : EDGETYPE) (u v : string) (attr : attrs) (g : NetworkGraph) :
  (c, T) ∈ [(add_router_edge, ROUTER_EDGE); (add_peer_edge, PEER_EDGE);
            (add_network_edge, NETWORK_EDGE)] →
  NoDup (dict_keys attr) →
  (c u v attr g).1 = Ok tt →
  is_local_router_edge (c u v attr g).2 u v = Ok (bool_decide (T = ROUTER_EDGE)) ∧
  (∀ x y, (x, y) ≠ (u, v) →
     is_local_router_edge (c u v attr g).2 x y = is_local_router_edge g x y) ∧
  (∀ x y, has_edge g x y = false → is_local_router_edge g x y = Ok false).
Proof.
  intros Hc Hnd Hok.
  destruct (typed_edge_constructor_cases c T u v attr g Hc) as [Heq|[e Heq]];
    rewrite Heq in Hok |- *; cbn [fst snd] in *; [|discriminate].
  split_and!.
  - eapply is_local_router_edge_of_type.
    + rewrite nx_add_edge_adj_get. by rewrite decide_True.
    + rewrite dict_get_update by by apply dict_keys_set_NoDup.
      by rewrite dict_get_set_eq.
  - intros x y Hxy. apply is_local_router_edge_adj.
    rewrite nx_add_edge_adj_get. by rewrite decide_False.
  - intros x y Hxy. unfold is_local_router_edge. by rewrite Hxy.
Qed.

Lemma is_local_router_edge_reads_the_constructor_witness :
  is_local_router_edge (add_router_edge "R1" "P1" [] topo_types).2 "R1" "P1" = Ok true ∧
  is_local_router_edge (add_router_edge "R1" "P1" [] topo_types).2 "P1" "R1" = Ok false ∧
  is_local_router_edge (add_peer_edge "R1" "P1" [] topo_types).2 "R1" "P1" = Ok false.
Proof.
  assert (Hr : (add_router_edge, ROUTER_EDGE)
                 ∈ [(add_router_edge, ROUTER_EDGE); (add_peer_edge, PEER_EDGE);
                    (add_network_edge, NETWORK_EDGE)]) by left.
  assert (Hp : (add_peer_edge, PEER_EDGE)
                 ∈ [(add_router_edge, ROUTER_EDGE); (add_peer_edge, PEER_EDGE);
                    (add_network_edge, NETWORK_EDGE)]) by (right; left).
  assert (Hnd : NoDup (dict_keys (@nil (string * value)))) by apply NoDup_nil_2.
  pose proof (is_local_router_edge_reads_the_constructor add_router_edge ROUTER_EDGE
                "R1" "P1" [] topo_types Hr Hnd eq_refl) as (H1 & H2 & _).
  pose proof (is_local_router_edge_reads_the_constructor add_peer_edge PEER_EDGE
                "R1" "P1" [] topo_types Hp Hnd eq_refl) as (H3 & _).
  split; [exact H1|]. split; [|exact H3].
  rewrite (H2 "P1" "R1") by discriminate. reflexivity.
Defined.

(** ** tekton/graph.py: the interface of an edge *)

Lemma edge_attrs_adj (g g' : NetworkGraph) (u v : string) (a : attrs) :
  dict_get (_adj g') (u, v) = Some a → edge_attrs g' u v = Ok a.
Proof. intros H. unfold edge_attrs. by rewrite H. Qed.

(** X6: on an edge of the graph [set_edge_iface] returns, and then
    [get_edge_iface] gives the name that was set; every other attribute of
    the edge (its type among them), the attributes of every other edge (the
    reverse edge among them) and the nodes are unchanged.  On a pair that is not an edge both raise [KeyError]
    and the graph is left as it was.  An edge that was never given an
    interface has the interface [None]. *)
Theorem edge_iface_round_trip (src dst iface : string) (g : NetworkGraph) :
  (has_edge g src dst = true →
     (set_edge_iface src dst iface g).1 = Ok tt ∧
     get_edge_iface (set_edge_iface src dst iface g).2 src dst = Ok (Some (VOther iface)) ∧
     is_local_router_edge (set_edge_iface src dst iface g).2 src dst
       = is_local_router_edge g src dst ∧
     (∀ k, k ≠ "iface" →
        dict_get (_adj (set_edge_iface src dst iface g).2) (src, dst)
          ≫= (fun a => dict_get a k)
        = dict_get (_adj g) (src, dst) ≫= (fun a => dict_get a k)) ∧
     (∀ x y, (x, y) ≠ (src, dst) →
        dict_get (_adj (set_edge_iface src dst iface g).2) (x, y) = dict_get (_adj g) (x, y)) ∧
     _node (set_edge_iface src dst iface g).2 = _node g) ∧
  (has_edge g src dst = false →
     ∃ k, set_edge_iface src dst iface g = (Raise (KeyError k), g) ∧
          get_edge_iface g src dst = Raise (KeyError k)) ∧
  (∀ a, dict_get (_adj g) (src, dst) = Some a → dict_get a "iface" = None →
     get_edge_iface g src dst = Ok None).
Proof.
  rewrite has_edge_get. unfold set_edge_iface, get_edge_iface, edge_attrs.
  destruct (dict_get (_adj g) (src, dst)) as [a|] eqn:Ea; simpl.
  - split_and!; [|discriminate|by intros ? [= <-] ->].
    intros _. rewrite dict_get_set_eq. simpl. rewrite dict_get_set_eq.
    split_and!; try done.
    + unfold is_local_router_edge, edge_attrs. rewrite !has_edge_get. simpl.
      rewrite dict_get_set_eq, Ea. simpl. by rewrite dict_get_set_ne.
    + intros k Hk. by rewrite dict_get_set_ne.
    + intros x y Hxy. by rewrite dict_get_set_ne.
  - split_and!; [discriminate| |discriminate]. eauto.
Qed.

Lemma edge_iface_round_trip_witness :
  has_edge (add_router_edge "R1" "P1" [] topo_types).2 "R1" "P1" = true ∧
  get_edge_iface
    (set_edge_iface "R1" "P1" "Fa0/0" (add_router_edge "R1" "P1" [] topo_types).2).2 "R1" "P1"
  = Ok (Some (VOther "Fa0/0")) ∧
  has_edge topo_types "R1" "P1" = false ∧
  ∃ k, set_edge_iface "R1" "P1" "Fa0/0" topo_types = (Raise (KeyError k), topo_types).
Proof.
  pose proof (edge_iface_round_trip "R1" "P1" "Fa0/0"
                (add_router_edge "R1" "P1" [] topo_types).2) as (H1 & _ & _).
  pose proof (edge_iface_round_trip "R1" "P1" "Fa0/0" topo_types) as (_ & H2 & _).
  split; [reflexivity|]. split; [exact (proj1 (proj2 (H1 eq_refl)))|].
  split; [reflexivity|].
  destruct (H2 eq_refl) as (k & Hk & _). exists k. exact Hk.
Defined.

(** X7: an interface name survives a second call of a typed edge constructor
    on the same pair when the call gives no interface of its own: networkx
    updates the attributes of an edge that is there. *)
Theorem edge_iface_survives_second_add
    (c : string → string → attrs → NetworkGraph → result unit * NetworkGraph)
    (T : EDGETYPE) (u v : string) (attr : attrs) (g : NetworkGraph) (iface : option value) :
  (c, T) ∈ [(add_router_edge, ROUTER_EDGE); (add_peer_edge, PEER_EDGE);
            (add_network_edge, NETWORK_EDGE)] →
  NoDup (dict_keys attr) →
  dict_get attr "iface" = None →
  get_edge_iface g u v = Ok iface →
  (c u v attr g).1 = Ok tt →
  get_edge_iface (c u v attr g).2 u v = Ok iface.
Proof.
  intros Hc Hnd Hattr Hget Hok.
  destruct (typed_edge_constructor_cases c T u v attr g Hc) as [Heq|[e Heq]];
    rewrite Heq in Hok |- *; cbn [fst snd] in *; [|discriminate].
  unfold get_edge_iface, edge_attrs in *.
  rewrite nx_add_edge_adj_get, decide_True by done. simpl.
  rewrite dict_get_update by by apply dict_keys_set_NoDup.
  rewrite dict_get_set_ne, Hattr by done. simpl.
  destruct (dict_get (_adj g) (u, v)); simpl in *; [congruence|discriminate].
Qed.

Lemma edge_iface_survives_second_add_witness :
  get_edge_iface
    (add_router_edge "R1" "P1" []
       (set_edge_iface "R1" "P1" "Fa0/0" (add_router_edge "R1" "P1" [] topo_types).2).2).2
    "R1" "P1"
  = Ok (Some (VOther "Fa0/0")).
Proof.
  assert (Hr : (add_router_edge, ROUTER_EDGE)
                 ∈ [(add_router_edge, ROUTER_EDGE); (add_peer_edge, PEER_EDGE);
                    (add_network_edge, NETWORK_EDGE)]) by left.
  assert (Hnd : NoDup (dict_keys (@nil (string * value)))) by apply NoDup_nil_2.
  exact (edge_iface_survives_second_add add_router_edge ROUTER_EDGE "R1" "P1" []
           (set_edge_iface "R1" "P1" "Fa0/0" (add_router_edge "R1" "P1" [] topo_types).2).2
           (Some (VOther "Fa0/0")) Hr Hnd eq_refl eq_refl eq_refl).
Defined.

(** ** tekton/graph.py: the BGP attributes of a node *)

Lemma type_predicates_node_type (g g' : NetworkGraph) (n : string) :
  node_type g' n = node_type g n →
  is_peer g' n = is_peer g n ∧ is_local_router g' n = is_local_router g n ∧
  is_network g' n = is_network g n ∧ is_router g' n = is_router g n.
Proof.
  unfold node_type, is_router, is_peer, is_local_router, is_network, vertex_type_is.
  rewrite !has_node_get.
  destruct (dict_get (_node g') n), (dict_get (_node g) n); simpl; try done.
  by intros [= ->].
Qed.

(** [get_bgp_attrs] and the accessors built on it read the type of the node
    and what it holds under ['bgp']. *)
Lemma get_bgp_attrs_object (g : NetworkGraph) (n : string) :
  get_bgp_attrs g n =
    v ← bgp_object g n;
    match v with
    | VBgp b => Ok b
    | _ => Raise AttributeError
    end.
Proof.
  unfold get_bgp_attrs, bgp_object.
  destruct (is_router g n) as [r|]; simpl; [|done].
  destruct (py_assert r _); simpl; [|done].
  destruct (dict_get (_node g) n) as [na|]; simpl; [|done].
  by destruct (dict_get na "bgp") as [[]|].
Qed.

Lemma bgp_object_ext (g g' : NetworkGraph) (n : string) :
  node_type g' n = node_type g n →
  (dict_get (_node g') n ≫= (fun a => dict_get a "bgp"))
  = (dict_get (_node g) n ≫= (fun a => dict_get a "bgp")) →
  bgp_object g' n = bgp_object g n.
Proof.
  intros Ht Hb. unfold bgp_object.
  destruct (type_predicates_node_type g g' n Ht) as (_ & _ & _ & ->).
  destruct (is_router g n) as [r|]; simpl; [|done].
  destruct (py_assert r _); simpl; [|done].
  unfold node_type in Ht.
  destruct (dict_get (_node g') n), (dict_get (_node g) n); simpl in *; try done.
  by rewrite Hb.
Qed.

Lemma store_bgp_node_get (n m : string) (b : BGPAttrs) (g : NetworkGraph) :
  dict_get (_node (store_bgp n b g)) m =
    if decide (m = n)
    then Some (dict_set (default [] (dict_get (_node g) n)) "bgp" (VBgp b))
    else dict_get (_node g) m.
Proof.
  unfold store_bgp. simpl.
  case_decide; subst; [apply dict_get_set_eq | by apply dict_get_set_ne].
Qed.

Lemma store_bgp_node_type (n m : string) (b : BGPAttrs) (g : NetworkGraph) :
  n ∈ nodes g → node_type (store_bgp n b g) m = node_type g m.
Proof.
  intros Hn. unfold node_type. rewrite store_bgp_node_get.
  case_decide; subst; [|done].
  destruct (dict_get (_node g) n) eqn:E; simpl.
  - by rewrite dict_get_set_ne.
  - by apply dict_get_None in E.
Qed.

Lemma store_bgp_object (n : string) (b : BGPAttrs) (g : NetworkGraph) :
  is_router g n = Ok true → bgp_object (store_bgp n b g) n = Ok (VBgp b).
Proof.
  intros Hr. assert (Hn := is_router_node _ _ Hr). unfold bgp_object.
  destruct (type_predicates_node_type g (store_bgp n b g) n) as (_ & _ & _ & ->);
    [by apply store_bgp_node_type|].
  rewrite store_bgp_node_get, decide_True, Hr by done. simpl.
  by rewrite dict_get_set_eq.
Qed.

Lemma store_bgp_object_ne (n m : string) (b : BGPAttrs) (g : NetworkGraph) :
  n ∈ nodes g → m ≠ n → bgp_object (store_bgp n b g) m = bgp_object g m.
Proof.
  intros Hn Hm. apply bgp_object_ext; [by apply store_bgp_node_type|].
  rewrite store_bgp_node_get. by rewrite decide_False.
Qed.

Lemma store_bgp_attrs (n : string) (b : BGPAttrs) (g : NetworkGraph) :
  is_router g n = Ok true → get_bgp_attrs (store_bgp n b g) n = Ok b.
Proof. intros Hr. rewrite get_bgp_attrs_object, store_bgp_object; done. Qed.

Lemma store_bgp_attrs_ne (n m : string) (b : BGPAttrs) (g : NetworkGraph) :
  n ∈ nodes g → m ≠ n → get_bgp_attrs (store_bgp n b g) m = get_bgp_attrs g m.
Proof. intros Hn Hm. rewrite !get_bgp_attrs_object, store_bgp_object_ne; done. Qed.

Lemma store_bgp_is_router (n m : string) (b : BGPAttrs) (g : NetworkGraph) :
  n ∈ nodes g → is_router (store_bgp n b g) m = is_router g m.
Proof. intros Hn. by apply type_predicates_node_type, store_bgp_node_type. Qed.

Lemma store_bgp_nodes (n : string) (b : BGPAttrs) (g : NetworkGraph) :
  n ∈ nodes g → nodes (store_bgp n b g) = nodes g.
Proof.
  intros Hn. unfold nodes, store_bgp. simpl. rewrite dict_keys_set.
  by apply dict_has_true in Hn as ->.
Qed.

Lemma bgp_object_router (g : NetworkGraph) (n : string) (v : value) :
  bgp_object g n = Ok v → is_router g n = Ok true.
Proof. unfold bgp_object. intros H. inv_ok. by subst. Qed.

(** Graphs whose nodes have the same types answer the type predicates alike. *)
Lemma node_type_predicates (g g' : NetworkGraph) :
  (∀ m, node_type g' m = node_type g m) →
  ∀ m, is_peer g' m = is_peer g m ∧ is_local_router g' m = is_local_router g m ∧
       is_network g' m = is_network g m.
Proof.
  intros H m. by destruct (type_predicates_node_type g g' m (H m)) as (? & ? & ? & _).
Qed.

Lemma set_bgp_asnum_node_type (node : string) (asnum : Z) (g : NetworkGraph) (m : string) :
  node_type (set_bgp_asnum node asnum g).2 m = node_type g m.
Proof.
  unfold set_bgp_asnum. destruct (bgp_object g node) as [v|e] eqn:Eo; [|done].
  destruct v as [| |b|]; [done|done| |done]. cbn [snd].
  apply store_bgp_node_type. by eapply is_router_node, bgp_object_router.
Qed.

(** X8: the BGP accessors on a name that is no router (a network, or a name
    that is not in the graph) raise [AssertionError]; on a router that was
    never configured they return the defaults: no AS number, BGP not enabled,
    no neighbour, no advertisement. *)
Theorem bgp_accessors_defaults (g : NetworkGraph) (n : string) :
  (is_router g n = Ok false →
     ∃ msg, get_bgp_asnum g n = Raise (AssertionError msg) ∧
            is_bgp_enabled g n = Raise (AssertionError msg) ∧
            get_bgp_neighbors g n = Raise (AssertionError msg) ∧
            get_bgp_advertise g n = Raise (AssertionError msg)) ∧
  (n ∉ nodes g → is_router g n = Ok false) ∧
  (is_network g n = Ok true → is_router g n = Ok false) ∧
  (is_router g n = Ok true →
   (dict_get (_node g) n ≫= (fun a => dict_get a "bgp")) = None →
     get_bgp_asnum g n = Ok None ∧ is_bgp_enabled g n = Ok false ∧
     get_bgp_neighbors g n = Ok [] ∧ get_bgp_advertise g n = Ok []).
Proof.
  split_and!.
  - intros Hr. unfold is_bgp_enabled, get_bgp_asnum, get_bgp_neighbors, get_bgp_advertise,
      get_bgp_attrs. rewrite Hr. simpl. eauto.
  - intros Hn%has_node_false. unfold is_router, is_peer, is_local_router.
    by rewrite Hn.
  - unfold is_router, is_network, is_peer, is_local_router, vertex_type_is.
    destruct (has_node g n); simpl; [|done].
    destruct (dict_get (_node g) n) as [a|]; [|done].
    destruct (dict_get a VERTEX_TYPE) as [[[]| | |]|]; simpl; done.
  - intros Hr Hb. assert (Hn := is_router_node _ _ Hr).
    unfold is_bgp_enabled, get_bgp_asnum, get_bgp_neighbors, get_bgp_advertise,
      get_bgp_attrs. rewrite Hr. simpl.
    destruct (dict_get (_node g) n) as [a|] eqn:Ea; simpl in *.
    + by rewrite Hb.
    + by apply dict_get_None in Ea.
Qed.

Lemma bgp_accessors_defaults_witness :
  is_network topo_types "N1" = Ok true ∧
  (∃ msg, get_bgp_asnum topo_types "N1" = Raise (AssertionError msg)) ∧
  ("X" ∉ nodes topo_types) ∧
  (∃ msg, get_bgp_asnum topo_types "X" = Raise (AssertionError msg)) ∧
  is_router topo_types "P1" = Ok true ∧
  get_bgp_asnum topo_types "P1" = Ok None ∧ get_bgp_neighbors topo_types "P1" = Ok [].
Proof.
  assert (HX : "X" ∉ nodes topo_types) by (apply has_node_false; reflexivity).
  pose proof (bgp_accessors_defaults topo_types "N1") as (H1 & _ & H2 & _).
  pose proof (bgp_accessors_defaults topo_types "X") as (H3 & H4 & _).
  pose proof (bgp_accessors_defaults topo_types "P1") as (_ & _ & _ & H5).
  split; [reflexivity|]. split.
  { destruct (H1 (H2 eq_refl)) as (msg & Hm & _). by exists msg. }
  split; [exact HX|]. split.
  { destruct (H3 (H4 HX)) as (msg & Hm & _). by exists msg. }
  split; [reflexivity|].
  destruct (H5 eq_refl eq_refl) as (Ha & _ & Hn & _). by split.
Defined.

(** X9: [set_bgp_asnum] on a router returns unless the node holds something
    that is no dictionary under ['bgp']; afterwards [get_bgp_asnum] gives the
    number that was set and BGP is enabled, the neighbours and the
    advertisements of the router are what they were, and so are the nodes,
    their types (all four type predicates answer as before), the BGP
    attributes of every other node and the edges.  A call that does not
    return leaves the graph as it was; on a name that is no router it raises
    [AssertionError]. *)
Theorem set_bgp_asnum_round_trip (node : string) (asnum : Z) (g : NetworkGraph) :
  ((set_bgp_asnum node asnum g).1 = Returned →
     get_bgp_asnum (set_bgp_asnum node asnum g).2 node = Ok (Some asnum) ∧
     is_bgp_enabled (set_bgp_asnum node asnum g).2 node = Ok true ∧
     get_bgp_neighbors (set_bgp_asnum node asnum g).2 node = get_bgp_neighbors g node ∧
     get_bgp_advertise (set_bgp_asnum node asnum g).2 node = get_bgp_advertise g node ∧
     nodes (set_bgp_asnum node asnum g).2 = nodes g ∧
     (∀ m, is_router (set_bgp_asnum node asnum g).2 m = is_router g m) ∧
     (∀ m, is_peer (set_bgp_asnum node asnum g).2 m = is_peer g m ∧
           is_local_router (set_bgp_asnum node asnum g).2 m = is_local_router g m ∧
           is_network (set_bgp_asnum node asnum g).2 m = is_network g m) ∧
     (∀ m, m ≠ node → get_bgp_attrs (set_bgp_asnum node asnum g).2 m = get_bgp_attrs g m) ∧
     _adj (set_bgp_asnum node asnum g).2 = _adj g) ∧
  ((set_bgp_asnum node asnum g).1 ≠ Returned → (set_bgp_asnum node asnum g).2 = g) ∧
  (is_router g node = Ok false →
     ∃ msg, (set_bgp_asnum node asnum g).1 = Raised (AssertionError msg)) ∧
  (∀ b, get_bgp_attrs g node = Ok b → (set_bgp_asnum node asnum g).1 = Returned).
Proof.
  unfold set_bgp_asnum.
  destruct (bgp_object g node) as [v|e] eqn:Eo.
  - assert (Hr := bgp_object_router _ _ _ Eo). assert (Hn := is_router_node _ _ Hr).
    destruct v as [| |b|]; cbn [fst snd];
      try (split_and!; [discriminate|done|by rewrite Hr|
                        intros b' Hb'; rewrite get_bgp_attrs_object, Eo in Hb'; discriminate]).
    split_and!; [|done|by rewrite Hr|done].
    intros _.
    assert (Hb : get_bgp_attrs g node = Ok b) by by rewrite get_bgp_attrs_object, Eo.
    unfold is_bgp_enabled, get_bgp_asnum, get_bgp_neighbors, get_bgp_advertise.
    rewrite store_bgp_attrs, Hb by done. simpl.
    split_and!; try done.
    + by apply store_bgp_nodes.
    + intros m. by apply store_bgp_is_router.
    + apply node_type_predicates. intros m. by apply store_bgp_node_type.
    + intros m Hm. by apply store_bgp_attrs_ne.
  - cbn [fst snd]. split_and!; [discriminate|done| |].
    + intros Hr. unfold bgp_object in Eo. rewrite Hr in Eo. simpl in Eo.
      injection Eo as <-. eauto.
    + intros b Hb. rewrite get_bgp_attrs_object, Eo in Hb. discriminate.
Qed.

Lemma set_bgp_asnum_round_trip_witness :
  (set_bgp_asnum "P1" 300 topo_types).1 = Returned ∧
  get_bgp_asnum topo_types "P1" = Ok None ∧
  get_bgp_asnum (set_bgp_asnum "P1" 300 topo_types).2 "P1" = Ok (Some 300%Z) ∧
  is_router topo_types "N1" = Ok false ∧
  (∃ msg, (set_bgp_asnum "N1" 300 topo_types).1 = Raised (AssertionError msg)).
Proof.
  pose proof (set_bgp_asnum_round_trip "P1" 300 topo_types) as (H1 & _).
  pose proof (set_bgp_asnum_round_trip "N1" 300 topo_types) as (_ & _ & H2 & _).
  split; [reflexivity|]. split; [reflexivity|].
  split; [exact (proj1 (H1 eq_refl))|]. split; [reflexivity|exact (H2 eq_refl)].
Defined.

(** ** tekton/graph.py: BGP sessions *)

Lemma get_bgp_neighbors_attrs (g : NetworkGraph) (n : string) (ns : list string) :
  get_bgp_neighbors g n = Ok ns ↔ ∃ b, get_bgp_attrs g n = Ok b ∧ neighbors b = ns.
Proof. unfold get_bgp_neighbors. apply fmap_Ok. Qed.

(** The graph after one key was added to the neighbour map of a router. *)
Lemma add_neighbor_key_spec (n nb : string) (b : BGPAttrs) (g : NetworkGraph) :
  get_bgp_attrs g n = Ok b →
  get_bgp_attrs (add_neighbor_key n nb g) n
    = Ok (mkBGPAttrs (asnum b) (set_add (neighbors b) nb) (advertise b)) ∧
  (∀ m, m ≠ n → get_bgp_attrs (add_neighbor_key n nb g) m = get_bgp_attrs g m) ∧
  (∀ m, is_router (add_neighbor_key n nb g) m = is_router g m) ∧
  nodes (add_neighbor_key n nb g) = nodes g ∧
  _adj (add_neighbor_key n nb g) = _adj g.
Proof.
  intros Hb. assert (Hr := get_bgp_attrs_router _ _ _ Hb).
  assert (Hn := is_router_node _ _ Hr).
  unfold add_neighbor_key. rewrite Hb. split_and!.
  - by apply store_bgp_attrs.
  - intros m Hm. by apply store_bgp_attrs_ne.
  - intros m. by apply store_bgp_is_router.
  - by apply store_bgp_nodes.
  - done.
Qed.

Lemma set_add_new {A : Type} `{EqDecision A} (s : list A) (x : A) :
  x ∉ s → set_add s x = s ++ [x].
Proof. intros H. unfold set_add. by rewrite decide_False. Qed.

(** The description of a session is accepted when it has at most 80
    characters and the neighbour is there. *)
Lemma set_bgp_neighbor_description_spec (node nb d : string) (ns : list string)
    (g : NetworkGraph) :
  get_bgp_neighbors g node = Ok ns → nb ∈ ns →
  set_bgp_neighbor_description node nb d g
  = (if bool_decide (py_len d ≤ 80) then Ok tt else Raise (AssertionError (Text "")), g).
Proof.
  intros Hns Hnb. unfold set_bgp_neighbor_description, guarded.
  case_bool_decide; simpl; [|done].
  rewrite Hns. simpl. by rewrite bool_decide_true.
Qed.

(** The graph after the two keys of a session were written. *)
Lemma add_neighbor_keys_spec (a b : string) (ba bb : BGPAttrs) (g : NetworkGraph) :
  get_bgp_attrs g a = Ok ba → get_bgp_attrs g b = Ok bb →
  b ∉ neighbors ba → a ∉ neighbors bb →
  get_bgp_attrs (add_neighbor_key b a (add_neighbor_key a b g)) a
    = Ok (mkBGPAttrs (asnum ba) (neighbors ba ++ [b]) (advertise ba)) ∧
  (a ≠ b → get_bgp_attrs (add_neighbor_key b a (add_neighbor_key a b g)) b
           = Ok (mkBGPAttrs (asnum bb) (neighbors bb ++ [a]) (advertise bb))) ∧
  (∀ m, m ≠ a → m ≠ b →
        get_bgp_attrs (add_neighbor_key b a (add_neighbor_key a b g)) m = get_bgp_attrs g m) ∧
  (∀ m, is_router (add_neighbor_key b a (add_neighbor_key a b g)) m = is_router g m) ∧
  nodes (add_neighbor_key b a (add_neighbor_key a b g)) = nodes g ∧
  _adj (add_neighbor_key b a (add_neighbor_key a b g)) = _adj g.
Proof.
  intros Ha Hb Hba Hab.
  destruct (add_neighbor_key_spec a b ba g Ha) as (Ha1 & Ho1 & Hr1 & Hn1 & He1).
  rewrite set_add_new in Ha1 by done.
  set (g1 := add_neighbor_key a b g) in *.
  destruct (decide (a = b)) as [<-|Hne].
  - destruct (add_neighbor_key_spec a a _ g1 Ha1) as (Ha2 & Ho2 & Hr2 & Hn2 & He2).
    simpl in Ha2. unfold set_add in Ha2. rewrite decide_True in Ha2.
    2:{ apply elem_of_app. right. by apply list_elem_of_singleton. }
    split_and!; try done.
    + intros m Hm _. by rewrite Ho2, Ho1.
    + intros m. by rewrite Hr2.
    + congruence.
    + congruence.
  - assert (Hb1 : get_bgp_attrs g1 b = Ok bb) by (by rewrite Ho1).
    destruct (add_neighbor_key_spec b a bb g1 Hb1) as (Hb2 & Ho2 & Hr2 & Hn2 & He2).
    rewrite set_add_new in Hb2 by done.
    split_and!; try done.
    + by rewrite Ho2.
    + intros m Hma Hmb. by rewrite Ho2, Ho1.
    + intros m. by rewrite Hr2.
    + congruence.
    + congruence.
Qed.

(** [add_bgp_neighbor] once its four checks have passed: both keys are
    written, then the two descriptions are checked. *)
Lemma add_bgp_neighbor_checked (a b : string) (d : option string) (ba bb : BGPAttrs)
    (g : NetworkGraph) :
  get_bgp_attrs g a = Ok ba → get_bgp_attrs g b = Ok bb →
  b ∉ neighbors ba → a ∉ neighbors bb →
  add_bgp_neighbor a b d g
  = (if bool_decide (py_len (session_descriptions a b d).1 ≤ 80 ∧
                     py_len (session_descriptions a b d).2 ≤ 80)
     then Ok tt else Raise (AssertionError (Text "")),
     add_neighbor_key b a (add_neighbor_key a b g)).
Proof.
  intros Ha Hb Hba Hab.
  destruct (add_neighbor_keys_spec a b ba bb g Ha Hb Hba Hab) as (Ha2 & Hb2 & _).
  set (g2 := add_neighbor_key b a (add_neighbor_key a b g)) in *.
  assert (Hna : ∃ ns, get_bgp_neighbors g2 a = Ok ns ∧ b ∈ ns).
  { eexists. split; [apply get_bgp_neighbors_attrs; eauto|]. simpl.
    apply elem_of_app. right. by apply list_elem_of_singleton. }
  assert (Hnb : ∃ ns, get_bgp_neighbors g2 b = Ok ns ∧ a ∈ ns).
  { destruct (decide (a = b)) as [<-|Hne]; [done|].
    eexists. split; [apply get_bgp_neighbors_attrs; eauto|]. simpl.
    apply elem_of_app. right. by apply list_elem_of_singleton. }
  destruct Hna as (na & Hna & Hbna), Hnb as (nb & Hnb & Hanb).
  assert (Hseq : ∀ d1 d2,
    and_then (set_bgp_neighbor_description a b d1) (set_bgp_neighbor_description b a d2) g2
    = (if bool_decide (py_len d1 ≤ 80 ∧ py_len d2 ≤ 80)
       then Ok tt else Raise (AssertionError (Text "")), g2)).
  { intros d1 d2. unfold and_then.
    rewrite (set_bgp_neighbor_description_spec a b d1 na g2) by done.
    destruct (decide (py_len d1 ≤ 80)) as [H1|H1].
    - rewrite (bool_decide_true (py_len d1 ≤ 80)) by done.
      rewrite (set_bgp_neighbor_description_spec b a d2 nb g2) by done.
      destruct (decide (py_len d2 ≤ 80)) as [H2|H2].
      + rewrite !bool_decide_true; done.
      + rewrite !bool_decide_false; [done|tauto|done].
    - rewrite !bool_decide_false; [done|tauto|done]. }
  unfold add_bgp_neighbor, guarded.
  rewrite (proj2 (get_bgp_neighbors_attrs g a _) (ex_intro _ ba (conj Ha eq_refl))).
  rewrite (proj2 (get_bgp_neighbors_attrs g b _) (ex_intro _ bb (conj Hb eq_refl))).
  simpl. rewrite !bool_decide_true by done. simpl.
  fold g2. unfold session_descriptions.
  destruct d as [d|]; [case_bool_decide|]; apply Hseq.
Qed.

(** [add_bgp_neighbor] when one of its four checks fails. *)
Lemma add_bgp_neighbor_refused (a b : string) (d : option string) (g : NetworkGraph) :
  (∀ ba bb, get_bgp_attrs g a = Ok ba → get_bgp_attrs g b = Ok bb →
            b ∈ neighbors ba ∨ a ∈ neighbors bb) →
  ∃ e, add_bgp_neighbor a b d g = (Raise e, g).
Proof.
  intros H. unfold add_bgp_neighbor, guarded, get_bgp_neighbors.
  destruct (get_bgp_attrs g a) as [ba|]; simpl; [|by eauto].
  destruct (get_bgp_attrs g b) as [bb|]; simpl; [|by eauto].
  destruct (bool_decide (b ∉ neighbors ba)) eqn:H1; simpl; [|by eauto].
  destruct (bool_decide (a ∉ neighbors bb)) eqn:H2; simpl; [|by eauto].
  apply bool_decide_eq_true in H1, H2.
  destruct (H ba bb eq_refl eq_refl); done.
Qed.

(** What [add_bgp_neighbor] leaves when it returned. *)
Lemma add_bgp_neighbor_keys (a b : string) (d : option string) (g : NetworkGraph) :
  (add_bgp_neighbor a b d g).1 = Ok tt →
  ∃ na nb,
    get_bgp_neighbors g a = Ok na ∧ get_bgp_neighbors g b = Ok nb ∧
    (b ∉ na) ∧ (a ∉ nb) ∧
    get_bgp_neighbors (add_bgp_neighbor a b d g).2 a = Ok (na ++ [b]) ∧
    (a ≠ b → get_bgp_neighbors (add_bgp_neighbor a b d g).2 b = Ok (nb ++ [a])) ∧
    (∀ m, get_bgp_asnum (add_bgp_neighbor a b d g).2 m = get_bgp_asnum g m) ∧
    (∀ m, get_bgp_advertise (add_bgp_neighbor a b d g).2 m = get_bgp_advertise g m) ∧
    (∀ m, m ≠ a → m ≠ b →
          get_bgp_neighbors (add_bgp_neighbor a b d g).2 m = get_bgp_neighbors g m) ∧
    (∀ m, is_router (add_bgp_neighbor a b d g).2 m = is_router g m) ∧
    nodes (add_bgp_neighbor a b d g).2 = nodes g ∧
    _adj (add_bgp_neighbor a b d g).2 = _adj g.
Proof.
  intros Hok.
  destruct (get_bgp_attrs g a) as [ba|ea] eqn:Ha.
  2:{ exfalso. unfold add_bgp_neighbor, guarded, get_bgp_neighbors in Hok.
      rewrite Ha in Hok. discriminate. }
  destruct (get_bgp_attrs g b) as [bb|eb] eqn:Hb.
  2:{ exfalso. unfold add_bgp_neighbor, guarded, get_bgp_neighbors in Hok.
      rewrite Ha, Hb in Hok. discriminate. }
  destruct (decide (b ∈ neighbors ba ∨ a ∈ neighbors bb)) as [Hin|Hnin].
  { exfalso. destruct (add_bgp_neighbor_refused a b d g) as [e He].
    - intros ba' bb'. rewrite Ha, Hb. by intros [= <-] [= <-].
    - rewrite He in Hok. discriminate. }
  assert (Hba : b ∉ neighbors ba) by tauto. assert (Hab : a ∉ neighbors bb) by tauto.
  rewrite (add_bgp_neighbor_checked a b d ba bb g Ha Hb Hba Hab) in Hok |- *.
  cbn [fst snd] in *.
  destruct (add_neighbor_keys_spec a b ba bb g Ha Hb Hba Hab)
    as (Ha2 & Hb2 & Ho2 & Hr2 & Hn2 & He2).
  set (g2 := add_neighbor_key b a (add_neighbor_key a b g)) in *.
  exists (neighbors ba), (neighbors bb).
  unfold get_bgp_neighbors, get_bgp_advertise, get_bgp_asnum.
  rewrite Ha, Hb, Ha2. simpl. split_and!; try done.
  - intros Hne. by rewrite Hb2.
  - intros m.
    destruct (decide (m = a)) as [->|Hma]; [by rewrite Ha2, Ha|].
    destruct (decide (m = b)) as [->|Hmb]; [by rewrite Hb2, Hb|].
    by rewrite Ho2.
  - intros m.
    destruct (decide (m = a)) as [->|Hma]; [by rewrite Ha2, Ha|].
    destruct (decide (m = b)) as [->|Hmb]; [by rewrite Hb2, Hb|].
    by rewrite Ho2.
  - intros m Hma Hmb. by rewrite Ho2.
Qed.

(** No step of [add_bgp_neighbor] changes the type of a node. *)
Lemma add_neighbor_key_node_type (n nb : string) (g : NetworkGraph) (m : string) :
  node_type (add_neighbor_key n nb g) m = node_type g m.
Proof.
  unfold add_neighbor_key. destruct (get_bgp_attrs g n) as [b|e] eqn:E; [|done].
  apply store_bgp_node_type. by eapply is_router_node, get_bgp_attrs_router.
Qed.

Lemma set_bgp_neighbor_description_graph (node nb d : string) (g : NetworkGraph) :
  (set_bgp_neighbor_description node nb d g).2 = g.
Proof.
  unfold set_bgp_neighbor_description, guarded.
  by destruct (_ ← py_assert (bool_decide (py_len d ≤ 80)) (Text "");
               nbrs ← get_bgp_neighbors g node;
               if bool_decide (nb ∈ nbrs) then Ok tt else Raise (KeyError (KStr nb))).
Qed.

Lemma add_bgp_neighbor_node_type (a b : string) (d : option string) (g : NetworkGraph)
    (m : string) :
  node_type (add_bgp_neighbor a b d g).2 m = node_type g m.
Proof.
  assert (Hseq : ∀ d1 d2 g2,
    (and_then (set_bgp_neighbor_description a b d1)
              (set_bgp_neighbor_description b a d2) g2).2 = g2).
  { intros d1 d2 g2. unfold and_then.
    pose proof (set_bgp_neighbor_description_graph a b d1 g2) as H1.
    destruct (set_bgp_neighbor_description a b d1 g2) as [[u|e] g3]; simpl in H1; subst g3.
    - apply set_bgp_neighbor_description_graph.
    - done. }
  unfold add_bgp_neighbor, guarded.
  destruct (neighbors_a ← get_bgp_neighbors g a;
            neighbors_b ← get_bgp_neighbors g b;
            _ ← py_assert (bool_decide (b ∉ neighbors_a))
                  (Text "Router already has BGP neighbor configured");
            py_assert (bool_decide (a ∉ neighbors_b))
                  (Text "Router already has BGP neighbor configured")); [|done].
  cbn zeta.
  destruct d as [d|]; [case_bool_decide|]; rewrite Hseq;
    by rewrite !add_neighbor_key_node_type.
Qed.

(** X10: when [add_bgp_neighbor] returns, both names were routers that did
    not list each other; afterwards each lists the other as its last
    neighbour, [get_bgp_neighbor_remoteas] gives the AS number of the other,
    and the AS numbers, the advertisements, the neighbours of every other
    router, the nodes with their types (all four type predicates answer as
    before) and the edges are unchanged.  A session that is already there in
    either direction is refused with [AssertionError] and the graph is left
    as it was. *)
Theorem add_bgp_neighbor_adds_both_directions (a b : string) (d : option string)
    (g : NetworkGraph) :
  ((add_bgp_neighbor a b d g).1 = Ok tt →
   ∃ na nb,
     get_bgp_neighbors g a = Ok na ∧ get_bgp_neighbors g b = Ok nb ∧
     (b ∉ na) ∧ (a ∉ nb) ∧
     get_bgp_neighbors (add_bgp_neighbor a b d g).2 a = Ok (na ++ [b]) ∧
     (a ≠ b → get_bgp_neighbors (add_bgp_neighbor a b d g).2 b = Ok (nb ++ [a])) ∧
     get_bgp_neighbor_remoteas (add_bgp_neighbor a b d g).2 a b = get_bgp_asnum g b ∧
     get_bgp_neighbor_remoteas (add_bgp_neighbor a b d g).2 b a = get_bgp_asnum g a ∧
     (∀ m, get_bgp_asnum (add_bgp_neighbor a b d g).2 m = get_bgp_asnum g m) ∧
     (∀ m, get_bgp_advertise (add_bgp_neighbor a b d g).2 m = get_bgp_advertise g m) ∧
     (∀ m, m ≠ a → m ≠ b →
           get_bgp_neighbors (add_bgp_neighbor a b d g).2 m = get_bgp_neighbors g m) ∧
     (∀ m, is_router (add_bgp_neighbor a b d g).2 m = is_router g m) ∧
     (∀ m, is_peer (add_bgp_neighbor a b d g).2 m = is_peer g m ∧
           is_local_router (add_bgp_neighbor a b d g).2 m = is_local_router g m ∧
           is_network (add_bgp_neighbor a b d g).2 m = is_network g m) ∧
     nodes (add_bgp_neighbor a b d g).2 = nodes g ∧
     _adj (add_bgp_neighbor a b d g).2 = _adj g) ∧
  (∀ na nb, get_bgp_neighbors g a = Ok na → get_bgp_neighbors g b = Ok nb →
            b ∈ na ∨ a ∈ nb →
            ∃ msg, add_bgp_neighbor a b d g = (Raise (AssertionError msg), g)).
Proof.
  split.
  - intros Hok.
    destruct (add_bgp_neighbor_keys a b d g Hok)
      as (na & nb & Hna & Hnb & Hbna & Hanb & Hna' & Hnb' & Hasn & Hadv & Ho & Hr & Hn & He).
    exists na, nb. split_and!; try done.
    + unfold get_bgp_neighbor_remoteas, assert_valid_neighbor. rewrite Hna'. simpl.
      rewrite bool_decide_true
        by (apply elem_of_app; right; by apply list_elem_of_singleton).
      apply Hasn.
    + unfold get_bgp_neighbor_remoteas, assert_valid_neighbor.
      destruct (decide (a = b)) as [<-|Hne].
      * rewrite Hna'. simpl.
        rewrite bool_decide_true
          by (apply elem_of_app; right; by apply list_elem_of_singleton).
        apply Hasn.
      * rewrite Hnb' by done. simpl.
        rewrite bool_decide_true
          by (apply elem_of_app; right; by apply list_elem_of_singleton).
        apply Hasn.
    + apply node_type_predicates. intros m. apply add_bgp_neighbor_node_type.
  - intros na nb Hna Hnb Hin.
    unfold add_bgp_neighbor, guarded. rewrite Hna, Hnb. simpl.
    destruct Hin as [Hin|Hin].
    + rewrite (bool_decide_false (b ∉ na)) by tauto. simpl. eauto.
    + rewrite (bool_decide_false (a ∉ nb)) by tauto.
      destruct (bool_decide (b ∉ na)); simpl; eauto.
Qed.

Lemma add_bgp_neighbor_adds_both_directions_witness :
  (add_bgp_neighbor "R1" "P1" None topo_types).1 = Ok tt ∧
  get_bgp_neighbors topo_types "R1" = Ok [] ∧
  get_bgp_neighbors (add_bgp_neighbor "R1" "P1" None topo_types).2 "R1" = Ok ["P1"] ∧
  get_bgp_neighbors (add_bgp_neighbor "R1" "P1" None topo_types).2 "P1" = Ok ["R1"] ∧
  ∃ msg, add_bgp_neighbor "P1" "R1" None (add_bgp_neighbor "R1" "P1" None topo_types).2
         = (Raise (AssertionError msg), (add_bgp_neighbor "R1" "P1" None topo_types).2).
Proof.
  pose proof (add_bgp_neighbor_adds_both_directions "R1" "P1" None topo_types) as (H1 & _).
  pose proof (add_bgp_neighbor_adds_both_directions "P1" "R1" None
                (add_bgp_neighbor "R1" "P1" None topo_types).2) as (_ & H2).
  destruct (H1 eq_refl) as (na & nb & Hna & Hnb & _ & _ & Ha & Hb & _).
  split; [reflexivity|]. split; [reflexivity|].
  split; [reflexivity|]. split; [reflexivity|].
  apply (H2 ["R1"] ["P1"]); [reflexivity|reflexivity|].
  left. apply list_elem_of_singleton. reflexivity.
Defined.

Lemma py_len_append (s1 s2 : string) :
  py_len (String.append s1 s2) = py_len s1 + py_len s2.
Proof.
  induction s1 as [|c s1 IH]; [done|].
  change (String.append (String c s1) s2) with (String c (String.append s1 s2)).
  cbn [py_len]. rewrite IH. lia.
Qed.

(** X11: [add_bgp_neighbor] writes the session before it checks the
    descriptions.  With no description given, a router whose name has more
    than 77 characters makes the call raise [AssertionError] (the text
    [To <name>] has more than 80 characters), and after the call each of the
    two routers lists the other as a neighbour all the same.  The characters
    are counted as [len] counts them, not the bytes. *)
Theorem add_bgp_neighbor_long_name_is_not_atomic (a b : string) (na nb : list string)
    (g : NetworkGraph) :
  get_bgp_neighbors g a = Ok na → get_bgp_neighbors g b = Ok nb →
  b ∉ na → a ∉ nb →
  77 < py_len a ∨ 77 < py_len b →
  (add_bgp_neighbor a b None g).1 = Raise (AssertionError (Text "")) ∧
  get_bgp_neighbors (add_bgp_neighbor a b None g).2 a = Ok (na ++ [b]) ∧
  (a ≠ b → get_bgp_neighbors (add_bgp_neighbor a b None g).2 b = Ok (nb ++ [a])).
Proof.
  intros (ba & Ha & <-)%get_bgp_neighbors_attrs (bb & Hb & <-)%get_bgp_neighbors_attrs
    Hba Hab Hlen.
  rewrite (add_bgp_neighbor_checked a b None ba bb g Ha Hb Hba Hab). cbn [fst snd].
  destruct (add_neighbor_keys_spec a b ba bb g Ha Hb Hba Hab) as (Ha2 & Hb2 & _).
  unfold get_bgp_neighbors. rewrite Ha2. split_and!; [|done|].
  - rewrite bool_decide_false; [done|].
    unfold session_descriptions. cbn [fst snd]. rewrite !py_len_append.
    change (py_len "To ") with 3. lia.
  - intros Hne. by rewrite Hb2.
Qed.

Lemma add_bgp_neighbor_long_name_is_not_atomic_witness :
  py_len "éééééééééééééééééééééééééééééééééééééééé" = 40 ∧
  (add_bgp_neighbor "R1" "éééééééééééééééééééééééééééééééééééééééé" None
     (add_router "éééééééééééééééééééééééééééééééééééééééé" topo_types).2).1 = Ok tt ∧
  77 < py_len
         "edge-router-with-a-name-of-more-than-seventy-seven-characters.example.network.invalid" ∧
  (add_bgp_neighbor "R1"
     "edge-router-with-a-name-of-more-than-seventy-seven-characters.example.network.invalid"
     None
     (add_router
        "edge-router-with-a-name-of-more-than-seventy-seven-characters.example.network.invalid"
        topo_types).2).1 = Raise (AssertionError (Text "")) ∧
  get_bgp_neighbors
    (add_bgp_neighbor "R1"
       "edge-router-with-a-name-of-more-than-seventy-seven-characters.example.network.invalid"
       None
       (add_router
          "edge-router-with-a-name-of-more-than-seventy-seven-characters.example.network.invalid"
          topo_types).2).2 "R1"
  = Ok ["edge-router-with-a-name-of-more-than-seventy-seven-characters.example.network.invalid"].
Proof.
  assert (Hlen : 77 < py_len
    "edge-router-with-a-name-of-more-than-seventy-seven-characters.example.network.invalid")
    by (vm_compute; lia).
  split; [vm_compute; reflexivity|]. split; [vm_compute; reflexivity|].
  split; [exact Hlen|].
  pose proof (add_bgp_neighbor_long_name_is_not_atomic "R1"
    "edge-router-with-a-name-of-more-than-seventy-seven-characters.example.network.invalid"
    [] []
    (add_router
       "edge-router-with-a-name-of-more-than-seventy-seven-characters.example.network.invalid"
       topo_types).2 eq_refl eq_refl (not_elem_of_nil _) (not_elem_of_nil _) (or_intror Hlen))
    as (H1 & H2 & _).
  split; [exact H1 | exact H2].
Defined.

(** ** netcomplete/netcomplete_ebgp_eval.py: assign_ebgp *)

(** A loop over calls of setters that returned: an invariant that records
    the elements already visited holds at the end. *)
Lemma for_each_call_inv {A : Type} (I : list A → NetworkGraph → Prop) (xs : list A)
    (body : A → NetworkGraph → outcome * NetworkGraph) (g g' : NetworkGraph) :
  I [] g →
  (∀ pre x post g g', xs = pre ++ x :: post → I pre g →
                      body x g = (Returned, g') → I (pre ++ [x]) g') →
  for_each_call xs body g = (Returned, g') → I xs g'.
Proof.
  intros Hg Hbody.
  cut (∀ ys pre g, xs = pre ++ ys → I pre g →
         for_each_call ys body g = (Returned, g') → I xs g').
  { intros H. by apply (H xs []). }
  intros ys. induction ys as [|y ys IH]; intros pre g0 Hxs Hpre Hrun; simpl in Hrun.
  - injection Hrun as <-. rewrite app_nil_r in Hxs. by subst.
  - destruct (body y g0) as [[] g1] eqn:Ey; try discriminate.
    apply (IH (pre ++ [y]) g1); [by rewrite <- app_assoc| |done].
    by eapply Hbody.
Qed.

(** An iterator that returned lists the nodes its predicate holds for. *)
Lemma nodes_such_that_Ok (test : NetworkGraph → string → result bool) (g : NetworkGraph)
    (l : list string) :
  nodes_such_that test g = Ok l →
  l = filter (fun n => answers_true (test g n)) (nodes g) ∧
  ∀ n, n ∈ nodes g → ∃ b, test g n = Ok b.
Proof.
  unfold nodes_such_that.
  cut (∀ ns acc l,
         for_each ns (fun acc n => b ← test g n; Ok (if b : bool then acc ++ [n] else acc)) acc
         = Ok l →
         l = acc ++ filter (fun n => answers_true (test g n)) ns ∧
         ∀ n, n ∈ ns → ∃ b, test g n = Ok b).
  { intros H Hrun. by apply (H _ [] l). }
  clear l. intros ns. induction ns as [|n ns IH]; intros acc l Hrun; simpl in Hrun.
  - injection Hrun as <-. rewrite app_nil_r. split; [done|]. by intros ? ?%elem_of_nil.
  - apply bind_Ok in Hrun as (acc' & Hn & Hrun).
    apply bind_Ok in Hn as (b & Hb & [= <-]).
    destruct (IH _ _ Hrun) as [-> Hall]. split.
    + rewrite filter_cons, Hb. destruct b; simpl; [|done]. by rewrite <- app_assoc.
    + intros m [->|Hm]%elem_of_cons; eauto.
Qed.

#[local] Instance string_leb_total : Total (fun a b : string => Is_true (String.leb a b)).
Proof.
  intros a b. destruct (String.leb_total a b) as [H|H]; rewrite H; simpl; auto.
Qed.

Lemma py_sorted_spec (l : list string) :
  py_sorted l ≡ₚ l ∧ Sorted (fun a b : string => Is_true (String.leb a b)) (py_sorted l).
Proof.
  split; [apply merge_sort_Permutation | apply (Sorted_merge_sort _)].
Qed.

(** What [set_bgp_asnum] leaves when it returned. *)
Lemma set_bgp_asnum_Returned (node : string) (a : Z) (g g' : NetworkGraph) :
  set_bgp_asnum node a g = (Returned, g') →
  get_bgp_asnum g' node = Ok (Some a) ∧
  (∀ m, m ≠ node → get_bgp_attrs g' m = get_bgp_attrs g m) ∧
  (∀ m, get_bgp_neighbors g' m = get_bgp_neighbors g m) ∧
  (∀ m, get_bgp_advertise g' m = get_bgp_advertise g m) ∧
  (∀ m, is_router g' m = is_router g m) ∧
  (∀ m, is_local_router g' m = is_local_router g m) ∧
  nodes g' = nodes g ∧ _adj g' = _adj g.
Proof.
  unfold set_bgp_asnum.
  destruct (bgp_object g node) as [v|e] eqn:Eo; [|discriminate].
  assert (Hr := bgp_object_router _ _ _ Eo). assert (Hn := is_router_node _ _ Hr).
  destruct v as [| |b|]; try discriminate. intros [= <-].
  assert (Hb : get_bgp_attrs g node = Ok b) by by rewrite get_bgp_attrs_object, Eo.
  unfold get_bgp_asnum, get_bgp_neighbors, get_bgp_advertise.
  rewrite store_bgp_attrs by done. simpl.
  split_and!; try done.
  - intros m Hm. by apply store_bgp_attrs_ne.
  - intros m. destruct (decide (m = node)) as [->|Hm].
    + by rewrite store_bgp_attrs, Hb.
    + by rewrite store_bgp_attrs_ne.
  - intros m. destruct (decide (m = node)) as [->|Hm].
    + by rewrite store_bgp_attrs, Hb.
    + by rewrite store_bgp_attrs_ne.
  - intros m. by apply store_bgp_is_router.
  - intros m. by apply type_predicates_node_type, store_bgp_node_type.
  - by apply store_bgp_nodes.
Qed.

(** The first loop of [assign_ebgp]. *)
Lemma assign_asnums_spec (l : list (string * Z)) (g g' : NetworkGraph) :
  for_each_call l (fun na => set_bgp_asnum na.1 na.2) g = (Returned, g') →
  (NoDup l.*1 → ∀ n a, (n, a) ∈ l → get_bgp_asnum g' n = Ok (Some a)) ∧
  (∀ m, m ∉ l.*1 → get_bgp_attrs g' m = get_bgp_attrs g m) ∧
  (∀ m, get_bgp_neighbors g' m = get_bgp_neighbors g m) ∧
  (∀ m, get_bgp_advertise g' m = get_bgp_advertise g m) ∧
  (∀ m, is_router g' m = is_router g m) ∧
  (∀ m, is_local_router g' m = is_local_router g m) ∧
  nodes g' = nodes g ∧ _adj g' = _adj g.
Proof.
  apply (for_each_call_inv (fun pre g1 =>
    (NoDup pre.*1 → ∀ n a, (n, a) ∈ pre → get_bgp_asnum g1 n = Ok (Some a)) ∧
    (∀ m, m ∉ pre.*1 → get_bgp_attrs g1 m = get_bgp_attrs g m) ∧
    (∀ m, get_bgp_neighbors g1 m = get_bgp_neighbors g m) ∧
    (∀ m, get_bgp_advertise g1 m = get_bgp_advertise g m) ∧
    (∀ m, is_router g1 m = is_router g m) ∧
    (∀ m, is_local_router g1 m = is_local_router g m) ∧
    nodes g1 = nodes g ∧ _adj g1 = _adj g)).
  { split_and!; try done. by intros _ ?? ?%elem_of_nil. }
  intros pre [n a] post g1 g2 _ (Hin & Hout & Hnb & Hadv & Hr & Hl & Hn & He) Hset.
  simpl in Hset.
  apply set_bgp_asnum_Returned in Hset as (Ha & Ho2 & Hnb2 & Hadv2 & Hr2 & Hl2 & Hn2 & He2).
  split_and!.
  - rewrite fmap_app. simpl. intros [Hnd [Hdisj _]]%NoDup_app n' a'.
    intros [Hin'|[= -> ->]%list_elem_of_singleton]%elem_of_app; [|done].
    unfold get_bgp_asnum. rewrite Ho2.
    + by apply Hin.
    + intros ->. apply (Hdisj n); [|by left].
      apply list_elem_of_fmap. by exists (n, a').
  - intros m. rewrite fmap_app, not_elem_of_app. simpl.
    rewrite list_elem_of_singleton. intros [Hm Hne].
    rewrite Ho2 by done. by apply Hout.
  - intros m. by rewrite Hnb2.
  - intros m. by rewrite Hadv2.
  - intros m. by rewrite Hr2.
  - intros m. by rewrite Hl2.
  - congruence.
  - congruence.
Qed.

(** The body of the second loop, when it returned. *)
Lemma assign_session_Returned (u v : string) (g g' : NetworkGraph) :
  assign_session (u, v) g = (Returned, g') →
  (g' = g ∧
   (is_router g u = Ok false ∨ is_router g v = Ok false ∨
    ∃ ns, get_bgp_neighbors g u = Ok ns ∧ v ∈ ns)) ∨
  (is_router g u = Ok true ∧ is_router g v = Ok true ∧
   (add_bgp_neighbor u v None g).1 = Ok tt ∧ g' = (add_bgp_neighbor u v None g).2).
Proof.
  unfold assign_session.
  destruct (is_router g u) as [[]|] eqn:Eu; simpl; [| |discriminate].
  2:{ intros [= <-]. left. auto. }
  destruct (is_router g v) as [[]|] eqn:Ev; simpl; [| |discriminate].
  2:{ intros [= <-]. left. auto. }
  destruct (get_bgp_neighbors g u) as [ns|] eqn:En; simpl; [|discriminate].
  case_bool_decide as Hv.
  - destruct (add_bgp_neighbor u v None g) as [[[]|e] g1]; simpl; [|discriminate].
    intros [= <-]. right. done.
  - intros [= <-]. left. split; [done|]. right. right. exists ns. split; [done|].
    by destruct (decide (v ∈ ns)).
Qed.

(** The second loop of [assign_ebgp]. *)
Lemma assign_sessions_spec (es : list (string * string)) (g g' : NetworkGraph) :
  for_each_call es assign_session g = (Returned, g') →
  (∀ u v, (u, v) ∈ es → is_router g u = Ok true → is_router g v = Ok true →
          ∃ ns, get_bgp_neighbors g' u = Ok ns ∧ v ∈ ns) ∧
  (∀ m ns', get_bgp_neighbors g' m = Ok ns' →
     ∃ ns, get_bgp_neighbors g m = Ok ns ∧
           ∀ w, w ∈ ns' → w ∈ ns ∨ (m, w) ∈ es ∨ (w, m) ∈ es) ∧
  (∀ m ns, get_bgp_neighbors g m = Ok ns →
     ∃ ns', get_bgp_neighbors g' m = Ok ns' ∧ ∀ w, w ∈ ns → w ∈ ns') ∧
  (sessions_symmetric g → sessions_symmetric g') ∧
  (∀ m, get_bgp_asnum g' m = get_bgp_asnum g m) ∧
  (∀ m, get_bgp_advertise g' m = get_bgp_advertise g m) ∧
  (∀ m, is_router g' m = is_router g m) ∧
  nodes g' = nodes g ∧ _adj g' = _adj g.
Proof.
  apply (for_each_call_inv (fun pre g1 =>
    (∀ u v, (u, v) ∈ pre → is_router g u = Ok true → is_router g v = Ok true →
            ∃ ns, get_bgp_neighbors g1 u = Ok ns ∧ v ∈ ns) ∧
    (∀ m ns', get_bgp_neighbors g1 m = Ok ns' →
       ∃ ns, get_bgp_neighbors g m = Ok ns ∧
             ∀ w, w ∈ ns' → w ∈ ns ∨ (m, w) ∈ pre ∨ (w, m) ∈ pre) ∧
    (∀ m ns, get_bgp_neighbors g m = Ok ns →
       ∃ ns', get_bgp_neighbors g1 m = Ok ns' ∧ ∀ w, w ∈ ns → w ∈ ns') ∧
    (sessions_symmetric g → sessions_symmetric g1) ∧
    (∀ m, get_bgp_asnum g1 m = get_bgp_asnum g m) ∧
    (∀ m, get_bgp_advertise g1 m = get_bgp_advertise g m) ∧
    (∀ m, is_router g1 m = is_router g m) ∧
    nodes g1 = nodes g ∧ _adj g1 = _adj g)).
  { split_and!; try done.
    - by intros ?? ?%elem_of_nil.
    - intros m ns' H. exists ns'. split; [done|]. auto.
    - intros m ns H. exists ns. split; [done|]. auto. }
  intros pre [u v] post g1 g2 _ (Hdone & Hfrom & Hmono & Hsym & Hasn & Hadv & Hr & Hn & He) Hbody.
  apply assign_session_Returned in Hbody as [[-> Hskip]|(Hu & Hv & Hok & ->)].
  - split_and!; try done.
    + intros u' v' [Hin|[= -> ->]%list_elem_of_singleton]%elem_of_app Hu' Hv'; [by apply Hdone|].
      rewrite !Hr in Hskip. destruct Hskip as [?|[?|?]]; [congruence|congruence|done].
    + intros m ns' (ns & Hns & Hsub)%Hfrom. exists ns. split; [done|].
      intros w Hw. destruct (Hsub w Hw) as [?|[?|?]]; [by left|right; left|right; right];
        apply elem_of_app; by left.
  - destruct (add_bgp_neighbor_keys u v None g1 Hok)
      as (na & nb & Hna & Hnb & Hvna & Hunb & Hna' & Hnb' & Hasn' & Hadv' & Ho' & Hr' & Hn' & He').
    set (g2 := (add_bgp_neighbor u v None g1).2) in *.
    assert (Hnew : ∀ m ns2, get_bgp_neighbors g2 m = Ok ns2 →
              ∃ ns1, get_bgp_neighbors g1 m = Ok ns1 ∧
                     (∀ w, w ∈ ns1 → w ∈ ns2) ∧
                     ∀ w, w ∈ ns2 → w ∈ ns1 ∨ (m = u ∧ w = v) ∨ (m = v ∧ w = u)).
    { intros m ns2 Hm.
      destruct (decide (m = u)) as [->|Hmu].
      { rewrite Hna' in Hm. injection Hm as <-. exists na. split; [done|]. split.
        - intros w ?. apply elem_of_app. by left.
        - intros w [?| ->%list_elem_of_singleton]%elem_of_app; auto. }
      destruct (decide (m = v)) as [->|Hmv].
      { rewrite Hnb' in Hm by done. injection Hm as <-. exists nb. split; [done|]. split.
        - intros w ?. apply elem_of_app. by left.
        - intros w [?| ->%list_elem_of_singleton]%elem_of_app; auto. }
      rewrite Ho' in Hm by done. exists ns2. auto. }
    assert (Hold : ∀ m ns1, get_bgp_neighbors g1 m = Ok ns1 →
              ∃ ns2, get_bgp_neighbors g2 m = Ok ns2 ∧ ∀ w, w ∈ ns1 → w ∈ ns2).
    { intros m ns1 Hm.
      destruct (decide (m = u)) as [->|Hmu].
      { rewrite Hna in Hm. injection Hm as <-. eexists. split; [done|].
        intros w ?. apply elem_of_app. by left. }
      destruct (decide (m = v)) as [->|Hmv].
      { rewrite Hnb in Hm. injection Hm as <-. eexists. split; [by apply Hnb'|].
        intros w ?. apply elem_of_app. by left. }
      rewrite <- Ho' in Hm by done. eauto. }
    split_and!.
    + intros u' v' [Hin|[= -> ->]%list_elem_of_singleton]%elem_of_app Hu' Hv'.
      * destruct (Hdone u' v' Hin Hu' Hv') as (ns & Hns & Hin').
        destruct (Hold _ _ Hns) as (ns2 & Hns2 & Hsub). eauto.
      * eexists. split; [exact Hna'|]. apply elem_of_app. right.
        by apply list_elem_of_singleton.
    + intros m ns2 Hm. destruct (Hnew m ns2 Hm) as (ns1 & Hns1 & _ & Hsub).
      destruct (Hfrom m ns1 Hns1) as (ns & Hns & Hsub'). exists ns. split; [done|].
      intros w Hw. destruct (Hsub w Hw) as [Hw1|[[-> ->]|[-> ->]]].
      * destruct (Hsub' w Hw1) as [?|[?|?]]; [by left|right; left|right; right];
          apply elem_of_app; by left.
      * right. left. apply elem_of_app. right. by apply list_elem_of_singleton.
      * right. right. apply elem_of_app. right. by apply list_elem_of_singleton.
    + intros m ns Hm. destruct (Hmono m ns Hm) as (ns1 & Hns1 & Hsub).
      destruct (Hold m ns1 Hns1) as (ns2 & Hns2 & Hsub2). eauto.
    + intros Hsym0 m w ns2 Hm Hw. specialize (Hsym Hsym0).
      destruct (Hnew m ns2 Hm) as (ns1 & Hns1 & _ & Hsub).
      destruct (Hsub w Hw) as [Hw1|[[-> ->]|[-> ->]]].
      * destruct (Hsym m w ns1 Hns1 Hw1) as (ns' & Hns' & Hin').
        destruct (Hold w ns' Hns') as (ns2' & Hns2' & Hsub'). eauto.
      * destruct (decide (u = v)) as [<-|Hne].
        -- eexists. split; [exact Hna'|]. apply elem_of_app. right.
           by apply list_elem_of_singleton.
        -- eexists. split; [by apply Hnb'|]. apply elem_of_app. right.
           by apply list_elem_of_singleton.
      * eexists. split; [exact Hna'|]. apply elem_of_app. right.
        by apply list_elem_of_singleton.
    + intros m. by rewrite Hasn'.
    + intros m. by rewrite Hadv'.
    + intros m. by rewrite Hr'.
    + congruence.
    + congruence.
Qed.

Lemma edges_ext (g g' : NetworkGraph) :
  nodes g' = nodes g → _adj g' = _adj g → edges g' = edges g.
Proof. unfold edges. by intros -> ->. Qed.

(** [assign_ebgp] that returned, as its two loops. *)
Lemma assign_ebgp_Returned (g g' : NetworkGraph) :
  assign_ebgp g = (Returned, g') →
  ∃ locals g1,
    local_routers_iter g = Ok locals ∧
    for_each_call (zip (py_sorted locals) (asnum_gen <$> seq 0 (length locals)))
      (fun na => set_bgp_asnum na.1 na.2) g = (Returned, g1) ∧
    for_each_call (edges g) assign_session g1 = (Returned, g').
Proof.
  unfold assign_ebgp. destruct (local_routers_iter g) as [locals|]; [|discriminate].
  destruct (for_each_call (zip _ _) _ g) as [[] g1] eqn:E1; try discriminate.
  intros H2. exists locals, g1. split_and!; [done..|].
  apply assign_asnums_spec in E1 as (_ & _ & _ & _ & _ & _ & Hn & He).
  by rewrite <- (edges_ext g g1).
Qed.

Lemma zip_numbering_fst (l : list string) (n : nat) :
  length l = n → (zip l (asnum_gen <$> seq 0 n)).*1 = l.
Proof. intros <-. apply fst_zip. by rewrite length_fmap, length_seq. Qed.

Lemma zip_numbering_lookup (l : list string) (n i : nat) (r : string) :
  length l = n → l !! i = Some r → (r, asnum_gen i) ∈ zip l (asnum_gen <$> seq 0 n).
Proof.
  intros <- Hi. apply (list_elem_of_lookup_2 _ i). apply lookup_zip_Some. split; [done|].
  rewrite list_lookup_fmap, lookup_seq_lt; [done|]. by eapply lookup_lt_Some.
Qed.

(** X12: when [assign_ebgp] returns on a graph (a dictionary of nodes: no name
    twice), the local routers have the AS numbers 10, 20, 30, ... in the
    increasing order of their names; so no two local routers share an AS
    number.  The AS number of every other node is what it was. *)
Theorem assign_ebgp_numbers_local_routers (g g' : NetworkGraph) :
  NoDup (nodes g) →
  assign_ebgp g = (Returned, g') →
  ∃ locals,
    local_routers_iter g = Ok locals ∧
    py_sorted locals ≡ₚ locals ∧
    Sorted (fun a b : string => Is_true (String.leb a b)) (py_sorted locals) ∧
    (∀ i r, py_sorted locals !! i = Some r →
            get_bgp_asnum g' r = Ok (Some (10 * (Z.of_nat i + 1))%Z)) ∧
    (∀ r1 r2 a, r1 ∈ locals → r2 ∈ locals →
                get_bgp_asnum g' r1 = Ok a → get_bgp_asnum g' r2 = Ok a → r1 = r2) ∧
    (∀ m, m ∉ locals → get_bgp_asnum g' m = get_bgp_asnum g m).
Proof.
  intros Hnd (locals & g1 & Hlocals & H1 & H2)%assign_ebgp_Returned.
  exists locals. destruct (py_sorted_spec locals) as [Hperm Hsorted].
  apply assign_asnums_spec in H1 as (Hin & Hout & _).
  apply assign_sessions_spec in H2 as (_ & _ & _ & _ & Hasn & _).
  assert (Hlen : length (py_sorted locals) = length locals) by by rewrite Hperm.
  rewrite zip_numbering_fst in Hin, Hout by done.
  assert (Hndl : NoDup locals).
  { apply nodes_such_that_Ok in Hlocals as [-> _]. by apply NoDup_filter. }
  assert (Hnds : NoDup (py_sorted locals)) by by rewrite Hperm.
  assert (Hrank : ∀ i r, py_sorted locals !! i = Some r →
            get_bgp_asnum g' r = Ok (Some (10 * (Z.of_nat i + 1))%Z)).
  { intros i r Hi. rewrite Hasn.
    rewrite (Hin Hnds r (asnum_gen i)) by by apply zip_numbering_lookup.
    unfold asnum_gen. do 2 f_equal. lia. }
  split_and!; try done.
  - intros r1 r2 a Hr1 Hr2 Ha1 Ha2.
    rewrite <- Hperm in Hr1, Hr2.
    apply list_elem_of_lookup in Hr1 as [i Hi], Hr2 as [j Hj].
    rewrite (Hrank i r1 Hi) in Ha1. rewrite (Hrank j r2 Hj) in Ha2.
    assert (i = j) as -> by (injection Ha1 as <-; injection Ha2 as ?; lia).
    congruence.
  - intros m Hm. rewrite Hasn. unfold get_bgp_asnum. rewrite Hout; [done|].
    by rewrite Hperm.
Qed.

Lemma assign_ebgp_numbers_local_routers_witness :
  NoDup (nodes topo_unconfigured) ∧
  (assign_ebgp topo_unconfigured).1 = Returned ∧
  local_routers_iter topo_unconfigured = Ok ["R2"; "R1"; "R3"] ∧
  get_bgp_asnum (assign_ebgp topo_unconfigured).2 "R1" = Ok (Some 10%Z) ∧
  get_bgp_asnum (assign_ebgp topo_unconfigured).2 "R2" = Ok (Some 20%Z) ∧
  get_bgp_asnum (assign_ebgp topo_unconfigured).2 "R3" = Ok (Some 30%Z).
Proof.
  assert (Hnd : NoDup (nodes topo_unconfigured)).
  { apply NoDup_ListNoDup. vm_compute. repeat constructor; simpl; intuition discriminate. }
  assert (Hrun : assign_ebgp topo_unconfigured = (Returned, (assign_ebgp topo_unconfigured).2))
    by (vm_compute; reflexivity).
  destruct (assign_ebgp_numbers_local_routers topo_unconfigured _ Hnd Hrun)
    as (locals & Hl & _ & _ & Hrank & _).
  assert (locals = ["R2"; "R1"; "R3"]) as -> by (vm_compute in Hl; congruence).
  split; [exact Hnd|]. split; [vm_compute; reflexivity|]. split; [exact Hl|].
  split; [exact (Hrank 0 "R1" eq_refl)|].
  split; [exact (Hrank 1 "R2" eq_refl) | exact (Hrank 2 "R3" eq_refl)].
Defined.

(** [assign_ebgp] changes the type of no node. *)
Lemma for_each_call_node_type {A : Type} (xs : list A)
    (body : A → NetworkGraph → outcome * NetworkGraph) (g : NetworkGraph) :
  (∀ x g m, node_type (body x g).2 m = node_type g m) →
  ∀ m, node_type (for_each_call xs body g).2 m = node_type g m.
Proof.
  intros Hbody. revert g. induction xs as [|x xs IH]; intros g m; simpl; [done|].
  pose proof (Hbody x g m) as Hx.
  destruct (body x g) as [[] g1]; simpl in Hx; [by rewrite IH|done..].
Qed.

Lemma assign_session_node_type (e : string * string) (g : NetworkGraph) (m : string) :
  node_type (assign_session e g).2 m = node_type g m.
Proof.
  unfold assign_session. destruct e as [u v].
  destruct (rs ← is_router g u;
            if negb rs then Ok false
            else
              rd ← is_router g v;
              if negb rd then Ok false
              else
                nbrs ← get_bgp_neighbors g u;
                Ok (bool_decide (v ∉ nbrs))) as [[]|]; [|done..].
  apply add_bgp_neighbor_node_type.
Qed.

Lemma assign_ebgp_node_type (g : NetworkGraph) (m : string) :
  node_type (assign_ebgp g).2 m = node_type g m.
Proof.
  unfold assign_ebgp. destruct (local_routers_iter g) as [locals|]; [|done].
  pose proof (for_each_call_node_type
                (zip (py_sorted locals) (asnum_gen <$> seq 0 (length locals)))
                (fun na => set_bgp_asnum na.1 na.2) g
                (fun na g0 m0 => set_bgp_asnum_node_type na.1 na.2 g0 m0) m) as H1.
  destruct (for_each_call (zip (py_sorted locals) (asnum_gen <$> seq 0 (length locals)))
              (fun na => set_bgp_asnum na.1 na.2) g) as [[] g1]; simpl in H1; [|done..].
  rewrite (for_each_call_node_type (edges g1) assign_session g1 assign_session_node_type).
  done.
Qed.

(** X13: when [assign_ebgp] returns, every edge between two routers has its
    BGP session: the target is a neighbour of the source.  A neighbour that a
    router has afterwards was its neighbour before or is joined to it by an
    edge, in either direction.  When every session had its reverse before,
    every session has its reverse afterwards.  The nodes, their types (all
    four type predicates answer as before), the advertisements and the edges
    are unchanged. *)
Theorem assign_ebgp_sessions_follow_edges (g g' : NetworkGraph) :
  assign_ebgp g = (Returned, g') →
  (∀ u v, (u, v) ∈ edges g → is_router g u = Ok true → is_router g v = Ok true →
          ∃ ns, get_bgp_neighbors g' u = Ok ns ∧ v ∈ ns) ∧
  (∀ m ns', get_bgp_neighbors g' m = Ok ns' →
     ∃ ns, get_bgp_neighbors g m = Ok ns ∧
           ∀ w, w ∈ ns' → w ∈ ns ∨ (m, w) ∈ edges g ∨ (w, m) ∈ edges g) ∧
  (sessions_symmetric g → sessions_symmetric g') ∧
  (∀ m, get_bgp_advertise g' m = get_bgp_advertise g m) ∧
  (∀ m, is_router g' m = is_router g m) ∧
  (∀ m, is_peer g' m = is_peer g m ∧ is_local_router g' m = is_local_router g m ∧
        is_network g' m = is_network g m) ∧
  nodes g' = nodes g ∧ _adj g' = _adj g.
Proof.
  intros Hrun.
  assert (Hty : ∀ m, node_type g' m = node_type g m).
  { intros m. pose proof (assign_ebgp_node_type g m) as H. by rewrite Hrun in H. }
  apply assign_ebgp_Returned in Hrun as (locals & g1 & Hlocals & H1 & H2).
  apply assign_asnums_spec in H1 as (_ & _ & Hnb1 & Hadv1 & Hr1 & _ & Hn1 & He1).
  apply assign_sessions_spec in H2 as (Hdone & Hfrom & _ & Hsym & _ & Hadv & Hr & Hn & He).
  split_and!.
  - intros u v Huv Hu Hv. apply Hdone; [done|by rewrite Hr1..].
  - intros m ns' (ns & Hns & Hsub)%Hfrom. exists ns. rewrite Hnb1 in Hns. done.
  - intros Hsym0. apply Hsym. intros m w ns. rewrite !Hnb1. intros Hm Hw.
    destruct (Hsym0 m w ns Hm Hw) as (ns' & Hns' & Hin). by exists ns'.
  - intros m. by rewrite Hadv.
  - intros m. by rewrite Hr.
  - by apply node_type_predicates.
  - congruence.
  - congruence.
Qed.

Lemma assign_ebgp_sessions_follow_edges_witness :
  (assign_ebgp topo_unconfigured).1 = Returned ∧
  sessions_symmetric topo_unconfigured ∧
  sessions_symmetric (assign_ebgp topo_unconfigured).2 ∧
  get_bgp_neighbors (assign_ebgp topo_unconfigured).2 "R2" = Ok ["R1"; "R3"] ∧
  get_bgp_neighbors (assign_ebgp topo_unconfigured).2 "R3" = Ok ["R2"].
Proof.
  assert (Hrun : assign_ebgp topo_unconfigured = (Returned, (assign_ebgp topo_unconfigured).2))
    by (vm_compute; reflexivity).
  assert (Hsym : sessions_symmetric topo_unconfigured).
  { intros m w ns Hm Hw. exfalso.
    pose proof Hm as (b & Hb & _)%get_bgp_neighbors_attrs.
    assert (Hin : m ∈ nodes topo_unconfigured)
      by (eapply is_router_node, get_bgp_attrs_router; exact Hb).
    clear b Hb.
    unfold topo_unconfigured in Hin. simpl in Hin.
    repeat (apply elem_of_cons in Hin as [->|Hin]);
      try (vm_compute in Hm; injection Hm as <-; by apply elem_of_nil in Hw);
      try (vm_compute in Hm; discriminate Hm).
    by apply elem_of_nil in Hin. }
  pose proof (assign_ebgp_sessions_follow_edges topo_unconfigured _ Hrun)
    as (_ & _ & Hsym' & _).
  split; [vm_compute; reflexivity|]. split; [exact Hsym|]. split; [exact (Hsym' Hsym)|].
  split; vm_compute; reflexivity.
Defined.

(** ** synet/synthesis/new_propagation.py: the zones as fixed points *)

Lemma graph_neighbors_complete (g : NetworkGraph) (n nb : string) (nbrs : list string) :
  graph_neighbors g n = Ok nbrs → (n, nb) ∈ dict_keys (_adj g) → nb ∈ nbrs.
Proof.
  unfold graph_neighbors. destruct (has_node g n); [|discriminate].
  intros [= <-] Hin. apply list_elem_of_fmap. exists (n, nb). split; [done|].
  by apply list_elem_of_filter.
Qed.

(** The test that the loop body makes on a neighbour. *)
Lemma zone_body_cases (g : NetworkGraph) (asnum : Z) (node nb : string) (ig ig' : zone_graph) :
  (r ← is_router g nb;
   if negb r then Ok ig
   else
     en ← is_bgp_enabled g nb;
     if en : bool then
       a ← get_bgp_asnum g nb;
       if decide (a = Some asnum)
       then Ok (gr_add_edge tt node nb ig)
       else Ok ig
     else Ok (gr_add_edge tt node nb ig)) = Ok ig' →
  (zone_candidate g asnum nb ∧ ig' = gr_add_edge tt node nb ig) ∨
  (¬ zone_candidate g asnum nb ∧ ig' = ig).
Proof.
  intros Hbody. apply bind_Ok in Hbody as (r & Hr & Hbody).
  destruct r; simpl in Hbody.
  2:{ injection Hbody as <-. right. split; [|done]. intros [? _]. congruence. }
  apply bind_Ok in Hbody as (en & Hen & Hbody).
  apply is_bgp_enabled_spec in Hen as (a & Ha & ->).
  destruct a as [a|]; simpl in Hbody.
  - rewrite Ha in Hbody. simpl in Hbody. case_decide as Haa; injection Hbody as <-.
    + injection Haa as ->. left. split; [|done]. split; auto.
    + right. split; [|done]. intros [_ [?|?]]; congruence.
  - injection Hbody as <-. left. split; [|done]. split; auto.
Qed.

(** One pass of zone growth: what was in the graph stays, every candidate
    neighbour of a visited node is joined to it, and an invariant of the
    insertions holds at the end. *)
Lemma grow_zone_pass (g : NetworkGraph) (asnum : Z) (I : zone_graph → Prop)
    (ibgp_nodes : list string) (ig ig' : zone_graph) :
  (∀ ig node nb, I ig → node ∈ ibgp_nodes → (node, nb) ∈ dict_keys (_adj g) →
                 zone_candidate g asnum nb → I (gr_add_edge tt node nb ig)) →
  I ig →
  grow_zone g asnum ibgp_nodes ig = Ok ig' →
  I ig' ∧
  (∀ n, n ∈ gr_nodes ig → n ∈ gr_nodes ig') ∧
  (∀ node nb, node ∈ ibgp_nodes → (node, nb) ∈ dict_keys (_adj g) →
              zone_candidate g asnum nb →
              node ∈ gr_nodes ig' ∧ nb ∈ gr_nodes ig' ∧ gr_has_edge ig' node nb = true).
Proof.
  intros Hstep HI. unfold grow_zone.
  set (joined := fun (ig1 : zone_graph) (node nb : string) =>
         node ∈ gr_nodes ig1 ∧ nb ∈ gr_nodes ig1 ∧ gr_has_edge ig1 node nb = true).
  assert (Hjoined : ∀ ig1 u v node nb, joined ig1 node nb →
            joined (gr_add_edge tt u v ig1) node nb).
  { intros ig1 u v node nb (H1 & H2 & H3). split_and!.
    - apply gr_add_edge_nodes. auto.
    - apply gr_add_edge_nodes. auto.
    - apply gr_add_edge_has_edge. auto. }
  intros Hrun.
  cut (I ig' ∧ (∀ n, n ∈ gr_nodes ig → n ∈ gr_nodes ig') ∧
       ∀ node nb, node ∈ ibgp_nodes → (node, nb) ∈ dict_keys (_adj g) →
                  zone_candidate g asnum nb → joined ig' node nb); [done|].
  revert Hrun.
  apply (for_each_inv_seen (fun pre ig1 =>
    I ig1 ∧ (∀ n, n ∈ gr_nodes ig → n ∈ gr_nodes ig1) ∧
    ∀ node nb, node ∈ pre → (node, nb) ∈ dict_keys (_adj g) →
               zone_candidate g asnum nb → joined ig1 node nb)).
  { split_and!; [done|done|]. by intros ?? ?%elem_of_nil. }
  intros pre node ig1 ig2 (HI1 & Hsub1 & Hpre1) Hnode Hbody. simpl in Hbody.
  apply bind_Ok in Hbody as (nbrs & Hnbrs & Hbody).
  cut (I ig2 ∧ (∀ n, n ∈ gr_nodes ig → n ∈ gr_nodes ig2) ∧
       (∀ node' nb, node' ∈ pre → (node', nb) ∈ dict_keys (_adj g) →
                    zone_candidate g asnum nb → joined ig2 node' nb) ∧
       (∀ nb, nb ∈ nbrs → zone_candidate g asnum nb → joined ig2 node nb)).
  { intros (H1 & H2 & H3 & H4). split_and!; [done|done|].
    intros node' nb [Hin| ->%list_elem_of_singleton]%elem_of_app Hedge Hcand; [by apply H3|].
    apply H4; [|done]. by eapply graph_neighbors_complete. }
  revert Hbody.
  apply (for_each_inv_seen (fun pre' ig3 =>
    I ig3 ∧ (∀ n, n ∈ gr_nodes ig → n ∈ gr_nodes ig3) ∧
    (∀ node' nb, node' ∈ pre → (node', nb) ∈ dict_keys (_adj g) →
                 zone_candidate g asnum nb → joined ig3 node' nb) ∧
    (∀ nb, nb ∈ pre' → zone_candidate g asnum nb → joined ig3 node nb))).
  { split_and!; [done|done|done|]. by intros ? ?%elem_of_nil. }
  intros pre' nb ig3 ig4 (HI3 & Hsub3 & Hpre3 & Hcur3) Hnb Hbody.
  apply zone_body_cases in Hbody as [[Hcand ->]|[Hcand ->]].
  - split_and!.
    + apply Hstep; try done. by eapply graph_neighbors_edge.
    + intros n Hn. apply gr_add_edge_nodes. auto.
    + intros node' nb' ???. by apply Hjoined, Hpre3.
    + intros nb' [Hin| ->%list_elem_of_singleton]%elem_of_app Hc.
      * by apply Hjoined, Hcur3.
      * split_and!; [apply gr_add_edge_nodes; auto..|].
        apply gr_add_edge_has_edge. auto.
  - split_and!; try done.
    intros nb' [Hin| ->%list_elem_of_singleton]%elem_of_app Hc; [by apply Hcur3|done].
Qed.

(** The loop [while changed] ends on a graph that one more pass does not
    grow: every candidate neighbour of a node of the zone is in the zone. *)
Lemma zone_loop_fixpoint (g : NetworkGraph) (asnum : Z) (I : zone_graph → Prop)
    (fuel : nat) (ibgp_nodes : list string) (ig z : zone_graph) :
  (∀ ig node nb, I ig → node ∈ gr_nodes ig → (node, nb) ∈ dict_keys (_adj g) →
                 zone_candidate g asnum nb → I (gr_add_edge tt node nb ig)) →
  I ig → NoDup (gr_nodes ig) →
  (∀ n, n ∈ ibgp_nodes ↔ n ∈ gr_nodes ig) →
  zone_loop fuel g asnum ibgp_nodes (number_of_nodes ig, number_of_edges ig) ig = Some (Ok z) →
  I z ∧ NoDup (gr_nodes z) ∧
  (∀ n, n ∈ gr_nodes ig → n ∈ gr_nodes z) ∧
  (∀ node nb, node ∈ gr_nodes z → (node, nb) ∈ dict_keys (_adj g) →
              zone_candidate g asnum nb →
              nb ∈ gr_nodes z ∧ gr_has_edge z node nb = true).
Proof.
  intros Hstep. revert ibgp_nodes ig.
  induction fuel as [|fuel IH]; intros ibgp_nodes ig HI Hnd Hnodes Hrun; [done|].
  simpl in Hrun. destruct (grow_zone g asnum ibgp_nodes ig) as [ig'|e] eqn:E; [|done].
  apply (grow_zone_pass g asnum
           (fun ig1 => I ig1 ∧ NoDup (gr_nodes ig1) ∧ ∀ n, n ∈ ibgp_nodes → n ∈ gr_nodes ig1))
    in E as ((HI' & Hnd' & _) & Hsub & Hclosed).
  2:{ intros ig1 node nb (HI1 & Hnd1 & Hsub1) Hnode Hedge Hcand. split_and!.
      - apply Hstep; auto.
      - by apply gr_add_edge_nodes_NoDup.
      - intros n Hn. apply gr_add_edge_nodes. auto. }
  2:{ split_and!; [done|done|]. intros n. apply Hnodes. }
  case_decide as Hsize.
  - destruct (IH (gr_nodes ig') ig' HI' Hnd') as (Hz & Hndz & Hsubz & Hclz); [done|done|].
    split_and!; auto.
  - injection Hrun as <-. split_and!; [done|done|done|].
    intros node nb Hnode Hedge Hcand.
    assert (Hlen : length (gr_nodes ig') ≤ length (gr_nodes ig)).
    { rewrite <- !number_of_nodes_length. by injection Hsize as -> _. }
    assert (Hperm : gr_nodes ig ≡ₚ gr_nodes ig').
    { apply submseteq_length_Permutation; [|done]. by apply NoDup_submseteq. }
    rewrite <- Hperm in Hnode. apply Hnodes in Hnode.
    destruct (Hclosed node nb Hnode Hedge Hcand) as (_ & ? & ?). done.
Qed.

(** The zone of one AS number. *)
Lemma zone_of_fixpoint (g : NetworkGraph) (asnum : Z) (I : zone_graph → Prop)
    (fuel : nat) (seeds : list string) (z : zone_graph) :
  (∀ ig node nb, I ig → node ∈ gr_nodes ig → (node, nb) ∈ dict_keys (_adj g) →
                 zone_candidate g asnum nb → I (gr_add_edge tt node nb ig)) →
  I (foldl (fun ig node => gr_add_node tt node ig) (mkGraph [] []) seeds) →
  zone_of fuel g asnum seeds = Some (Ok z) →
  I z ∧ NoDup (gr_nodes z) ∧
  (∀ n, n ∈ seeds → n ∈ gr_nodes z) ∧
  (∀ node nb, node ∈ gr_nodes z → (node, nb) ∈ dict_keys (_adj g) →
              zone_candidate g asnum nb →
              nb ∈ gr_nodes z ∧ gr_has_edge z node nb = true).
Proof.
  intros Hstep HI Hrun. unfold zone_of in Hrun.
  apply (zone_loop_fixpoint g asnum I) in Hrun as (Hz & Hnd & Hsub & Hcl); try done.
  - split_and!; try done. intros n Hn. apply Hsub, seed_graph_nodes. auto.
  - apply seed_graph_NoDup, NoDup_nil_2.
  - intros n. rewrite seed_graph_nodes. split; [auto|].
    intros [?|?%elem_of_nil]; done.
Qed.

(** Every zone of the mapping is the zone of its key, grown from the
    routers that have this AS number. *)
Lemma zones_of_zone (fuel : nat) (g : NetworkGraph) (asmap : list (Z * list string))
    (zones0 zones : list (Z * zone_graph)) (k : Z) (z : zone_graph) :
  NoDup (dict_keys asmap) →
  zones_of fuel g asmap zones0 = Some (Ok zones) →
  dict_get zones k = Some z →
((k ∉ dict_keys asmap) ∧ dict_get zones0 k = Some z) ∨
  (∃ seeds, (k, seeds) ∈ asmap ∧ zone_of fuel g k seeds = Some (Ok z)).
Proof.
  revert zones0. induction asmap as [|[a seeds] asmap IH]; intros zones0 Hnd Hrun Hk.
  - injection Hrun as <-. left. split; [apply not_elem_of_nil|done].
  - simpl in Hrun. destruct (zone_of fuel g a seeds) as [[za|e]|] eqn:E; try done.
    unfold dict_keys in Hnd. rewrite fmap_cons in Hnd. apply NoDup_cons in Hnd as [Ha Hnd].
    destruct (IH _ Hnd Hrun Hk) as [[Hnotin Hget]|(seeds' & Hin & Hz)].
    + destruct (decide (a = k)) as [->|Hne].
      * rewrite dict_get_set_eq in Hget. injection Hget as ->.
        right. exists seeds. split; [left|done].
      * rewrite dict_get_set_ne in Hget by done. left. split; [|done].
        unfold dict_keys. rewrite fmap_cons. apply not_elem_of_cons. split; [|done].
        simpl. congruence.
    + right. exists seeds'. split; [by right|done].
Qed.

Lemma extract_ibgp_zones_zone (g : NetworkGraph) (zones : list (Z * zone_graph))
    (k : Z) (z : zone_graph) :
  extract_ibgp_zones g = Some (Ok zones) → dict_get zones k = Some z →
  ∃ seeds, zone_of (zone_passes g) g k seeds = Some (Ok z) ∧
           ∀ r, r ∈ seeds → get_bgp_asnum g r = Ok (Some k).
Proof.
  unfold extract_ibgp_zones.
  destruct (build_asmap g) as [asmap|e] eqn:Easmap; [|done].
  destruct (build_asmap_spec _ _ Easmap) as (Hnd & Hin & Hout).
  intros Hrun Hk.
  destruct (zones_of_zone _ _ _ _ _ _ _ Hnd Hrun Hk) as [[_ ?]|(seeds & Hs & Hz)]; [done|].
  exists seeds. split; [done|]. intros r Hr. eapply Hout; [|done].
  by apply dict_get_elem_NoDup.
Qed.

(** The invariant of a zone graph: its nodes are candidates of the zone, and
    its edges are edges of the topology between its nodes. *)
Lemma zone_invariant_step (g : NetworkGraph) (asnum : Z) (ig : zone_graph) (node nb : string) :
  ((∀ n, n ∈ gr_nodes ig → zone_candidate g asnum n) ∧
   (∀ u v, (u, v) ∈ gr_edges ig →
           (u, v) ∈ dict_keys (_adj g) ∧ u ∈ gr_nodes ig ∧ v ∈ gr_nodes ig)) →
  node ∈ gr_nodes ig → (node, nb) ∈ dict_keys (_adj g) → zone_candidate g asnum nb →
  (∀ n, n ∈ gr_nodes (gr_add_edge tt node nb ig) → zone_candidate g asnum n) ∧
  (∀ u v, (u, v) ∈ gr_edges (gr_add_edge tt node nb ig) →
          (u, v) ∈ dict_keys (_adj g) ∧
          u ∈ gr_nodes (gr_add_edge tt node nb ig) ∧ v ∈ gr_nodes (gr_add_edge tt node nb ig)).
Proof.
  intros [Hn He] Hnode Hedge Hcand. split.
  - intros n [->|[->|Hin]]%gr_add_edge_nodes; auto.
  - intros u v Huv. rewrite !gr_add_edge_nodes.
    destruct (gr_add_edge_edges tt node nb ig) as [Heq|[_ Heq]]; rewrite Heq in Huv.
    + destruct (He u v Huv) as (? & ? & ?). auto.
    + apply elem_of_app in Huv as [Huv|[= -> ->]%list_elem_of_singleton].
      * destruct (He u v Huv) as (? & ? & ?). auto.
      * auto.
Qed.

(** The nodes and the edges of a zone. *)
Lemma zone_members (g : NetworkGraph) (zones : list (Z * zone_graph))
    (a : Z) (z : zone_graph) :
  extract_ibgp_zones g = Some (Ok zones) → dict_get zones a = Some z →
  NoDup (gr_nodes z) ∧
  (∀ n, n ∈ gr_nodes z → zone_candidate g a n) ∧
  (∀ u v, (u, v) ∈ gr_edges z →
          (u, v) ∈ dict_keys (_adj g) ∧ u ∈ gr_nodes z ∧ v ∈ gr_nodes z).
Proof.
  intros Hrun Hz.
  destruct (extract_ibgp_zones_zone g zones a z Hrun Hz) as (seeds & Hzone & Hseeds).
  apply (zone_of_fixpoint g a (fun ig =>
           (∀ n, n ∈ gr_nodes ig → zone_candidate g a n) ∧
           (∀ u v, (u, v) ∈ gr_edges ig →
                   (u, v) ∈ dict_keys (_adj g) ∧ u ∈ gr_nodes ig ∧ v ∈ gr_nodes ig)))
    in Hzone as ((Hn & He) & Hnd & _).
  - done.
  - intros ig node nb. apply zone_invariant_step.
  - split.
    + intros n [Hn|Hn%elem_of_nil]%seed_graph_nodes; [|done].
      split; [|left; auto]. by eapply get_bgp_asnum_router, Hseeds.
    + intros u v. rewrite seed_graph_edges. by intros ?%elem_of_nil.
Qed.

(** A router with an AS number is in the zone of this number. *)
Lemma zone_of_router (g : NetworkGraph) (zones : list (Z * zone_graph)) (r : string) (a : Z) :
  extract_ibgp_zones g = Some (Ok zones) → get_bgp_asnum g r = Ok (Some a) →
  ∃ z, dict_get zones a = Some z ∧ r ∈ gr_nodes z.
Proof.
  unfold extract_ibgp_zones.
  destruct (build_asmap g) as [asmap|e] eqn:Easmap; [|done].
  destruct (build_asmap_spec _ _ Easmap) as (Hnd & Hin & Hout).
  intros Hrun Ha.
  apply zones_of_spec in Hrun as (Hndz & Hother & Hzone); [|done|apply NoDup_nil_2|].
  2:{ intros a' seeds n Hs Hn. eapply Hout; [|done]. by apply dict_get_elem_NoDup. }
  destruct (Hin r a Ha) as (seeds & Hseeds%dict_get_Some_elem & Hr).
  destruct (Hzone a seeds Hseeds) as (z & Hz & _ & Hsub). eauto.
Qed.

(** X14: in the mapping that [extract_ibgp_zones] returns, every node of the
    zone keyed by an AS number is a router of the topology that has this AS
    number or none (a network never enters a zone), no node is listed twice,
    and every edge of the zone is an edge of the topology between two nodes
    of the zone. *)
Theorem ibgp_zone_holds_candidate_routers (g : NetworkGraph) (zones : list (Z * zone_graph))
    (a : Z) (z : zone_graph) :
  extract_ibgp_zones g = Some (Ok zones) → dict_get zones a = Some z →
  NoDup (gr_nodes z) ∧
  (∀ n, n ∈ gr_nodes z →
        is_router g n = Ok true ∧
        (get_bgp_asnum g n = Ok (Some a) ∨ get_bgp_asnum g n = Ok None)) ∧
  (∀ u v, (u, v) ∈ gr_edges z →
          (u, v) ∈ dict_keys (_adj g) ∧ u ∈ gr_nodes z ∧ v ∈ gr_nodes z).
Proof. apply zone_members. Qed.

Lemma ibgp_zone_holds_candidate_routers_witness :
  extract_ibgp_zones topo_A
    = Some (Ok [(10%Z, mkGraph [("R1", tt)] []); (20%Z, mkGraph [("R2", tt)] [])]) ∧
  ∀ n, n ∈ gr_nodes (mkGraph (A:=unit) [("R2", tt)] []) →
       is_router topo_A n = Ok true ∧
       (get_bgp_asnum topo_A n = Ok (Some 20%Z) ∨ get_bgp_asnum topo_A n = Ok None).
Proof.
  assert (H1 : extract_ibgp_zones topo_A
    = Some (Ok [(10%Z, mkGraph [("R1", tt)] []); (20%Z, mkGraph [("R2", tt)] [])]))
    by (vm_compute; reflexivity).
  split; [exact H1|].
  exact (proj1 (proj2 (ibgp_zone_holds_candidate_routers topo_A _ 20%Z _ H1 eq_refl))).
Defined.



(** ** assign_ebgp followed by the extraction of the zones *)

(** X16: on a graph whose routers are all local (no name twice), after
    [assign_ebgp] returned the extraction of the iBGP zones returns, and the
    zone of the AS number of a router holds this router and no other node:
    every local router is an AS of its own. *)
Theorem assign_ebgp_makes_singleton_zones (g g' : NetworkGraph) :
  NoDup (nodes g) →
  (∀ n, is_router g n = Ok true → is_local_router g n = Ok true) →
  assign_ebgp g = (Returned, g') →
  ∃ zones,
    extract_ibgp_zones g' = Some (Ok zones) ∧
    ∀ r, is_local_router g r = Ok true →
         ∃ a z, get_bgp_asnum g' r = Ok (Some a) ∧ dict_get zones a = Some z ∧
                ∀ n, n ∈ gr_nodes z ↔ n = r.
Proof.
  intros Hnd Hlocal Hrun.
  pose proof Hrun as (locals & g1 & Hlocals & H1 & H2)%assign_ebgp_Returned.
  destruct (py_sorted_spec locals) as [Hperm _].
  apply nodes_such_that_Ok in Hlocals as [Hfilter Htyped].
  apply assign_asnums_spec in H1 as (Hin & _ & _ & _ & Hr1 & _ & _ & _).
  apply assign_sessions_spec in H2 as (_ & _ & _ & _ & Hasn & _ & Hr2 & _ & _).
  assert (Hlen : length (py_sorted locals) = length locals) by by rewrite Hperm.
  rewrite zip_numbering_fst in Hin by done.
  assert (Hnds : NoDup (py_sorted locals)).
  { rewrite Hperm, Hfilter. by apply NoDup_filter. }
  assert (Hrank : ∀ r, is_local_router g r = Ok true →
            ∃ i, py_sorted locals !! i = Some r ∧
                 get_bgp_asnum g' r = Ok (Some (asnum_gen i))).
  { intros r Hr.
    assert (r ∈ py_sorted locals) as [i Hi]%list_elem_of_lookup.
    { rewrite Hperm, Hfilter. apply list_elem_of_filter. rewrite Hr. split; [done|].
      apply is_router_node. unfold is_router.
      by destruct (is_peer g r) as [[]|] eqn:Ep; simpl; rewrite ?Hr;
        unfold is_peer, is_local_router, vertex_type_is in *;
        destruct (has_node g r); simpl in *; try done;
        destruct (dict_get (_node g) r) as [ar|]; try done;
        destruct (dict_get ar VERTEX_TYPE) as [[]|]. }
    exists i. split; [done|]. rewrite Hasn. apply (Hin Hnds).
    by apply zip_numbering_lookup. }
  assert (Hrouter : ∀ n, is_router g' n = is_router g n) by (intros n; by rewrite Hr2, Hr1).
  assert (Hwt : well_typed g').
  { intros n. rewrite Hrouter. split.
    - destruct (decide (n ∈ nodes g)) as [Hn|Hn].
      + destruct (Htyped n Hn) as [b Hb]. unfold is_router, is_peer, is_local_router,
          vertex_type_is in *. destruct (has_node g n); simpl in *; [|eauto].
        destruct (dict_get (_node g) n) as [an|]; [|done].
        destruct (dict_get an VERTEX_TYPE) as [[t| | |]|]; simpl; eauto.
        destruct (bool_decide (t = PEER)); simpl; eauto.
      + apply has_node_false in Hn. unfold is_router, is_peer, is_local_router.
        rewrite Hn. simpl. eauto.
    - intros Hn. destruct (Hrank n (Hlocal n Hn)) as (i & _ & Hi).
      unfold get_bgp_asnum in Hi. apply fmap_Ok in Hi as (b & Hb & _). eauto. }
  destruct (extract_ibgp_zones_returns g' Hwt) as [zones Hzones].
  exists zones. split; [done|]. intros r Hr.
  destruct (Hrank r Hr) as (i & Hi & Ha).
  destruct (zone_of_router g' zones r _ Hzones Ha) as (z & Hz & Hrz).
  exists (asnum_gen i), z. split_and!; [done|done|].
  intros n. split; [|by intros ->].
  intros Hn. destruct (zone_members g' zones _ z Hzones Hz) as (_ & Hcand & _).
  destruct (Hcand n Hn) as [Hnr Hna]. rewrite Hrouter in Hnr.
  destruct (Hrank n (Hlocal n Hnr)) as (j & Hj & Hja).
  rewrite Hja in Hna. destruct Hna as [[= Hij]|?]; [|done].
  assert (j = i) as -> by (unfold asnum_gen in Hij; lia).
  congruence.
Qed.

Lemma assign_ebgp_makes_singleton_zones_witness :
  NoDup (nodes topo_unconfigured) ∧
  (∀ n, is_router topo_unconfigured n = Ok true →
        is_local_router topo_unconfigured n = Ok true) ∧
  (assign_ebgp topo_unconfigured).1 = Returned ∧
  extract_ibgp_zones (assign_ebgp topo_unconfigured).2
    = Some (Ok [(20%Z, mkGraph [("R2", tt)] []); (10%Z, mkGraph [("R1", tt)] []);
                (30%Z, mkGraph [("R3", tt)] [])]) ∧
  ∃ zones,
    extract_ibgp_zones (assign_ebgp topo_unconfigured).2 = Some (Ok zones) ∧
    ∀ r, is_local_router topo_unconfigured r = Ok true →
         ∃ a z, get_bgp_asnum (assign_ebgp topo_unconfigured).2 r = Ok (Some a) ∧
                dict_get zones a = Some z ∧ ∀ n, n ∈ gr_nodes z ↔ n = r.
Proof.
  assert (Hnd : NoDup (nodes topo_unconfigured)).
  { apply NoDup_ListNoDup. vm_compute. repeat constructor; simpl; intuition discriminate. }
  assert (Hloc : ∀ n, is_router topo_unconfigured n = Ok true →
                      is_local_router topo_unconfigured n = Ok true).
  { intros n Hn. assert (Hin := is_router_node _ _ Hn).
    unfold topo_unconfigured in Hin. simpl in Hin.
    repeat (apply elem_of_cons in Hin as [->|Hin]); try reflexivity.
    - vm_compute in Hn. discriminate Hn.
    - by apply elem_of_nil in Hin. }
  assert (Hrun : assign_ebgp topo_unconfigured = (Returned, (assign_ebgp topo_unconfigured).2))
    by (vm_compute; reflexivity).
  split; [exact Hnd|]. split; [exact Hloc|]. split; [vm_compute; reflexivity|].
  split; [vm_compute; reflexivity|].
  exact (assign_ebgp_makes_singleton_zones topo_unconfigured _ Hnd Hloc Hrun).
Defined.

(** ** synet/synthesis/new_propagation.py: get_bgp_path *)

Section collapse_facts.
Context {A : Type} `{EqDecision A}.
Implicit Types (a b : A) (l : list A).

Lemma collapse_cons a l :
  collapse (a :: l) = if decide (head l = Some a) then collapse l else a :: collapse l.
Proof.
  destruct l as [|b l]; simpl; [done|].
  destruct (decide (a = b)) as [->|Hne].
  - by rewrite decide_True.
  - rewrite decide_False; [done|]. congruence.
Qed.

Lemma collapse_head l : head (collapse l) = head l.
Proof.
  induction l as [|a l IH]; [done|]. rewrite collapse_cons.
  case_decide as H; [|done]. by rewrite IH.
Qed.

Lemma collapse_last l : list.last (collapse l) = list.last l.
Proof.
  induction l as [|a l IH]; [done|]. rewrite collapse_cons.
  destruct l as [|b l]; [done|].
  case_decide as H.
  - by rewrite IH.
  - rewrite (last_cons a (collapse _)), IH.
    change (list.last (a :: b :: l)) with (list.last (b :: l)).
    destruct (list.last (b :: l)) eqn:E; [done|]. by apply last_None in E.
Qed.

Lemma collapse_snoc l a :
  collapse (l ++ [a]) =
    if decide (list.last l = Some a) then collapse l else collapse l ++ [a].
Proof.
  induction l as [|b l IH]; [done|].
  rewrite <- app_comm_cons, !collapse_cons, IH.
  destruct l as [|c l].
  - simpl. destruct (decide (Some a = Some b)) as [[= ->]|Hne].
    + by rewrite decide_True.
    + rewrite decide_False; [done|congruence].
  - change (list.last (b :: c :: l)) with (list.last (c :: l)).
    change (head ((c :: l) ++ [a])) with (Some c).
    change (head (c :: l)) with (Some c).
    destruct (decide (Some c = Some b));
      by destruct (decide (list.last (c :: l) = Some a)).
Qed.

Lemma collapse_no_repeat l (i : nat) a b :
  collapse l !! i = Some a → collapse l !! S i = Some b → a ≠ b.
Proof.
  revert i. induction l as [|c l IH]; intros i; [done|].
  rewrite collapse_cons. case_decide as H; [apply IH|].
  destruct i as [|i]; simpl; [|apply IH].
  intros [= ->] Hb Heq. subst. apply H. rewrite <- collapse_head.
  by destruct (collapse l).
Qed.

End collapse_facts.

(** One step of the loop of [get_bgp_path]. *)
Lemma bgp_path_step_spec (g : NetworkGraph) (l l' : list Z) (r : string) :
  bgp_path_step g l r = Ok l' ↔
  (∃ b, get_bgp_attrs g r = Ok b) ∧
  l' = match as_number g r with
       | Some a => if decide (list.last l = Some a) then l else l ++ [a]
       | None => l
       end.
Proof.
  unfold bgp_path_step, is_bgp_enabled, as_number, get_bgp_asnum.
  destruct (get_bgp_attrs g r) as [b|e]; simpl.
  - destruct (asnum b) as [a|]; simpl.
    + destruct (decide (list.last l = Some a)) as [Hl|Hl].
      * rewrite bool_decide_false by (by intros ?). split; [intros [= <-]; eauto|].
        by intros [_ ->].
      * rewrite bool_decide_true by done. split; [intros [= <-]; eauto|].
        by intros [_ ->].
    + split; [intros [= <-]; eauto|]. by intros [_ ->].
  - split; [done|]. by intros [[? ?] _].
Qed.

Lemma bgp_path_loop_spec (g : NetworkGraph) (p : list string) (done : list string) (l : list Z) :
  (∀ r, r ∈ p → ∃ b, get_bgp_attrs g r = Ok b) →
  for_each p (bgp_path_step g) (collapse (as_numbers g done))
  = Ok (collapse (as_numbers g (done ++ p))).
Proof.
  revert done. induction p as [|r p IH]; intros done Hall; simpl.
  - by rewrite app_nil_r.
  - assert (bgp_path_step g (collapse (as_numbers g done)) r
            = Ok (collapse (as_numbers g (done ++ [r])))) as ->.
    { apply bgp_path_step_spec. split; [apply Hall; by left|].
      unfold as_numbers. rewrite omap_app. simpl.
      destruct (as_number g r) as [a|]; simpl; [|by rewrite app_nil_r].
      by rewrite collapse_snoc, collapse_last. }
    simpl. rewrite (cons_middle r done p), app_assoc. apply IH.
    intros r' ?. apply Hall. by right.
Qed.

Lemma bgp_path_loop_routers (g : NetworkGraph) (p : list string) (l l' : list Z) :
  for_each p (bgp_path_step g) l = Ok l' →
  ∀ r, r ∈ p → ∃ b, get_bgp_attrs g r = Ok b.
Proof.
  revert l. induction p as [|r p IH]; intros l Hrun; simpl in Hrun.
  - by intros ? ?%elem_of_nil.
  - apply bind_Ok in Hrun as (l1 & H1 & Hrun).
    apply bgp_path_step_spec in H1 as [Hr _].
    intros r' [->|Hin]%elem_of_cons; [done|]. by eapply IH.
Qed.

Lemma get_bgp_path_returns (g : NetworkGraph) (p : list string) :
  (∃ asp, get_bgp_path g p = Ok asp) ↔ (∀ r, r ∈ p → ∃ b, get_bgp_attrs g r = Ok b).
Proof.
  split.
  - intros [asp Hrun]. unfold get_bgp_path in Hrun.
    apply bind_Ok in Hrun as (l & Hl & _). by eapply bgp_path_loop_routers.
  - intros Hall. unfold get_bgp_path.
    pose proof (bgp_path_loop_spec g p [] [] Hall) as Hloop. simpl in Hloop.
    rewrite Hloop. simpl. eauto.
Qed.

(** X17: [get_bgp_path] returns exactly when every name of the path is a
    router of the topology; the result is then the sequence of the AS
    numbers along the path, the routers without AS number left out and
    every run of equal consecutive numbers made one, in reversed order.  So
    no AS number is next to itself in the result. *)
Theorem get_bgp_path_collapses_as_numbers (g : NetworkGraph) (p : list string) :
  ((∃ asp, get_bgp_path g p = Ok asp) ↔ (∀ r, r ∈ p → ∃ b, get_bgp_attrs g r = Ok b)) ∧
  (∀ asp, get_bgp_path g p = Ok asp → asp = reverse (collapse (as_numbers g p))) ∧
  (∀ asp i a b, get_bgp_path g p = Ok asp →
                asp !! i = Some a → asp !! S i = Some b → a ≠ b).
Proof.
  assert (Hspec : ∀ asp, get_bgp_path g p = Ok asp → asp = reverse (collapse (as_numbers g p))).
  { intros asp Hrun. unfold get_bgp_path in Hrun.
    apply bind_Ok in Hrun as (l & Hl & [= <-]).
    pose proof (bgp_path_loop_routers _ _ _ _ Hl) as Hall.
    pose proof (bgp_path_loop_spec g p [] [] Hall) as Hloop. simpl in Hloop.
    congruence. }
  split_and!; [apply get_bgp_path_returns|done|].
  - intros asp i a b ->%Hspec Ha Hb Hab. subst b.
    set (l := collapse (as_numbers g p)) in *.
    assert (Hi : S i < length l) by (apply lookup_lt_Some in Hb; by rewrite length_reverse in Hb).
    rewrite reverse_lookup in Ha by lia. rewrite reverse_lookup in Hb by lia.
    replace (length l - S i) with (S (length l - S (S i))) in Ha by lia.
    by apply (collapse_no_repeat _ _ _ _ Hb Ha).
Qed.

Lemma get_bgp_path_collapses_as_numbers_witness :
  as_numbers topo_ring ["R1"; "R3"; "R2"; "R2"] = [100%Z; 100%Z; 200%Z; 200%Z] ∧
  get_bgp_path topo_ring ["R1"; "R3"; "R2"; "R2"] = Ok [200%Z; 100%Z] ∧
  (∃ asp, get_bgp_path topo_unnumbered ["R1"; "X"; "R2"] = Ok asp) ∧
  get_bgp_path topo_unnumbered ["R1"; "X"; "R2"]
    = Ok (reverse (collapse (as_numbers topo_unnumbered ["R1"; "X"; "R2"]))).
Proof.
  pose proof (get_bgp_path_collapses_as_numbers topo_unnumbered ["R1"; "X"; "R2"])
    as (_ & H2 & _).
  split; [reflexivity|]. split; [reflexivity|]. split; [eexists; reflexivity|].
  rewrite <- (H2 [20%Z; 10%Z]); reflexivity.
Defined.

(** ** synet/synthesis/new_propagation.py: extract_reqs *)

(** Induction on a requirement with its members. *)
Lemma Req_nested_ind (P : Req → Prop) :
  (∀ d p, P (PathReq d p)) →
  (∀ d rs, Forall P rs → P (PathOrderReq d rs)) →
  (∀ d rs, Forall P rs → P (KConnectedPathsReq d rs)) →
  (∀ d rs, Forall P rs → P (ECMPPathsReq d rs)) →
  ∀ r, P r.
Proof.
  intros HP HO HK HE. fix IH 1. intros [d p|d rs|d rs|d rs].
  - apply HP.
  - apply HO. induction rs as [|r rs IHrs]; constructor; [apply IH|apply IHrs].
  - apply HK. induction rs as [|r rs IHrs]; constructor; [apply IH|apply IHrs].
  - apply HE. induction rs as [|r rs IHrs]; constructor; [apply IH|apply IHrs].
Qed.

(** The call of [extract_reqs] on the members of a requirement. *)
Lemma extract_req_members (g : NetworkGraph) (req : Req) :
  extract_req g req =
    match req with
    | PathReq _ rpath =>
        path ← get_bgp_path g rpath;
        origin ← py_last rpath;
        Ok ([[(origin, path)]], [[(origin, reverse rpath)]])
    | PathOrderReq _ rpaths => extract_reqs g rpaths
    | KConnectedPathsReq _ rpaths =>
        '(bgp, full) ← extract_reqs g rpaths;
        Ok ([set_of_list (flatten bgp)], [set_of_list (flatten full)])
    | ECMPPathsReq _ _ => Raise (ValueError (Text "Unknown req type"))
    end.
Proof.
  destruct req as [d p|d rs|d rs|d rs]; simpl; [done| | |done].
  - induction rs as [|r rs IH]; simpl; [done|]. by rewrite IH.
  - f_equal. induction rs as [|r rs IH]; simpl; [done|]. by rewrite IH.
Qed.

Lemma req_groups_members (req : Req) :
  req_groups req =
    match req with
    | PathReq _ p => [[p]]
    | PathOrderReq _ rs => reqs_groups rs
    | KConnectedPathsReq _ rs => [concat (reqs_groups rs)]
    | ECMPPathsReq _ _ => []
    end.
Proof.
  unfold reqs_groups.
  destruct req as [d p|d rs|d rs|d rs]; simpl; [done| | |done].
  - induction rs as [|r rs IH]; simpl; [done|by rewrite IH].
  - do 2 f_equal. induction rs as [|r rs IH]; simpl; [done|by rewrite IH].
Qed.

Lemma req_supported_members (req : Req) :
  req_supported req =
    match req with
    | PathReq _ _ => true
    | PathOrderReq _ rs | KConnectedPathsReq _ rs => forallb req_supported rs
    | ECMPPathsReq _ _ => false
    end.
Proof.
  destruct req as [d p|d rs|d rs|d rs]; simpl; [done| | |done];
    (induction rs as [|r rs IH]; simpl; [done|by rewrite IH]).
Qed.

Lemma exists_elem_of_app {A : Type} (P : A → Prop) (l1 l2 : list A) :
  (∃ p, p ∈ l1 ++ l2 ∧ P p) ↔ (∃ p, p ∈ l1 ∧ P p) ∨ (∃ p, p ∈ l2 ∧ P p).
Proof.
  split.
  - intros (p & [H|H]%elem_of_app & HP); [left|right]; eauto.
  - intros [(p & H & HP)|(p & H & HP)]; exists p; rewrite elem_of_app; eauto.
Qed.

Lemma facts_of_paths_concat (g : NetworkGraph) gs bs fs :
  Forall3 (facts_of_paths g) gs bs fs →
  facts_of_paths g (concat gs) (concat bs) (concat fs).
Proof.
  induction 1 as [|ps b f gs bs fs [Hb Hf] _ [IHb IHf]]; simpl.
  - split; intros o x; (split; [by intros ?%elem_of_nil|by intros (? & ?%elem_of_nil & _)]).
  - split; intros o x; rewrite elem_of_app.
    + rewrite Hb, IHb. symmetry.
      apply (exists_elem_of_app
               (fun p => list.last p = Some o ∧ get_bgp_path g p = Ok x)).
    + rewrite Hf, IHf. symmetry.
      apply (exists_elem_of_app (fun p => list.last p = Some o ∧ x = reverse p)).
Qed.

Lemma facts_of_paths_set (g : NetworkGraph) ps b f :
  facts_of_paths g ps b f → facts_of_paths g ps (set_of_list b) (set_of_list f).
Proof.
  intros [Hb Hf]. split; intros o x; by rewrite elem_of_set_of_list.
Qed.

Lemma extract_reqs_groups (g : NetworkGraph) (reqs : list Req) bgp full :
  extract_reqs g reqs = Ok (bgp, full) →
  Forall3 (facts_of_paths g) (reqs_groups reqs) bgp full.
Proof.
  revert bgp full.
  cut (Forall (fun r => ∀ bgp full, extract_req g r = Ok (bgp, full) →
                 Forall3 (facts_of_paths g) (req_groups r) bgp full) reqs).
  { unfold reqs_groups. induction 1 as [|r rs Hr _ IH]; intros bgp full Hrun; simpl in Hrun.
    - injection Hrun as <- <-. constructor.
    - apply bind_Ok in Hrun as ([b1 f1] & H1 & Hrun).
      apply bind_Ok in Hrun as ([b2 f2] & H2 & [= <- <-]).
      simpl. apply Forall3_app; [by apply Hr|by apply IH]. }
  apply Forall_forall. intros r _. clear reqs.
  induction r as [d p|d rs IH|d rs IH|d rs IH] using Req_nested_ind;
    intros bgp full Hrun; rewrite extract_req_members in Hrun;
    rewrite req_groups_members.
  - apply bind_Ok in Hrun as (asp & Hasp & Hrun).
    apply bind_Ok in Hrun as (o & Ho%py_last_Ok & [= <- <-]).
    apply Forall3_cons; [|apply Forall3_nil]. split.
    + intros o' asp'. rewrite list_elem_of_singleton. split.
      * intros [= -> ->]. exists p. by rewrite list_elem_of_singleton.
      * intros (p' & ->%list_elem_of_singleton & Ho' & Hasp'). congruence.
    + intros o' rp'. rewrite list_elem_of_singleton. split.
      * intros [= -> ->]. exists p. by rewrite list_elem_of_singleton.
      * intros (p' & ->%list_elem_of_singleton & Ho' & ->). congruence.
  - revert bgp full Hrun. unfold reqs_groups.
    induction IH as [|r rs Hr _ IH]; intros bgp full Hrun; simpl in Hrun.
    + injection Hrun as <- <-. constructor.
    + apply bind_Ok in Hrun as ([b1 f1] & H1 & Hrun).
      apply bind_Ok in Hrun as ([b2 f2] & H2 & [= <- <-]).
      simpl. apply Forall3_app; [by apply Hr|by apply IH].
  - apply bind_Ok in Hrun as ([b f] & Hrun & [= <- <-]).
    apply Forall3_cons; [|apply Forall3_nil].
    apply facts_of_paths_set, facts_of_paths_concat.
    revert b f Hrun. unfold reqs_groups.
    induction IH as [|r rs Hr _ IH]; intros bgp full Hrun; simpl in Hrun.
    + injection Hrun as <- <-. constructor.
    + apply bind_Ok in Hrun as ([b1 f1] & H1 & Hrun).
      apply bind_Ok in Hrun as ([b2 f2] & H2 & [= <- <-]).
      simpl. apply Forall3_app; [by apply Hr|by apply IH].
  - done.
Qed.

Lemma extract_reqs_cons_returns (g : NetworkGraph) (r : Req) (rs : list Req) :
  (∃ out, extract_reqs g (r :: rs) = Ok out) ↔
  (∃ out, extract_req g r = Ok out) ∧ (∃ out, extract_reqs g rs = Ok out).
Proof.
  simpl. split.
  - intros [out Hrun]. apply bind_Ok in Hrun as ([b1 f1] & H1 & Hrun).
    apply bind_Ok in Hrun as ([b2 f2] & H2 & _). eauto.
  - intros [[[b1 f1] ->] [[b2 f2] ->]]. simpl. eauto.
Qed.

Lemma extract_reqs_returns (g : NetworkGraph) (reqs : list Req) :
  (∃ out, extract_reqs g reqs = Ok out) ↔
  forallb req_supported reqs = true ∧
  ∀ p, p ∈ concat (reqs_groups reqs) →
       p ≠ [] ∧ ∀ r, r ∈ p → ∃ b, get_bgp_attrs g r = Ok b.
Proof.
  set (valid := fun p : list string => p ≠ [] ∧ ∀ r, r ∈ p → ∃ b, get_bgp_attrs g r = Ok b).
  set (P := fun r => (∃ out, extract_req g r = Ok out) ↔
                     req_supported r = true ∧ ∀ p, p ∈ concat (req_groups r) → valid p).
  assert (Hlist : ∀ rs, Forall P rs →
            ((∃ out, extract_reqs g rs = Ok out) ↔
             forallb req_supported rs = true ∧ ∀ p, p ∈ concat (reqs_groups rs) → valid p)).
  { unfold reqs_groups. induction 1 as [|r rs Hr _ IH].
    - simpl. split; [|by eauto]. intros _. split; [done|]. by intros p ?%elem_of_nil.
    - unfold P in Hr. rewrite extract_reqs_cons_returns, Hr, IH. simpl.
      rewrite andb_true_iff, concat_app. split.
      + intros [[? H1] [? H2]]. split; [done|].
        intros p [?|?]%elem_of_app; auto.
      + intros [[? ?] Hall]. split; (split; [done|]); intros p Hp; apply Hall, elem_of_app; auto. }
  apply Hlist, Forall_forall. intros r _. clear reqs.
  induction r as [d p|d rs IH|d rs IH|d rs IH] using Req_nested_ind; unfold P;
    rewrite extract_req_members, req_groups_members, req_supported_members.
  - simpl. split.
    + intros [out Hrun]. apply bind_Ok in Hrun as (asp & Hasp & Hrun).
      apply bind_Ok in Hrun as (o & Ho%py_last_Ok & _). split; [done|].
      intros p' ->%list_elem_of_singleton. split; [by intros ->|].
      apply get_bgp_path_returns. eauto.
    + intros [_ H]. destruct (H p) as [Hne [asp ->]%get_bgp_path_returns];
        [by apply list_elem_of_singleton|]. simpl.
      destruct (list.last p) as [o|] eqn:Ho; [|by apply last_None in Ho].
      apply py_last_Ok in Ho as ->. simpl. eauto.
  - by apply Hlist.
  - simpl. rewrite app_nil_r. rewrite <- (Hlist rs IH). split.
    + intros [out Hrun]. apply bind_Ok in Hrun as (bf & Hrun & _). eauto.
    + intros [[b f] ->]. simpl. eauto.
  - split; [by intros [? ?]|by intros [? _]].
Qed.

(** X18: when [extract_reqs] returns, its two lists have one set per group of
    the requirements, in the order of the requirements: a path requirement is
    a group of its own, an order requirement gives the groups of its members,
    a k-connected requirement one group of all paths under it.  The first set
    of a group holds, for each of its paths, the last router with the AS path
    of [get_bgp_path]; the second the last router with the reversed path. *)
Theorem extract_reqs_one_set_per_group (g : NetworkGraph) (reqs : list Req)
    (as_paths : list (list (string * list Z)))
    (router_paths : list (list (string * list string))) :
  extract_reqs g reqs = Ok (as_paths, router_paths) →
  Forall3 (facts_of_paths g) (reqs_groups reqs) as_paths router_paths.
Proof. apply extract_reqs_groups. Qed.

Lemma extract_reqs_one_set_per_group_witness :
  reqs_groups reqs_ring = [[["R2"; "R1"]]; [["R2"; "R3"; "R1"]; ["R3"; "R1"]]] ∧
  Forall3 (facts_of_paths topo_ring) (reqs_groups reqs_ring)
    [[("R1", [100%Z; 200%Z])]; [("R1", [100%Z; 200%Z]); ("R1", [100%Z])]]
    [[("R1", ["R1"; "R2"])]; [("R1", ["R1"; "R3"; "R2"]); ("R1", ["R1"; "R3"])]].
Proof.
  split; [reflexivity|].
  apply (extract_reqs_one_set_per_group topo_ring reqs_ring). reflexivity.
Defined.

(** X19: [extract_reqs] returns exactly when no ECMP requirement is among the
    requirements or their members, and every path is not empty and names
    routers of the topology only.  An ECMP requirement raises also as a
    member of an order or of a k-connected requirement. *)
Theorem extract_reqs_returns_iff_supported (g : NetworkGraph) (reqs : list Req) :
  (∃ out, extract_reqs g reqs = Ok out) ↔
  forallb req_supported reqs = true ∧
  ∀ p, p ∈ concat (reqs_groups reqs) →
       p ≠ [] ∧ ∀ r, r ∈ p → ∃ b, get_bgp_attrs g r = Ok b.
Proof. apply extract_reqs_returns. Qed.

Lemma extract_reqs_returns_iff_supported_witness :
  extract_reqs topo_ring [KConnectedPathsReq "P" [ECMPPathsReq "P" []]]
    = Raise (ValueError (Text "Unknown req type")) ∧
  extract_reqs topo_ring [PathReq "P" []] = Raise IndexError ∧
  ∃ out, extract_reqs topo_ring reqs_ring = Ok out.
Proof.
  split; [reflexivity|]. split; [reflexivity|].
  apply (extract_reqs_returns_iff_supported topo_ring reqs_ring).
  split; [reflexivity|]. intros p Hp.
  unfold reqs_ring, reqs_groups in Hp. simpl in Hp.
  repeat (apply elem_of_cons in Hp as [->|Hp]);
    [split; [done|intros r Hr;
       repeat (apply elem_of_cons in Hr as [->|Hr]);
       [eexists; reflexivity..|by apply elem_of_nil in Hr]]..
    |by apply elem_of_nil in Hp].
Defined.

(** ** synet/synthesis/new_propagation.py: expand_as_path *)

Lemma list_remove_elem {A : Type} `{EqDecision A} (x y : A) (l l' : list A) :
  list_remove x l = Some l' → y ∈ l' → y ∈ l.
Proof.
  revert l'. induction l as [|z l IH]; intros l' Hrm Hy; simpl in Hrm; [done|].
  case_decide; [injection Hrm as <-; by right|].
  destruct (list_remove x l) as [l0|]; [|done]. injection Hrm as <-.
  apply elem_of_cons in Hy as [->|Hy]; [by left|right; eauto].
Qed.

Section expand_shape.
Variables (g : NetworkGraph) (tt : list (list string)) (origins : list string).

#[local] Abbreviation partial_path := (partial_path g origins).

Lemma partial_path_mono (n m : nat) (q : list string) :
  n ≤ m → partial_path n q → partial_path m q.
Proof. intros Hnm (? & ? & ?). split_and!; [done|done|lia]. Qed.

Lemma follows_sessions_snoc (p : list string) (u nb : string) (nbrs : list string) :
  follows_sessions g p → list.last p = Some u →
  get_bgp_neighbors g u = Ok nbrs → nb ∈ nbrs → follows_sessions g (p ++ [nb]).
Proof.
  intros Hp Hlast Hnbrs Hnb i x y Hx Hy.
  assert (Hi : S i < length (p ++ [nb])) by by eapply lookup_lt_Some.
  rewrite length_app in Hi. simpl in Hi.
  rewrite lookup_app_l in Hx by lia.
  destruct (decide (S i < length p)) as [Hlt|Hge].
  - rewrite lookup_app_l in Hy by lia. by eapply Hp.
  - rewrite last_lookup in Hlast.
    replace (pred (length p)) with i in Hlast by lia.
    rewrite lookup_app_r in Hy by lia.
    replace (S i - length p) with 0 in Hy by lia. injection Hy as <-.
    assert (x = u) as -> by congruence. eauto.
Qed.

Lemma partial_path_snoc (n : nat) (p : list string) (u nb : string) (nbrs : list string) :
  partial_path n p → length p ≤ 2 * n → list.last p = Some u →
  get_bgp_neighbors g u = Ok nbrs → nb ∈ nbrs → partial_path n (p ++ [nb]).
Proof.
  intros ((o & Ho & Hhead) & Hp & Hlen) Hlen' Hlast Hnbrs Hnb. split_and!.
  - exists o. split; [done|]. by destruct p.
  - by eapply follows_sessions_snoc.
  - rewrite length_app. simpl. lia.
Qed.

Lemma expand_step_partial (i : nat) (is_last : bool) (cur out : list (list string))
    (p : list string) :
  partial_path i p →
  (∀ q, q ∈ cur → partial_path (if is_last then i else S i) q) →
  expand_step g tt i is_last cur p = Ok out →
  ∀ q, q ∈ out → partial_path (if is_last then i else S i) q.
Proof.
  intros Hp Hcur Hrun. unfold expand_step in Hrun.
  apply bind_Ok in Hrun as (cur' & Hcur' & Hrun).
  assert (Hcur1 : ∀ q, q ∈ cur' → partial_path (if is_last then i else S i) q).
  { destruct is_last; [by injection Hcur' as <-|].
    destruct (list_remove p cur) as [l|] eqn:Hrm; [|done]. injection Hcur' as <-.
    intros q Hq. apply Hcur. by eapply list_remove_elem. }
  clear Hcur Hcur'.
  apply bind_Ok in Hrun as (u & Hlast%py_last_Ok & Hrun).
  apply bind_Ok in Hrun as (nbrs & Hnbrs & Hrun).
  apply bind_Ok in Hrun as (curras & _ & Hrun).
  revert Hrun.
  apply (for_each_inv (fun s => ∀ q, q ∈ s → partial_path (if is_last then i else S i) q));
    [|done].
  intros s nb s' Hnb Hs Hbody. simpl in Hbody.
  apply bind_Ok in Hbody as (neighbor_as & _ & Hbody).
  destruct is_last; simpl in Hbody; [by injection Hbody as <-|].
  case_bool_decide; simpl in Hbody; [|by injection Hbody as <-].
  case_bool_decide; [|by injection Hbody as <-].
  destruct (tt !! S i) as [zone|]; [|done].
  case_bool_decide; [|by injection Hbody as <-].
  apply bind_Ok in Hbody as (nns & Hnns & Hbody).
  assert (Hhop : partial_path (S i) (p ++ [nb]) ∧ length (p ++ [nb]) ≤ 2 * S i).
  { destruct Hp as (? & ? & Hlen). split; [|rewrite length_app; simpl; lia].
    eapply partial_path_snoc; [|lia|done..].
    apply (partial_path_mono i); [lia|done]. }
  destruct Hhop as [Hhop Hhoplen].
  revert Hbody. apply (for_each_inv (fun s => ∀ q, q ∈ s → partial_path (S i) q)).
  - intros s1 nn s1' Hnn Hs1 Hbody. simpl in Hbody.
    apply bind_Ok in Hbody as (nn_as & _ & Hbody).
    destruct (bool_decide (neighbor_as = nn_as)); injection Hbody as <-; [|done].
    intros q [?| ->%list_elem_of_singleton]%elem_of_app; [auto|].
    eapply partial_path_snoc; [done|done|by rewrite last_snoc|done..].
  - intros q [?| ->%list_elem_of_singleton]%elem_of_app; auto.
Qed.

Lemma expand_round_partial (i : nat) (cur out : list (list string)) :
  (∀ p, p ∈ cur → partial_path i p) →
  expand_round g tt cur i = Ok out →
  ∀ q, q ∈ out → partial_path (if bool_decide (i = length tt - 1) then i else S i) q.
Proof.
  intros Hcur. unfold expand_round.
  apply (for_each_inv
           (fun s => ∀ q, q ∈ s →
              partial_path (if bool_decide (i = length tt - 1) then i else S i) q)).
  - intros s p s' Hp Hs. apply expand_step_partial; [by apply Hcur|done].
  - intros q Hq. eapply partial_path_mono; [|by apply Hcur]. case_bool_decide; lia.
Qed.

Lemma expand_rounds_partial (n i : nat) (cur out : list (list string)) :
  i + n = length tt →
  (∀ p, p ∈ cur → partial_path i p) →
  for_each (seq i n) (expand_round g tt) cur = Ok out →
  ∀ q, q ∈ out → partial_path (if decide (n = 0) then i else length tt - 1) q.
Proof.
  revert i cur. induction n as [|n IH]; intros i cur Hlen Hcur Hrun.
  - simpl in Hrun. by injection Hrun as <-.
  - simpl in Hrun. apply bind_Ok in Hrun as (s1 & H1 & Hrun).
    pose proof (expand_round_partial _ _ _ Hcur H1) as Hs1.
    simpl. destruct n as [|n].
    + simpl in Hrun. injection Hrun as <-.
      rewrite bool_decide_eq_true_2 in Hs1 by lia.
      intros q Hq. replace (length tt - 1) with i by lia. auto.
    + rewrite bool_decide_eq_false_2 in Hs1 by lia.
      specialize (IH (S i) s1). rewrite decide_False in IH by done.
      apply IH; [lia|done|done].
Qed.
End expand_shape.

(** X20: every router path that [expand_as_path] returns starts at one of
    the given origins and goes from each router to one of its BGP
    neighbours; it has at most one router for the first AS of the sequence
    and two for each further one. *)
Theorem expand_as_path_follows_sessions (g : NetworkGraph) (zones : list (Z * zone_graph))
    (aspath : list Z) (origins : list string) (res : list (list string))
    (p : list string) :
  expand_as_path g zones aspath origins = Ok res →
  p ∈ res →
  (∃ o, o ∈ origins ∧ head p = Some o) ∧
  follows_sessions g p ∧
  length p ≤ 2 * (length aspath - 1) + 1.
Proof.
  intros Hrun Hp. unfold expand_as_path in Hrun.
  apply bind_Ok in Hrun as (tt & Htt & Hrun).
  apply bind_Ok in Hrun as (new_paths & Hrounds & [= <-]).
  rewrite elem_of_set_of_list in Hp.
  destruct (mapM_result_lookup _ _ _ Htt) as [Hlen _].
  eapply (expand_rounds_partial g tt origins (length tt) 0) in Hrounds; [|done| |exact Hp].
  - rewrite <- Hlen. case_decide as Hz; [|done]. by rewrite Hz.
  - intros q (o & -> & Ho)%list_elem_of_fmap. split_and!; [by exists o| |simpl; lia].
    intros [|i] u v; simpl; [done|by rewrite lookup_nil].
Qed.

Lemma expand_as_path_follows_sessions_witness :
  expand_as_path topo_ring (zones_or_empty topo_ring) [100%Z; 200%Z; 100%Z] ["R1"]
    = Ok [["R1"; "R2"; "R3"]; ["R1"; "R2"; "R3"; "R1"]] ∧
  follows_sessions topo_ring ["R1"; "R2"; "R3"; "R1"] ∧
  length ["R1"; "R2"; "R3"; "R1"] ≤ 5.
Proof.
  assert (H := expand_as_path_follows_sessions topo_ring (zones_or_empty topo_ring)
                 [100%Z; 200%Z; 100%Z] ["R1"]
                 [["R1"; "R2"; "R3"]; ["R1"; "R2"; "R3"; "R1"]]
                 ["R1"; "R2"; "R3"; "R1"]).
  split; [vm_compute; reflexivity|].
  apply H; [vm_compute; reflexivity|]. right. left.
Defined.

Lemma mapM_result_raises {A B : Type} (f : A → result B) (pre post : list A) (a : A)
    (e : exn) :
  (∀ x, x ∈ pre → ∃ y, f x = Ok y) → f a = Raise e →
  mapM f (pre ++ a :: post) = Raise e.
Proof.
  intros Hpre Ha. induction pre as [|x pre IH]; simpl.
  - by rewrite Ha.
  - destruct (Hpre x) as [y ->]; [by left|]. simpl.
    rewrite IH; [done|]. intros ??. apply Hpre. by right.
Qed.

(** X21: the edge cases of [expand_as_path].  An AS number without zone
    raises KeyError for the first such number of the sequence, before any
    router is looked at.  For the empty sequence the call returns the
    origins as one-router paths, whatever the origins are; for a sequence of
    one AS number it returns the same when it returns, so the origins are
    not compared with the zone of that number. *)
Theorem expand_as_path_edge_cases (g : NetworkGraph) (zones : list (Z * zone_graph))
    (origins : list string) :
  (∀ pre a post,
     (∀ x, x ∈ pre → is_Some (dict_get zones x)) → dict_get zones a = None →
     expand_as_path g zones (pre ++ a :: post) origins = Raise (KeyError (KInt a))) ∧
  expand_as_path g zones [] origins = Ok (set_of_list ((fun o => [o]) <$> origins)) ∧
  (∀ a res, expand_as_path g zones [a] origins = Ok res →
            res = set_of_list ((fun o => [o]) <$> origins)).
Proof.
  split_and!.
  - intros pre a post Hpre Ha. unfold expand_as_path.
    rewrite (mapM_result_raises _ pre post a (KeyError (KInt a))); [done| |].
    + intros x [z Hz]%Hpre. unfold zone_nodes. rewrite Hz. eauto.
    + unfold zone_nodes. by rewrite Ha.
  - done.
  - intros a res Hrun. unfold expand_as_path in Hrun.
    apply bind_Ok in Hrun as (tt & Htt & Hrun).
    apply bind_Ok in Hrun as (new_paths & Hrounds & [= <-]).
    destruct (mapM_result_lookup _ _ _ Htt) as [Hlen _]. simpl in Hlen.
    rewrite Hlen in Hrounds. simpl in Hrounds.
    apply bind_Ok in Hrounds as (s1 & H1 & [= <-]).
    replace 0 with (length tt - 1) in H1 by lia.
    by apply expand_round_last in H1 as ->.
Qed.

Lemma expand_as_path_edge_cases_witness :
  expand_as_path topo_A (zones_or_empty topo_A) [10%Z; 30%Z; 40%Z] ["R1"]
    = Raise (KeyError (KInt 30%Z)) ∧
  expand_as_path topo_A (zones_or_empty topo_A) [] ["nobody"] = Ok [["nobody"]] ∧
  expand_as_path topo_A (zones_or_empty topo_A) [10%Z] ["R2"] = Ok [["R2"]] ∧
  expand_as_path topo_A (zones_or_empty topo_A) [10%Z] ["nobody"]
    = Raise (AssertionError (Text "Node is not a router")).
Proof.
  destruct (expand_as_path_edge_cases topo_A (zones_or_empty topo_A) ["R1"]) as (H1 & _).
  split; [apply (H1 [10%Z] 30%Z [40%Z]); [|reflexivity]|].
  - intros x ->%list_elem_of_singleton. eexists. reflexivity.
  - split_and!; vm_compute; reflexivity.
Defined.

(** ** synet/synthesis/new_propagation.py: expand_ebgp_graph *)

Lemma py_first_Ok {A : Type} (l : list A) (x : A) : py_first l = Ok x ↔ head l = Some x.
Proof. unfold py_first. destruct l; simpl; split; congruence. Qed.

Lemma all_paths_as_level (graph : PGraph Z) (aspath : list Z) :
  aspath ∈ foldl (fun acc na => foldl set_add acc (set_union (n_paths na.2) (n_block na.2)))
             [] (gr_node graph) →
  as_level_path graph aspath.
Proof.
  unfold as_level_path.
  apply (foldl_inv_seen
           (fun seen acc => aspath ∈ acc →
              ∃ n a, (n, a) ∈ seen ∧ (aspath ∈ n_paths a ∨ aspath ∈ n_block a))).
  - by intros ?%elem_of_nil.
  - intros pre [n a] post acc _ IH [Hacc|Hin]%elem_of_foldl_set_add.
    + destruct (IH Hacc) as (n' & a' & ? & ?). exists n', a'. split; [|done].
      apply elem_of_app. by left.
    + exists n, a. split; [apply elem_of_app; right; by left|].
      by apply elem_of_set_union in Hin.
Qed.

Lemma elem_of_flatten {A : Type} (x : A) (ls : list (list A)) :
  x ∈ flatten ls ↔ ∃ l, x ∈ l ∧ l ∈ ls.
Proof.
  unfold flatten. induction ls as [|l ls IH]; simpl.
  - split; [by intros ?%elem_of_nil|by intros (? & _ & ?%elem_of_nil)].
  - rewrite elem_of_app, IH. split.
    + intros [?|(l' & ? & ?)]; [exists l; split; [done|by left]|].
      exists l'. split; [done|by right].
    + intros (l' & Hx & [->|?]%elem_of_cons); [by left|right; eauto].
Qed.

Lemma dict_get_set_cases {K V : Type} `{EqDecision K} (d : list (K * V)) (k k' : K) (v : V) :
  dict_get (dict_set d k v) k' = if decide (k = k') then Some v else dict_get d k'.
Proof. case_decide; subst; [apply dict_get_set_eq|by apply dict_get_set_ne]. Qed.

Lemma expand_ebgp_graph_blocks (g : NetworkGraph) (zones : list (Z * zone_graph))
    (graph : PGraph Z) (expanded expanded' : PGraph string)
    (ebgp_paths : list (list (string * list Z))) :
  expand_ebgp_graph g zones graph expanded ebgp_paths = Ok expanded' →
  gr_edges expanded' = gr_edges expanded ∧
  gr_nodes expanded' = gr_nodes expanded ∧
  ∀ node a', dict_get (gr_node expanded') node = Some a' →
    ∃ a, dict_get (gr_node expanded) node = Some a ∧
         n_order a' = n_order a ∧ n_paths a' = n_paths a ∧
         (∀ p, p ∈ n_block a → p ∈ n_block a') ∧
         (∀ p, p ∈ n_block a' → p ∉ n_block a →
               (p ∉ n_paths a) ∧ list.last p = Some node ∧
               expansion g zones graph ebgp_paths p).
Proof.
  unfold expand_ebgp_graph. intros Hrun.
  apply bind_Ok in Hrun as (origins & Horigins & Hrun).
  apply bind_Ok in Hrun as (expanded_paths & Hexp & Hloop).
  assert (Ho : ∀ first os o, dict_get origins first = Some os → o ∈ os →
                 ∃ asp, (o, asp) ∈ flatten ebgp_paths ∧ head asp = Some first).
  { revert Horigins.
    apply (for_each_inv_seen
             (fun seen origins => ∀ first os o, dict_get origins first = Some os → o ∈ os →
                ∃ asp, (o, asp) ∈ seen ∧ head asp = Some first)); [done|].
    intros pre [o asp] s s' IH _ Hbody first os o' Hget Ho'. simpl in Hbody.
    apply bind_Ok in Hbody as (f & Hf%py_first_Ok & [= <-]).
    set (s1 := if dict_has s f then s else dict_set s f []) in *.
    assert (Hweak : ∀ f1 os1 o1, dict_get s1 f1 = Some os1 → o1 ∈ os1 →
                      ∃ asp1, (o1, asp1) ∈ pre ++ [(o, asp)] ∧ head asp1 = Some f1).
    { intros f1 os1 o1 H1 H2.
      assert (dict_get s f1 = Some os1) as H1'.
      { unfold s1 in H1. destruct (dict_has s f); [done|].
        rewrite dict_get_set_cases in H1. case_decide; [|done].
        injection H1 as <-. by apply elem_of_nil in H2. }
      destruct (IH f1 os1 o1 H1' H2) as (asp1 & ? & ?).
      exists asp1. split; [apply elem_of_app; by left|done]. }
    rewrite dict_get_set_cases in Hget. case_decide as Hff; [|by eapply Hweak].
    subst first. injection Hget as <-.
    apply elem_of_set_add in Ho' as [Ho'| ->].
    - destruct (dict_get s1 f) as [os0|] eqn:E; [|by apply elem_of_nil in Ho'].
      by eapply Hweak.
    - exists asp. split; [apply elem_of_app; right; by left|done]. }
  assert (He : ∀ aspath paths p, (aspath, paths) ∈ expanded_paths → p ∈ paths →
                 expansion g zones graph ebgp_paths p).
  { revert Hexp.
    apply (for_each_inv_seen
             (fun (seen : list (list Z)) (eps : list (list Z * list (list string))) =>
                ∀ aspath paths p, (aspath, paths) ∈ eps → p ∈ paths →
                                  expansion g zones graph ebgp_paths p));
      [by intros ??? ?%elem_of_nil|].
    intros pre aspath s s' IH Hin Hbody aspath' paths p Hel Hp. simpl in Hbody.
    apply bind_Ok in Hbody as (f & Hf%py_first_Ok & Hbody).
    destruct (dict_get origins f) as [os|] eqn:Eos; [|done].
    apply bind_Ok in Hbody as (paths' & Hpaths' & [= <-]).
    apply elem_of_dict_set in Hel as [[= -> ->]|Hel]; [|by eapply IH].
    exists aspath, os, paths'. split_and!; [by apply all_paths_as_level| |done|done].
    intros o Ho'. rewrite Hf. by eapply Ho. }
  clear Ho Hexp Horigins.
  assert (Hp : ∀ p, p ∈ flatten (expanded_paths.*2) → expansion g zones graph ebgp_paths p).
  { intros p (paths & Hp & ([aspath paths'] & -> & Hel)%list_elem_of_fmap)%elem_of_flatten.
    by eapply He. }
  clear He. revert Hloop.
  apply (for_each_inv_seen
    (fun (seen : list (list string)) (cur : PGraph string) =>
       gr_edges cur = gr_edges expanded ∧ gr_nodes cur = gr_nodes expanded ∧
       ∀ node a', dict_get (gr_node cur) node = Some a' →
         ∃ a, dict_get (gr_node expanded) node = Some a ∧
              n_order a' = n_order a ∧ n_paths a' = n_paths a ∧
              (∀ p, p ∈ n_block a → p ∈ n_block a') ∧
              (∀ p, p ∈ n_block a' → p ∉ n_block a →
                    (p ∉ n_paths a) ∧ list.last p = Some node ∧
                    expansion g zones graph ebgp_paths p))).
  - split_and!; [done..|]. intros node a' Ha'. exists a'. by split_and!.
  - intros pre p cur cur' (Hedges & Hnodes & IH) Hin Hbody. simpl in Hbody.
    apply bind_Ok in Hbody as (node & Hnode%py_last_Ok & Hbody).
    destruct (dict_get (gr_node cur) node) as [a1|] eqn:E1; [|done].
    case_bool_decide as Hallowed; injection Hbody as <-; [done|]. simpl.
    split_and!; [done| |].
    + unfold gr_nodes in *. simpl. rewrite dict_keys_set, <- Hnodes.
      unfold dict_has. by rewrite E1.
    + intros n a'. rewrite dict_get_set_cases. case_decide as Hn; [|apply IH].
      subst n. intros [= <-]. destruct (IH node a1 E1) as (a & Ha & Ho & Hpa & Hsub & Hnew).
      exists a. split_and!; [done..| |].
      * intros q Hq. apply elem_of_set_add. left. auto.
      * intros q [Hq| ->]%elem_of_set_add Hnq; [auto|].
        split_and!; [congruence|done|by apply Hp].
Qed.

(** X22: [expand_ebgp_graph] changes the blocked sets of the router-level
    graph and nothing else: edges, nodes, orders and allowed paths stay, and
    no blocked path is dropped.  A path that it blocks at a node ends at
    that node, is not allowed there, and is an expansion of an AS path of
    the AS-level graph. *)
Theorem expand_ebgp_graph_only_blocks (g : NetworkGraph) (zones : list (Z * zone_graph))
    (graph : PGraph Z) (expanded expanded' : PGraph string)
    (ebgp_paths : list (list (string * list Z))) :
  expand_ebgp_graph g zones graph expanded ebgp_paths = Ok expanded' →
  gr_edges expanded' = gr_edges expanded ∧
  gr_nodes expanded' = gr_nodes expanded ∧
  ∀ node a', dict_get (gr_node expanded') node = Some a' →
    ∃ a, dict_get (gr_node expanded) node = Some a ∧
         n_order a' = n_order a ∧ n_paths a' = n_paths a ∧
         (∀ p, p ∈ n_block a → p ∈ n_block a') ∧
         (∀ p, p ∈ n_block a' → p ∉ n_block a →
               (p ∉ n_paths a) ∧ list.last p = Some node ∧
               expansion g zones graph ebgp_paths p).
Proof. apply expand_ebgp_graph_blocks. Qed.

Lemma expand_ebgp_graph_only_blocks_witness :
  expand_ebgp_graph topo_ring (zones_or_empty topo_ring) graph_as_ring expanded_ring
    [[("R1", [100%Z; 200%Z])]]
  = Ok (mkGraph [("R1", mkPAttrs [] [["R1"]] []); ("R2", mkPAttrs [] [] [["R1"; "R2"]])]
                [("R1", "R2")]) ∧
  expansion topo_ring (zones_or_empty topo_ring) graph_as_ring
    [[("R1", [100%Z; 200%Z])]] ["R1"; "R2"].
Proof.
  assert (Hrun : expand_ebgp_graph topo_ring (zones_or_empty topo_ring) graph_as_ring
                   expanded_ring [[("R1", [100%Z; 200%Z])]]
                 = Ok (mkGraph [("R1", mkPAttrs [] [["R1"]] []);
                                ("R2", mkPAttrs [] [] [["R1"; "R2"]])]
                               [("R1", "R2")])) by (vm_compute; reflexivity).
  split; [exact Hrun|].
  destruct (expand_ebgp_graph_only_blocks _ _ _ _ _ _ Hrun) as (_ & _ & H).
  destruct (H "R2" (mkPAttrs [] [] [["R1"; "R2"]]) eq_refl) as (a & [= <-] & _ & _ & _ & Hnew).
  apply (Hnew ["R1"; "R2"]); [by left|by intros ?%elem_of_nil].
Defined.

(** ** synet/synthesis/new_propagation.py: compute_dags *)

(** One step of the grouping loop. *)
Lemma group_step_get (acc : list (string * list Req)) (req : Req) (net : string) :
  dict_get
    (let acc' := if dict_has acc (dst_net req) then acc else dict_set acc (dst_net req) [] in
     dict_set acc' (dst_net req) (default [] (dict_get acc' (dst_net req)) ++ [req])) net
  = if decide (dst_net req = net) then Some (default [] (dict_get acc net) ++ [req])
    else dict_get acc net.
Proof.
  simpl. rewrite dict_get_set_cases. case_decide as Hnet.
  - subst net. unfold dict_has. destruct (dict_get acc (dst_net req)) eqn:E; simpl.
    + by rewrite E.
    + by rewrite dict_get_set_eq.
  - destruct (dict_has acc (dst_net req)); [done|]. by rewrite dict_get_set_ne.
Qed.

Lemma group_step_keys (acc : list (string * list Req)) (req : Req) :
  dict_keys
    (let acc' := if dict_has acc (dst_net req) then acc else dict_set acc (dst_net req) [] in
     dict_set acc' (dst_net req) (default [] (dict_get acc' (dst_net req)) ++ [req]))
  = set_add (dict_keys acc) (dst_net req).
Proof.
  simpl. unfold set_add. rewrite dict_keys_set.
  destruct (dict_has acc (dst_net req)) eqn:E.
  - rewrite E. apply dict_has_true in E. by rewrite decide_True.
  - unfold dict_has at 1. rewrite dict_get_set_eq. simpl.
    rewrite dict_keys_set, E. apply dict_has_false in E. by rewrite decide_False.
Qed.

Lemma group_reqs_spec (rs : list Req) :
  dict_keys (group_reqs rs) = set_of_list (dst_net <$> rs) ∧
  ∀ net, dict_get (group_reqs rs) net =
         match filter (fun r => dst_net r = net) rs with
         | [] => None
         | l => Some l
         end.
Proof.
  unfold group_reqs, set_of_list.
  cut (∀ acc,
         let res := foldl (fun net_reqs req =>
                     let net_reqs' :=
                       if dict_has net_reqs (dst_net req) then net_reqs
                       else dict_set net_reqs (dst_net req) [] in
                     dict_set net_reqs' (dst_net req)
                              (default [] (dict_get net_reqs' (dst_net req)) ++ [req]))
                    acc rs in
         dict_keys res = foldl set_add (dict_keys acc) (dst_net <$> rs) ∧
         ∀ net, dict_get res net =
                match filter (fun r => dst_net r = net) rs with
                | [] => dict_get acc net
                | l => Some (default [] (dict_get acc net) ++ l)
                end).
  { intros H. destruct (H []) as [H1 H2]. split; [exact H1|].
    intros net. rewrite H2. simpl. by destruct (filter _ rs). }
  induction rs as [|r rs IH]; intros acc; simpl; [done|].
  destruct (IH (let acc' := if dict_has acc (dst_net r) then acc
                            else dict_set acc (dst_net r) [] in
                dict_set acc' (dst_net r) (default [] (dict_get acc' (dst_net r)) ++ [r])))
    as [Hk Hg].
  split.
  - rewrite <- group_step_keys. exact Hk.
  - intros net. rewrite Hg, group_step_get, filter_cons.
    case_decide as Hnet; [|done]. simpl.
    destruct (filter (fun r0 => dst_net r0 = net) rs); [done|].
    by rewrite <- app_assoc.
Qed.

(** X23: the grouping of the requirements in [compute_dags]: the prefixes
    are taken in the order of their first requirement, each once, and the
    group of a prefix holds its requirements, all of them and in the order
    given. *)
Theorem group_reqs_groups_by_prefix (rs : list Req) :
  dict_keys (group_reqs rs) = set_of_list (dst_net <$> rs) ∧
  ∀ net, dict_get (group_reqs rs) net =
         match filter (fun r => dst_net r = net) rs with
         | [] => None
         | l => Some l
         end.
Proof. apply group_reqs_spec. Qed.

Section compute_dags_state.
Context {Violation : Type}.
Variable compute_propagation_as :
  Graph Z unit → list (list (string * list Z)) → result (PGraph Z).
Variable compute_propagation :
  NetworkGraph → list (list (string * list string)) → result (PGraph string).
Variable check_order : PGraph Z → result (list Violation).

#[local] Abbreviation process :=
  (process_prefix compute_propagation_as compute_propagation check_order).
#[local] Abbreviation run_dags :=
  (compute_dags compute_propagation_as compute_propagation check_order).

(** The loop over the prefixes writes the graphs of these prefixes only. *)
Lemma prefixes_loop_frame (groups : list (string * list Req)) (self self1 : EBGPPropagation)
    (v1 : option (list Violation)) :
  for_each groups process (self, None) = Ok (self1, v1) →
  reqs self1 = reqs self ∧ network_graph self1 = network_graph self ∧
  peering_graph self1 = peering_graph self ∧ ibgp_zones self1 = ibgp_zones self ∧
  ebgp_propagation self1 = ebgp_propagation self ∧
  ibgp_propagation self1 = ibgp_propagation self ∧
  (∀ net, net ∉ dict_keys groups →
     dict_get (ebgp_graphs self1) net = dict_get (ebgp_graphs self) net ∧
     dict_get (ibgp_graphs self1) net = dict_get (ibgp_graphs self) net) ∧
  (groups = [] → v1 = None).
Proof.
  intros Hrun.
  cut ((fun pre (st : EBGPPropagation * option (list Violation)) =>
    reqs st.1 = reqs self ∧ network_graph st.1 = network_graph self ∧
    peering_graph st.1 = peering_graph self ∧ ibgp_zones st.1 = ibgp_zones self ∧
    ebgp_propagation st.1 = ebgp_propagation self ∧
    ibgp_propagation st.1 = ibgp_propagation self ∧
    (∀ net, net ∉ dict_keys pre →
       dict_get (ebgp_graphs st.1) net = dict_get (ebgp_graphs self) net ∧
       dict_get (ibgp_graphs st.1) net = dict_get (ibgp_graphs self) net) ∧
    (pre = [] → st.2 = None)) groups (self1, v1)); [done|].
  revert Hrun. apply for_each_inv_seen; [done|].
  intros pre [net rs] [s v] [s' v'] (Hreqs & Hg & Hpg & Hz & Hep & Hip & Hframe & _) _ Hbody.
  unfold process_prefix in Hbody.
  apply bind_Ok in Hbody as ([ebgp_paths ibgp_paths] & _ & Hbody).
  apply bind_Ok in Hbody as (ebgp & _ & Hbody).
  apply bind_Ok in Hbody as (ibgp0 & _ & Hbody).
  apply bind_Ok in Hbody as (viol & _ & Hbody).
  apply bind_Ok in Hbody as (ibgp & _ & [= <- <-]). simpl in *.
  split_and!; try done.
  - intros net0 Hnet0. unfold dict_keys in Hnet0. rewrite fmap_app, not_elem_of_app in Hnet0.
    destruct Hnet0 as [Hpre Hne]. simpl in Hne. rewrite list_elem_of_singleton in Hne.
    rewrite !dict_get_set_ne by done. by apply Hframe.
  - intros Hnil. by destruct pre.
Qed.

(** X24: what a call of [compute_dags] that returns leaves behind.  There
    was a requirement; the requirements, both network views and the zones
    are as before; the per-prefix graphs of the prefixes without requirement
    are the ones that were there before the call; and the two merged graphs
    are built from all per-prefix graphs, these included, the router-level
    one being the partially evaluated graph whose AS paths are the new
    enumeration. *)
Theorem compute_dags_final_state (self self' : EBGPPropagation) (viol : list Violation) :
  run_dags self = Ok (viol, self') →
  reqs self ≠ [] ∧
  reqs self' = reqs self ∧ network_graph self' = network_graph self ∧
  peering_graph self' = peering_graph self ∧ ibgp_zones self' = ibgp_zones self ∧
  (∀ net, net ∉ dst_net <$> reqs self →
     dict_get (ebgp_graphs self') net = dict_get (ebgp_graphs self) net ∧
     dict_get (ibgp_graphs self') net = dict_get (ibgp_graphs self) net) ∧
  (∃ m, merge_graphs (ebgp_graphs self') = Ok m ∧ ebgp_propagation self' = Some m) ∧
  (∃ m chained as_paths,
     merge_graphs (ibgp_graphs self') = Ok m ∧
     partial_eval_propagated_info (network_graph self) m = Ok (chained, as_paths) ∧
     ibgp_propagation self' = Some chained ∧ aspath_enum self' = Some as_paths).
Proof.
  intros H. unfold compute_dags in H.
  apply bind_Ok in H as ([self1 v1] & Hloop & H).
  apply prefixes_loop_frame in Hloop as (Hreqs & Hg & Hpg & Hz & _ & _ & Hframe & Hnone).
  apply bind_Ok in H as (self2 & Hmerge & H).
  unfold merge_dags in Hmerge.
  apply bind_Ok in Hmerge as (ebgp & Hebgp & Hmerge).
  apply bind_Ok in Hmerge as (ibgp & Hibgp & [= <-]). simpl in H.
  apply bind_Ok in H as ([propagation' as_paths] & Hpe & H).
  destruct v1 as [v|]; [|done]. injection H as <- <-. simpl.
  split_and!; try done.
  - intros Hnil. rewrite Hnil in Hnone. by specialize (Hnone eq_refl).
  - intros net Hnet. apply Hframe.
    destruct (group_reqs_spec (reqs self)) as [-> _]. by rewrite elem_of_set_of_list.
  - eauto.
  - exists ibgp, propagation', as_paths. by rewrite <- Hg.
Qed.
End compute_dags_state.

Lemma compute_dags_final_state_witness :
  reqs two_prefixes ≠ [] ∧
  dict_get (ebgp_graphs after_two_prefixes) "P3" = dict_get (ebgp_graphs two_prefixes) "P3" ∧
  ∃ m, merge_graphs (ebgp_graphs after_two_prefixes) = Ok m ∧
       ebgp_propagation after_two_prefixes = Some m.
Proof.
  destruct (compute_dags_final_state (fun _ => example_propagation)
              (fun _ => example_propagation) example_check_order two_prefixes
              after_two_prefixes []) as (H1 & _ & _ & _ & _ & H2 & H3 & _).
  { vm_compute. reflexivity. }
  split; [exact H1|]. split; [|exact H3].
  apply (H2 "P3"). intros Hin. simpl in Hin.
  repeat (apply elem_of_cons in Hin as [Hin|Hin]; [discriminate Hin|]).
  by apply elem_of_nil in Hin.
Defined.

(** ** synet/synthesis/new_propagation.py: partial_eval_propagated_info *)

Lemma collapse_fmap_Some {A : Type} `{EqDecision A} (l : list A) :
  collapse (Some <$> l) = Some <$> collapse l.
Proof.
  induction l as [|a l IH]; [done|].
  rewrite fmap_cons, !collapse_cons, IH.
  destruct l as [|b l]; simpl; [done|].
  destruct (decide (Some (Some b) = Some (Some a))) as [[= ->]|Hne].
  - by rewrite decide_True.
  - rewrite decide_False; [done|congruence].
Qed.

Lemma get_bgp_asnum_attrs (g : NetworkGraph) (n : string) (a : option Z) :
  get_bgp_asnum g n = Ok a → ∃ b, get_bgp_attrs g n = Ok b.
Proof. unfold get_bgp_asnum. destruct (get_bgp_attrs g n); [eauto|done]. Qed.

Lemma as_numbers_snoc (g : NetworkGraph) (l : list string) (n : string) (a : option Z) :
  get_bgp_asnum g n = Ok a →
  as_numbers g (l ++ [n]) = as_numbers g l ++ from_option (fun x => [x]) [] a.
Proof.
  intros Ha. unfold as_numbers. rewrite omap_app. f_equal. simpl.
  unfold as_number. rewrite Ha. by destruct a.
Qed.

Lemma as_numbers_cons (g : NetworkGraph) (l : list string) (n : string) (a : option Z) :
  get_bgp_asnum g n = Ok a →
  as_numbers g (n :: l) = from_option (fun x => [x]) [] a ++ as_numbers g l.
Proof.
  intros Ha. unfold as_numbers. simpl. unfold as_number at 1. rewrite Ha. by destruct a.
Qed.

Lemma get_as_path_as_numbers (g : NetworkGraph) (p : list string)
    (ep eg pe : option string) (asp : list (option Z)) :
  get_as_path g p = Ok (ep, eg, pe, asp) →
  ∃ first a0,
    head p = Some first ∧ get_bgp_asnum g first = Ok a0 ∧
    (∀ r, r ∈ p → ∃ b, get_bgp_attrs g r = Ok b) ∧
    asp = reverse (collapse (a0 :: (Some <$> as_numbers g (tail p)))) ∧
    (length p = 1 → ep = None ∧ eg = None ∧ pe = None).
Proof.
  unfold get_as_path. intros Hrun.
  apply bind_Ok in Hrun as (_ & _ & Hrun).
  apply bind_Ok in Hrun as (first & Hfirst%py_first_Ok & Hrun).
  apply bind_Ok in Hrun as (a0 & Ha0 & Hrun).
  destruct p as [|f p]; [done|]. injection Hfirst as ->.
  exists first, a0. split; [done|]. split; [done|].
  case_bool_decide as Hone.
  - injection Hrun as <- <- <- <-. destruct p; [|done]. split_and!; [|done|done].
    intros r ->%list_elem_of_singleton. by eapply get_bgp_asnum_attrs.
  - apply bind_Ok in Hrun as ([[[ep' eg'] pe'] as_path] & Hloop & [= -> -> -> <-]).
    simpl tail.
    cut ((fun (seen : list (string * string))
              (st : option string * option string * option string * list (option Z)) =>
            st.2 = collapse (a0 :: (Some <$> as_numbers g seen.*2)) ∧
            ∀ r, r ∈ seen.*2 → ∃ b, get_bgp_attrs g r = Ok b)
           (zip (first :: p) p) (ep, eg, pe, as_path)).
    { intros [Has Hall]. rewrite snd_zip in Has, Hall by (simpl; lia).
      simpl in Has. subst as_path. split_and!; [|done|done].
      intros r [->|Hr]%elem_of_cons; [by eapply get_bgp_asnum_attrs|auto]. }
    revert Hloop. apply for_each_inv_seen.
    { split; [done|by intros ? ?%elem_of_nil]. }
    intros pre [prev node] [[[ep1 eg1] pe1] as1] st' [Has Hall] _ Hbody.
    cbn [fst snd] in Has, Hbody.
    apply bind_Ok in Hbody as (bn & (an & Han & ->)%is_bgp_enabled_spec & Hbody).
    rewrite fmap_app. change ([(prev, node)].*2) with [node].
    split.
    2:{ intros r [?| ->%list_elem_of_singleton]%elem_of_app; [auto|].
        by eapply get_bgp_asnum_attrs. }
    rewrite (as_numbers_snoc _ _ _ _ Han).
    destruct an as [a|]; cbn [negb bool_decide from_option] in Hbody |- *.
    + rewrite bool_decide_true in Hbody by eauto. cbn [negb] in Hbody.
      apply bind_Ok in Hbody as (bp & _ & Hbody).
      apply bind_Ok in Hbody as ([[ep2 eg2] pe2] & _ & Hbody).
      rewrite Han in Hbody. cbn [mbind result_bind] in Hbody.
      rewrite fmap_app. change (Some <$> [a]) with [Some a].
      rewrite app_comm_cons, collapse_snoc, <- collapse_last, <- Has.
      destruct (decide (list.last as1 = Some (Some a))) as [Hl|Hl].
      * rewrite bool_decide_false in Hbody by (by intros ?). by injection Hbody as <-.
      * rewrite bool_decide_true in Hbody by done. by injection Hbody as <-.
    + rewrite bool_decide_false in Hbody by (by intros [? ?]). cbn [negb] in Hbody.
      injection Hbody as <-. by rewrite app_nil_r.
Qed.

(** X25: the AS path that [get_as_path] derives for a router path is the one
    of [get_bgp_path] for the same path, each number wrapped; when the first
    router has no AS number, [None] is added as the last element.  A path of
    one router has no peer, egress or external peer. *)
Theorem get_as_path_agrees_with_get_bgp_path (g : NetworkGraph) (p : list string)
    (ep eg pe : option string) (asp : list (option Z)) :
  get_as_path g p = Ok (ep, eg, pe, asp) →
  ∃ first a0 asp',
    head p = Some first ∧ get_bgp_asnum g first = Ok a0 ∧
    get_bgp_path g p = Ok asp' ∧
    asp = (Some <$> asp') ++ (if a0 is Some _ then [] else [None]) ∧
    (length p = 1 → ep = None ∧ eg = None ∧ pe = None).
Proof.
  intros (first & a0 & Hhead & Ha0 & Hall & -> & Hone)%get_as_path_as_numbers.
  exists first, a0, (reverse (collapse (as_numbers g p))).
  split_and!; [done|done| |  |done].
  - unfold get_bgp_path.
    pose proof (bgp_path_loop_spec g p [] [] Hall) as Hloop. simpl in Hloop.
    by rewrite Hloop.
  - destruct p as [|f p]; [done|]. injection Hhead as ->.
    change (tail (first :: p)) with p.
    rewrite (as_numbers_cons _ _ _ _ Ha0). destruct a0 as [a|]; cbn [from_option app].
    + by rewrite app_nil_r, fmap_reverse, <- collapse_fmap_Some.
    + rewrite collapse_cons, decide_False.
      * by rewrite reverse_cons, fmap_reverse, <- collapse_fmap_Some.
      * by destruct (as_numbers g p).
Qed.

Lemma get_as_path_agrees_with_get_bgp_path_witness :
  get_as_path topo_ring ["R1"; "R3"; "R2"]
    = Ok (Some "R3", Some "R2", Some "R3", [Some 200%Z; Some 100%Z]) ∧
  get_as_path topo_unnumbered ["X"; "R1"] = Ok (None, None, None, [Some 10%Z; None]) ∧
  ∃ first a0 asp',
    head ["X"; "R1"] = Some first ∧ get_bgp_asnum topo_unnumbered first = Ok a0 ∧
    get_bgp_path topo_unnumbered ["X"; "R1"] = Ok asp' ∧
    [Some 10%Z; None] = (Some <$> asp') ++ (if a0 is Some _ then [] else [None]) ∧
    (length ["X"; "R1"] = 1 → @None string = None ∧ @None string = None ∧ @None string = None).
Proof.
  split; [vm_compute; reflexivity|]. split; [vm_compute; reflexivity|].
  apply (get_as_path_agrees_with_get_bgp_path topo_unnumbered ["X"; "R1"]).
  vm_compute. reflexivity.
Defined.

Lemma first_net_listed (entries : list (string * NetAttrs string)) (p : list string)
    (net : string) :
  first_net entries p = Some net → ∃ e, e ∈ entries ∧ p ∈ entry_paths e.2.
Proof.
  unfold first_net. destruct (list_find _ entries) as [[k e]|] eqn:E; [|done].
  intros _. apply list_find_Some in E as (Hk & He & _).
  exists e. split; [by eapply list_elem_of_lookup_2|done].
Qed.

(** The cache has one entry per path. *)
Lemma eval_entry_cache_NoDup (g : NetworkGraph) (cache cache' : list (list string * PropagatedInfo))
    (net : string) (attrs attrs' : NetAttrs string) :
  NoDup (dict_keys cache) → eval_entry g cache net attrs = Ok (cache', attrs') →
  NoDup (dict_keys cache').
Proof.
  intros Hnd Hrun. unfold eval_entry in Hrun.
  apply bind_Ok in Hrun as (c1 & Hloop & Hrun).
  apply bind_Ok in Hrun as (o & _ & Hrun).
  apply bind_Ok in Hrun as (b & _ & [= <- _]).
  revert Hnd Hloop. apply (for_each_inv (fun c => NoDup (dict_keys c))).
  intros c p c' _ Hc Hbody. simpl in Hbody.
  destruct (dict_has c p); [by injection Hbody as <-|].
  apply bind_Ok in Hbody as (i & _ & [= <-]). by apply dict_keys_set_NoDup.
Qed.

Lemma eval_node_cache_NoDup (g : NetworkGraph) (cache cache' : list (list string * PropagatedInfo))
    (nets nets' : option (list (string * NetAttrs string))) :
  NoDup (dict_keys cache) → eval_node g cache nets = Ok (cache', nets') →
  NoDup (dict_keys cache').
Proof.
  intros Hnd Hrun. unfold eval_node in Hrun. destruct nets as [nets|]; [|done].
  apply bind_Ok in Hrun as ([c1 l1] & Hloop & [= <- _]).
  cut ((fun st : list (list string * PropagatedInfo) * list (string * NetAttrs string) =>
          NoDup (dict_keys st.1)) (c1, l1)); [done|].
  revert Hloop. apply for_each_inv; [|done].
  intros [c l] [net a] [c' l'] _ Hc Hbody. simpl in *.
  apply bind_Ok in Hbody as ([c2 a2] & Hentry & [= <- _]).
  by eapply eval_entry_cache_NoDup.
Qed.

Lemma eval_facts_cache_NoDup (g : NetworkGraph) (propagation evaluated : MGraph string)
    (cache : list (list string * PropagatedInfo)) :
  eval_facts g propagation = Ok (cache, evaluated) → NoDup (dict_keys cache).
Proof.
  unfold eval_facts. intros Hrun.
  apply bind_Ok in Hrun as ([c1 nodes'] & Hloop & [= <- _]).
  cut ((fun st : list (list string * PropagatedInfo) *
                 list (string * option (list (string * NetAttrs string))) =>
          NoDup (dict_keys st.1)) (c1, nodes')); [done|].
  revert Hloop. apply for_each_inv; [|apply NoDup_nil_2].
  intros [c l] [node nets] [c' l'] _ Hc Hbody. simpl in *.
  apply bind_Ok in Hbody as ([c2 n2] & Hnode & [= <- _]).
  by eapply eval_node_cache_NoDup.
Qed.

Lemma partial_eval_as_paths (g : NetworkGraph) (propagation chained : MGraph string)
    (as_paths : list (list (option Z))) :
  partial_eval_propagated_info g propagation = Ok (chained, as_paths) →
  (∀ node nets net attrs f,
     (node, Some nets) ∈ gr_node chained → (net, attrs) ∈ nets → f ∈ facts_of attrs →
     as_path f ∈ as_paths) ∧
  (∀ asp, asp ∈ as_paths →
     ∃ net e f, e ∈ entries_of propagation ∧ path f ∈ entry_paths e.2 ∧
                eval_path g net (path f) = Ok f ∧ as_path f = asp).
Proof.
  unfold partial_eval_propagated_info.
  intros ([cache ev] & Hev & (ch & Hch & [= <- <-])%bind_Ok)%bind_Ok.
  destruct (eval_facts_spec _ _ _ _ Hev) as [[Hcache Hlisted] Hok].
  split.
  - intros node nets net attrs f Hnode Hnet Hf.
    destruct (chain_facts_elem_of _ _ _ _ _ _ _ Hch Hnode Hnet)
      as (nets0 & a0 & Hn0 & Ha0 & Hentry).
    apply chain_entry_spec in Hentry as (a' & [= <-] & _ & Hfacts).
    destruct (elem_of_Forall2_r _ _ _ _ Hfacts Hf) as (f0 & Hf0 & Hchain).
    apply chain_fact_spec in Hchain as [-> _]. simpl.
    destruct (Hok _ _ _ _ _ Hn0 Ha0 Hf0) as (net0 & Hfirst & Hbuilt).
    destruct (first_net_listed _ _ _ Hfirst) as (e & He & Hp).
    destruct (Hlisted e _ He Hp) as [i Hi].
    destruct (Hcache _ _ Hi) as (Hpath & net1 & Hfirst1 & Hbuilt1).
    rewrite Hpath in Hfirst1, Hbuilt1.
    assert (i = f0) as -> by congruence.
    apply elem_of_set_of_list, list_elem_of_fmap.
    exists (path f0, f0). split; [done|]. by apply dict_get_Some_elem.
  - intros asp ([p i] & -> & Hin)%elem_of_set_of_list%list_elem_of_fmap. simpl.
    assert (Hget : dict_get cache p = Some i).
    { apply dict_get_elem_NoDup; [by eapply eval_facts_cache_NoDup|done]. }
    destruct (Hcache _ _ Hget) as (Hpath & net1 & Hfirst1 & Hbuilt1).
    destruct (first_net_listed _ _ _ Hfirst1) as (e & He & Hp).
    exists net1, e, i. done.
Qed.



(** ** netcomplete/netcomplete_ebgp_eval.py: autoGenerateBGPpolicy *)

Lemma reqs_groups_app (rs1 rs2 : list Req) :
  reqs_groups (rs1 ++ rs2) = reqs_groups rs1 ++ reqs_groups rs2.
Proof. unfold reqs_groups. by rewrite fmap_app, concat_app. Qed.

Lemma policy_step_spec (policies policies' : list Req) (intent : list (list string)) :
  (p0 ← py_index intent 0;
   des ← py_last p0;
   p1 ← py_index intent 1;
   Ok (policies ++ [PathOrderReq des [PathReq des p0; PathReq des p1]])) = Ok policies' ↔
  ∃ p0 p1 des, intent !! 0 = Some p0 ∧ intent !! 1 = Some p1 ∧ list.last p0 = Some des ∧
    policies' = policies ++ [PathOrderReq des [PathReq des p0; PathReq des p1]].
Proof.
  unfold py_index, py_last. split.
  - intros Hrun. destruct (intent !! 0) as [p0|]; [|done]. simpl in Hrun.
    destruct (list.last p0) as [des|] eqn:Hlast; [|done]. simpl in Hrun.
    destruct (intent !! 1) as [p1|]; [|done]. injection Hrun as <-.
    by exists p0, p1, des.
  - intros (p0 & p1 & des & -> & -> & Hlast & ->). simpl. by rewrite Hlast.
Qed.

Lemma autoGenerateBGPpolicy_spec (intents : list (list (list string))) :
  ((∃ policies, autoGenerateBGPpolicy intents = Ok policies) ↔
   Forall (fun intent => 2 ≤ length intent ∧ head intent ≠ Some []) intents) ∧
  ∀ policies, autoGenerateBGPpolicy intents = Ok policies →
    Forall2 (fun intent req =>
               ∃ p0 p1 des, intent !! 0 = Some p0 ∧ intent !! 1 = Some p1 ∧
                            list.last p0 = Some des ∧
                            req = PathOrderReq des [PathReq des p0; PathReq des p1])
            intents policies ∧
    reqs_groups policies = (fun p => [p]) <$> concat (take 2 <$> intents).
Proof.
  unfold autoGenerateBGPpolicy.
  cut (∀ acc,
         let run := for_each intents
           (fun policies intent =>
              p0 ← py_index intent 0;
              des ← py_last p0;
              p1 ← py_index intent 1;
              Ok (policies ++ [PathOrderReq des [PathReq des p0; PathReq des p1]])) acc in
         ((∃ policies, run = Ok policies) ↔
          Forall (fun intent => 2 ≤ length intent ∧ head intent ≠ Some []) intents) ∧
         ∀ policies, run = Ok policies →
           ∃ new, policies = acc ++ new ∧
             Forall2 (fun intent req =>
                        ∃ p0 p1 des, intent !! 0 = Some p0 ∧ intent !! 1 = Some p1 ∧
                                     list.last p0 = Some des ∧
                                     req = PathOrderReq des [PathReq des p0; PathReq des p1])
                     intents new ∧
             reqs_groups new = (fun p => [p]) <$> concat (take 2 <$> intents)).
  { intros H. destruct (H []) as [H1 H2]. split; [exact H1|].
    intros policies Hrun. by destruct (H2 _ Hrun) as (new & -> & ? & ?). }
  induction intents as [|intent intents IH]; intros acc; simpl.
  - split; [split; [by constructor|by eauto]|].
    intros policies [= <-]. exists []. rewrite app_nil_r. split_and!; [done|constructor|done].
  - split.
    + split.
      * intros [policies Hrun]. apply bind_Ok in Hrun as (acc1 & Hstep & Hrun).
        apply policy_step_spec in Hstep as (p0 & p1 & des & H0 & H1 & Hlast & ->).
        constructor; [|apply (IH (acc ++ [PathOrderReq des [PathReq des p0; PathReq des p1]])); eauto].
        split; [apply lookup_lt_Some in H1; lia|].
        destruct intent as [|q intent]; [done|]. injection H0 as ->. simpl.
        intros [= ->]. done.
      * intros [[Hlen Hhead] Hrest]%Forall_cons.
        destruct intent as [|p0 [|p1 intent]]; [simpl in Hlen; lia..|].
        destruct (list.last p0) as [des|] eqn:Hlast.
        2:{ apply last_None in Hlast. by subst. }
        assert (Hstep : (p0' ← py_index (p0 :: p1 :: intent) 0;
                         des ← py_last p0';
                         p1' ← py_index (p0 :: p1 :: intent) 1;
                         Ok (acc ++ [PathOrderReq des [PathReq des p0'; PathReq des p1']]))
                        = Ok (acc ++ [PathOrderReq des [PathReq des p0; PathReq des p1]])).
        { apply policy_step_spec. by exists p0, p1, des. }
        rewrite Hstep. simpl. by apply IH.
    + intros policies Hrun. apply bind_Ok in Hrun as (acc1 & Hstep & Hrun).
      apply policy_step_spec in Hstep as (p0 & p1 & des & H0 & H1 & Hlast & ->).
      destruct (IH (acc ++ [PathOrderReq des [PathReq des p0; PathReq des p1]]))
        as [_ Hspec].
      destruct (Hspec _ Hrun) as (new & -> & Hall & Hgroups).
      exists (PathOrderReq des [PathReq des p0; PathReq des p1] :: new).
      split_and!.
      * by rewrite <- app_assoc.
      * constructor; [by exists p0, p1, des|done].
      * change (reqs_groups (PathOrderReq des [PathReq des p0; PathReq des p1] :: new))
          with ([[p0]; [p1]] ++ reqs_groups new).
        rewrite Hgroups, fmap_app. f_equal.
        destruct intent as [|q0 [|q1 intent]]; [done..|].
        injection H0 as ->. injection H1 as ->. done.
Qed.

(** X27: [autoGenerateBGPpolicy] returns exactly when every intent has two
    paths or more and its first path is not empty.  Each intent then becomes
    one order requirement that ranks its first path before its second; the
    prefix of the requirement is the last router of the first path, and the
    further paths of the intent are left out. *)
Theorem autoGenerateBGPpolicy_orders_two_paths (intents : list (list (list string))) :
  ((∃ policies, autoGenerateBGPpolicy intents = Ok policies) ↔
   Forall (fun intent => 2 ≤ length intent ∧ head intent ≠ Some []) intents) ∧
  ∀ policies, autoGenerateBGPpolicy intents = Ok policies →
    Forall2 (fun intent req =>
               ∃ p0 p1 des, intent !! 0 = Some p0 ∧ intent !! 1 = Some p1 ∧
                            list.last p0 = Some des ∧
                            req = PathOrderReq des [PathReq des p0; PathReq des p1])
            intents policies ∧
    reqs_groups policies = (fun p => [p]) <$> concat (take 2 <$> intents).
Proof. apply autoGenerateBGPpolicy_spec. Qed.

Lemma autoGenerateBGPpolicy_orders_two_paths_witness :
  autoGenerateBGPpolicy [[["R2"; "R1"]; ["R2"; "R3"; "R1"]; ["R3"; "R1"]]]
    = Ok [PathOrderReq "R1" [PathReq "R1" ["R2"; "R1"]; PathReq "R1" ["R2"; "R3"; "R1"]]] ∧
  autoGenerateBGPpolicy [[["R2"; "R1"]]] = Raise IndexError ∧
  reqs_groups [PathOrderReq "R1" [PathReq "R1" ["R2"; "R1"]; PathReq "R1" ["R2"; "R3"; "R1"]]]
    = [[["R2"; "R1"]]; [["R2"; "R3"; "R1"]]].
Proof.
  split; [reflexivity|]. split; [reflexivity|].
  destruct (autoGenerateBGPpolicy_orders_two_paths
              [[["R2"; "R1"]; ["R2"; "R3"; "R1"]; ["R3"; "R1"]]]) as [_ H].
  destruct (H _ eq_refl) as [_ Hg]. exact Hg.
Defined.
